(* ===== verification/_CoqProject ===== *)
-Q . S2P
Prelude.v
JS.v
Dates.v
Messages.v
Keys.v
Interfaces.v
ClientTypes.v
Validation.v
Codec.v
Wire.v
Topology.v
Frame.v
Identity.v
CodeGen.v
Entities.v
Tokens.v
Fixtures.v
Invite.v
Manage.v
ManageUpdate.v
ManageDelete.v
Schema.v
Access.v
AccessProps.v
WorkspaceService.v
GwMembership.v
Coherence.v
Presence.v
PresenceProps.v
Socket.v
SocketProps.v
Proxy.v
Public.v
ProxyProps.v
Notification.v
UserSvc.v
EnvState.v
EnvSync.v
EnvSyncProps.v
EnvDocs.v
EnvFS.v
EnvFSProps.v
EnvPaths.v
EnvSSH.v
EnvSSHProps.v
EnvWs.v
EnvWsProps.v
EnvRoom.v
Collab.v
Infra.v
EnvInv.v
Channels.v
Framed.v
Announce.v
System.v
SystemTimed.v
SystemAuth.v
SystemWire.v
Race.v
