(* ===== verification/Prelude.v ===== *)
(** * hide-server: a verification library

    hide-server is the back end of a collaborative development environment:
    users register, create workspaces, invite each other, and connect through
    a gateway to containers that hold their files.  It is a set of NestJS
    services that share a Redis cache and talk over Redis channels, RabbitMQ,
    NATS and HTTP.  This library models the services written in TypeScript,
    operation by operation, and proves what makes them correct.

    ** How the code is modelled

    A handler (an [async] method) is a function in the monad [M] of
    [Prelude.v]: it takes the state of the world to a result or an exception,
    and a state.  The world ([Interfaces.world]) is the shared cache, the list
    of everything sent so far (messages, HTTP requests, locks, mail), a
    counter of random values, the clock in milliseconds, and the state of the
    service itself (its tables, its sockets, its documents).  Effects done
    before an exception stay done, except inside [transact], which restores
    the tables.  Handlers run to completion one after the other; where overlapping
    runs matter the interleaving is written out: [AccessProps.consume_interleaved],
    and [Race], where handlers give way at each [await].  [Promise.all] and
    [Promise.allSettled] run their elements in array order.

    Code that is not in the repository is a class of operations with a class
    of laws: key-value stores ([KV]: Redis, Firestore), relational tables
    ([Repo]: TypeORM), JSON web tokens ([JWT]), the cuckoo filter, the search
    engine, minimatch, Redlock (whether a lock is had, and whether it is still
    held when it is released), the network (whether an HTTP request is
    answered), ssh2 (whether a private key can be read), the engine's reading
    of dates that [toISOString] does not write, Kubernetes, other services'
    replies.  Theorems are proved from the laws; instances over [gmap] and
    lists show that the laws can hold and make the examples run.  A question
    that a service asks another and waits for (a membership check, a health
    check, the hash of a document) is such a parameter and not one of the
    messages sent; in [System] it is answered from the other service's state.

    JavaScript data: objects with string keys are association lists in
    insertion order ([JS.obj]), [undefined] is [None], numbers are exact
    integers with [None] for [NaN], strings are sequences of 8-bit characters.
    There is fuel in two places: the number of random blocks
    [CodeGen.accessCode] may draw ([accessCode_terminates] gives how much is
    enough), and the nesting of the JSON parser, which gets two units for each
    character and needs no more on any printed value ([Codec.json_roundtrip]).

    ** The files

    - [Prelude]: results, the handler monad, its program logic and tactics.
    - [JS], [Dates], [Messages], [Keys]: JavaScript objects, strings and [parseInt];
      [toISOString]; the data and messages of libs/common; cache keys and why
      they do not clash.
    - [Interfaces]: the classes of laws, the world and its primitives.
    - [Validation]: the regular expressions of the services and a matcher that
      decides them.  [CodeGen]: workspace/src/utils/index.ts.
    - [Codec]: UTF-8, base64 and JSON as Node.js has them.  [Wire]: the text of every
      message between services, and what its receiver reads.  [Topology]: the
      main.ts, shared.module.ts and patterns of the services, the channels of an
      instance, and who receives a message.  [Identity]: the header
      that names the user of a request, and the filter that answers exceptions.
    - [Entities], [Tokens], [Fixtures]: the entities of workspace/src/common/model
      and the invariant [db_ok] of the database; token claims; example data.
    - [Invite]: invite.service.ts.  [Manage], [ManageUpdate], [ManageDelete]:
      manage.service.ts but for access codes (model; creation and update;
      deletion).  [Access], [AccessProps]: access codes (model; theorems).
      [WorkspaceService]: both controllers and the reachable states.
    - [GwMembership]: gateway membership.service.ts.  [Coherence]: gateway and
      workspace service together.  [Presence], [PresenceProps]: presence.service.ts.
      [Socket], [SocketProps]: socket.gateway.ts and socket.controller.ts.
    - [Proxy]: the route table and the proxy.  [Public]: public endpoints and guards.
      [ProxyProps]: a request from the client's token to a service and back.
    - [Notification]: the notification service.  [UserSvc]: the user service.
    - [EnvState]: what an instance of the environment service keeps, and what it
      assumes of Yjs and of the agent in a container.  [EnvSync], [EnvSyncProps],
      [EnvDocs]: sync.service.ts and shareddoc.ts (model; registry invariant;
      theorems).  [EnvFS], [EnvFSProps]: fs.service.ts.  [EnvSSH], [EnvSSHProps]:
      sshproxy.service.ts.  [EnvWs], [EnvWsProps]: workspace.service.ts and
      core.controller.ts.  [Channels]: what an
      instance does with a message by its channel.
    - [EnvRoom]: a workspace as an abstract room, which opening, closing and
      watching refine.  [Collab]: environment service and gateway together.
    - [Schema]: the migrations and the decorators of the entities.  [EnvPaths]:
      the path helpers of fs.service.ts.  [Infra]: [debounce], logger,
      libs/eureka, libs/rmq, and the addresses of libs/redis and libs/firebase.
    - [System]: the workspace, notification and user services, the gateways with
      their public endpoints and the environment instances over one cache, with
      the messages in flight.  It rests on [ClientTypes] (the declared types of
      messages to clients), [Frame] (properties of the cache and the messages
      that most handlers cannot break, as a class), [Framed] (every handler
      preserves them) and [EnvInv] (every event keeps an instance's registry).
      [SystemTimed]: session timers in that system.  [Announce]: the removals the
      workspace service announces.  [SystemAuth]: who reaches an environment.
      [SystemWire]: the messages as the brokers carry them.  [Race]: the gateway's
      membership cache with handlers that interleave.

    ** What the theorems show

    - The workspace database keeps its integrity under every sequence of
      requests ([service_integrity]); creation is atomic; updates and deletions
      do exactly what they announce and only for the users entitled to them;
      closing an account removes every trace of it.
    - Invitations and access codes round-trip, codes are consumed once, and
      where the code falls short (races, replays, token confusion, a removal
      that locks out its author) the theorem says precisely what happens.
    - The gateway's cached memberships follow the tables ([deletion_revokes],
      [members_update_revokes]), so only members' messages are forwarded
      ([env_message_routing]); the workspace service announces every removal
      of a request that does what it answers for ([removals_announced]), but not
      that of an owner whose workspace could not be deleted when the account was
      closed ([closing_unannounced]); however the gateway's
      handlers interleave nobody passes who never was a member
      ([race_members_only]), though an interleaving can leave the membership of a
      removed user in the cache ([race_stale]); every session keeps a timer and expires when its
      client falls silent, unless the provisioner fails at that moment
      ([session_expires] says what is left then); a connection makes its session reachable.
    - Through the proxy a service's handler runs for the user of the client's
      token and for nobody else, and its answer, or a 500 when there is none,
      reaches the client ([proxy_transparent]); internal routes are not exposed, and
      of the routes sent as messages it is known which are answered
      ([message_routes]); guards admit only
      authenticated, registered users; usernames are checked exactly.
    - Notifications are stored, pushed and removed; profiles stay filed under
      their owner and hide what is confidential from others.
    - In the environment service, opening, closing and watching a workspace refine
      an abstract room ([env_refines_room]): a user is in it through at most one
      session, failures never leave a user half inside, and the last one out has
      the container disposed of, after the activity time-out
      ([env_close_disposes]); locks are given back on every path
      ([env_lock_released]); every message the gateway forwards takes the channel
      on which the instance meant acts on it ([routing_agrees]).
    - Documents: the registry stays consistent and every handler returns
      ([sync_registry_ok]); an edit reaches every attached user's socket
      ([edit_reaches_everyone]) and, five seconds later, the file
      ([edit_reaches_file]); conflicts with the file are detected
      ([conflict_detected]) and settled, or declared settled when the file cannot
      be had ([conflict_resolution]).
    - File events reach their watchers in order unless an instance that is asked
      for a hash is silent ([sync_delivers]), bursts and only bursts are cut off,
      watchers are counted exactly; the state a terminal leaves behind is exactly
      known ([terminal_lifecycle]).
    - The system as a whole, under any order and repetition of deliveries: what
      reaches a socket has its declared type or is an answer under the client's
      own correlation id ([system_typed]), the invariants of
      the services hold together ([system_integrity]), every recorded session has
      a pending timer ([system_sessions_timed]), a request forwarded to an
      environment is that of an authenticated user who was a member of the
      workspace ([system_authorised]), a proxied request to open or close is
      refused to anyone else ([system_open_guarded]), and once the announced removals have been
      received only present members' requests are forwarded
      ([system_revocation]); every message put on a broker has one receiver, which
      reads from its text what was sent, but for the orders to close a replaced
      socket, which are dropped ([system_messages]).  There the services answer each other's questions
      from their own state, not a parameter; and the listeners' dispatch by the
      name of a channel agrees with the deliveries ([channel_routing]).
    - The migrations build the schema the entities declare, and can be undone;
      the constraints of that schema hold in every well-formed database.

    ** What is not modelled

    The services in other languages (auth, lease-controller, provisioner), the
    wiring of modules and the addresses of connections, request throttling, log lines,
    what happens under a lock after it has expired (that its release then fails
    is modelled), time zones (days are those of UTC, in which the services
    run), the [timestamp] of message metadata, and texts of mails.
    Timers that outlive the state they were set for (a workspace's event state
    that is replaced), the clean-up timers inside Yjs awareness, the closing of
    RabbitMQ channels and the options of the database connection are left out.
    In the composed system a handler is one step, so that what happens between
    two [await]s of one handler is outside it ([Race] shows what that means for
    memberships); a failing update that removes members unannounced
    ([updateWorkspace_self_removal]) and an account closed over a failed deletion
    ([closing_unannounced]) are excluded from [system_revocation] by its
    hypothesis on the run. *)
From stdpp Require Export base strings list gmap.
From Stdlib Require Export ZArith Ascii.
From Stdlib Require Import Lia.

#[global] Open Scope Z_scope.

(** ** Results and exceptions

    A handler of the source is an [async] method: it either returns a value
    or throws.  What the code throws is one of a few kinds of value. *)

(** What a handler can throw: a Nest [HttpException] (its status and
    message), an [RpcError]/[RpcException], a JavaScript [TypeError] (a
    property read on [undefined]), another [Error], or the model's own
    "the loop did not finish within the fuel". *)
Inductive exn :=
| HttpException (status : Z) (message : string)
| RpcException (status : Z) (message : string)
| TypeError
| PlainError (message : string)
| OutOfFuel.

Inductive res (A : Type) :=
| Ok (a : A)
| Throw (e : exn).
Arguments Ok {A} a.
Arguments Throw {A} e.

#[global] Instance exn_eq_dec : EqDecision exn.
Proof. solve_decision. Defined.

Definition is_ok {A} (r : res A) : bool :=
  match r with Ok _ => true | Throw _ => false end.

(** ** The handler monad

    State passing with exceptions; effects done before a throw stay done. *)
Definition M (S A : Type) : Type := S → res A * S.

Definition ret {S A} (a : A) : M S A := λ s, (Ok a, s).
Definition throw {S A} (e : exn) : M S A := λ s, (Throw e, s).
Definition bind {S A B} (m : M S A) (k : A → M S B) : M S B :=
  λ s, match m s with
       | (Ok a, s') => k a s'
       | (Throw e, s') => (Throw e, s')
       end.
Definition gets {S A} (f : S → A) : M S A := λ s, (Ok (f s), s).
Definition modify {S} (f : S → S) : M S unit := λ s, (Ok tt, f s).
(** An expression that throws or not. *)
Definition of_res {S A} (r : res A) : M S A := λ s, (r, s).

(** [try { m } catch (e) { h e }] *)
Definition try_catch {S A} (m : M S A) (h : exn → M S A) : M S A :=
  λ s, match m s with
       | (Ok a, s') => (Ok a, s')
       | (Throw e, s') => h e s'
       end.

(** [try { m } finally { f }]: [f] runs on both paths. *)
Definition try_finally {S A} (m : M S A) (f : M S unit) : M S A :=
  λ s, match m s with
       | (Ok a, s') =>
           match f s' with
           | (Ok _, s'') => (Ok a, s'')
           | (Throw e, s'') => (Throw e, s'')
           end
       | (Throw e, s') =>
           match f s' with
           | (Ok _, s'') => (Throw e, s'')
           | (Throw e', s'') => (Throw e', s'')
           end
       end.

(** [for (const x of l) await f(x)] *)
Fixpoint forM {S A} (f : A → M S unit) (l : list A) : M S unit :=
  match l with
  | [] => ret tt
  | x :: l' => bind (f x) (λ _, forM f l')
  end.

(** [await Promise.all(l.map(f))] with [f] run in array order. *)
Fixpoint mapM {S A B} (f : A → M S B) (l : list A) : M S (list B) :=
  match l with
  | [] => ret []
  | x :: l' => bind (f x) (λ y, bind (mapM f l') (λ ys, ret (y :: ys)))
  end.

(** [await Promise.allSettled(l.map(f))]: every element runs; failures are
    kept as values. *)
Definition settle {S A} (m : M S A) : M S (res A) :=
  λ s, let '(r, s') := m s in (Ok r, s').

Declare Scope mon_scope.
Delimit Scope mon_scope with mon.
Notation "x <- m ;; k" := (bind m (λ x, k))
  (at level 100, m at next level, right associativity) : mon_scope.
Notation "m ;;; k" := (bind m (λ _, k))
  (at level 100, right associativity) : mon_scope.
Notation "'when' b 'do' m" := (if b then m else ret tt)
  (at level 90, b at level 50, m at level 90) : mon_scope.

(** ** Program logic

    [wp m Q s]: running [m] from [s] ends in a result and state that
    satisfy [Q]. *)
Definition wp {S A} (m : M S A) (Q : res A → S → Prop) (s : S) : Prop :=
  Q (m s).1 (m s).2.

(** [I] survives [m], whatever its outcome. *)
Definition preserves {S A} (I : S → Prop) (m : M S A) : Prop :=
  ∀ s, I s → I (m s).2.

Create HintDb pres discriminated.

Section monad_lemmas.
Context {S : Type}.

Lemma wp_bind {A B} (m : M S A) (k : A → M S B) Q s :
  wp m (λ r s', match r with
                | Ok a => wp (k a) Q s'
                | Throw e => Q (Throw e) s'
                end) s →
  wp (bind m k) Q s.
Proof. unfold wp, bind. by destruct (m s) as [[a|e] s']. Qed.

Lemma wp_mono {A} (m : M S A) (Q Q' : res A → S → Prop) s :
  (∀ r s', Q r s' → Q' r s') → wp m Q s → wp m Q' s.
Proof. unfold wp. auto. Qed.

Lemma bind_ok {A B} (m : M S A) (k : A → M S B) s a s' :
  m s = (Ok a, s') → bind m k s = k a s'.
Proof. unfold bind. by intros ->. Qed.

Lemma bind_throw {A B} (m : M S A) (k : A → M S B) s e s' :
  m s = (Throw e, s') → bind m k s = (Throw e, s').
Proof. unfold bind. by intros ->. Qed.

Lemma bind_assoc {A B D} (m : M S A) (k : A → M S B) (h : B → M S D) s :
  bind (bind m k) h s = bind m (λ a, bind (k a) h) s.
Proof. unfold bind. by destruct (m s) as [[]]. Qed.

Lemma bind_ok_inv {A B} (m : M S A) (k : A → M S B) s b s'' :
  bind m k s = (Ok b, s'') → ∃ a s', m s = (Ok a, s') ∧ k a s' = (Ok b, s'').
Proof. unfold bind. destruct (m s) as [[a|e] s'] eqn:?; [eauto|done]. Qed.

(** An operation that preserves every property of the state changes nothing. *)
Lemma preserves_all_eq {A} (m : M S A) s :
  (∀ P, preserves P m) → m s = ((m s).1, s).
Proof. intros Hm. specialize (Hm (λ s', s' = s) s eq_refl). by destruct (m s); simpl in *; subst. Qed.

Lemma forM_total {A} (f : A → M S unit) l s :
  (∀ x s, ∃ s', f x s = (Ok tt, s')) → ∃ s', forM f l s = (Ok tt, s').
Proof.
  intros Hf. revert s. induction l as [|x l IH]; intros s; simpl; [by eexists|].
  destruct (Hf x s) as [s1 H1]. rewrite (bind_ok _ _ _ _ _ H1). apply IH.
Qed.

Lemma preserves_ret {A} I (a : A) : preserves I (ret (S:=S) a).
Proof. by intros s. Qed.

Lemma preserves_throw {A} I e : preserves I (throw (S:=S) (A:=A) e).
Proof. by intros s. Qed.

Lemma preserves_gets {A} I (f : S → A) : preserves I (gets f).
Proof. by intros s. Qed.

Lemma preserves_modify (I : S → Prop) f :
  (∀ s, I s → I (f s)) → preserves I (modify f).
Proof. intros H s. apply H. Qed.

Lemma preserves_bind {A B} I (m : M S A) (k : A → M S B) :
  preserves I m → (∀ a, preserves I (k a)) → preserves I (bind m k).
Proof.
  intros Hm Hk s Hs. unfold bind. specialize (Hm s Hs).
  destruct (m s) as [[a|e] s']; simpl in *; [by apply Hk|done].
Qed.

Lemma preserves_try_catch {A} I (m : M S A) h :
  preserves I m → (∀ e, preserves I (h e)) → preserves I (try_catch m h).
Proof.
  intros Hm Hh s Hs. unfold try_catch. specialize (Hm s Hs).
  destruct (m s) as [[a|e] s']; simpl in *; [done|by apply Hh].
Qed.

Lemma preserves_try_finally {A} I (m : M S A) f :
  preserves I m → preserves I f → preserves I (try_finally m f).
Proof.
  intros Hm Hf s Hs. unfold try_finally. specialize (Hm s Hs).
  destruct (m s) as [[a|e] s']; simpl in *; specialize (Hf s' Hm);
    by destruct (f s') as [[]?].
Qed.

Lemma preserves_of_res {A} I (r : res A) : preserves I (of_res (S:=S) r).
Proof. by intros s. Qed.
Lemma preserves_settle {A} I (m : M S A) :
  preserves I m → preserves I (settle m).
Proof. intros Hm s Hs. unfold settle. specialize (Hm s Hs). by destruct (m s). Qed.

Lemma preserves_forM {A} I (f : A → M S unit) l :
  (∀ x, x ∈ l → preserves I (f x)) → preserves I (forM f l).
Proof.
  induction l as [|x l IH]; intros Hf; simpl; [apply preserves_ret|].
  apply preserves_bind; [apply Hf; by left|].
  intros _. apply IH. intros y Hy. apply Hf. by right.
Qed.

Lemma preserves_mapM {A B} I (f : A → M S B) l :
  (∀ x, x ∈ l → preserves I (f x)) → preserves I (mapM f l).
Proof.
  induction l as [|x l IH]; intros Hf; simpl; [apply preserves_ret|].
  apply preserves_bind; [apply Hf; by left|intros y].
  apply preserves_bind; [|intros; apply preserves_ret].
  apply IH. intros z Hz. apply Hf. by right.
Qed.

Lemma preserves_and {A} (I J : S → Prop) (m : M S A) :
  preserves I m → preserves J m → preserves (λ s, I s ∧ J s) m.
Proof. intros HI HJ s [? ?]. split; auto. Qed.

Lemma preserves_run {A} (I : S → Prop) (m : M S A) s r s' :
  preserves I m → m s = (r, s') → I s → I s'.
Proof. intros Hm Hr Hs. specialize (Hm s Hs). by rewrite Hr in Hm. Qed.

Lemma preserves_if {A} I (b : bool) (m1 m2 : M S A) :
  preserves I m1 → preserves I m2 → preserves I (if b then m1 else m2).
Proof. by destruct b. Qed.
End monad_lemmas.

#[export] Hint Resolve preserves_ret preserves_throw preserves_gets
  preserves_if preserves_settle : pres.

(** Decomposes a [preserves] goal along the program text. *)
Ltac pres_step :=
  match goal with
  | |- preserves _ (bind _ _) => apply preserves_bind; [|intros ?]
  | |- preserves _ (try_catch _ _) => apply preserves_try_catch; [|intros ?]
  | |- preserves _ (try_finally _ _) => apply preserves_try_finally
  | |- preserves _ (settle _) => apply preserves_settle
  | |- preserves _ (of_res _) => apply preserves_of_res
  | |- preserves _ (forM _ _) => apply preserves_forM; intros ? ?
  | |- preserves _ (mapM _ _) => apply preserves_mapM; intros ? ?
  | |- preserves _ (if ?b then _ else _) => destruct b eqn:?
  | |- preserves _ (match ?x with _ => _ end) => destruct x eqn:?
  | |- preserves _ _ => solve [eauto with pres]
  end.
Ltac pres := repeat pres_step.

(** Runs the first statement of a sequence, by the equation [tac] finds. *)
Tactic Notation "mstep" "by" tactic3(tac) := erewrite bind_ok by tac; cbv beta iota.
Tactic Notation "mfail" "by" tactic3(tac) := erewrite bind_throw by tac; cbv beta iota.

(** Inverts a run that returned. *)
Ltac minv H :=
  let a := fresh "a" in let s := fresh "s" in let Ha := fresh "Hm" in
  apply bind_ok_inv in H as (a & s & Ha & H);
  try match type of a with unit => destruct a end.

(** Runs a monadic program symbolically: unfolds the monad in goal and
    context. *)
Ltac mrun := unfold wp, bind, ret, throw, gets, modify, try_catch, try_finally, settle in *; simpl in *.
