(* ===== verification/JS.v ===== *)
(** The parts of JavaScript the services use: objects as ordered
    association lists, arrays ([includes], [indexOf], [splice]), [Set]s built
    from arrays, string splitting and [parseInt].  [undefined] is [None]. *)
From S2P Require Import Prelude.
From Stdlib Require Import Lia.

(** ** Objects

    A JavaScript object used as a dictionary keeps its (non-numeric) keys in
    insertion order; assigning an existing key keeps its position. *)
Definition obj (A : Type) := list (string * A).

Section objects.
Context {A : Type}.
Implicit Types (o : list (string * A)) (k : string) (a : A).

Fixpoint oget k o : option A :=
  match o with
  | [] => None
  | (k', a) :: o' => if decide (k' = k) then Some a else oget k o'
  end.

Fixpoint oset k a o : list (string * A) :=
  match o with
  | [] => [(k, a)]
  | (k', a') :: o' => if decide (k' = k) then (k', a) :: o' else (k', a') :: oset k a o'
  end.

Fixpoint odel k o : list (string * A) :=
  match o with
  | [] => []
  | (k', a') :: o' => if decide (k' = k) then odel k o' else (k', a') :: odel k o'
  end.

Definition okeys o : list string := o.*1.
Definition ovals o : list A := o.*2.

(** An object never holds a key twice. *)
Definition owf o : Prop := NoDup (okeys o).

Lemma oget_oset_eq k a o : oget k (oset k a o) = Some a.
Proof.
  induction o as [|[k' a'] o IH]; simpl; [by rewrite decide_True|].
  destruct (decide (k' = k)); simpl; [by rewrite decide_True|by rewrite decide_False].
Qed.

Lemma oget_oset_ne k k' a o : k ≠ k' → oget k' (oset k a o) = oget k' o.
Proof.
  intros Hne. induction o as [|[k0 a0] o IH]; simpl; [by rewrite decide_False|].
  destruct (decide (k0 = k)) as [->|]; simpl; [by rewrite !decide_False|].
  by destruct (decide (k0 = k')).
Qed.

Lemma oget_odel_eq k o : oget k (odel k o) = None.
Proof.
  induction o as [|[k' a'] o IH]; simpl; [done|].
  destruct (decide (k' = k)); simpl; [done|by rewrite decide_False].
Qed.

Lemma oget_odel_ne k k' o : k ≠ k' → oget k' (odel k o) = oget k' o.
Proof.
  intros Hne. induction o as [|[k0 a0] o IH]; simpl; [done|].
  destruct (decide (k0 = k)) as [->|]; simpl; [by rewrite decide_False|].
  by destruct (decide (k0 = k')).
Qed.

Lemma oset_oset k a b o : oset k a (oset k b o) = oset k a o.
Proof.
  induction o as [|[k' a'] o IH]; simpl; [by rewrite decide_True|].
  case_decide as Hk; simpl; [by rewrite decide_True|].
  rewrite decide_False by done. by rewrite IH.
Qed.

Lemma odel_oset k a o : odel k (oset k a o) = odel k o.
Proof.
  induction o as [|[k' a'] o IH]; simpl; [by rewrite decide_True|].
  case_decide as Hk; simpl.
  - by rewrite decide_True.
  - rewrite decide_False by done. by rewrite IH.
Qed.

Lemma okeys_oset k a o :
  okeys (oset k a o) = if decide (k ∈ okeys o) then okeys o else okeys o ++ [k].
Proof.
  induction o as [|[k' a'] o IH].
  { by case_decide as H; [apply elem_of_nil in H|]. }
  unfold okeys in *. cbn [oset fmap list_fmap fst].
  destruct (decide (k' = k)) as [->|Hne]; cbn [fmap list_fmap fst].
  { rewrite decide_True; [done|]. by left. }
  rewrite IH. rewrite (decide_ext (k ∈ k' :: o.*1) (k ∈ o.*1)) by set_solver.
  by case_decide.
Qed.

Lemma okeys_odel k o : okeys (odel k o) = List.filter (λ k', bool_decide (k' ≠ k)) (okeys o).
Proof.
  induction o as [|[k' a'] o IH]; simpl; [done|].
  destruct (decide (k' = k)); simpl.
  - by rewrite IH, bool_decide_false by naive_solver.
  - unfold okeys in *. simpl. by rewrite IH, bool_decide_true.
Qed.

Lemma oget_elem k a o : oget k o = Some a → (k, a) ∈ o.
Proof.
  induction o as [|[k' a'] o IH]; simpl; [done|].
  destruct (decide (k' = k)); intros; simplify_eq; [by left|right; auto].
Qed.

Lemma oget_keys k o : is_Some (oget k o) ↔ k ∈ okeys o.
Proof.
  induction o as [|[k' a'] o IH]; simpl.
  { split; [by intros []|by intros ?%elem_of_nil]. }
  unfold okeys in *; simpl. rewrite elem_of_cons.
  destruct (decide (k' = k)) as [->|]; [naive_solver|]. rewrite IH. naive_solver.
Qed.

Lemma elem_oget k a o : owf o → (k, a) ∈ o → oget k o = Some a.
Proof.
  unfold owf, okeys. induction o as [|[k' a'] o IH]; simpl; [by intros _ ?%elem_of_nil|].
  intros [Hni Hnd]%NoDup_cons [Heq|Hin]%elem_of_cons; simplify_eq.
  - by rewrite decide_True.
  - rewrite decide_False; [by apply IH|]. intros ->. apply Hni.
    apply list_elem_of_fmap. by exists (k, a).
Qed.

Lemma oset_owf k a o : owf o → owf (oset k a o).
Proof.
  unfold owf. intros H. rewrite okeys_oset. case_decide; [done|].
  apply NoDup_app. split; [done|]. split; [|apply NoDup_singleton].
  by intros x Hx ->%list_elem_of_singleton.
Qed.

Lemma odel_owf k o : owf o → owf (odel k o).
Proof.
  unfold owf. intros H. rewrite okeys_odel.
  induction (okeys o) as [|x l IH]; simpl; [done|].
  apply NoDup_cons in H as [Hx Hl]. case_bool_decide; [|auto].
  apply NoDup_cons. split; [|auto].
  intros Hin. apply Hx. apply list_elem_of_In in Hin. apply list_elem_of_In.
  by apply List.filter_In in Hin as [? _].
Qed.

(** [Object.entries(o).find(([_, a]) => p a)] *)
Fixpoint ofind (p : A → bool) o : option (string * A) :=
  match o with
  | [] => None
  | (k, a) :: o' => if p a then Some (k, a) else ofind p o'
  end.

Lemma ofind_Some p o k a : ofind p o = Some (k, a) → (k, a) ∈ o ∧ p a = true.
Proof.
  induction o as [|[k' a'] o IH]; simpl; [done|].
  destruct (p a') eqn:Hp; intros; simplify_eq; [split; [by left|done]|].
  destruct IH; [done|]. split; [by right|done].
Qed.

Lemma ofind_None p o : ofind p o = None ↔ ∀ k a, (k, a) ∈ o → p a = false.
Proof.
  induction o as [|[k' a'] o IH]; simpl.
  { split; [by intros _ ?? ?%elem_of_nil|done]. }
  destruct (p a') eqn:Hp.
  - split; [done|]. intros H. specialize (H k' a'). rewrite Hp in H.
    discriminate H. by left.
  - rewrite IH. split; intros H k a; [|by intros; apply (H k); right].
    intros [?|?]%elem_of_cons; [by simplify_eq|by eapply H].
Qed.
End objects.

(** Two objects built by assignments differ only at the keys assigned. *)
Ltac osimpl :=
  repeat first
    [ rewrite oget_oset_eq | rewrite oget_odel_eq
    | rewrite oget_oset_ne by congruence | rewrite oget_odel_ne by congruence ].

#[export] Hint Resolve oset_owf odel_owf : core.

(** ** Arrays and sets *)

(** [arr.includes(x)] *)
Definition includes (x : string) (l : list string) : bool := bool_decide (x ∈ l).

Lemma includes_spec x l : includes x l = true ↔ x ∈ l.
Proof. apply bool_decide_eq_true. Qed.

(** [arr.splice(arr.indexOf(x), 1)]: drops the first [x]; when [x] is absent
    [indexOf] is [-1] and [splice] drops the last element. *)
Fixpoint remove_first (x : string) (l : list string) : list string :=
  match l with
  | [] => []
  | y :: l' => if decide (y = x) then l' else y :: remove_first x l'
  end.

Definition splice_indexOf (x : string) (l : list string) : list string :=
  if includes x l then remove_first x l else removelast l.

Lemma remove_first_NoDup x l : NoDup l → NoDup (remove_first x l) ∧ x ∉ remove_first x l.
Proof.
  induction l as [|y l IH]; simpl; [split; [done|apply not_elem_of_nil]|].
  intros [Hy Hl]%NoDup_cons. destruct (decide (y = x)) as [->|]; [done|].
  destruct (IH Hl) as [H1 H2].
  assert (∀ z, z ∈ remove_first x l → z ∈ l) as Hsub.
  { clear. intros z. induction l as [|w l IH]; simpl; [done|].
    destruct (decide (w = x)); [by right|].
    intros [->|?]%elem_of_cons; [by left|right; auto]. }
  split.
  - apply NoDup_cons. split; [|done]. intros ?. by apply Hy, Hsub.
  - intros [->|?]%elem_of_cons; done.
Qed.

Lemma elem_of_remove_first x z l : z ≠ x → (z ∈ remove_first x l ↔ z ∈ l).
Proof.
  intros Hne. induction l as [|y l IH]; simpl; [done|].
  destruct (decide (y = x)) as [->|]; rewrite !elem_of_cons, ?IH; naive_solver.
Qed.

(** [[...new Set(l)]]: the distinct elements in order of first appearance. *)
Definition set_add (l : list string) (x : string) : list string :=
  if decide (x ∈ l) then l else l ++ [x].
Definition js_set (l : list string) : list string := foldl set_add [] l.

Lemma elem_of_set_add l x y : y ∈ set_add l x ↔ y ∈ l ∨ y = x.
Proof.
  unfold set_add. case_decide; [naive_solver|].
  rewrite elem_of_app, list_elem_of_singleton. done.
Qed.

Lemma set_add_NoDup l x : NoDup l → NoDup (set_add l x).
Proof.
  unfold set_add. case_decide; [done|]. intros Hl. apply NoDup_app.
  split; [done|]. split; [|apply NoDup_singleton].
  by intros y Hy ->%list_elem_of_singleton.
Qed.

Lemma foldl_set_add l acc :
  (∀ y, y ∈ foldl set_add acc l ↔ y ∈ acc ∨ y ∈ l) ∧
  (NoDup acc → NoDup (foldl set_add acc l)).
Proof.
  revert acc. induction l as [|x l IH]; intros acc; simpl.
  { split; [|done]. intros y. rewrite elem_of_nil. naive_solver. }
  destruct (IH (set_add acc x)) as [H1 H2]. split.
  - intros y. rewrite H1, elem_of_set_add, elem_of_cons. naive_solver.
  - intros. by apply H2, set_add_NoDup.
Qed.

Lemma elem_of_js_set l y : y ∈ js_set l ↔ y ∈ l.
Proof.
  destruct (foldl_set_add l []) as [H _]. unfold js_set.
  rewrite H, elem_of_nil. naive_solver.
Qed.

Lemma js_set_NoDup l : NoDup (js_set l).
Proof. apply (foldl_set_add l []), NoDup_nil_2. Qed.

(** Boolean list filtering and membership. *)
Lemma elem_of_lfilter {A} (p : A → bool) l x :
  x ∈ List.filter p l ↔ x ∈ l ∧ p x = true.
Proof. rewrite !list_elem_of_In. apply List.filter_In. Qed.

Lemma lfilter_all {A} (p : A → bool) l : (∀ x, x ∈ l → p x = true) → List.filter p l = l.
Proof.
  induction l as [|x l IH]; intros Hp; simpl; [done|].
  rewrite Hp by (by left). f_equal. apply IH. intros y Hy. apply Hp. by right.
Qed.

Lemma NoDup_lfilter {A} (p : A → bool) l : NoDup l → NoDup (List.filter p l).
Proof.
  induction 1 as [|x l Hx Hl IH]; simpl; [constructor|].
  destruct (p x); [|done]. constructor; [|done]. rewrite elem_of_lfilter. naive_solver.
Qed.

#[global] Instance lfilter_perm {A} (p : A → bool) :
  Proper (Permutation ==> Permutation) (List.filter p).
Proof.
  intros l1 l2 H. induction H as [|x l l' _ IH|x y l|l1 l2 l3 _ IH1 _ IH2]; simpl.
  - done.
  - destruct (p x); [by rewrite IH|done].
  - destruct (p x), (p y); try done. by constructor.
  - by rewrite IH1.
Qed.

(** ** Strings *)

(** A JavaScript string is truthy when it is not empty. *)
Definition truthy (s : string) : bool := bool_decide (s ≠ "").
(** A string kept only when truthy. *)
Definition if_truthy (o : option string) : option string :=
  match o with Some s => if truthy s then Some s else None | None => None end.
Definition otruthy (o : option string) : bool :=
  match o with Some s => truthy s | None => false end.

Fixpoint has_char (c : ascii) (s : string) : bool :=
  match s with
  | EmptyString => false
  | String a s' => if decide (a = c) then true else has_char c s'
  end.

(** [s.split(c)] for a one-character separator. *)
Fixpoint split_on (c : ascii) (s : string) : list string :=
  match s with
  | EmptyString => [""]
  | String a s' =>
      if decide (a = c) then "" :: split_on c s'
      else match split_on c s' with
           | [] => [String a ""]
           | h :: t => String a h :: t
           end
  end.

Lemma split_on_nochar c s : has_char c s = false → split_on c s = [s].
Proof.
  induction s as [|a s IH]; simpl; [done|].
  destruct (decide (a = c)); [done|]. intros H. by rewrite IH.
Qed.

Lemma split_on_app c u s :
  has_char c u = false → split_on c (u +:+ String c s) = u :: split_on c s.
Proof.
  unfold String.app. induction u as [|a u IH]; simpl.
  { intros _. by rewrite decide_True. }
  destruct (decide (a = c)); [done|]. intros H. by rewrite IH.
Qed.

(** [s.endsWith(c)] for one character. *)
Fixpoint ends_with (c : ascii) (s : string) : bool :=
  match s with
  | EmptyString => false
  | String a EmptyString => bool_decide (a = c)
  | String _ s' => ends_with c s'
  end.

(** [s.replace(c, '')]: drops the first occurrence. *)
Fixpoint drop_first (c : ascii) (s : string) : string :=
  match s with
  | EmptyString => EmptyString
  | String a s' => if decide (a = c) then s' else String a (drop_first c s')
  end.

(** ** [parseInt]

    [None] is [NaN].  Values are exact integers: the code only parses
    configuration values and CPU quantities, far below 2^53. *)
Definition digit_val (radix : Z) (a : ascii) : option Z :=
  let n := Z.of_nat (nat_of_ascii a) in
  let d := if (48 <=? n) && (n <=? 57) then Some (n - 48)
           else if (97 <=? n) && (n <=? 122) then Some (n - 87)
           else if (65 <=? n) && (n <=? 90) then Some (n - 55)
           else None in
  match d with
  | Some v => if v <? radix then Some v else None
  | None => None
  end.

Fixpoint digits (radix : Z) (acc : option Z) (s : string) : option Z :=
  match s with
  | EmptyString => acc
  | String a s' =>
      match digit_val radix a with
      | Some d => digits radix (Some (default 0 acc * radix + d)) s'
      | None => acc
      end
  end.

Definition is_space (a : ascii) : bool :=
  let n := nat_of_ascii a in
  bool_decide (n ∈ [9; 10; 11; 12; 13; 32; 160]%nat).

Fixpoint trim_left (s : string) : string :=
  match s with
  | String a s' => if is_space a then trim_left s' else s
  | EmptyString => s
  end.

Definition strip_0x (s : string) : option string :=
  match s with
  | String a (String b s') =>
      if bool_decide (a = "0"%char) && (bool_decide (b = "x"%char) || bool_decide (b = "X"%char))
      then Some s' else None
  | _ => None
  end.

(** [parseInt(s)] (no radix: a [0x] prefix selects 16) and
    [parseInt(s, 10)]. *)
Definition parse_signed (body : string → option Z) (s : string) : option Z :=
  match trim_left s with
  | String a s' =>
      if decide (a = "-"%char) then (λ v, - v) <$> body s'
      else if decide (a = "+"%char) then body s'
      else body (String a s')
  | EmptyString => None
  end.

Definition parseInt10 : string → option Z := parse_signed (digits 10 None).
Definition parseInt : string → option Z :=
  parse_signed (λ s, match strip_0x s with
                     | Some s' => digits 16 None s'
                     | None => digits 10 None s
                     end).

(** [isNaN(x) ? d : x] *)
Definition nan_or (x : option Z) (d : Z) : Z := default d x.
