(* ===== verification/Dates.v ===== *)
(** Integers and dates as JavaScript writes them. *)
From S2P Require Import Prelude.
From Stdlib Require Import DecimalString DecimalZ Lia.

(** An integer as JavaScript writes it. *)
Definition show_Z (z : Z) : string := NilZero.string_of_int (Z.to_int z).
Definition read_Z (s : string) : option Z := Z.of_int <$> NilZero.int_of_string s.

(** The date of a number of days since 1970-01-01, in the Gregorian calendar. *)
Definition civil (days : Z) : Z * Z * Z :=
  let z := days + 719468 in
  let era := z / 146097 in
  let doe := z mod 146097 in
  let yoe := (doe - doe / 1460 + doe / 36524 - doe / 146096) / 365 in
  let doy := doe - (365 * yoe + yoe / 4 - yoe / 100) in
  let mp := (5 * doy + 2) / 153 in
  let d := doy - (153 * mp + 2) / 5 + 1 in
  let m := if mp <? 10 then mp + 3 else mp - 9 in
  (yoe + era * 400 + (if m <=? 2 then 1 else 0), m, d).

Fixpoint zeros (n : nat) : string := match n with O => EmptyString | S n => String "0" (zeros n) end.
Definition padded (width : nat) (z : Z) : string :=
  let s := show_Z z in zeros (width - String.length s) +:+ s.
(** [new Date(t).toISOString()]; years outside 0..9999 have six digits and a
    sign. *)
Definition toISOString (t : Z) : string :=
  let '(y, m, d) := civil (t / 86400000) in
  let ms := t mod 86400000 in
  (if (0 <=? y) && (y <=? 9999) then padded 4 y
   else (if y <? 0 then "-" else "+") +:+ padded 6 (Z.abs y)) +:+
  "-" +:+ padded 2 m +:+ "-" +:+ padded 2 d +:+ "T" +:+ padded 2 (ms / 3600000) +:+ ":" +:+
  padded 2 (ms / 60000 mod 60) +:+ ":" +:+ padded 2 (ms / 1000 mod 60) +:+ "." +:+ padded 3 (ms mod 1000) +:+ "Z".

Example iso_epoch : toISOString 0 = "1970-01-01T00:00:00.000Z".
Proof. reflexivity. Qed.
Example iso_leap : toISOString 1709210096789 = "2024-02-29T12:34:56.789Z".
Proof. reflexivity. Qed.

(** ** Reading a date *)

(** The days from 1970-01-01 to a date: the inverse of [civil]. *)
Definition days_of (y m d : Z) : Z :=
  let y := if m <=? 2 then y - 1 else y in
  let yoe := y mod 400 in
  let doy := (153 * (if 2 <? m then m - 3 else m + 9) + 2) / 5 + d - 1 in
  y / 400 * 146097 + (yoe * 365 + yoe / 4 - yoe / 100 + doy) - 719468.

(** The first [n] characters as a decimal number, and the rest. *)
Fixpoint read_digits (n : nat) (acc : Z) (s : string) : option (Z * string) :=
  match n, s with
  | O, _ => Some (acc, s)
  | S n, String c s =>
      let v := Z.of_N (N_of_ascii c) - 48 in
      if (0 <=? v) && (v <=? 9) then read_digits n (10 * acc + v) s else None
  | S _, EmptyString => None
  end.
Definition read_char (c : ascii) (s : string) : option string :=
  match s with String c' s => if Ascii.eqb c c' then Some s else None | EmptyString => None end.

Definition iso_fields (s : string) : option Z :=
  '(y, s) ← read_digits 4 0 s; s ← read_char "-" s; '(m, s) ← read_digits 2 0 s; s ← read_char "-" s;
  '(d, s) ← read_digits 2 0 s; s ← read_char "T" s; '(h, s) ← read_digits 2 0 s; s ← read_char ":" s;
  '(mi, s) ← read_digits 2 0 s; s ← read_char ":" s; '(sec, s) ← read_digits 2 0 s; s ← read_char "." s;
  '(ms, s) ← read_digits 3 0 s;
  Some (days_of y m d * 86400000 + h * 3600000 + mi * 60000 + sec * 1000 + ms).
(** The instant that [toISOString] writes as [s], with a year of four digits. *)
Definition iso_instant (s : string) : option Z :=
  t ← iso_fields s; if bool_decide (toISOString t = s) then Some t else None.

(** *** The two are inverse *)
Lemma year_of_era doe yoe :
  0 ≤ doe < 146097 → yoe = (doe - doe / 1460 + doe / 36524 - doe / 146096) / 365 →
  0 ≤ yoe < 400 ∧ 0 ≤ doe - (365 * yoe + yoe / 4 - yoe / 100) ≤ 365.
Proof. intros Hd ->. Z.to_euclidean_division_equations. lia. Qed.
Lemma month_of_year doy mp d :
  0 ≤ doy ≤ 365 → mp = (5 * doy + 2) / 153 → d = doy - (153 * mp + 2) / 5 + 1 →
  0 ≤ mp ≤ 11 ∧ 1 ≤ d ≤ 31 ∧ (153 * mp + 2) / 5 + d - 1 = doy.
Proof. intros Hd -> ->. Z.to_euclidean_division_equations. lia. Qed.

Lemma civil_days n y m d : civil n = (y, m, d) → days_of y m d = n ∧ 1 ≤ m ≤ 12 ∧ 1 ≤ d ≤ 31.
Proof.
  unfold civil. set (z := n + 719468). set (era := z / 146097). set (doe := z mod 146097).
  remember ((doe - doe / 1460 + doe / 36524 - doe / 146096) / 365) as yoe eqn:Hy.
  remember (doe - (365 * yoe + yoe / 4 - yoe / 100)) as doy eqn:Hdoy.
  remember ((5 * doy + 2) / 153) as mp eqn:Hmp. intros [= Ey Em Ed].
  assert (0 ≤ doe < 146097) as Hdoe by (apply Z.mod_pos_bound; lia).
  destruct (year_of_era doe yoe Hdoe Hy) as [Hyoe Hdb]. rewrite <- Hdoy in Hdb.
  destruct (month_of_year doy mp d Hdb Hmp (eq_sym Ed)) as (Hmb & Hdd & Hback).
  assert (z = era * 146097 + doe) as Hz by (unfold era, doe; rewrite (Z.div_mod z 146097) at 1; lia).
  unfold days_of. destruct (Z.ltb_spec mp 10); subst m.
  - rewrite (proj2 (Z.leb_gt _ _)) in Ey |- * by lia. rewrite (proj2 (Z.ltb_lt _ _)) by lia.
    replace (mp + 3 - 3) with mp by lia. subst y.
    rewrite Z.add_0_r, Z.mod_add, Z.div_add, (Z.mod_small yoe), (Z.div_small yoe) by lia. lia.
  - rewrite (proj2 (Z.leb_le _ _)) in Ey |- * by lia. rewrite (proj2 (Z.ltb_ge _ _)) by lia.
    replace (mp - 9 + 9) with mp by lia. subst y. replace (yoe + era * 400 + 1 - 1) with (yoe + era * 400) by lia.
    rewrite Z.mod_add, Z.div_add, (Z.mod_small yoe), (Z.div_small yoe) by lia. lia.
Qed.

(** A boolean test of every number below a bound. *)
Definition below (p : Z → bool) (n : nat) : bool := forallb (λ k, p (Z.of_nat k)) (seq 0 n).
Lemma below_spec p n z : below p n = true → 0 ≤ z < Z.of_nat n → p z = true.
Proof.
  unfold below. rewrite forallb_forall. intros Hall Hz. rewrite <- (Z2Nat.id z) by lia.
  apply Hall, in_seq. lia.
Qed.

Definition reads_back (w : nat) (z : Z) : bool :=
  match read_digits w 0 (padded w z) with Some (v, EmptyString) => Z.eqb v z | _ => false end.
Lemma reads_back_2 : below (reads_back 2) 100 = true.
Proof. vm_compute. reflexivity. Qed.
Lemma reads_back_3 : below (reads_back 3) 1000 = true.
Proof. vm_compute. reflexivity. Qed.
Lemma reads_back_4 : below (λ k, reads_back 4 (1970 + k)) 1030 = true.
Proof. vm_compute. reflexivity. Qed.

Lemma read_digits_app n acc s v rest :
  read_digits n acc s = Some (v, "") → read_digits n acc (s +:+ rest) = Some (v, rest).
Proof.
  revert acc s. induction n as [|n IH]; intros acc [|c s]; try done; [by intros [= <-]|].
  change (String c s +:+ rest) with (String c (s +:+ rest)). simpl. destruct (_ && _); [apply IH|done].
Qed.
Lemma read_padded w z rest : reads_back w z = true → read_digits w 0 (padded w z +:+ rest) = Some (z, rest).
Proof.
  unfold reads_back. destruct (read_digits w 0 (padded w z)) as [[v [|]]|] eqn:Hr; try done.
  intros ->%Z.eqb_eq. by apply read_digits_app.
Qed.
Lemma read_2 z rest : 0 ≤ z < 100 → read_digits 2 0 (padded 2 z +:+ rest) = Some (z, rest).
Proof. intros Hz. apply read_padded, (below_spec _ _ _ reads_back_2). lia. Qed.
Lemma read_3 z rest : 0 ≤ z < 1000 → read_digits 3 0 (padded 3 z +:+ rest) = Some (z, rest).
Proof. intros Hz. apply read_padded, (below_spec _ _ _ reads_back_3). lia. Qed.
Lemma read_4 y rest : 1970 ≤ y < 3000 → read_digits 4 0 (padded 4 y +:+ rest) = Some (y, rest).
Proof.
  intros Hy. apply read_padded. replace y with (1970 + (y - 1970)) by lia.
  apply (below_spec (λ k, reads_back 4 (1970 + k)) _ _ reads_back_4). lia.
Qed.

Lemma year_bounds n y m d : civil n = (y, m, d) → 0 ≤ n < 376200 → 1970 ≤ y < 3000.
Proof.
  intros (Hn & Hm & Hd)%civil_days Hb. unfold days_of in Hn.
  destruct (Z.leb_spec m 2), (Z.ltb_spec 2 m); try lia; Z.to_euclidean_division_equations; lia.
Qed.

(** From 1970 to 2999. *)
Lemma iso_roundtrip t : 0 ≤ t < 32503680000000 → iso_instant (toISOString t) = Some t.
Proof.
  intros Ht. assert (iso_fields (toISOString t) = Some t) as Hf;
    [|unfold iso_instant; rewrite Hf; simpl; by rewrite bool_decide_true].
  unfold toISOString. destruct (civil (t / 86400000)) as [[y m] d] eqn:Hc.
  assert (1970 ≤ y < 3000) as Hy.
  { apply (year_bounds _ _ _ _ Hc). Z.to_euclidean_division_equations; lia. }
  apply civil_days in Hc as (Hn & Hm & Hd).
  rewrite (proj2 (Z.leb_le 0 y)), (proj2 (Z.leb_le y 9999)) by lia. cbn [andb].
  assert (∀ c s, read_char c (String c EmptyString +:+ s) = Some s) as Hch.
  { intros c s. change (String c EmptyString +:+ s) with (String c s). simpl. by rewrite Ascii.eqb_refl. }
  set (ms := t mod 86400000). assert (0 ≤ ms < 86400000) as Hms by (apply Z.mod_pos_bound; lia).
  unfold iso_fields. rewrite read_4 by lia. cbn [mbind option_bind].
  do 2 (rewrite Hch; cbn [mbind option_bind]; rewrite read_2 by lia; cbn [mbind option_bind]).
  do 3 (rewrite Hch; cbn [mbind option_bind]; rewrite read_2 by (Z.to_euclidean_division_equations; lia); cbn [mbind option_bind]).
  rewrite Hch. cbn [mbind option_bind]. rewrite read_3 by (apply Z.mod_pos_bound; lia). cbn [mbind option_bind].
  f_equal. rewrite Hn. subst ms. Z.to_euclidean_division_equations. lia.
Qed.
