(* ===== verification/Messages.v ===== *)
(** The vocabulary the services share: the cached values and cache keys of
    [libs/common/cache], the message types of [libs/common/message] and
    [libs/common/dto], and the effects a service can have on the outside
    (messages on Redis, RabbitMQ and NATS, HTTP calls, sockets, locks, mail). *)
From S2P Require Import Prelude JS Dates.

(** ** Cached values ([libs/common/cache]) *)

Inductive ActState := active | inactive.
#[global] Instance ActState_eq_dec : EqDecision ActState.
Proof. solve_decision. Defined.

Record CachedSession := Session {
  s_state : ActState;
  s_socketId : string;
  s_gatewayId : string;
  s_wsUuid : option string;
}.

(** sessionId => session *)
Definition CachedPresence := list (string * CachedSession).

(** [dirs]: path => watching uids (order observed by [Object.entries]);
    [docs]: inode => env instance; [sshs]: sessionId => env instance. *)
Record CachedWorkspace := CWs {
  c_state : ActState;
  c_fs : string;
  c_dirs : list (string * list string);
  c_docs : gmap Z string;
  c_sshs : gmap string string;
}.

(** What the workspace service answers to a membership check, and what the
    gateway then caches: a boolean by its declared type, an object in fact. *)
Inductive MemberVal :=
| MBool (b : bool)
| MInfo (image : string) (dedicated : bool).

Definition mtruthy (v : MemberVal) : bool :=
  match v with MBool b => b | MInfo _ _ => true end.

(** wsUuid => membership *)
Definition CachedMembership := list (string * MemberVal).

(** [model/user.ts] *)
Record User := MkUser {
  u_uid : string;
  u_name : option string;
  u_username : option string;
  u_email : option string;
  u_picture : option string;
  u_issuer : option string;
  u_expireAt : option string;
}.

Inductive cval :=
| CPresence (p : CachedPresence)
| CWorkspace (w : CachedWorkspace)
| CMembership (m : CachedMembership)
| CFlag (n : Z)
| CProfile (u : User)
| CTemplates (l : list (string * string)).

(** ** Cache keys *)
Definition colon : ascii := ":"%char.
Definition sep (s : string) : string := String colon s.

Definition CACHEKEY_MEMBERSHIP (uid : string) : string := "membership:" +:+ uid.
Definition CACHEKEY_PRESENCE (uid : string) : string := "presence:" +:+ uid.
Definition CACHEKEY_WORKSPACE (wsUuid : string) : string := "workspace:" +:+ wsUuid.
Definition CACHEKEY_PRESENCE_SESSION (uid sessionId : string) : string :=
  "presence:" +:+ uid +:+ ":" +:+ sessionId.
Definition CACHEKEY_PRESENCE_WORKSPACE (uid sessionId wsUuid : string) : string :=
  "presence:" +:+ uid +:+ ":" +:+ sessionId +:+ ":" +:+ wsUuid.
Definition CACHEKEY_USER_PROFILE (uid : string) : string := "profile:" +:+ uid.

(** ** Notifications *)
Inductive NotificationType :=
| workspace_invite
| workspace_membership_removed
| workspace_access_code
| workspace_downgraded
| notification_delete.
#[global] Instance NotificationType_eq_dec : EqDecision NotificationType.
Proof. solve_decision. Defined.

Definition persistentNtfnTypes : list NotificationType :=
  [workspace_invite; workspace_access_code].

Inductive NtfnData :=
| WorkspaceInvite (inviterId workspaceUUID token : string)
| ExclusionData (actorId workspaceUUID name : string)
| WorkspaceAccessRequest (success : bool) (code : string) (reqId : option string)
| WorkspaceDowngraded (uuid : string)
| NoData.

(** [createdOn]: a string, or the [Timestamp] of an instant in milliseconds
    that Firestore gives back for a stored date. *)
Inductive CreatedOn := RawDate (s : string) | Timestamp (t : Z).
Definition IsoOf (t : Z) : CreatedOn := RawDate (toISOString t).

Record UserNotificationPayload := Ntfn {
  n_type : NotificationType;
  n_id : string;
  n_createdOn : CreatedOn;
  n_data : NtfnData;
}.

(** [ntfn.success], [undefined] on the other payloads. *)
Definition ntfn_success (n : UserNotificationPayload) : option bool :=
  match n_data n with WorkspaceAccessRequest b _ _ => Some b | _ => None end.

Definition persistentNtfnTypesChecks (t : NotificationType) :
    option (UserNotificationPayload → option bool) :=
  match t with
  | workspace_access_code => Some ntfn_success
  | _ => None
  end.

Definition isNotificationPersistent (n : UserNotificationPayload) : bool :=
  bool_decide (n_type n ∈ persistentNtfnTypes) &&
  default true (persistentNtfnTypesChecks (n_type n) ≫= λ check, check n).

(** ** File-system messages *)
Inductive FSEventType := fs_create | fs_remove | fs_rename | fs_write.
Inductive FSKind := fs_file | fs_dir.
#[global] Instance FSEventType_eq_dec : EqDecision FSEventType.
Proof. solve_decision. Defined.
#[global] Instance FSKind_eq_dec : EqDecision FSKind.
Proof. solve_decision. Defined.

Record FSEvent := FsEv {
  fe_watchedPath : string;
  fe_path : string;
  fe_oldPath : option string;
  fe_ino : option Z;
  fe_action : FSEventType;
  fe_timestamp : Z;
  fe_type : FSKind;
}.

Record StatDTO := Stat { st_name : string; st_size : Z; st_isDir : bool; st_ino : Z }.
Record FSOpenDTO := FsEntry { fo_name : string; fo_path : string; fo_isDir : bool; fo_id : Z }.

Inductive ConflictDecision := keep | reload.
#[global] Instance ConflictDecision_eq_dec : EqDecision ConflictDecision.
Proof. solve_decision. Defined.

(** ** Messages from the client ([InSocketMessagePayloadMap]) *)
Inductive EnvPayload :=
| SSHRequest (uuid privateKey clientId : string)
| SSHData (uuid sshSessionId input : string)
| SSHClose (uuid sshSessionId : string)
| FSOpen (uuid path : string)
| FSOpenAck (uuid : string) (ino : Z)
| FSConflictResolve (uuid : string) (ino : Z) (decision : ConflictDecision)
| FSSyncIn (uuid : string) (ino : Z) (buf : string)
| FSClose (uuid path : string) (ino : option Z)
| WSRun (uuid command name : string).

Definition env_action (p : EnvPayload) : string :=
  match p with
  | SSHRequest _ _ _ => "ssh.request"
  | SSHData _ _ _ => "ssh.data"
  | SSHClose _ _ => "ssh.close"
  | FSOpen _ _ => "fs.open"
  | FSOpenAck _ _ => "fs.open.ack"
  | FSConflictResolve _ _ _ => "fs.conflict.resolve"
  | FSSyncIn _ _ _ => "fs.sync"
  | FSClose _ _ _ => "fs.close"
  | WSRun _ _ _ => "ws.run"
  end.

Definition env_uuid (p : EnvPayload) : string :=
  match p with
  | SSHRequest u _ _ | SSHData u _ _ | SSHClose u _ | FSOpen u _ | FSOpenAck u _
  | FSConflictResolve u _ _ | FSSyncIn u _ _ | FSClose u _ _ | WSRun u _ _ => u
  end.

Inductive InPayload :=
| InEnv (p : EnvPayload)
| InPing (uuid : option string).

Record InSocketMessage := InMsg { im_payload : InPayload; im_correlationId : option string }.

(** ** Messages to the client ([OutSocketMessageActionMap]) *)
Inductive OutMsg :=
(* workspace *)
| MembersModifiedMsg (uuid : string)
(* env *)
| EnvDisconnect (code : string)
| EnvAwareness (uids : list string)
(* provision *)
| ProvisionReady (message : string)
(* fs *)
| FSBatch (events : list FSEvent)
| FSBlock (path : string)
| FSResume (path : string)
| FSSyncOut (uuid : string) (ino : Z) (buf : string)
| FSLost (ino : Z)
| FSDisplaced (uuid : string) (ino : Z)
| FSConflict (uuid : string) (ino : Z) (resolverUid : string)
| FSResolved (uuid : string) (ino : Z)
(* ssh *)
| SSHOpen (sshSessionId clientId : string)
| SSHOutput (sshSessionId output : string)
| SSHError (message : string)
| SSHClosed (sshSessionId : string) (all : option bool)
(* notification *)
| NtfnNew (n : UserNotificationPayload)
| NtfnPending (l : list UserNotificationPayload)
| NtfnDirective (n : UserNotificationPayload)
(* a reply named by the request's correlationId *)
| RespEntries (entries : list FSOpenDTO) (correlationId : string)
| RespFile (isConflicting : bool) (conflictResolver : string)
| RespSuccess
| RespError (code : string).

(** ** Service messages *)

(** [meta] of a [ServiceMessage]/[ServiceEvent]; [timestamp] is left out. *)
Record Meta := MkMeta {
  m_uid : option string;
  m_sessionId : option string;
  m_route : option string;
  m_requestId : option string;
}.
Definition meta_us (uid sessionId : string) : Meta := MkMeta (Some uid) (Some sessionId) None None.

Inductive SvcPayload :=
| SocketSend (uid sessionId pattern : string) (msg : OutMsg)
| SocketBroadcast (uids sessionIds : list string) (pattern : string) (msg : OutMsg)
| NotifyUser (uid : string) (n : UserNotificationPayload)
| NotifyUndefined (n : UserNotificationPayload)   (* [NotifyUser] whose uid is [undefined] *)
| NotificationRead (uid notificationId : string)
| MembersModified (uuid : string) (added removed : list string)
| WorkspaceDeleted (uuid : string) (members : list string)
| SocketClose (socketId : string)
| EnvMessage (msg : InSocketMessage)
| InterEnvFSOpen (uuid path : string) (stat : StatDTO) (correlationId : option string)
| InterEnvFSClose (uuid : string) (ino : Z)
| WatchPath (path : string)
| EnvReply (data : option string)                 (* [None]: an object *)
| UserProfileRequest (uid : string)
| WorkspaceDeleteOwned (ownerUid : string).

(** The payload an administrator receives by mail with an access request. *)
Record AccessRequestPayload := AccessReq {
  ar_uid : string; ar_username : string; ar_name : string;
  ar_reason : option string; ar_uuid : string;
}.

(** What is asked of an [ssh2] connection, or of one of its shells. *)
Inductive SshCommand :=
| SshConnect (host : string) (port : Z) (username privateKey : string)
| SshShell (term : string)
| SshWrite (sshSessionId input : string)
| SshCloseShell (sshSessionId : string)
| SshEnd.

(** What a service does to the outside world, in order. *)
Inductive effect :=
| Redis (channel : string) (meta : option Meta) (p : SvcPayload)
| Rmq (pattern : string) (meta : option Meta) (p : SvcPayload)
| Nats (pattern : string) (meta : option Meta) (p : SvcPayload)
| Http (method url : string)
| ToSocket (socketId event : string) (msg : OutMsg)
| CloseSocket (socketId : string)
| LockAcquired (key : string)
| LockReleased (key : string)
| Mail (to : string) (req : AccessRequestPayload) (token : string)
| Ssh (conn : nat) (cmd : SshCommand).
