(* ===== verification/Keys.v ===== *)
(** The Redis key space of [libs/common/cache]: the key families do not
    collide, and an expired [presence:] key determines what expired. *)
From S2P Require Import Prelude JS Messages.

Create HintDb keys discriminated.

Definition colon_free (s : string) : Prop := has_char colon s = false.

Lemma append_assoc (a b c : string) : (a +:+ b) +:+ c = a +:+ (b +:+ c).
Proof. unfold String.app. induction a as [|x a IH]; simpl; [done|by rewrite IH]. Qed.

Lemma append_nil_r (a : string) : a +:+ "" = a.
Proof. unfold String.app. induction a as [|x a IH]; simpl; [done|by rewrite IH]. Qed.

(** *** Splitting a key back into its parts *)
Lemma split_presence uid :
  colon_free uid → split_on colon (CACHEKEY_PRESENCE uid) = ["presence"; uid].
Proof.
  intros H. unfold CACHEKEY_PRESENCE.
  change ("presence:" +:+ uid) with ("presence" +:+ sep uid).
  unfold sep. by rewrite split_on_app, split_on_nochar.
Qed.

Lemma split_presence_session uid sid :
  colon_free uid → colon_free sid →
  split_on colon (CACHEKEY_PRESENCE_SESSION uid sid) = ["presence"; uid; sid].
Proof.
  intros Hu Hs. unfold CACHEKEY_PRESENCE_SESSION.
  change ("presence:" +:+ uid +:+ ":" +:+ sid) with ("presence" +:+ sep (uid +:+ sep sid)).
  unfold sep. by rewrite !split_on_app, split_on_nochar.
Qed.

Lemma split_presence_workspace uid sid ws :
  colon_free uid → colon_free sid → colon_free ws →
  split_on colon (CACHEKEY_PRESENCE_WORKSPACE uid sid ws) = ["presence"; uid; sid; ws].
Proof.
  intros Hu Hs Hw. unfold CACHEKEY_PRESENCE_WORKSPACE.
  change ("presence:" +:+ uid +:+ ":" +:+ sid +:+ ":" +:+ ws)
    with ("presence" +:+ sep (uid +:+ sep (sid +:+ sep ws))).
  unfold sep. by rewrite !split_on_app, split_on_nochar.
Qed.

(** *** Families of keys with different prefixes are disjoint *)
Lemma presence_ne_workspace u w : CACHEKEY_PRESENCE u ≠ CACHEKEY_WORKSPACE w.
Proof. done. Qed.
Lemma presence_ne_membership u w : CACHEKEY_PRESENCE u ≠ CACHEKEY_MEMBERSHIP w.
Proof. done. Qed.
Lemma presence_ne_profile u w : CACHEKEY_PRESENCE u ≠ CACHEKEY_USER_PROFILE w.
Proof. by destruct u. Qed.
Lemma workspace_ne_membership u w : CACHEKEY_WORKSPACE u ≠ CACHEKEY_MEMBERSHIP w.
Proof. done. Qed.
Lemma membership_ne_profile u w : CACHEKEY_MEMBERSHIP u ≠ CACHEKEY_USER_PROFILE w.
Proof. done. Qed.
Lemma session_ne_workspace u s w : CACHEKEY_PRESENCE_SESSION u s ≠ CACHEKEY_WORKSPACE w.
Proof. done. Qed.
Lemma session_ne_membership u s w : CACHEKEY_PRESENCE_SESSION u s ≠ CACHEKEY_MEMBERSHIP w.
Proof. done. Qed.
Lemma pws_ne_workspace u s w w' : CACHEKEY_PRESENCE_WORKSPACE u s w ≠ CACHEKEY_WORKSPACE w'.
Proof. done. Qed.
Lemma pws_ne_membership u s w w' : CACHEKEY_PRESENCE_WORKSPACE u s w ≠ CACHEKEY_MEMBERSHIP w'.
Proof. done. Qed.

(** *** Within the [presence:] family *)
#[global] Instance CACHEKEY_PRESENCE_inj : Inj (=) (=) CACHEKEY_PRESENCE.
Proof. intros u v H. unfold CACHEKEY_PRESENCE in H. by simplify_eq. Qed.
#[global] Instance CACHEKEY_WORKSPACE_inj : Inj (=) (=) CACHEKEY_WORKSPACE.
Proof. intros u v H. unfold CACHEKEY_WORKSPACE in H. by simplify_eq. Qed.
#[global] Instance CACHEKEY_MEMBERSHIP_inj : Inj (=) (=) CACHEKEY_MEMBERSHIP.
Proof. intros u v H. unfold CACHEKEY_MEMBERSHIP in H. by simplify_eq. Qed.

Lemma has_char_app c u s : has_char c (u +:+ String c s) = true.
Proof.
  unfold String.app. induction u as [|a u IH]; simpl; [by rewrite decide_True|].
  by destruct (decide (a = c)).
Qed.

Lemma presence_ne_session u v s : colon_free u → CACHEKEY_PRESENCE u ≠ CACHEKEY_PRESENCE_SESSION v s.
Proof.
  intros Hu H. unfold CACHEKEY_PRESENCE, CACHEKEY_PRESENCE_SESSION in H. simplify_eq.
  unfold colon_free in Hu. change (v +:+ ":" +:+ s) with (v +:+ String colon s) in Hu.
  by rewrite has_char_app in Hu.
Qed.

Lemma presence_ne_pws u v s w :
  colon_free u → CACHEKEY_PRESENCE u ≠ CACHEKEY_PRESENCE_WORKSPACE v s w.
Proof.
  intros Hu H. unfold CACHEKEY_PRESENCE, CACHEKEY_PRESENCE_WORKSPACE in H. simplify_eq.
  unfold colon_free in Hu.
  change (v +:+ ":" +:+ s +:+ ":" +:+ w) with (v +:+ String colon (s +:+ ":" +:+ w)) in Hu.
  by rewrite has_char_app in Hu.
Qed.

Lemma split_on_pos c s : (0 < length (split_on c s))%nat.
Proof.
  destruct s as [|a s]; simpl; [lia|]. case_decide; simpl; [lia|].
  destruct (split_on c s); simpl; lia.
Qed.

Lemma split_on_length c a b :
  length (split_on c (a +:+ String c b)) = (length (split_on c a) + length (split_on c b))%nat.
Proof.
  induction a as [|x a IH]; [simpl; by rewrite decide_True|].
  change (String x a +:+ String c b) with (String x (a +:+ String c b)); simpl.
  case_decide; simpl; [by rewrite IH|].
  pose proof (split_on_pos c a).
  destruct (split_on c (a +:+ String c b)), (split_on c a); simpl in *; lia.
Qed.

Lemma session_ne_pws u s v s' w :
  colon_free u → colon_free s →
  CACHEKEY_PRESENCE_SESSION u s ≠ CACHEKEY_PRESENCE_WORKSPACE v s' w.
Proof.
  intros Hu Hs H. apply (f_equal (λ k, length (split_on colon k))) in H.
  rewrite split_presence_session in H by done.
  unfold CACHEKEY_PRESENCE_WORKSPACE in H.
  change ("presence:" +:+ v +:+ ":" +:+ s' +:+ ":" +:+ w)
    with ("presence" +:+ String colon (v +:+ String colon (s' +:+ String colon w))) in H.
  rewrite !split_on_length in H.
  pose proof (split_on_pos colon v). pose proof (split_on_pos colon s').
  pose proof (split_on_pos colon w). simpl in H. lia.
Qed.

Lemma session_ne_profile u s w : CACHEKEY_PRESENCE_SESSION u s ≠ CACHEKEY_USER_PROFILE w.
Proof. done. Qed.

(** Marker keys of colon-free names are distinct. *)
Lemma session_key_inj u s v s' :
  colon_free u → colon_free s → colon_free v → colon_free s' →
  CACHEKEY_PRESENCE_SESSION u s = CACHEKEY_PRESENCE_SESSION v s' → u = v ∧ s = s'.
Proof.
  intros Hu Hs Hv Hs' H. apply (f_equal (split_on colon)) in H.
  rewrite !split_presence_session in H by done. by simplify_eq.
Qed.

#[export] Hint Resolve session_ne_profile presence_ne_workspace presence_ne_membership presence_ne_profile
  workspace_ne_membership membership_ne_profile session_ne_workspace session_ne_membership
  pws_ne_workspace pws_ne_membership presence_ne_session presence_ne_pws session_ne_pws
  not_eq_sym : keys.

(** Solves [k ≠ k'] between two cache keys. *)
Ltac key_neq :=
  solve [ eauto 3 with keys nocore | congruence | discriminate
        | let H := fresh in intros H; apply (inj _) in H; congruence ].
