(* ===== verification/Interfaces.v ===== *)
(** What the services assume of the code they call but do not contain: a
    key-value store (Redis through cache-manager, Firestore collections), a
    relational table (TypeORM repositories over Postgres), random UUIDs.
    Each is a class of operations with a class of laws; the theorems of the
    components are proved against the laws, and the instances at the end
    show that the laws can be met. *)
From S2P Require Import Prelude JS Messages Keys.
From Stdlib Require Import Lia.

(** ** Key-value stores *)
Class KV (T K V : Type) := {
  kv_get : K → T → option V;
  kv_set : K → V → T → T;
  kv_del : K → T → T;
}.

Class KVLaws (T K V : Type) `{!EqDecision K, !KV T K V} : Prop := {
  kv_get_set k k' v t :
    kv_get k (kv_set k' v t) = if decide (k = k') then Some v else kv_get k t;
  kv_get_del k k' t :
    kv_get k (kv_del k' t) = if decide (k = k') then None else kv_get k t;
}.

(** The Redis cache: a value and its time to live in milliseconds. *)
Abbreviation Cache C := (KV C string (cval * option Z)).
Abbreviation CacheLaws C := (KVLaws C string (cval * option Z)).

Section kv_lemmas.
Context {T K V : Type} `{KVLaws T K V}.

Lemma kv_get_set_eq k v t : kv_get k (kv_set k v t) = Some v.
Proof. rewrite kv_get_set. by rewrite decide_True. Qed.
Lemma kv_get_set_ne k k' v t : k ≠ k' → kv_get k (kv_set k' v t) = kv_get k t.
Proof. intros. rewrite kv_get_set. by rewrite decide_False. Qed.
Lemma kv_get_del_eq k t : kv_get k (kv_del k t) = None.
Proof. rewrite kv_get_del. by rewrite decide_True. Qed.
Lemma kv_get_del_ne k k' t : k ≠ k' → kv_get k (kv_del k' t) = kv_get k t.
Proof. intros. rewrite kv_get_del. by rewrite decide_False. Qed.
End kv_lemmas.

(** Normalises the reads of a cache after writes. *)
Ltac kv_simpl :=
  repeat first
    [ rewrite kv_get_set_eq | rewrite kv_get_del_eq
    | rewrite kv_get_set_ne by key_neq | rewrite kv_get_del_ne by key_neq ].

(** ** The world of a service

    The shared cache, what the service has emitted so far, the number of
    random values drawn, the clock (milliseconds), and the service's own
    state. *)
Record world (C X : Type) := World {
  w_cache : C;
  w_out : list effect;
  w_rng : nat;
  w_now : Z;
  w_loc : X;
}.
Arguments World {C X}.
Arguments w_cache {C X}.
Arguments w_out {C X}.
Arguments w_rng {C X}.
Arguments w_now {C X}.
Arguments w_loc {C X}.

(** [crypto.randomUUID]: the n-th value drawn. *)
Class Random := { uuid_of : nat → string }.

(** [process.env] *)
Class Env := { env : string → option string }.
(** [parseInt(process.env.k)]; [parseInt(undefined)] is [NaN]. *)
Definition env_parseInt `{!Env} (k : string) : option Z := env k ≫= parseInt.

(** Whether a request to a URL is answered at a time; [fetch] throws a
    [TypeError] when it is not. *)
Class Network := { reachable : string → Z → bool }.

(** The Firestore collection [users], queried by uid. *)
Class Users := { users_by_uid : string → list User }.

Section primitives.
Context {C X : Type} `{!Cache C}.
Abbreviation W := (world C X).

Definition set_cache (f : C → C) (w : W) : W :=
  World (f (w_cache w)) (w_out w) (w_rng w) (w_now w) (w_loc w).
Definition set_loc (f : X → X) (w : W) : W :=
  World (w_cache w) (w_out w) (w_rng w) (w_now w) (f (w_loc w)).
Definition add_out (e : effect) (w : W) : W :=
  World (w_cache w) (w_out w ++ [e]) (w_rng w) (w_now w) (w_loc w).
Definition tick_rng (w : W) : W :=
  World (w_cache w) (w_out w) (S (w_rng w)) (w_now w) (w_loc w).

Definition emit (e : effect) : M W unit := modify (add_out e).
Definition now : M W Z := gets w_now.
Definition get_loc : M W X := gets w_loc.
Definition put_loc (f : X → X) : M W unit := modify (set_loc f).
Definition randomUUID `{!Random} : M W string :=
  λ w, (Ok (uuid_of (w_rng w)), tick_rng w).

Definition cache_get (k : string) : M W (option cval) :=
  gets (λ w, fst <$> kv_get k (w_cache w)).
Definition cache_set (k : string) (v : cval) (ttl : option Z) : M W unit :=
  modify (set_cache (kv_set k (v, ttl))).
Definition cache_del (k : string) : M W unit := modify (set_cache (kv_del k)).

(** [await fetch(url, { method })], the answer unused. *)
Definition fetch `{!Network} (method url : string) : M W unit :=
  bind (emit (Http method url)) (λ _, bind now (λ t,
    if reachable url t then ret tt else throw TypeError)).

(** [cache.get<T>(k)]: the value under [k] at the type its writers give it. *)
Definition presence_in (c : C) (uid : string) : option CachedPresence :=
  match kv_get (CACHEKEY_PRESENCE uid) c with Some (CPresence p, _) => Some p | _ => None end.
Definition workspace_in (c : C) (uuid : string) : option CachedWorkspace :=
  match kv_get (CACHEKEY_WORKSPACE uuid) c with Some (CWorkspace x, _) => Some x | _ => None end.
Definition membership_in (c : C) (uid : string) : option CachedMembership :=
  match kv_get (CACHEKEY_MEMBERSHIP uid) c with Some (CMembership m, _) => Some m | _ => None end.
Definition profile_in (c : C) (uid : string) : option User :=
  match kv_get (CACHEKEY_USER_PROFILE uid) c with Some (CProfile u, _) => Some u | _ => None end.

Definition cache_presence (uid : string) : M W (option CachedPresence) :=
  gets (λ w, presence_in (w_cache w) uid).
Definition cache_workspace (uuid : string) : M W (option CachedWorkspace) :=
  gets (λ w, workspace_in (w_cache w) uuid).
Definition cache_membership (uid : string) : M W (option CachedMembership) :=
  gets (λ w, membership_in (w_cache w) uid).
Definition cache_profile (uid : string) : M W (option User) :=
  gets (λ w, profile_in (w_cache w) uid).

(** [createMessage(uid, route, payload)] draws a request id. *)
Definition createMessage `{!Random} (uid route : string) : M W Meta :=
  bind randomUUID (λ rid, ret (MkMeta (Some uid) None (Some route) (Some rid))).

(** *** Frames: which part of the world an operation leaves alone *)
Lemma pres_loc_emit (P : X → Prop) e : preserves (λ w : W, P (w_loc w)) (emit e).
Proof. by intros w. Qed.
Lemma pres_loc_fetch `{!Network} (P : X → Prop) m u : preserves (λ w : W, P (w_loc w)) (fetch m u).
Proof. intros w Hw. unfold fetch, bind, emit, modify, now, gets. simpl. by destruct (reachable _ _). Qed.
Lemma pres_cache_fetch `{!Network} (P : C → Prop) m u : preserves (λ w : W, P (w_cache w)) (fetch m u).
Proof. intros w Hw. unfold fetch, bind, emit, modify, now, gets. simpl. by destruct (reachable _ _). Qed.
Lemma fetch_run `{!Network} m u (w : W) :
  fetch m u w = (if reachable u (w_now w) then Ok tt else Throw TypeError, add_out (Http m u) w).
Proof. unfold fetch, bind, emit, modify, now, gets. simpl. by destruct (reachable _ _). Qed.
Lemma pres_loc_cache_set (P : X → Prop) k v t : preserves (λ w : W, P (w_loc w)) (cache_set k v t).
Proof. by intros w. Qed.
Lemma pres_loc_cache_del (P : X → Prop) k : preserves (λ w : W, P (w_loc w)) (cache_del k).
Proof. by intros w. Qed.
Lemma pres_loc_uuid `{!Random} (P : X → Prop) : preserves (λ w : W, P (w_loc w)) randomUUID.
Proof. by intros w. Qed.
Lemma pres_loc_createMessage `{!Random} (P : X → Prop) u r :
  preserves (λ w : W, P (w_loc w)) (createMessage u r).
Proof. by intros w. Qed.
Lemma pres_cache_emit (P : C → Prop) e : preserves (λ w : W, P (w_cache w)) (emit e).
Proof. by intros w. Qed.
Lemma pres_cache_uuid `{!Random} (P : C → Prop) : preserves (λ w : W, P (w_cache w)) randomUUID.
Proof. by intros w. Qed.
Lemma pres_cache_createMessage `{!Random} (P : C → Prop) u r :
  preserves (λ w : W, P (w_cache w)) (createMessage u r).
Proof. by intros w. Qed.
Lemma pres_cache_put_loc (P : C → Prop) f : preserves (λ w : W, P (w_cache w)) (put_loc f).
Proof. by intros w. Qed.
Lemma pres_cache_set (P : C → Prop) k v t :
  (∀ c, P c → P (kv_set k (v, t) c)) → preserves (λ w : W, P (w_cache w)) (cache_set k v t).
Proof. intros H w. apply H. Qed.
Lemma pres_cache_del (P : C → Prop) k :
  (∀ c, P c → P (kv_del k c)) → preserves (λ w : W, P (w_cache w)) (cache_del k).
Proof. intros H w. apply H. Qed.
(** What has been sent stays sent. *)
Lemma pres_out_emit o e : preserves (λ w : W, o `prefix_of` w_out w) (emit e).
Proof. intros w [k Hk]. exists (k ++ [e]). simpl. by rewrite Hk, app_assoc. Qed.
Lemma pres_out_fetch `{!Network} o m u : preserves (λ w : W, o `prefix_of` w_out w) (fetch m u).
Proof. intros w Hw. rewrite fetch_run. by apply pres_out_emit. Qed.
Lemma pres_out_cache_set (P : list effect → Prop) k v t : preserves (λ w : W, P (w_out w)) (cache_set k v t).
Proof. by intros w. Qed.
Lemma pres_out_cache_del (P : list effect → Prop) k : preserves (λ w : W, P (w_out w)) (cache_del k).
Proof. by intros w. Qed.
Lemma pres_out_uuid `{!Random} (P : list effect → Prop) : preserves (λ w : W, P (w_out w)) randomUUID.
Proof. by intros w. Qed.
Lemma pres_out_createMessage `{!Random} (P : list effect → Prop) u r :
  preserves (λ w : W, P (w_out w)) (createMessage u r).
Proof. by intros w. Qed.
Lemma pres_out_put_loc (P : list effect → Prop) f : preserves (λ w : W, P (w_out w)) (put_loc f).
Proof. by intros w. Qed.
Lemma pres_now (P : W → Prop) : preserves P now.
Proof. by intros w. Qed.
Lemma pres_get_loc (P : W → Prop) : preserves P get_loc.
Proof. by intros w. Qed.
Lemma pres_cache_get (P : W → Prop) k : preserves P (cache_get k).
Proof. by intros w. Qed.
Lemma pres_cache_presence (P : W → Prop) k : preserves P (cache_presence k).
Proof. by intros w. Qed.
Lemma pres_cache_workspace (P : W → Prop) k : preserves P (cache_workspace k).
Proof. by intros w. Qed.
Lemma pres_cache_membership (P : W → Prop) k : preserves P (cache_membership k).
Proof. by intros w. Qed.
Lemma pres_cache_profile (P : W → Prop) k : preserves P (cache_profile k).
Proof. by intros w. Qed.
End primitives.

#[export] Hint Resolve pres_loc_fetch pres_cache_fetch pres_loc_emit pres_loc_cache_set pres_loc_cache_del pres_loc_uuid
  pres_loc_createMessage pres_cache_emit pres_cache_uuid pres_cache_createMessage
  pres_out_emit pres_out_fetch pres_out_cache_set pres_out_cache_del pres_out_uuid pres_out_createMessage
  pres_out_put_loc pres_cache_put_loc pres_now pres_get_loc pres_cache_get pres_cache_presence
  pres_cache_workspace pres_cache_membership pres_cache_profile : pres.

(** *** Loops that only read, or only emit *)
Section pure_loops.
Context {C X : Type}.
Abbreviation W := (world C X).

Definition add_outs (es : list effect) (w : W) : W :=
  World (w_cache w) (w_out w ++ es) (w_rng w) (w_now w) (w_loc w).

Lemma add_outs_nil w : add_outs [] w = w.
Proof. destruct w. unfold add_outs. simpl. by rewrite app_nil_r. Qed.

Lemma add_outs_add_outs es es' w : add_outs es' (add_outs es w) = add_outs (es ++ es') w.
Proof. unfold add_outs. simpl. by rewrite app_assoc. Qed.

Lemma mapM_reads {A B} (f : A → M W B) (g : A → W → B) l w :
  (∀ x, f x w = (Ok (g x w), w)) → mapM f l w = (Ok ((λ x, g x w) <$> l), w).
Proof.
  intros Hf. induction l as [|x l IH]; simpl; [done|].
  unfold bind. by rewrite Hf, IH.
Qed.

Lemma forM_emits {A} (f : A → M W unit) (g : A → list effect) l w :
  (∀ x w, f x w = (Ok tt, add_outs (g x) w)) →
  forM f l w = (Ok tt, add_outs (concat (g <$> l)) w).
Proof.
  intros Hf. revert w. induction l as [|x l IH]; intros w; simpl; [by rewrite add_outs_nil|].
  unfold bind. rewrite Hf, IH, add_outs_add_outs. done.
Qed.
End pure_loops.

(** Runs the cache and output primitives too. *)
Ltac wrun :=
  unfold emit, now, get_loc, put_loc, randomUUID, createMessage, cache_get, cache_set,
    cache_del, cache_presence, cache_workspace, cache_membership, cache_profile,
    set_cache, set_loc, add_out, tick_rng in *; mrun.

Section typed_reads.
Context {C : Type} `{!Cache C, !CacheLaws C}.

Lemma presence_in_set_eq u p t c :
  presence_in (kv_set (CACHEKEY_PRESENCE u) (CPresence p, t) c) u = Some p.
Proof. unfold presence_in. by kv_simpl. Qed.
Lemma presence_in_set_ne u k v c :
  k ≠ CACHEKEY_PRESENCE u → presence_in (kv_set k v c) u = presence_in c u.
Proof. intros. unfold presence_in. by rewrite kv_get_set_ne. Qed.
Lemma presence_in_del_ne u k c :
  k ≠ CACHEKEY_PRESENCE u → presence_in (kv_del k c) u = presence_in c u.
Proof. intros. unfold presence_in. by rewrite kv_get_del_ne. Qed.
Lemma presence_in_del_eq u c : presence_in (kv_del (CACHEKEY_PRESENCE u) c) u = None.
Proof. unfold presence_in. by kv_simpl. Qed.
Lemma workspace_in_set_eq u x t c :
  workspace_in (kv_set (CACHEKEY_WORKSPACE u) (CWorkspace x, t) c) u = Some x.
Proof. unfold workspace_in. by kv_simpl. Qed.
Lemma workspace_in_set_ne u k v c :
  k ≠ CACHEKEY_WORKSPACE u → workspace_in (kv_set k v c) u = workspace_in c u.
Proof. intros. unfold workspace_in. by rewrite kv_get_set_ne. Qed.
Lemma workspace_in_del_ne u k c :
  k ≠ CACHEKEY_WORKSPACE u → workspace_in (kv_del k c) u = workspace_in c u.
Proof. intros. unfold workspace_in. by rewrite kv_get_del_ne. Qed.
Lemma workspace_in_del_eq u c : workspace_in (kv_del (CACHEKEY_WORKSPACE u) c) u = None.
Proof. unfold workspace_in. by kv_simpl. Qed.
Lemma membership_in_set_eq u x t c :
  membership_in (kv_set (CACHEKEY_MEMBERSHIP u) (CMembership x, t) c) u = Some x.
Proof. unfold membership_in. by kv_simpl. Qed.
Lemma membership_in_set_ne u k v c :
  k ≠ CACHEKEY_MEMBERSHIP u → membership_in (kv_set k v c) u = membership_in c u.
Proof. intros. unfold membership_in. by rewrite kv_get_set_ne. Qed.
Lemma membership_in_del_ne u k c :
  k ≠ CACHEKEY_MEMBERSHIP u → membership_in (kv_del k c) u = membership_in c u.
Proof. intros. unfold membership_in. by rewrite kv_get_del_ne. Qed.
End typed_reads.

Ltac cache_simpl :=
  repeat first
    [ rewrite presence_in_set_eq | rewrite workspace_in_set_eq | rewrite membership_in_set_eq
    | rewrite presence_in_del_eq | rewrite workspace_in_del_eq
    | rewrite presence_in_set_ne by key_neq | rewrite presence_in_del_ne by key_neq
    | rewrite workspace_in_set_ne by key_neq | rewrite workspace_in_del_ne by key_neq
    | rewrite membership_in_set_ne by key_neq | rewrite membership_in_del_ne by key_neq
    | rewrite kv_get_set_eq | rewrite kv_get_del_eq
    | rewrite kv_get_set_ne by key_neq | rewrite kv_get_del_ne by key_neq ].

(** ** Relational tables

    [E] is the entity object handed to [save] (its undefined fields are
    [None]); [Row] is a stored row.  [save] inserts or updates by primary
    key and may fail (a constraint, the connection); so may [delete].  The
    order in which [find] returns rows is not specified. *)
Class Entity (E Row : Type) := {
  e_same : Row → Row → bool;      (* equal primary keys *)
  e_clash : Row → Row → bool;     (* equal on some unique column *)
  e_keyed : E → bool;             (* the entity carries its primary key *)
  e_generated : bool;             (* the database generates missing keys *)
  e_saved : E → Row → Prop;       (* the row carries the entity's fields *)
}.

Class Repo (T E Row : Type) := {
  r_find : (Row → bool) → T → list Row;
  r_save : E → T → option (Row * T);
  r_delete : (Row → bool) → T → option T;
}.

Definition r_rows {T E Row} `{!Repo T E Row} (t : T) : list Row := r_find (λ _, true) t.

Class RepoLaws (T E Row : Type) `{!Entity E Row, !Repo T E Row} : Prop := {
  r_find_rows p t : r_find p t ≡ₚ List.filter p (r_rows t);
  r_save_row e t r t' : r_save e t = Some (r, t') → e_saved e r;
  r_save_rows e t r t' : r_save e t = Some (r, t') →
    r_rows t' ≡ₚ r :: List.filter (λ x, negb (e_same r x)) (r_rows t);
  r_save_unique e t r t' x : r_save e t = Some (r, t') →
    x ∈ r_rows t → e_clash r x = true → e_same r x = true;
  r_save_fresh e t r t' x : r_save e t = Some (r, t') →
    e_keyed e = false → x ∈ r_rows t → e_same r x = false;
  r_save_keyed e t r t' : r_save e t = Some (r, t') →
    e_generated (E:=E) (Row:=Row) = false → e_keyed e = true;
  r_delete_rows p t t' : r_delete p t = Some t' →
    r_rows t' ≡ₚ List.filter (λ x, negb (p x)) (r_rows t);
}.

Definition r_findOne {T E Row} `{!Repo T E Row} (p : Row → bool) (t : T) : option Row :=
  head (r_find p t).

Section repo_lemmas.
Context {T E Row : Type} `{RepoLaws T E Row}.
Implicit Types (t : T) (p : Row → bool).

Lemma elem_r_find p t x : x ∈ r_find p t ↔ x ∈ r_rows t ∧ p x = true.
Proof. rewrite r_find_rows. apply elem_of_lfilter. Qed.

Lemma r_findOne_Some p t x : r_findOne p t = Some x → x ∈ r_rows t ∧ p x = true.
Proof.
  unfold r_findOne. intros Hx. apply elem_r_find.
  destruct (r_find p t); simplify_eq/=. by left.
Qed.

Lemma r_findOne_None p t : r_findOne p t = None ↔ ∀ x, x ∈ r_rows t → p x = false.
Proof.
  unfold r_findOne. split.
  - intros Hn x Hx. destruct (p x) eqn:Hp; [|done].
    assert (x ∈ r_find p t) as Hin by (by apply elem_r_find).
    destruct (r_find p t); [by apply elem_of_nil in Hin|done].
  - intros Hn. destruct (r_find p t) as [|x l] eqn:Hf; [done|].
    assert (x ∈ r_find p t) as [Hx Hp]%elem_r_find by (rewrite Hf; by left).
    rewrite Hn in Hp by done. done.
Qed.

Lemma elem_r_save e t r t' x :
  r_save e t = Some (r, t') →
  x ∈ r_rows t' ↔ x = r ∨ (x ∈ r_rows t ∧ e_same r x = false).
Proof.
  intros Hs. rewrite (r_save_rows _ _ _ _ Hs), elem_of_cons, elem_of_lfilter.
  by rewrite negb_true_iff.
Qed.

Lemma elem_r_delete p t t' x :
  r_delete p t = Some t' → x ∈ r_rows t' ↔ x ∈ r_rows t ∧ p x = false.
Proof.
  intros Hd. rewrite (r_delete_rows _ _ _ Hd), elem_of_lfilter. by rewrite negb_true_iff.
Qed.
End repo_lemmas.

(** A table of a service's state, and its monadic operations. *)
Class TableOf (X T : Type) := { tb_get : X → T; tb_set : T → X → X }.

Section table_ops.
Context {C X T E Row : Type} `{!Repo T E Row, !TableOf X T}.
Abbreviation W := (world C X).

Definition QueryFailed : exn := PlainError "QueryFailedError".

Definition t_find (p : Row → bool) : M W (list Row) :=
  gets (λ w, r_find p (tb_get (w_loc w))).
Definition t_findOne (p : Row → bool) : M W (option Row) :=
  gets (λ w, r_findOne p (tb_get (w_loc w))).
Definition t_count (p : Row → bool) : M W Z :=
  gets (λ w, Z.of_nat (length (r_find p (tb_get (w_loc w))))).
Definition t_save (e : E) : M W Row :=
  λ w, match r_save e (tb_get (w_loc w)) with
       | Some (r, t') => (Ok r, set_loc (tb_set t') w)
       | None => (Throw QueryFailed, w)
       end.
Definition t_delete (p : Row → bool) : M W unit :=
  λ w, match r_delete p (tb_get (w_loc w)) with
       | Some t' => (Ok tt, set_loc (tb_set t') w)
       | None => (Throw QueryFailed, w)
       end.

Lemma pres_t_find (P : W → Prop) p : preserves P (t_find p).
Proof. by intros w. Qed.
Lemma pres_t_findOne (P : W → Prop) p : preserves P (t_findOne p).
Proof. by intros w. Qed.
Lemma pres_t_count (P : W → Prop) p : preserves P (t_count p).
Proof. by intros w. Qed.
Lemma pres_cache_t_save (P : C → Prop) e : preserves (λ w : W, P (w_cache w)) (t_save e).
Proof. intros w. unfold t_save. by destruct (r_save _ _) as [[? ?]|]. Qed.
Lemma pres_cache_t_delete (P : C → Prop) p : preserves (λ w : W, P (w_cache w)) (t_delete p).
Proof. intros w. unfold t_delete. by destruct (r_delete _ _). Qed.
Lemma pres_out_t_save (P : list effect → Prop) e : preserves (λ w : W, P (w_out w)) (t_save e).
Proof. intros w. unfold t_save. by destruct (r_save _ _) as [[? ?]|]. Qed.
Lemma pres_out_t_delete (P : list effect → Prop) p : preserves (λ w : W, P (w_out w)) (t_delete p).
Proof. intros w. unfold t_delete. by destruct (r_delete _ _). Qed.
End table_ops.

#[export] Hint Resolve pres_t_find pres_t_findOne pres_t_count
  pres_cache_t_save pres_cache_t_delete pres_out_t_save pres_out_t_delete : pres.

(** [startTransaction] ... [commitTransaction], with [rollbackTransaction]
    and a re-throw on error: the service's tables return to where they
    were; messages sent and cache writes done meanwhile are not undone. *)
Definition transact {C X A : Type} (m : M (world C X) A) : M (world C X) A :=
  λ w, match m w with
       | (Ok a, w') => (Ok a, w')
       | (Throw e, w') => (Throw e, set_loc (λ _, w_loc w) w')
       end.

Lemma transact_throw {C X A} (m : M (world C X) A) w e w' :
  transact m w = (Throw e, w') → w_loc w' = w_loc w.
Proof. unfold transact. destruct (m w) as [[]]; intros; by simplify_eq. Qed.

Lemma transact_ok {C X A} (m : M (world C X) A) w a w' :
  transact m w = (Ok a, w') → m w = (Ok a, w').
Proof. unfold transact. destruct (m w) as [[]]; intros; by simplify_eq. Qed.

Lemma preserves_transact {C X A} (P : X → Prop) (m : M (world C X) A) :
  preserves (λ w, P (w_loc w)) m → preserves (λ w, P (w_loc w)) (transact m).
Proof.
  intros Hm w Hw. unfold transact. specialize (Hm w Hw). by destruct (m w) as [[]].
Qed.

Lemma preserves_transact_cache {C X A} (P : C → Prop) (m : M (world C X) A) :
  preserves (λ w, P (w_cache w)) m → preserves (λ w, P (w_cache w)) (transact m).
Proof.
  intros Hm w Hw. unfold transact. specialize (Hm w Hw). by destruct (m w) as [[]].
Qed.

Lemma preserves_transact_out {C X A} (P : list effect → Prop) (m : M (world C X) A) :
  preserves (λ w, P (w_out w)) m → preserves (λ w, P (w_out w)) (transact m).
Proof.
  intros Hm w Hw. unfold transact. specialize (Hm w Hw). by destruct (m w) as [[]].
Qed.

(** The messages a run adds. *)
Lemma run_grows {C X A} (m : M (world C X) A) w r w' :
  (∀ o, preserves (λ w, o `prefix_of` w_out w) m) → m w = (r, w') →
  ∃ es, w_out w' = w_out w ++ es.
Proof.
  intros Hm Hrun. specialize (Hm (w_out w) w). rewrite Hrun in Hm. by apply Hm.
Qed.

(** ** Instances: the laws can be met *)

#[global] Instance gmap_KV K V `{Countable K} : KV (gmap K V) K V := {
  kv_get k m := m !! k;
  kv_set k v m := <[k := v]> m;
  kv_del k m := delete k m;
}.

#[global] Instance gmap_KVLaws K V `{Countable K} : KVLaws (gmap K V) K V.
Proof.
  split; intros; simpl.
  - rewrite lookup_insert. repeat case_decide; congruence.
  - rewrite lookup_delete. repeat case_decide; congruence.
Qed.

(** A table as a list of rows and the next identifier; [merge e old n] is
    the row that [save] stores, [None] when a required column is missing. *)
Record ltable (Row : Type) := LTable { lt_rows : list Row; lt_next : Z }.
Arguments LTable {Row}.
Arguments lt_rows {Row}.
Arguments lt_next {Row}.

Class Mergeable (E Row : Type) `{!Entity E Row} := {
  mg_match : E → Row → bool;
  mg_merge : E → option Row → Z → option Row;
  mg_saved e o n r : mg_merge e o n = Some r → e_saved e r;
}.

Section list_repo.
Context {E Row : Type} `{Mergeable E Row}.

Definition lsave (e : E) (t : ltable Row) : option (Row * ltable Row) :=
  match mg_merge e (List.find (mg_match e) (lt_rows t)) (lt_next t) with
  | None => None
  | Some r =>
      if existsb (λ x, e_clash r x && negb (e_same r x)) (lt_rows t) then None
      else if negb (e_keyed e || e_generated (E:=E) (Row:=Row)) then None
      else if negb (e_keyed e) && existsb (e_same r) (lt_rows t) then None
      else Some (r, LTable (r :: List.filter (λ x, negb (e_same r x)) (lt_rows t)) (lt_next t + 1))
  end.

#[global] Instance list_Repo : Repo (ltable Row) E Row := {
  r_find p t := List.filter p (lt_rows t);
  r_save := lsave;
  r_delete p t := Some (LTable (List.filter (λ x, negb (p x)) (lt_rows t)) (lt_next t));
}.

Lemma list_r_rows (t : ltable Row) : r_rows t = lt_rows t.
Proof.
  unfold r_rows. simpl. induction (lt_rows t) as [|x l IH]; simpl; [done|by rewrite IH].
Qed.

Lemma lsave_inv e t r t' :
  lsave e t = Some (r, t') →
  e_saved e r ∧ lt_rows t' = r :: List.filter (λ x, negb (e_same r x)) (lt_rows t) ∧
  (∀ x, x ∈ lt_rows t → e_clash r x = true → e_same r x = true) ∧
  (e_keyed e = false → ∀ x, x ∈ lt_rows t → e_same r x = false) ∧
  (e_generated (E:=E) (Row:=Row) = false → e_keyed e = true).
Proof.
  unfold lsave. destruct (mg_merge _ _ _) as [r0|] eqn:Hm; [|done].
  destruct (existsb _ _) eqn:Hc; [done|].
  destruct (negb _) eqn:Hg; [done|].
  destruct (negb _ && _) eqn:Hk; [done|]. intros ?; simplify_eq/=.
  split; [by eapply mg_saved|]. split; [done|].
  apply negb_false_iff, orb_true_iff in Hg. split; [|split; [clear Hg|intros; destruct Hg; congruence] ].
  - intros x Hx Hcl. destruct (e_same r x) eqn:Hs; [done|].
    exfalso. apply not_true_iff_false in Hc. apply Hc, List.existsb_exists. exists x.
    rewrite <- list_elem_of_In. by rewrite Hcl, Hs.
  - intros Hkey x Hx. rewrite Hkey in Hk. simpl in Hk.
    destruct (e_same r x) eqn:Hs; [|done].
    exfalso. apply not_true_iff_false in Hk. apply Hk, List.existsb_exists. exists x.
    by rewrite <- list_elem_of_In.
Qed.

#[global] Instance list_RepoLaws : RepoLaws (ltable Row) E Row.
Proof.
  split; intros *; rewrite ?list_r_rows.
  - done.
  - intros (? & _)%lsave_inv. done.
  - intros (_ & -> & _)%lsave_inv. done.
  - intros (_ & _ & ? & _)%lsave_inv. auto.
  - intros (_ & _ & _ & ? & _)%lsave_inv. auto.
  - intros (_ & _ & _ & _ & ?)%lsave_inv. auto.
  - intros. simplify_eq/=. done.
Qed.
End list_repo.
