(* ===== verification/ClientTypes.v ===== *)
(** The types of the messages to clients ([libs/common/message]): for each
    message the event name it is declared under and its [action], and when a
    message sent by a service has its declared type. *)
From S2P Require Import Prelude JS Messages Keys Interfaces.

(** [SSHResponseMap] *)
Definition ssh_action (m : OutMsg) : option string :=
  match m with
  | SSHOpen _ _ => Some "open"
  | SSHOutput _ _ => Some "output"
  | SSHError _ => Some "error"
  | SSHClosed _ _ => Some "closed"
  | _ => None
  end.

(** [FSResponseMap] *)
Definition fs_action (m : OutMsg) : option string :=
  match m with
  | FSBatch _ => Some "batch"
  | FSBlock _ => Some "block"
  | FSResume _ => Some "resume"
  | FSSyncOut _ _ _ => Some "sync"
  | FSLost _ => Some "lost"
  | FSDisplaced _ _ => Some "displaced"
  | FSConflict _ _ _ => Some "conflict"
  | FSResolved _ _ => Some "resolved"
  | _ => None
  end.

(** [EnvResponseMap]; no service sends its [error]. *)
Definition env_response_action (m : OutMsg) : option string :=
  match m with
  | EnvDisconnect _ => Some "disconnect"
  | EnvAwareness _ => Some "awareness"
  | _ => None
  end.

(** [ProvisionResponseMap]; of its four messages these services send one. *)
Definition provision_action (m : OutMsg) : option string :=
  match m with ProvisionReady _ => Some "ready" | _ => None end.

(** [WorkspaceResponseMap] *)
Definition workspace_action (m : OutMsg) : option string :=
  match m with MembersModifiedMsg _ => Some "members.modified" | _ => None end.

(** [NotificationPayloadMap] *)
Definition notification_action (m : OutMsg) : option string :=
  match m with
  | NtfnNew _ => Some "new"
  | NtfnPending _ => Some "pending"
  | NtfnDirective _ => Some "directive"
  | _ => None
  end.

(** The answers of the index signature of [OutSocketMessageActionMap]. *)
Definition reply_action (m : OutMsg) : option string :=
  match m with
  | RespEntries _ _ | RespFile _ _ | RespSuccess => Some "success"
  | RespError _ => Some "error"
  | _ => None
  end.

(** [OutSocketMessageActionMap]: the action of a message under an event
    name, [None] when the event does not carry such a message.  Under any
    other name only answers go out. *)
Definition action_under (event : string) (m : OutMsg) : option string :=
  if bool_decide (event = "ssh") then ssh_action m
  else if bool_decide (event = "notification") then notification_action m
  else if bool_decide (event = "fs") then fs_action m
  else if bool_decide (event = "env") then env_response_action m
  else if bool_decide (event = "provision") then provision_action m
  else if bool_decide (event = "workspace") then workspace_action m
  else reply_action m.

(** The declared names of events. *)
Definition event_names : list string :=
  ["ssh"; "notification"; "fs"; "env"; "provision"; "workspace"].

Definition well_named (event : string) (m : OutMsg) : bool :=
  match action_under event m with Some _ => true | None => false end.

Lemma reply_well_named cid m :
  cid ∉ event_names → is_Some (reply_action m) → well_named cid m = true.
Proof.
  unfold event_names. rewrite !not_elem_of_cons. intros (? & ? & ? & ? & ? & ? & _) Hr.
  unfold well_named, action_under. rewrite !(bool_decide_false (cid = _)) by done.
  by destruct Hr as [? ->].
Qed.

(** Each message has exactly one kind of name: answers go under the client's
    own names, the others under one declared event. *)
Lemma action_under_unique e e' m :
  e ∈ event_names → well_named e m = true → well_named e' m = true → e' = e.
Proof.
  unfold event_names, well_named, action_under. intros He H1 H2.
  repeat (apply elem_of_cons in He as [->|He]); [..|by apply elem_of_nil in He]; simpl in H1;
    repeat (case_bool_decide; [subst; done || by destruct m|]); by destruct m.
Qed.

(** The correlation ids clients have used: the names under which they may be
    answered.  Nothing keeps a client from using the name of an event. *)
Class ClientIds := { client_id : string → Prop }.
Definition any_ids : ClientIds := {| client_id _ := True |}.
Definition cid_ok `{!ClientIds} (cid : option string) : Prop := ∀ c, cid = Some c → client_id c.

(** A message has the type declared for its event, or is an answer under a
    client's correlation id. *)
Definition typed_msg `{!ClientIds} (event : string) (m : OutMsg) : Prop :=
  well_named event m = true ∨ (is_Some (reply_action m) ∧ client_id event).

(** A message that passes the socket controller, or reaches a socket. *)
Definition typed_effect `{!ClientIds} (e : effect) : Prop :=
  match e with
  | Redis _ _ (SocketSend _ _ pattern msg) => typed_msg pattern msg
  | Redis _ _ (SocketBroadcast _ _ pattern msg) => typed_msg pattern msg
  | Redis _ _ (EnvMessage msg) | Nats _ _ (EnvMessage msg) => cid_ok (im_correlationId msg)
  | Redis _ _ (InterEnvFSOpen _ _ _ cid) => cid_ok cid
  | ToSocket _ event msg => typed_msg event msg
  | _ => True
  end.
Definition typed_out `{!ClientIds} {C X} (w : world C X) : Prop := Forall typed_effect (w_out w).

Lemma named_typed `{!ClientIds} event m : well_named event m = true → typed_msg event m.
Proof. by left. Qed.
Lemma reply_typed `{!ClientIds} cid m : cid_ok (Some cid) → is_Some (reply_action m) → typed_msg cid m.
Proof. intros Hc Hr. right. split; [done|by apply Hc]. Qed.
