(* ===== verification/Validation.v ===== *)
(** Input validation: the regular expressions of [utils/constants.ts] in the
    gateway, user and workspace services, as syntax with a derivative
    matcher, and what each accepts.  Characters are 8-bit code units. *)
From S2P Require Import Prelude JS.
From Stdlib Require Import Lia.

(** ** Regular expressions *)
Inductive regex :=
| RNone
| REps
| RChar (p : ascii → bool)
| RCat (a b : regex)
| RAlt (a b : regex)
| RStar (a : regex).

(** [a+] and [a{3,}] *)
Definition RPlus (a : regex) : regex := RCat a (RStar a).
Definition RAtLeast3 (a : regex) : regex := RCat a (RCat a (RCat a (RStar a))).

(** The language of an expression. *)
Inductive matches : regex → list ascii → Prop :=
| m_eps : matches REps []
| m_char p c : p c = true → matches (RChar p) [c]
| m_cat a b u v : matches a u → matches b v → matches (RCat a b) (u ++ v)
| m_alt_l a b u : matches a u → matches (RAlt a b) u
| m_alt_r a b u : matches b u → matches (RAlt a b) u
| m_star_nil a : matches (RStar a) []
| m_star_cons a u v : matches a u → matches (RStar a) v → matches (RStar a) (u ++ v).

Fixpoint nullable (r : regex) : bool :=
  match r with
  | RNone | RChar _ => false
  | REps | RStar _ => true
  | RCat a b => nullable a && nullable b
  | RAlt a b => nullable a || nullable b
  end.

Fixpoint deriv (c : ascii) (r : regex) : regex :=
  match r with
  | RNone | REps => RNone
  | RChar p => if p c then REps else RNone
  | RCat a b => if nullable a then RAlt (RCat (deriv c a) b) (deriv c b)
                else RCat (deriv c a) b
  | RAlt a b => RAlt (deriv c a) (deriv c b)
  | RStar a => RCat (deriv c a) (RStar a)
  end.

(** [/^r$/.test(s)] *)
Fixpoint rmatch (r : regex) (s : string) : bool :=
  match s with
  | EmptyString => nullable r
  | String c s' => rmatch (deriv c r) s'
  end.

Fixpoint chars (s : string) : list ascii :=
  match s with EmptyString => [] | String c s' => c :: chars s' end.

Lemma nullable_spec r : nullable r = true ↔ matches r [].
Proof.
  split.
  - induction r; simpl; intros Hn; try done; try (by constructor).
    + apply andb_true_iff in Hn as [? ?]. apply (m_cat _ _ [] []); auto.
    + apply orb_true_iff in Hn as [?|?]; [apply m_alt_l|apply m_alt_r]; auto.
  - intros Hm. remember [] as l eqn:Hl. induction Hm; simpl; simplify_eq; try done.
    + apply app_nil in Hl as [-> ->]. by rewrite IHHm1, IHHm2.
    + by rewrite IHHm.
    + by rewrite IHHm, orb_true_r.
Qed.

Lemma star_cons_inv a c s :
  matches (RStar a) (c :: s) →
  ∃ u v, s = u ++ v ∧ matches a (c :: u) ∧ matches (RStar a) v.
Proof.
  intros Hm. remember (RStar a) as r eqn:Hr. remember (c :: s) as l eqn:Hl.
  revert c s Hl. induction Hm as [| | | | | |a' u v Ha _ Hv IH]; intros; simplify_eq.
  destruct u as [|c' u]; simplify_eq/=; [by apply IH|]. eauto 6.
Qed.

Lemma deriv_spec c r s : matches (deriv c r) s ↔ matches r (c :: s).
Proof.
  revert s. induction r as [| |p|a IHa b IHb|a IHa b IHb|a IHa]; intros s; simpl.
  - split; inversion 1.
  - split; inversion 1.
  - destruct (p c) eqn:Hp; split; intros Hm; inversion Hm; subst; (apply m_char || apply m_eps || congruence); done.
  - assert (matches (RCat (deriv c a) b) s ↔
            ∃ u v, s = u ++ v ∧ matches a (c :: u) ∧ matches b v) as Hcat.
    { split.
      - inversion 1; subst. eexists _, _. by rewrite <- IHa.
      - intros (u & v & -> & Hu & Hv). constructor; [by apply IHa|done]. }
    assert (matches (RCat a b) (c :: s) ↔
            (∃ u v, s = u ++ v ∧ matches a (c :: u) ∧ matches b v) ∨
            (matches a [] ∧ matches b (c :: s))) as Hsplit.
    { split.
      - inversion 1 as [| |? ? u v Hu Hv Heq| | | |]; subst.
        destruct u as [|c' u]; simplify_eq/=; [right|left]; eauto.
      - intros [(u & v & -> & Hu & Hv)|[Hn Hb]].
        + by apply (m_cat a b (c :: u) v).
        + by apply (m_cat a b [] (c :: s)). }
    destruct (nullable a) eqn:Hn.
    + apply nullable_spec in Hn. rewrite Hsplit. split.
      * inversion 1; subst; [left; by apply Hcat|right; by rewrite <- IHb].
      * intros [?|[_ ?]]; [apply m_alt_l, Hcat|apply m_alt_r, IHb]; done.
    + rewrite Hcat, Hsplit. split; [by left|]. intros [?|[Hn' _]]; [done|].
      apply nullable_spec in Hn'. congruence.
  - split; inversion 1; subst; solve [by apply m_alt_l, IHa | by apply m_alt_r, IHb].
  - split.
    + inversion 1; subst. apply (m_star_cons a (c :: u) v); [by apply IHa|done].
    + intros (u & v & -> & Hu & Hv)%star_cons_inv. constructor; [by apply IHa|done].
Qed.

(** The matcher decides the language. *)
Lemma rmatch_spec r s : rmatch r s = true ↔ matches r (chars s).
Proof.
  revert r. induction s as [|c s IH]; intros r; simpl; [apply nullable_spec|].
  by rewrite IH, deriv_spec.
Qed.

Lemma matches_star_char p l :
  matches (RStar (RChar p)) l ↔ Forall (λ c, p c = true) l.
Proof.
  induction l as [|c l IH]; [split; by constructor|]. rewrite Forall_cons, <- IH. split.
  - intros (u & v & -> & Hu & Hv)%star_cons_inv. by inversion Hu; subst.
  - intros [Hc Hl]. by apply (m_star_cons _ [c] l); [constructor|].
Qed.

Lemma matches_cat_char p r l :
  matches (RCat (RChar p) r) l ↔ ∃ c l', l = c :: l' ∧ p c = true ∧ matches r l'.
Proof.
  split.
  - inversion 1 as [| |? ? u v Hu Hv| | | |]; subst. inversion Hu; subst. simpl. eauto.
  - intros (c & l' & -> & Hc & Hl). by apply (m_cat _ _ [c] l'); [constructor|].
Qed.

Lemma matches_atleast3 p l :
  matches (RAtLeast3 (RChar p)) l ↔ Forall (λ c, p c = true) l ∧ (3 ≤ length l)%nat.
Proof.
  unfold RAtLeast3. setoid_rewrite matches_cat_char. setoid_rewrite matches_cat_char.
  setoid_rewrite matches_cat_char. setoid_rewrite matches_star_char. split.
  - intros (a & ? & -> & ? & b & ? & -> & ? & c & ? & -> & ? & ?).
    split; [by repeat constructor|simpl; lia].
  - intros [Hf Hl]. destruct l as [|a [|b [|c l]]]; simpl in Hl; try lia.
    repeat (apply Forall_cons in Hf as [? Hf]). eauto 20.
Qed.

(** ** The expressions of the services *)

(** The double quote, code 34. *)
Definition dquote : ascii := ascii_of_nat 34.

Definition reserved : list ascii :=
  dquote :: chars "!@#$%^&*()+={}[]`~:;?/<>".

(** JavaScript's [.]: anything but a line terminator. *)
Definition dot (c : ascii) : bool := bool_decide (nat_of_ascii c ∉ [10; 13]%nat).
Definition not_reserved (c : ascii) : bool := bool_decide (c ∉ reserved).
Definition not_reserved_nor_space (c : ascii) : bool := not_reserved c && negb (is_space c).
Definition not_space_nor_at (c : ascii) : bool := negb (is_space c) && bool_decide (c ≠ "@"%char).

(** [^.[^...]{3,}$] *)
Definition nameRegex : regex := RCat (RChar dot) (RAtLeast3 (RChar not_reserved)).
(** [^[^...\s]{3,}$] *)
Definition usernameRegex : regex := RAtLeast3 (RChar not_reserved_nor_space).
(** [^[^\s@]+@[^\s@]+\.[^\s@]+$] *)
Definition emailRegex : regex :=
  RCat (RPlus (RChar not_space_nor_at))
    (RCat (RChar (λ c, bool_decide (c = "@"%char)))
      (RCat (RPlus (RChar not_space_nor_at))
        (RCat (RChar (λ c, bool_decide (c = "."%char)))
          (RPlus (RChar not_space_nor_at))))).

(** A valid name has at least four characters, and no reserved character
    after the first one. *)
Lemma nameRegex_spec s :
  rmatch nameRegex s = true ↔
  ∃ c l, chars s = c :: l ∧ dot c = true ∧ (3 ≤ length l)%nat ∧ (∀ x, x ∈ l → x ∉ reserved).
Proof.
  rewrite rmatch_spec. unfold nameRegex. rewrite matches_cat_char.
  setoid_rewrite matches_atleast3. setoid_rewrite Forall_forall.
  unfold not_reserved. setoid_rewrite bool_decide_eq_true. naive_solver.
Qed.

(** A valid username has at least three characters, none of them reserved or
    white space. *)
Lemma usernameRegex_spec s :
  rmatch usernameRegex s = true ↔
  (3 ≤ length (chars s))%nat ∧ (∀ x, x ∈ chars s → (x ∉ reserved) ∧ is_space x = false).
Proof.
  rewrite rmatch_spec. unfold usernameRegex. rewrite matches_atleast3, Forall_forall.
  unfold not_reserved_nor_space, not_reserved.
  setoid_rewrite andb_true_iff. setoid_rewrite bool_decide_eq_true.
  setoid_rewrite negb_true_iff. naive_solver.
Qed.

Example name_ok : rmatch nameRegex "my workspace" = true.
Proof. vm_compute. reflexivity. Qed.
Example name_short : rmatch nameRegex "abc" = false.
Proof. vm_compute. reflexivity. Qed.
Example email_ok : rmatch emailRegex "a.b@c.d.org" = true.
Proof. vm_compute. reflexivity. Qed.
Example email_bad : rmatch emailRegex "a@b@c.org" = false.
Proof. vm_compute. reflexivity. Qed.
