(* ===== verification/Codec.v ===== *)
(** The encodings of Node.js the services exchange data in: UTF-8 and base64
    ([Buffer]) and [JSON].  A string is a sequence of characters below 256;
    where decoding would give another character the decoders here give
    nothing.  Each decoder undoes its encoder. *)
From S2P Require Import Prelude JS Validation.
From Stdlib Require Import Lia NArith.

(** Linear arithmetic with the quotients and remainders of the encodings. *)
Ltac dlia := zify; Z.to_euclidean_division_equations; lia.

Lemma N_ascii_small n : (n < 256)%N → N_of_ascii (ascii_of_N n) = n.
Proof. intros Hn. by apply N_ascii_embedding. Qed.
Lemma ascii_N_bound c : (N_of_ascii c < 256)%N.
Proof. destruct c as [[] [] [] [] [] [] [] []]; vm_compute; reflexivity. Qed.
Lemma ascii_is n c : n = N_of_ascii c → ascii_of_N n = c.
Proof. intros ->. apply ascii_N_embedding. Qed.

(** ** UTF-8: [Buffer.from(s)] and [buffer.toString()] *)
Definition utf8_char (c : ascii) : list ascii :=
  let n := N_of_ascii c in
  if (n <? 128)%N then [c] else [ascii_of_N (192 + n / 64); ascii_of_N (128 + n mod 64)].
Fixpoint utf8_encode (s : string) : list ascii :=
  match s with EmptyString => [] | String c s => utf8_char c ++ utf8_encode s end.

Fixpoint utf8_decode (l : list ascii) : option string :=
  match l with
  | [] => Some EmptyString
  | b :: l =>
      let n := N_of_ascii b in
      if (n <? 128)%N then String b <$> utf8_decode l
      else match l with
           | b2 :: l =>
               let m := N_of_ascii b2 in
               if ((n =? 194) || (n =? 195))%N && ((128 <=? m) && (m <? 192))%N
               then String (ascii_of_N ((n - 192) * 64 + (m - 128))) <$> utf8_decode l
               else None
           | [] => None
           end
  end.

Lemma utf8_roundtrip s : utf8_decode (utf8_encode s) = Some s.
Proof.
  induction s as [|c s IH]; [done|]. cbn [utf8_encode]. unfold utf8_char.
  pose proof (ascii_N_bound c) as Hc. destruct (N_of_ascii c <? 128)%N eqn:Hn.
  - cbn. rewrite Hn. by rewrite IH.
  - apply N.ltb_ge in Hn. cbn [app utf8_decode]. rewrite !N_ascii_small by dlia.
    replace (192 + N_of_ascii c / 64 <? 128)%N with false by (symmetry; apply N.ltb_ge; dlia).
    assert (192 + N_of_ascii c / 64 = 194 ∨ 192 + N_of_ascii c / 64 = 195)%N as Hlead by dlia.
    replace (((192 + N_of_ascii c / 64 =? 194) || (192 + N_of_ascii c / 64 =? 195))%N) with true
      by (by destruct Hlead as [-> | ->]).
    replace ((128 <=? 128 + N_of_ascii c mod 64) && (128 + N_of_ascii c mod 64 <? 192))%N with true.
    2:{ symmetry. apply andb_true_iff. rewrite N.leb_le, N.ltb_lt. dlia. }
    replace ((192 + N_of_ascii c / 64 - 192) * 64 + (128 + N_of_ascii c mod 64 - 128))%N with (N_of_ascii c) by dlia.
    cbn [andb]. by rewrite IH, ascii_N_embedding.
Qed.

(** ** Base64: [buffer.toString('base64')] and [Buffer.from(s, 'base64')] *)
Definition b64_char (n : N) : ascii :=
  ascii_of_N (if n <? 26 then 65 + n else if n <? 52 then 71 + n else if n <? 62 then n - 4
              else if n =? 62 then 43 else 47)%N.
(** Both alphabets are read; other characters are skipped. *)
Definition b64_val (c : ascii) : option N :=
  let n := N_of_ascii c in
  if ((65 <=? n) && (n <=? 90))%N then Some (n - 65)%N
  else if ((97 <=? n) && (n <=? 122))%N then Some (n - 71)%N
  else if ((48 <=? n) && (n <=? 57))%N then Some (n + 4)%N
  else if ((n =? 43) || (n =? 45))%N then Some 62%N
  else if ((n =? 47) || (n =? 95))%N then Some 63%N
  else None.

Definition b64_pad : ascii := "="%char.
Fixpoint base64_encode (l : list ascii) : string :=
  match l with
  | a :: b :: c :: l =>
      let '(a, b, c) := (N_of_ascii a, N_of_ascii b, N_of_ascii c) in
      String (b64_char (a / 4)) (String (b64_char (a mod 4 * 16 + b / 16))
        (String (b64_char (b mod 16 * 4 + c / 64)) (String (b64_char (c mod 64)) (base64_encode l))))
  | [a; b] =>
      let '(a, b) := (N_of_ascii a, N_of_ascii b) in
      String (b64_char (a / 4)) (String (b64_char (a mod 4 * 16 + b / 16))
        (String (b64_char (b mod 16 * 4)) (String b64_pad EmptyString)))
  | [a] =>
      let a := N_of_ascii a in
      String (b64_char (a / 4)) (String (b64_char (a mod 4 * 16)) (String b64_pad (String b64_pad EmptyString)))
  | [] => EmptyString
  end%N.

Fixpoint b64_unpack (l : list N) : list ascii :=
  match l with
  | x :: y :: z :: t :: l =>
      ascii_of_N (x * 4 + y / 16) :: ascii_of_N (y mod 16 * 16 + z / 4) :: ascii_of_N (z mod 4 * 64 + t) :: b64_unpack l
  | [x; y; z] => [ascii_of_N (x * 4 + y / 16); ascii_of_N (y mod 16 * 16 + z / 4)]
  | [x; y] => [ascii_of_N (x * 4 + y / 16)]
  | _ => []
  end%N.
Definition base64_decode (s : string) : list ascii := b64_unpack (omap b64_val (chars s)).

Lemma b64_val_char n : (n < 64)%N → b64_val (b64_char n) = Some n.
Proof.
  intros Hn. assert (Forall (λ k, b64_val (b64_char (N.of_nat k)) = Some (N.of_nat k)) (seq 0 64)) as Hall.
  { repeat constructor. }
  rewrite Forall_forall in Hall. specialize (Hall (N.to_nat n)). rewrite N2Nat.id in Hall. apply Hall, elem_of_seq. lia.
Qed.

Lemma b64_val_pad : b64_val b64_pad = None.
Proof. reflexivity. Qed.

Lemma base64_roundtrip l : base64_decode (base64_encode l) = l.
Proof.
  unfold base64_decode. induction l as [l IH] using (induction_ltof1 _ length). unfold ltof in IH.
  assert (∀ c, N_of_ascii c < 256)%N as Hb by exact ascii_N_bound.
  destruct l as [|a [|b [|c l]]]; [done|..]; cbn [base64_encode chars omap list_omap].
  all: repeat match goal with x : ascii |- _ => lazymatch goal with H : (N_of_ascii x < 256)%N |- _ => fail | _ => pose proof (Hb x) end end.
  all: rewrite !b64_val_char by dlia; rewrite ?b64_val_pad; cbn [b64_unpack].
  all: repeat first [apply ascii_is; dlia | progress f_equal]. apply IH. simpl. lia.
Qed.

(** ** JSON *)
Unset Elimination Schemes.
Inductive jval :=
| JNull
| JBool (b : bool)
| JNum (lit : string)       (* a number, as it is written *)
| JStr (s : string)
| JArr (l : list jval)
| JObj (o : list (string * jval)).
Set Elimination Schemes.

Definition jval_ind (P : jval → Prop) (Hnull : P JNull) (Hbool : ∀ b, P (JBool b)) (Hnum : ∀ lit, P (JNum lit))
    (Hstr : ∀ s, P (JStr s)) (Harr : ∀ l, Forall P l → P (JArr l))
    (Hobj : ∀ o, Forall (λ kv, P kv.2) o → P (JObj o)) : ∀ v, P v :=
  fix go v := match v with
  | JNull => Hnull | JBool b => Hbool b | JNum lit => Hnum lit | JStr s => Hstr s
  | JArr l => Harr l ((fix each l : Forall P l :=
      match l with [] => Forall_nil_2 _ | v :: l => Forall_cons_2 _ _ _ (go v) (each l) end) l)
  | JObj o => Hobj o ((fix each o : Forall (λ kv, P kv.2) o :=
      match o with [] => Forall_nil_2 _ | kv :: o => Forall_cons_2 _ _ _ (go kv.2) (each o) end) o)
  end.

Definition dquote : ascii := "034"%char.
Definition backslash : ascii := "092"%char.

(** *** [JSON.stringify] *)
Definition hex_digit (n : N) : ascii := ascii_of_N (if n <? 10 then 48 + n else 87 + n)%N.
(** The letter of a short escape. *)
Definition short_escape (c : ascii) : option ascii :=
  match N_of_ascii c with
  | 8 => Some "b"%char | 9 => Some "t"%char | 10 => Some "n"%char | 12 => Some "f"%char | 13 => Some "r"%char
  | 34 => Some dquote | 92 => Some backslash | _ => None
  end%N.
Definition escape (c : ascii) (s : string) : string :=
  match short_escape c with
  | Some e => String backslash (String e s)
  | None =>
      let n := N_of_ascii c in
      if (n <? 32)%N
      then String backslash (String "u" (String "0" (String "0" (String (hex_digit (n / 16)) (String (hex_digit (n mod 16)) s)))))
      else String c s
  end.
(** The string with its closing quote, followed by [rest]. *)
Fixpoint escaped (s rest : string) : string :=
  match s with EmptyString => String dquote rest | String c s => escape c (escaped s rest) end.
Definition quoted (s rest : string) : string := String dquote (escaped s rest).

(** The text of a value followed by [rest]. *)
Fixpoint print (v : jval) (rest : string) : string :=
  match v with
  | JNull => "null" +:+ rest
  | JBool true => "true" +:+ rest
  | JBool false => "false" +:+ rest
  | JNum lit => lit +:+ rest
  | JStr s => quoted s rest
  | JArr [] => "[]" +:+ rest
  | JArr (v :: l) =>
      String "[" (print v ((fix more l := match l with [] => String "]" rest | v :: l => String "," (print v (more l)) end) l))
  | JObj [] => "{}" +:+ rest
  | JObj ((k, v) :: o) =>
      String "{" (quoted k (String ":" (print v ((fix more o :=
        match o with [] => String "}" rest | (k, v) :: o => String "," (quoted k (String ":" (print v (more o)))) end) o))))
  end.
Definition stringify (v : jval) : string := print v EmptyString.

(** *** [JSON.parse] *)
Definition is_ws (c : ascii) : bool :=
  match N_of_ascii c with 9 | 10 | 13 | 32 => true | _ => false end%N.
Fixpoint skip_ws (s : string) : string :=
  match s with String c s' => if is_ws c then skip_ws s' else s | EmptyString => s end.

Definition hex_val (c : ascii) : option N :=
  let n := N_of_ascii c in
  if ((48 <=? n) && (n <=? 57))%N then Some (n - 48)%N
  else if ((97 <=? n) && (n <=? 102))%N then Some (n - 87)%N
  else if ((65 <=? n) && (n <=? 70))%N then Some (n - 55)%N else None.
Definition unescape (e : ascii) : option ascii :=
  match N_of_ascii e with
  | 98 => Some "008"%char | 116 => Some "009"%char | 110 => Some "010"%char | 102 => Some "012"%char
  | 114 => Some "013"%char | 34 => Some dquote | 92 => Some backslash | 47 => Some "/"%char | _ => None
  end%N.

(** After the opening quote: the string, and what follows the closing one. *)
Fixpoint parse_string (s : string) : option (string * string) :=
  match s with
  | EmptyString => None
  | String c s =>
      if Ascii.eqb c dquote then Some (EmptyString, s)
      else if Ascii.eqb c backslash then
        match s with
        | String e s =>
            if Ascii.eqb e "u" then
              match s with
              | String a (String b (String c (String d s))) =>
                  a ← hex_val a; b ← hex_val b; c ← hex_val c; d ← hex_val d;
                  let n := (a * 4096 + b * 256 + c * 16 + d)%N in
                  if (n <? 256)%N then '(t, rest) ← parse_string s; Some (String (ascii_of_N n) t, rest) else None
              | _ => None
              end
            else x ← unescape e; '(t, rest) ← parse_string s; Some (String x t, rest)
        | EmptyString => None
        end
      else if (N_of_ascii c <? 32)%N then None
      else '(t, rest) ← parse_string s; Some (String c t, rest)
  end.

Definition in_range (lo hi : N) (c : ascii) : bool := ((lo <=? N_of_ascii c) && (N_of_ascii c <=? hi))%N.
Definition digit : regex := RChar (in_range 48 57).
Definition opt (r : regex) : regex := RAlt r REps.
Definition rlit (c : ascii) : regex := RChar (Ascii.eqb c).
(** A sign, an integer without leading zeros, a fraction and an exponent. *)
Definition number : regex :=
  RCat (opt (rlit "-")) (RCat (RAlt (rlit "0") (RCat (RChar (in_range 49 57)) (RStar digit)))
    (RCat (opt (RCat (rlit ".") (RPlus digit)))
      (opt (RCat (RAlt (rlit "e") (rlit "E")) (RCat (opt (RAlt (rlit "+") (rlit "-"))) (RPlus digit)))))).
Definition num_char (c : ascii) : bool := in_range 48 57 c || has_char c "+-.eE".
Fixpoint span_num (s : string) : string * string :=
  match s with
  | String c s' => if num_char c then let '(l, rest) := span_num s' in (String c l, rest) else (EmptyString, s)
  | EmptyString => (EmptyString, EmptyString)
  end.

(** What follows a given text. *)
Fixpoint after (p s : string) : option string :=
  match p, s with
  | EmptyString, _ => Some s
  | String a p, String b s => if Ascii.eqb a b then after p s else None
  | _, _ => None
  end.

(** A later member of the same name replaces the value of an earlier one. *)
Definition js_object (l : list (string * jval)) : list (string * jval) := foldl (λ o '(k, v), oset k v o) [] l.

Definition parse_atom (s : string) : option (jval * string) :=
  match after "null" s, after "true" s, after "false" s with
  | Some r, _, _ => Some (JNull, r)
  | _, Some r, _ => Some (JBool true, r)
  | _, _, Some r => Some (JBool false, r)
  | _, _, _ => let '(l, r) := span_num s in if rmatch number l then Some (JNum l, r) else None
  end.

(** The fuel bounds the calls; two for each character are enough. *)
Fixpoint parse_value (fuel : nat) (s : string) : option (jval * string) :=
  match fuel with
  | O => None
  | S n =>
      match skip_ws s with
      | EmptyString => None
      | String c s =>
          if Ascii.eqb c dquote then '(t, r) ← parse_string s; Some (JStr t, r)
          else if Ascii.eqb c "[" then
            match after "]" (skip_ws s) with
            | Some r => Some (JArr [], r)
            | None => '(l, r) ← parse_elems n s; Some (JArr l, r)
            end
          else if Ascii.eqb c "{" then
            match after "}" (skip_ws s) with
            | Some r => Some (JObj [], r)
            | None => '(l, r) ← parse_members n s; Some (JObj (js_object l), r)
            end
          else parse_atom (String c s)
      end
  end
with parse_elems (fuel : nat) (s : string) : option (list jval * string) :=
  match fuel with
  | O => None
  | S n =>
      '(v, r) ← parse_value n s;
      match skip_ws r with
      | String c r =>
          if Ascii.eqb c "," then '(l, r) ← parse_elems n r; Some (v :: l, r)
          else if Ascii.eqb c "]" then Some ([v], r) else None
      | EmptyString => None
      end
  end
with parse_members (fuel : nat) (s : string) : option (list (string * jval) * string) :=
  match fuel with
  | O => None
  | S n =>
      s ← after (String dquote EmptyString) (skip_ws s); '(k, r) ← parse_string s;
      r ← after ":" (skip_ws r); '(v, r) ← parse_value n r;
      match skip_ws r with
      | String c r =>
          if Ascii.eqb c "," then '(l, r) ← parse_members n r; Some ((k, v) :: l, r)
          else if Ascii.eqb c "}" then Some ([(k, v)], r) else None
      | EmptyString => None
      end
  end.
Definition parse (s : string) : option jval :=
  '(v, r) ← parse_value (2 * String.length s + 2) s;
  match skip_ws r with EmptyString => Some v | _ => None end.

(** *** Parsing undoes printing *)
Fixpoint all_chars (p : ascii → bool) (s : string) : bool :=
  match s with EmptyString => true | String c s => p c && all_chars p s end.

(** Numbers are written as numbers, and no object has two members of a name. *)
Unset Elimination Schemes.
Inductive jwf : jval → Prop :=
| wf_null : jwf JNull
| wf_bool b : jwf (JBool b)
| wf_num lit : all_chars num_char lit = true → rmatch number lit = true → jwf (JNum lit)
| wf_str s : jwf (JStr s)
| wf_arr l : Forall jwf l → jwf (JArr l)
| wf_obj o : owf o → Forall (λ kv, jwf kv.2) o → jwf (JObj o).
Set Elimination Schemes.
Lemma jwf_num lit : jwf (JNum lit) → all_chars num_char lit = true ∧ rmatch number lit = true.
Proof. by inversion 1. Qed.
Lemma jwf_arr l : jwf (JArr l) → Forall jwf l.
Proof. by inversion 1. Qed.
Lemma jwf_obj o : jwf (JObj o) → owf o ∧ Forall (λ kv, jwf kv.2) o.
Proof. by inversion 1. Qed.

Lemma parse_escape c s :
  parse_string (escape c s) = '(t, rest) ← parse_string s; Some (String c t, rest).
Proof. by destruct c as [[] [] [] [] [] [] [] []]. Qed.
Lemma parse_escaped s rest : parse_string (escaped s rest) = Some (s, rest).
Proof. induction s as [|c s IH]; [done|]. cbn [escaped]. by rewrite parse_escape, IH. Qed.

(** What follows a value does not continue a number. *)
Definition delimited (s : string) : Prop :=
  match s with EmptyString => True | String c _ => num_char c = false end.
Lemma span_number lit rest : all_chars num_char lit = true → delimited rest → span_num (lit +:+ rest) = (lit, rest).
Proof.
  intros Hl Hr. induction lit as [|c s IH]; simpl in *.
  - destruct rest as [|c rest]; [done|]. simpl in *. by rewrite Hr.
  - apply andb_true_iff in Hl as [Hc Hs]. by rewrite Hc, IH.
Qed.

Lemma num_char_first c : num_char c = true →
  is_ws c = false ∧ Ascii.eqb c dquote = false ∧ Ascii.eqb c "[" = false ∧ Ascii.eqb c "{" = false ∧
  Ascii.eqb "n" c = false ∧ Ascii.eqb "t" c = false ∧ Ascii.eqb "f" c = false ∧ Ascii.eqb "]" c = false.
Proof. destruct c as [[] [] [] [] [] [] [] []]; vm_compute; intros Hc; by try discriminate Hc. Qed.

(** The tails of arrays and objects. *)
Fixpoint print_elems (l : list jval) (rest : string) : string :=
  match l with [] => String "]" rest | v :: l => String "," (print v (print_elems l rest)) end.
Fixpoint print_members (o : list (string * jval)) (rest : string) : string :=
  match o with
  | [] => String "}" rest
  | (k, v) :: o => String "," (quoted k (String ":" (print v (print_members o rest))))
  end.
Lemma print_arr v l rest : print (JArr (v :: l)) rest = String "[" (print v (print_elems l rest)).
Proof. cbn [print]. do 2 f_equal. induction l as [|v' l IH]; [done|]. cbn [print_elems]. by rewrite <- IH. Qed.
Lemma print_obj k v o rest :
  print (JObj ((k, v) :: o)) rest = String "{" (quoted k (String ":" (print v (print_members o rest)))).
Proof.
  cbn [print]. do 4 f_equal. induction o as [|[k' v'] o IH]; [done|]. cbn [print_members]. by rewrite <- IH.
Qed.

Lemma print_first v rest : jwf v →
  ∃ c s, print v rest = String c s ∧ is_ws c = false ∧ Ascii.eqb "]" c = false.
Proof.
  intros Hv. destruct v as [|[]|lit|s|[|v l]|[|[k v] o]]; try (by eexists _, _).
  destruct (jwf_num _ Hv) as [Hc Hm]. destruct lit as [|c s]; [done|]. simpl in Hc.
  apply andb_true_iff in Hc as [(? & _ & _ & _ & _ & _ & _ & ?)%num_char_first _]. by eexists _, _.
Qed.

Lemma escape_longer c s : (S (String.length s) ≤ String.length (escape c s))%nat.
Proof. unfold escape. destruct (short_escape c); simpl; [lia|]. destruct (N_of_ascii c <? 32)%N; simpl; lia. Qed.
Lemma quoted_longer s rest : (2 + String.length rest ≤ String.length (quoted s rest))%nat.
Proof.
  unfold quoted. simpl. apply le_n_S. induction s as [|c s IH]; simpl; [done|].
  pose proof (escape_longer c (escaped s rest)). lia.
Qed.
Lemma length_app_string s t : String.length (s +:+ t) = (String.length s + String.length t)%nat.
Proof. induction s as [|c s IH]; simpl; [done|]. by rewrite IH. Qed.
Lemma Forall_mp {A} (P Q : A → Prop) l : Forall (λ x, P x → Q x) l → Forall P l → Forall Q l.
Proof. rewrite !Forall_forall. auto. Qed.
Definition longer (v : jval) : Prop := ∀ rest, (S (String.length rest) ≤ String.length (print v rest))%nat.
Lemma elems_longer l rest : Forall longer l → (S (String.length rest) ≤ String.length (print_elems l rest))%nat.
Proof.
  induction 1 as [|v l Hv _ IH]; [done|]. cbn [print_elems String.length]. specialize (Hv (print_elems l rest)). lia.
Qed.
Lemma members_longer o rest :
  Forall (λ kv, longer kv.2) o → (S (String.length rest) ≤ String.length (print_members o rest))%nat.
Proof.
  induction 1 as [|[k v] o Hv _ IH]; [done|]. cbn [print_members String.length]. specialize (Hv (print_members o rest)).
  pose proof (quoted_longer k (String ":" (print v (print_members o rest)))) as Hq. cbn [String.length] in *. simpl in Hv. lia.
Qed.
Lemma print_longer v : jwf v → longer v.
Proof.
  induction v as [|[]|lit|s|l IH|o IH] using jval_ind; intros Hv rest;
    try (cbn [print]; rewrite length_app_string; cbn [String.length]; lia).
  - destruct (jwf_num _ Hv) as [Hc Hm]. destruct lit as [|c s]; [done|]. cbn [print]. rewrite length_app_string.
    cbn [String.length]. lia.
  - pose proof (quoted_longer s rest). simpl in *. lia.
  - assert (Forall longer l) as Hl by (apply (Forall_mp jwf _ l); [exact IH|by apply jwf_arr]).
    destruct l as [|v l]; [cbn [print]; rewrite length_app_string; cbn [String.length]; lia|]. rewrite print_arr.
    apply Forall_cons in Hl as [Hv' Hl]. pose proof (elems_longer l rest Hl). specialize (Hv' (print_elems l rest)).
    cbn [String.length]. lia.
  - assert (Forall (λ kv, longer kv.2) o) as Hl by (apply (Forall_mp (λ kv, jwf kv.2) _ o); [exact IH|by apply jwf_obj]).
    destruct o as [|[k v] o]; [cbn [print]; rewrite length_app_string; cbn [String.length]; lia|]. rewrite print_obj.
    apply Forall_cons in Hl as [Hv' Hl]. pose proof (members_longer o rest Hl). specialize (Hv' (print_members o rest)).
    pose proof (quoted_longer k (String ":" (print v (print_members o rest)))) as Hq. cbn [String.length] in *. simpl in Hv'. lia.
Qed.

(** Enough fuel for a value printed before [rest], and for what follows the
    bracket of an array or an object. *)
Definition reads (v : jval) : Prop := ∀ n rest,
  delimited rest → (2 * String.length (print v rest) ≤ n + 2 * String.length rest)%nat →
  parse_value n (print v rest) = Some (v, rest).

Lemma skip_first c s : is_ws c = false → skip_ws (String c s) = String c s.
Proof. intros Hc. simpl. by rewrite Hc. Qed.

Lemma elems_read n v l rest :
  Forall jwf (v :: l) → Forall reads (v :: l) →
  (2 * String.length (print v (print_elems l rest)) + 1 ≤ n + 2 * String.length rest)%nat →
  parse_elems n (print v (print_elems l rest)) = Some (v :: l, rest).
Proof.
  revert n v. induction l as [|v2 l IH]; intros n v [Hv Hl]%Forall_cons [Rv Rl]%Forall_cons Hn.
  all: pose proof (elems_longer _ rest (Forall_impl _ _ _ Hl print_longer)) as Hlen.
  all: match type of Hl with Forall _ ?l => pose proof (print_longer v Hv (print_elems l rest)) as Hlen2 end.
  all: destruct n as [|n]; [lia|].
  all: cbn [parse_elems]; rewrite Rv by (first [done|lia]); cbn [print_elems mbind option_bind];
    rewrite skip_first by done; cbn [Ascii.eqb Bool.eqb].
  - done.
  - rewrite IH; [done|done|done|]. cbn [print_elems String.length] in *. lia.
Qed.

Lemma members_read n k v o rest :
  Forall (λ kv, jwf kv.2) ((k, v) :: o) → Forall (λ kv, reads kv.2) ((k, v) :: o) →
  (2 * String.length (quoted k (String ":" (print v (print_members o rest)))) + 1 ≤ n + 2 * String.length rest)%nat →
  parse_members n (quoted k (String ":" (print v (print_members o rest)))) = Some ((k, v) :: o, rest).
Proof.
  revert n k v. induction o as [|[k2 v2] o IH]; intros n k v [Hv Hl]%Forall_cons [Rv Rl]%Forall_cons Hn; simpl in Hv, Rv.
  all: pose proof (members_longer _ rest (Forall_impl _ _ _ Hl (λ kv, print_longer kv.2))) as Hlen.
  all: match type of Hl with Forall _ ?o => pose proof (print_longer v Hv (print_members o rest)) as Hlen2;
         pose proof (quoted_longer k (String ":" (print v (print_members o rest)))) as Hq end; cbn [String.length] in *.
  all: destruct n as [|n]; [lia|]; cbn [parse_members]; unfold quoted at 1; rewrite skip_first by done; cbn [after mbind option_bind].
  all: rewrite Ascii.eqb_refl; cbn [after mbind option_bind]; rewrite parse_escaped; cbn [mbind option_bind]; rewrite skip_first by done.
  all: cbn [after]; rewrite Ascii.eqb_refl; cbn [after mbind option_bind].
  all: rewrite Rv by (first [done|lia]); cbn [print_members mbind option_bind]; rewrite skip_first by done; cbn [Ascii.eqb Bool.eqb].
  - done.
  - rewrite IH; [done|done|done|]. cbn [print_members String.length] in *. lia.
Qed.

Lemma js_object_id o : owf o → js_object o = o.
Proof.
  assert (∀ l acc : list (string * jval), NoDup (okeys acc ++ okeys l) → foldl (λ o '(k, v), oset k v o) acc l = acc ++ l) as Hf.
  { intros l. induction l as [|[k v] l IH]; intros acc Hnd; simpl; [by rewrite app_nil_r|].
    assert (oset k v acc = acc ++ [(k, v)]) as ->.
    { apply NoDup_app in Hnd as (_ & Hdis & _). assert (k ∉ okeys acc) as Hk by (intros Hk; by apply (Hdis k Hk); left).
      clear -Hk. induction acc as [|[k' v'] acc IH]; [done|]. simpl in *. apply not_elem_of_cons in Hk as [Hne Hk].
      rewrite decide_False by done. by rewrite IH. }
    rewrite IH; [by rewrite <- app_assoc|]. unfold okeys in *. rewrite fmap_app, <- app_assoc. exact Hnd. }
  intros Ho. by apply Hf.
Qed.

Lemma print_reads v : jwf v → reads v.
Proof.
  induction v as [|[]|lit|s|l IH|o IH] using jval_ind; intros Hv n rest Hr Hn;
    pose proof (print_longer _ Hv rest) as Hlong; (destruct n as [|n]; [lia|]); try done.
  - destruct (jwf_num _ Hv) as [Hc Hm]. destruct lit as [|c s]; [done|]. pose proof Hc as Hc'.
    apply andb_true_iff in Hc as [(Hws & Hq & Hb & Hb' & Hn' & Ht & Hf & _)%num_char_first _].
    cbn [parse_value print]. change (String c s +:+ rest) with (String c (s +:+ rest)). rewrite skip_first, Hq, Hb, Hb' by done.
    unfold parse_atom. cbn [after]. rewrite Hn', Ht, Hf. change (String c (s +:+ rest)) with (String c s +:+ rest).
    by rewrite (span_number _ _ Hc' Hr), Hm.
  - cbn [parse_value print]. unfold quoted. rewrite skip_first, Ascii.eqb_refl, parse_escaped by done. done.
  - pose proof (jwf_arr _ Hv) as Hl. destruct l as [|v l]; [done|]. rewrite print_arr in *. cbn [String.length] in *.
    cbn [parse_value]. rewrite skip_first by done. cbn [Ascii.eqb Bool.eqb dquote].
    apply Forall_cons_1 in Hl as Hl'. destruct (print_first v (print_elems l rest)) as (c & s & Hp & Hws & Hc); [apply Hl'|].
    replace (after "]" (skip_ws (print v (print_elems l rest)))) with (@None string).
    2:{ rewrite Hp, skip_first by done. cbn [after]. by rewrite Hc. }
    rewrite elems_read; [done|done|by apply (Forall_mp jwf)|lia].
  - destruct (jwf_obj _ Hv) as [Ho Hl]. destruct o as [|[k v] o]; [done|]. rewrite print_obj in *. cbn [String.length] in *.
    cbn [parse_value]. rewrite skip_first by done. cbn [Ascii.eqb Bool.eqb dquote].
    unfold quoted at 1. rewrite skip_first by done. cbn [after Ascii.eqb Bool.eqb dquote].
    rewrite members_read; [|done|by apply (Forall_mp (λ kv, jwf kv.2))|lia]. cbn [mbind option_bind].
    by rewrite js_object_id.
Qed.

(** [JSON.parse(JSON.stringify(v))] is [v]. *)
Lemma json_roundtrip v : jwf v → parse (stringify v) = Some v.
Proof.
  intros Hv. unfold parse, stringify. rewrite print_reads; [done|done|done|]. simpl. lia.
Qed.

(** ** Members of parsed values *)
Fixpoint jfield (k : string) (o : list (string * jval)) : option jval :=
  match o with [] => None | (k', v) :: o => if String.eqb k k' then Some v else jfield k o end.
Definition prop (k : string) (v : jval) : option jval := match v with JObj o => jfield k o | _ => None end.

(** Truthiness; a number is falsy when its digits are all zero. *)
Fixpoint zero_literal (s : string) : bool :=
  match s with
  | EmptyString => true
  | String c s => if has_char c "eE" then true else if in_range 49 57 c then false else zero_literal s
  end.
Definition jtruthy (v : jval) : bool :=
  match v with
  | JNull => false
  | JBool b => b
  | JNum lit => negb (zero_literal lit)
  | JStr s => truthy s
  | JArr _ | JObj _ => true
  end.
(** [v.k] of a value that may be [undefined]: throws on [undefined] and [null]. *)
Definition jmember (k : string) (v : option jval) : res (option jval) :=
  match v with None | Some JNull => Throw TypeError | Some v => Ok (prop k v) end.
(** [v?.k] *)
Definition jmember_opt (k : string) (v : option jval) : option jval := v ≫= prop k.
