(* ===== verification/Wire.v ===== *)
(** Messages on the wire.  What the services hand to Redis, RabbitMQ, NATS and
    the sockets travels as JSON; the receiver parses it and takes it for the
    type its listener declares.  The encodings follow the types of
    [libs/common/message] and [libs/common/dto]; a member that is [undefined]
    is left out. *)
From S2P Require Import Prelude JS Dates Messages Keys Interfaces ClientTypes Validation Codec.
From Stdlib Require Import Lia DecimalString DecimalFacts DecimalPos DecimalN DecimalZ.

(** ** Numbers *)
Lemma to_uint_nonnil p : Pos.to_uint p ≠ Decimal.Nil.
Proof. exact (Unsigned.to_uint_nonnil p). Qed.
Lemma read_show z : read_Z (show_Z z) = Some z.
Proof.
  unfold read_Z, show_Z. rewrite NilZero.isi; [simpl; by rewrite DecimalZ.of_to|..];
    destruct z as [|p|p]; simpl; try done; intros [= Hn]; by apply (to_uint_nonnil p).
Qed.

(** A written integer is a JSON number. *)
Definition digits (d : Decimal.uint) : string := NilEmpty.string_of_uint d.
Lemma digits_star d : matches (RStar digit) (chars (digits d)) ∧ all_chars num_char (digits d) = true.
Proof.
  unfold digits. induction d as [|d [IH1 IH2]|d [IH1 IH2]|d [IH1 IH2]|d [IH1 IH2]|d [IH1 IH2]|d [IH1 IH2]|d [IH1 IH2]|d [IH1 IH2]|d [IH1 IH2]|d [IH1 IH2]];
    [split; [constructor|done]|..]; (split; [|exact IH2]);
    match goal with |- matches _ (chars (NilEmpty.string_of_uint (_ ?d))) =>
      apply (m_star_cons digit [_] (chars (NilEmpty.string_of_uint d))); [by constructor|exact IH1] end.
Qed.
Lemma to_uint_digits p : ∃ c d, NilZero.string_of_uint (Pos.to_uint p) = String c (digits d) ∧
  in_range 49 57 c = true ∧ num_char c = true.
Proof.
  assert (Pos.to_uint p = Decimal.unorm (Pos.to_uint p)) as Hn.
  { change (Pos.to_uint p) with (N.to_uint (N.pos p)). rewrite <- DecimalN.Unsigned.to_of. by rewrite DecimalN.Unsigned.of_to. }
  assert (∀ d, Pos.to_uint p ≠ Decimal.D0 d) as H0.
  { intros d Hd. assert (Decimal.nzhead (Pos.to_uint p) = Decimal.Nil ∨ Decimal.nzhead (Pos.to_uint p) ≠ Decimal.Nil) as [Hz|Hz]
      by (destruct (Decimal.nzhead _); auto).
    - apply unorm_0 in Hz. rewrite <- Hn in Hz. assert (N.of_uint (Pos.to_uint p) = N.pos p) as Ho by exact (DecimalN.Unsigned.of_to (N.pos p)).
      by rewrite Hz in Ho.
    - rewrite unorm_nzhead in Hn by done. rewrite Hd in Hn at 1. symmetry in Hn. by apply nzhead_nonzero in Hn. }
  pose proof (to_uint_nonnil p). destruct (Pos.to_uint p) as [|d|d|d|d|d|d|d|d|d|d]; try done; [by destruct (H0 d)|..];
    by eexists _, d.
Qed.

Lemma show_Z_wf z : jwf (JNum (show_Z z)).
Proof.
  assert (∀ p, matches (RCat (RAlt (rlit "0") (RCat (RChar (in_range 49 57)) (RStar digit))) (RCat (opt (RCat (rlit ".") (RPlus digit)))
      (opt (RCat (RAlt (rlit "e") (rlit "E")) (RCat (opt (RAlt (rlit "+") (rlit "-"))) (RPlus digit))))))
      (chars (NilZero.string_of_uint (Pos.to_uint p))) ∧ all_chars num_char (NilZero.string_of_uint (Pos.to_uint p)) = true) as Hp.
  { intros p. destruct (to_uint_digits p) as (c & d & -> & Hc & Hn). destruct (digits_star d) as [Hs Ha]. simpl. rewrite Hn. split; [|done].
    change (c :: chars (digits d)) with ([c] ++ chars (digits d)). rewrite <- (List.app_nil_r ([c] ++ _)).
    apply m_cat; [apply m_alt_r, m_cat; [by constructor|done]|]. apply (m_cat _ _ [] []); apply m_alt_r, m_eps. }
  unfold show_Z. destruct z as [|p|p]; simpl.
  - by constructor.
  - destruct (Hp p) as [Hm Ha]. constructor; [done|]. apply rmatch_spec. apply (m_cat _ _ []); [apply m_alt_r, m_eps|exact Hm].
  - destruct (Hp p) as [Hm Ha]. constructor; [done|]. apply rmatch_spec.
    apply (m_cat _ _ ["-"%char]); [apply m_alt_l; by constructor|exact Hm].
Qed.

(** ** Encodable types *)

(** Decoding gives back what was encoded, and what is encoded can be printed. *)
Class Wire (A : Type) := {
  enc : A → jval;
  dec : jval → option A;
  dec_enc a : dec (enc a) = Some a;
  enc_wf a : jwf (enc a);
}.
Arguments enc {A _} _ : simpl never.
Arguments dec {A _} _ : simpl never.

#[global] Instance string_wire : Wire string :=
  {| enc := JStr; dec v := match v with JStr s => Some s | _ => None end;
     dec_enc _ := eq_refl; enc_wf := wf_str |}.
#[global] Instance bool_wire : Wire bool :=
  {| enc := JBool; dec v := match v with JBool b => Some b | _ => None end;
     dec_enc _ := eq_refl; enc_wf := wf_bool |}.
#[global] Instance Z_wire : Wire Z :=
  {| enc z := JNum (show_Z z); dec v := match v with JNum lit => read_Z lit | _ => None end;
     dec_enc := read_show; enc_wf := show_Z_wf |}.

Section wire_list.
Context {A : Type} `{!Wire A}.
Fixpoint dec_all (l : list jval) : option (list A) :=
  match l with [] => Some [] | v :: l => a ← dec v; r ← dec_all l; Some (a :: r) end.
Definition dec_list (v : jval) : option (list A) := match v with JArr l => dec_all l | _ => None end.
Lemma dec_enc_list (l : list A) : dec_list (JArr (enc <$> l)) = Some l.
Proof. cbn [dec_list]. induction l as [|a l IH]; [done|]. rewrite fmap_cons. cbn [dec_all]. by rewrite dec_enc, IH. Qed.
Lemma enc_list_wf (l : list A) : jwf (JArr (enc <$> l)).
Proof. constructor. apply Forall_fmap, Forall_true. apply enc_wf. Qed.
#[global] Instance list_wire : Wire (list A) :=
  {| enc l := JArr (enc <$> l); dec := dec_list; dec_enc := dec_enc_list; enc_wf := enc_list_wf |}.
End wire_list.

(** *** Objects *)
Definition field : Type := string * option jval.
Definition req {A} `{!Wire A} (k : string) (a : A) : field := (k, Some (enc a)).
Definition may {A} `{!Wire A} (k : string) (a : option A) : field := (k, enc <$> a).
Definition object (l : list field) : jval := JObj (omap (λ f : field, pair f.1 <$> f.2) l).

Definition the {A} `{!Wire A} (k : string) (v : jval) : option A := prop k v ≫= dec.
Definition maybe {A} `{!Wire A} (k : string) (v : jval) : option (option A) :=
  match prop k v with None => Some None | Some x => Some <$> dec x end.

(** Well formed when the names differ and the values are well formed. *)
Lemma object_wf l : NoDup l.*1 → Forall (λ f : field, ∀ v, f.2 = Some v → jwf v) l → jwf (object l).
Proof.
  intros Hnd Hl. constructor.
  - unfold owf, okeys. induction l as [|[k [v|]] l IH]; simpl; [constructor|..].
    + apply NoDup_cons in Hnd as [Hk Hnd]. apply Forall_cons in Hl as [_ Hl]. constructor; [|by apply IH].
      intros Hin. apply Hk. apply list_elem_of_fmap in Hin as ([k' x] & -> & Hin). simpl.
      apply list_elem_of_omap in Hin as ([k2 o] & Hin & Hs). destruct o; simplify_eq/=. by apply (list_elem_of_fmap_2 fst) in Hin.
    + apply NoDup_cons in Hnd as [_ Hnd]. apply Forall_cons in Hl as [_ Hl]. by apply IH.
  - apply Forall_forall. intros [k v] Hin. apply list_elem_of_omap in Hin as ([k2 o] & Hin & Hs). destruct o as [x|]; simplify_eq/=.
    rewrite Forall_forall in Hl. by eapply (Hl _ Hin).
Qed.
Lemma req_wf {A} `{!Wire A} k (a : A) v : (req k a).2 = Some v → jwf v.
Proof. intros [= <-]. apply enc_wf. Qed.
Lemma may_wf {A} `{!Wire A} k (a : option A) v : (may k a).2 = Some v → jwf v.
Proof. destruct a; intros [= <-]. apply enc_wf. Qed.

Ltac wire_wf :=
  apply object_wf; [apply (bool_decide_eq_true (NoDup _)); vm_compute; reflexivity|];
  repeat first [apply Forall_nil_2 | apply Forall_cons_2; [cbv beta; intros ?v; first [apply req_wf | apply may_wf | idtac]|]].
Ltac wire_dec :=
  repeat match goal with o : option _ |- _ => destruct o end;
  unfold the, maybe, object, prop, req, may; simpl; repeat (rewrite dec_enc; simpl); reflexivity.

(** ** Data ([libs/common/dto], [filesystem.message.ts]) *)

(** A type of a few names. *)
Definition dec_name {A} (names : list (string * A)) (v : jval) : option A :=
  match v with JStr s => oget s names | _ => None end.

Definition FSEventType_names : list (string * FSEventType) :=
  [("create", fs_create); ("remove", fs_remove); ("rename", fs_rename); ("write", fs_write)].
Definition FSEventType_name (t : FSEventType) : string :=
  match t with fs_create => "create" | fs_remove => "remove" | fs_rename => "rename" | fs_write => "write" end.
#[global] Instance FSEventType_wire : Wire FSEventType.
Proof.
  refine {| enc t := JStr (FSEventType_name t); dec := dec_name FSEventType_names |};
    [abstract (by intros [])|abstract (intros; constructor)].
Defined.
Definition FSKind_names : list (string * FSKind) := [("file", fs_file); ("dir", fs_dir)].
Definition FSKind_name (t : FSKind) : string := match t with fs_file => "file" | fs_dir => "dir" end.
#[global] Instance FSKind_wire : Wire FSKind.
Proof.
  refine {| enc t := JStr (FSKind_name t); dec := dec_name FSKind_names |};
    [abstract (by intros [])|abstract (intros; constructor)].
Defined.
Definition decision_names : list (string * ConflictDecision) := [("keep", keep); ("reload", reload)].
Definition decision_name (d : ConflictDecision) : string := match d with keep => "keep" | reload => "reload" end.
#[global] Instance decision_wire : Wire ConflictDecision.
Proof.
  refine {| enc t := JStr (decision_name t); dec := dec_name decision_names |};
    [abstract (by intros [])|abstract (intros; constructor)].
Defined.

Definition enc_event (e : FSEvent) : jval := object
  [req "watchedPath" (fe_watchedPath e); req "path" (fe_path e); may "oldPath" (fe_oldPath e); may "ino" (fe_ino e);
   req "action" (fe_action e); req "timestamp" (fe_timestamp e); req "type" (fe_type e)].
Definition dec_event (v : jval) : option FSEvent :=
  w ← the "watchedPath" v; p ← the "path" v; o ← maybe "oldPath" v; i ← maybe "ino" v;
  a ← the "action" v; t ← the "timestamp" v; k ← the "type" v; Some (FsEv w p o i a t k).
#[global] Instance event_wire : Wire FSEvent.
Proof. refine {| enc := enc_event; dec := dec_event |}; [abstract (intros []; unfold enc_event, dec_event; wire_dec)|abstract (intros; wire_wf)]. Defined.

Definition enc_stat (s : StatDTO) : jval := object
  [req "name" (st_name s); req "size" (st_size s); req "isDir" (st_isDir s); req "ino" (st_ino s)].
Definition dec_stat (v : jval) : option StatDTO :=
  n ← the "name" v; s ← the "size" v; d ← the "isDir" v; i ← the "ino" v; Some (Stat n s d i).
#[global] Instance stat_wire : Wire StatDTO.
Proof. refine {| enc := enc_stat; dec := dec_stat |}; [abstract (intros []; unfold enc_stat, dec_stat; wire_dec)|abstract (intros; wire_wf)]. Defined.

Definition enc_entry (e : FSOpenDTO) : jval := object
  [req "name" (fo_name e); req "path" (fo_path e); req "isDir" (fo_isDir e); req "id" (fo_id e)].
Definition dec_entry (v : jval) : option FSOpenDTO :=
  n ← the "name" v; p ← the "path" v; d ← the "isDir" v; i ← the "id" v; Some (FsEntry n p d i).
#[global] Instance entry_wire : Wire FSOpenDTO.
Proof. refine {| enc := enc_entry; dec := dec_entry |}; [abstract (intros []; unfold enc_entry, dec_entry; wire_dec)|abstract (intros; wire_wf)]. Defined.

Definition enc_meta (m : Meta) : jval := object
  [may "uid" (m_uid m); may "sessionId" (m_sessionId m); may "route" (m_route m); may "requestId" (m_requestId m)].
Definition dec_meta (v : jval) : option Meta :=
  u ← maybe "uid" v; s ← maybe "sessionId" v; r ← maybe "route" v; q ← maybe "requestId" v; Some (MkMeta u s r q).
#[global] Instance meta_wire : Wire Meta.
Proof. refine {| enc := enc_meta; dec := dec_meta |}; [abstract (intros []; unfold enc_meta, dec_meta; wire_dec)|abstract (intros; wire_wf)]. Defined.

(** *** Notifications ([notification.message.ts]) *)
Definition type_names : list (string * NotificationType) :=
  [("workspace-invite", workspace_invite); ("workspace-membership-removed", workspace_membership_removed);
   ("workspace-access-code", workspace_access_code); ("workspace-downgraded", workspace_downgraded);
   ("notification-delete", notification_delete)].
Definition type_name (t : NotificationType) : string :=
  match t with
  | workspace_invite => "workspace-invite" | workspace_membership_removed => "workspace-membership-removed"
  | workspace_access_code => "workspace-access-code" | workspace_downgraded => "workspace-downgraded"
  | notification_delete => "notification-delete"
  end.
#[global] Instance type_wire : Wire NotificationType.
Proof.
  refine {| enc t := JStr (type_name t); dec := dec_name type_names |};
    [abstract (by intros [])|abstract (intros; constructor)].
Defined.

Definition data_fields (d : NtfnData) : list field :=
  match d with
  | WorkspaceInvite i w t => [req "inviterId" i; req "workspaceUUID" w; req "token" t]
  | ExclusionData a w n => [req "actorId" a; req "workspaceUUID" w; req "name" n]
  | WorkspaceAccessRequest s c r => [req "success" s; req "code" c; may "reqId" r]
  | WorkspaceDowngraded u => [req "uuid" u]
  | NoData => []
  end.
(** The extension of the payload is told by the members that are there. *)
Definition dec_data (v : jval) : option NtfnData :=
  if prop "inviterId" v is Some _
  then i ← the "inviterId" v; w ← the "workspaceUUID" v; t ← the "token" v; Some (WorkspaceInvite i w t)
  else if prop "actorId" v is Some _
  then a ← the "actorId" v; w ← the "workspaceUUID" v; n ← the "name" v; Some (ExclusionData a w n)
  else if prop "success" v is Some _
  then s ← the "success" v; c ← the "code" v; r ← maybe "reqId" v; Some (WorkspaceAccessRequest s c r)
  else if prop "uuid" v is Some _ then u ← the "uuid" v; Some (WorkspaceDowngraded u)
  else Some NoData.
Definition enc_created (c : CreatedOn) : jval :=
  match c with
  | RawDate s => enc s
  | Timestamp t => object [req "_seconds" (t / 1000); req "_nanoseconds" (t mod 1000 * 1000000)]
  end.
Definition dec_created (v : jval) : option CreatedOn :=
  match v with
  | JStr s => Some (RawDate s)
  | _ => s ← the "_seconds" v; n ← the "_nanoseconds" v; Some (Timestamp (s * 1000 + n / 1000000))
  end.
#[global] Instance created_wire : Wire CreatedOn.
Proof.
  refine {| enc := enc_created; dec := dec_created |}.
  - abstract (intros [s|t]; [done|]; unfold dec_created, enc_created, the, object, prop, req; simpl;
      rewrite dec_enc; simpl; rewrite dec_enc; simpl; rewrite Z.div_mul by done; by rewrite Z.mul_comm, <- Z.div_mod).
  - abstract (intros [s|t]; [constructor|wire_wf]).
Defined.
Definition enc_ntfn (n : UserNotificationPayload) : jval := object
  ([req "type" (n_type n); req "id" (n_id n); req "createdOn" (n_createdOn n)] ++ data_fields (n_data n)).
Definition dec_ntfn (v : jval) : option UserNotificationPayload :=
  t ← the "type" v; i ← the "id" v; c ← the "createdOn" v; d ← dec_data v; Some (Ntfn t i c d).
#[global] Instance ntfn_wire : Wire UserNotificationPayload.
Proof.
  refine {| enc := enc_ntfn; dec := dec_ntfn |}.
  - abstract (intros [t i c []]; unfold enc_ntfn, dec_ntfn, dec_data; simpl; wire_dec).
  - abstract (intros [t i c []]; wire_wf).
Defined.

(** ** Messages from the client *)
Definition ssh_in_fields (p : EnvPayload) : list field :=
  match p with
  | SSHRequest _ privateKey clientId => [req "privateKey" privateKey; req "clientId" clientId]
  | SSHData _ sshSessionId input => [req "sshSessionId" sshSessionId; req "input" input]
  | SSHClose _ sshSessionId => [req "sshSessionId" sshSessionId]
  | _ => []
  end.
Definition fs_in_fields (p : EnvPayload) : list field :=
  match p with
  | FSOpen _ path => [req "path" path]
  | FSOpenAck _ ino => [req "ino" ino]
  | FSConflictResolve _ ino decision => [req "ino" ino; req "decision" decision]
  | FSSyncIn _ ino buf => [req "ino" ino; req "buf" buf]
  | FSClose _ path ino => [req "path" path; may "ino" ino]
  | _ => []
  end.
Definition run_fields (p : EnvPayload) : list field :=
  match p with WSRun _ command name => [req "command" command; ("ctx", Some (object [req "name" name]))] | _ => [] end.
Definition env_fields (p : EnvPayload) : list field :=
  req "uuid" (env_uuid p) :: ssh_in_fields p ++ fs_in_fields p ++ run_fields p.
Definition dec_env (action : string) (v : jval) : option EnvPayload :=
  u ← the "uuid" v;
  if String.eqb action "ssh.request" then k ← the "privateKey" v; c ← the "clientId" v; Some (SSHRequest u k c)
  else if String.eqb action "ssh.data" then s ← the "sshSessionId" v; i ← the "input" v; Some (SSHData u s i)
  else if String.eqb action "ssh.close" then s ← the "sshSessionId" v; Some (SSHClose u s)
  else if String.eqb action "fs.open" then p ← the "path" v; Some (FSOpen u p)
  else if String.eqb action "fs.open.ack" then i ← the "ino" v; Some (FSOpenAck u i)
  else if String.eqb action "fs.conflict.resolve" then i ← the "ino" v; d ← the "decision" v; Some (FSConflictResolve u i d)
  else if String.eqb action "fs.sync" then i ← the "ino" v; b ← the "buf" v; Some (FSSyncIn u i b)
  else if String.eqb action "fs.close" then p ← the "path" v; i ← maybe "ino" v; Some (FSClose u p i)
  else if String.eqb action "ws.run" then c ← the "command" v; x ← prop "ctx" v; n ← the "name" x; Some (WSRun u c n)
  else None.
Lemma dec_enc_env p : dec_env (env_action p) (object (env_fields p)) = Some p.
Proof. destruct p; unfold dec_env, env_fields, env_uuid, env_action; wire_dec. Qed.
Lemma env_fields_wf p : jwf (object (env_fields p)).
Proof. destruct p; wire_wf. intros [= <-]. wire_wf. Qed.

Definition enc_in (m : InSocketMessage) : jval :=
  object match im_payload m with
  | InEnv p => [req "service" "env"; req "action" (env_action p); ("payload", Some (object (env_fields p)));
                may "correlationId" (im_correlationId m)]
  | InPing uuid => [req "service" "presence"; req "action" "session.ping"; ("payload", Some (object [may "uuid" uuid]));
                    may "correlationId" (im_correlationId m)]
  end.
Definition dec_in (v : jval) : option InSocketMessage :=
  s ← the "service" v; a ← the "action" v; p ← prop "payload" v; c ← maybe "correlationId" v;
  if String.eqb s "env" then x ← dec_env a p; Some (InMsg (InEnv x) c)
  else if String.eqb s "presence" then u ← maybe "uuid" p; Some (InMsg (InPing u) c)
  else None.
Lemma dec_enc_in m : dec_in (enc_in m) = Some m.
Proof.
  destruct m as [[p|u] c]; unfold dec_in, enc_in, the at 1 2, maybe at 1, object at 1, prop at 1 2 3 4, req, may; simpl.
  - destruct c; simpl; by rewrite dec_enc_env.
  - destruct c, u; reflexivity.
Qed.
Lemma enc_in_wf m : jwf (enc_in m).
Proof. destruct m as [[p|u] c]; unfold enc_in; wire_wf; intros [= <-]; [apply env_fields_wf|]. wire_wf. Qed.
#[global] Instance in_wire : Wire InSocketMessage := {| enc := enc_in; dec := dec_in; dec_enc := dec_enc_in; enc_wf := enc_in_wf |}.

(** ** Messages to the client *)

(** [fs]: [FSEventBatch] .. [FSFileResolved] *)
Definition fs_fields (m : OutMsg) : list field :=
  match m with
  | FSBatch events => [req "events" events]
  | FSBlock path | FSResume path => [req "path" path]
  | FSSyncOut uuid ino buf => [req "uuid" uuid; req "ino" ino; req "buf" buf]
  | FSLost ino => [req "ino" ino]
  | FSDisplaced uuid ino | FSResolved uuid ino => [req "ino" ino; req "uuid" uuid]
  | FSConflict uuid ino resolverUid => [req "uuid" uuid; req "ino" ino; req "resolverUid" resolverUid]
  | _ => []
  end.
Definition dec_fs (action : string) (v : jval) : option OutMsg :=
  if String.eqb action "batch" then e ← the "events" v; Some (FSBatch e)
  else if String.eqb action "block" then p ← the "path" v; Some (FSBlock p)
  else if String.eqb action "resume" then p ← the "path" v; Some (FSResume p)
  else if String.eqb action "sync" then u ← the "uuid" v; i ← the "ino" v; b ← the "buf" v; Some (FSSyncOut u i b)
  else if String.eqb action "lost" then i ← the "ino" v; Some (FSLost i)
  else if String.eqb action "displaced" then i ← the "ino" v; u ← the "uuid" v; Some (FSDisplaced u i)
  else if String.eqb action "conflict" then
    u ← the "uuid" v; i ← the "ino" v; r ← the "resolverUid" v; Some (FSConflict u i r)
  else if String.eqb action "resolved" then i ← the "ino" v; u ← the "uuid" v; Some (FSResolved u i)
  else None.

(** [ssh]: [SSHOpen] .. [SSHClosed] *)
Definition ssh_fields (m : OutMsg) : list field :=
  match m with
  | SSHOpen sshSessionId clientId => [req "sshSessionId" sshSessionId; req "clientId" clientId]
  | SSHOutput sshSessionId output => [req "sshSessionId" sshSessionId; req "output" output]
  | SSHError message => [req "message" message]
  | SSHClosed sshSessionId all => [req "sshSessionId" sshSessionId; may "all" all]
  | _ => []
  end.
Definition dec_ssh (action : string) (v : jval) : option OutMsg :=
  if String.eqb action "open" then s ← the "sshSessionId" v; c ← the "clientId" v; Some (SSHOpen s c)
  else if String.eqb action "output" then s ← the "sshSessionId" v; o ← the "output" v; Some (SSHOutput s o)
  else if String.eqb action "error" then m ← the "message" v; Some (SSHError m)
  else if String.eqb action "closed" then s ← the "sshSessionId" v; a ← maybe "all" v; Some (SSHClosed s a)
  else None.

(** [env], [provision] and [workspace] *)
Definition env_out_fields (m : OutMsg) : list field :=
  match m with EnvDisconnect code => [req "code" code] | EnvAwareness uids => [req "uids" uids] | _ => [] end.
Definition dec_env_out (action : string) (v : jval) : option OutMsg :=
  if String.eqb action "disconnect" then c ← the "code" v; Some (EnvDisconnect c)
  else if String.eqb action "awareness" then u ← the "uids" v; Some (EnvAwareness u)
  else None.
Definition provision_fields (m : OutMsg) : list field :=
  match m with ProvisionReady message => [req "message" message] | _ => [] end.
Definition dec_provision (action : string) (v : jval) : option OutMsg :=
  if String.eqb action "ready" then m ← the "message" v; Some (ProvisionReady m) else None.
Definition workspace_fields (m : OutMsg) : list field :=
  match m with MembersModifiedMsg uuid => [req "uuid" uuid] | _ => [] end.
Definition dec_workspace (action : string) (v : jval) : option OutMsg :=
  if String.eqb action "members.modified" then u ← the "uuid" v; Some (MembersModifiedMsg u) else None.

(** [notification]: the payload is a notification or an array of them. *)
Definition ntfn_payload (m : OutMsg) : option jval :=
  match m with NtfnNew n | NtfnDirective n => Some (enc n) | NtfnPending l => Some (enc l) | _ => None end.
Definition dec_notification (action : string) (v : jval) : option OutMsg :=
  if String.eqb action "new" then n ← dec v; Some (NtfnNew n)
  else if String.eqb action "pending" then l ← dec v; Some (NtfnPending l)
  else if String.eqb action "directive" then n ← dec v; Some (NtfnDirective n)
  else None.

(** Answers: [FSDirEntries], [FSFile], [FSNoop] and errors. *)
Definition reply_fields (m : OutMsg) : list field :=
  match m with
  | RespEntries entries correlationId => [req "entries" entries; req "correlationId" correlationId]
  | RespFile isConflicting conflictResolver => [req "isConflicting" isConflicting; req "conflictResolver" conflictResolver]
  | RespError code => [("error", Some (object [req "code" code]))]
  | _ => []
  end.
Definition dec_reply (action : string) (v : jval) : option OutMsg :=
  if String.eqb action "error" then e ← prop "error" v; c ← the "code" e; Some (RespError c)
  else if String.eqb action "success" then
    if prop "entries" v is Some _ then e ← the "entries" v; c ← the "correlationId" v; Some (RespEntries e c)
    else if prop "isConflicting" v is Some _
    then b ← the "isConflicting" v; r ← the "conflictResolver" v; Some (RespFile b r)
    else Some RespSuccess
  else None.

(** [{ action, payload }]: a message carries its own action and fields,
    whatever event it is sent under. *)
Definition out_action (m : OutMsg) : option string :=
  match ssh_action m, fs_action m, env_response_action m, provision_action m, workspace_action m with
  | Some a, _, _, _, _ | _, Some a, _, _, _ | _, _, Some a, _, _ | _, _, _, Some a, _ | _, _, _, _, Some a => Some a
  | _, _, _, _, _ => match notification_action m with Some a => Some a | None => reply_action m end
  end.
Definition out_payload (m : OutMsg) : jval :=
  match ntfn_payload m with
  | Some v => v
  | None => object (ssh_fields m ++ fs_fields m ++ env_out_fields m ++ provision_fields m ++ workspace_fields m ++ reply_fields m)
  end.
Definition enc_out (m : OutMsg) : jval :=
  object [may "action" (out_action m); ("payload", Some (out_payload m))].

(** The type the event declares, or an answer. *)
Definition dec_event_msg (event a : string) (p : jval) : option OutMsg :=
  if bool_decide (event = "ssh") then dec_ssh a p
  else if bool_decide (event = "notification") then dec_notification a p
  else if bool_decide (event = "fs") then dec_fs a p
  else if bool_decide (event = "env") then dec_env_out a p
  else if bool_decide (event = "provision") then dec_provision a p
  else if bool_decide (event = "workspace") then dec_workspace a p
  else None.
Definition dec_out (event : string) (v : jval) : option OutMsg :=
  a ← the "action" v; p ← prop "payload" v;
  match dec_event_msg event a p with Some m => Some m | None => dec_reply a p end.

Lemma dec_enc_out event m : typed_msg (H:=any_ids) event m → dec_out event (enc_out m) = Some m.
Proof.
  assert (∀ a p, out_action m = Some a → p = out_payload m →
    match dec_event_msg event a p with Some m => Some m | None => dec_reply a p end = Some m →
    dec_out event (enc_out m) = Some m) as Hout.
  { intros a p Ha -> <-. unfold dec_out, enc_out. rewrite Ha. done. }
  assert (is_Some (reply_action m) → dec_out event (enc_out m) = Some m) as Hreply.
  { intros [a Ha]. assert (out_action m = Some a) as Hoa by (by destruct m). eapply Hout; [exact Hoa|reflexivity|].
    assert (dec_event_msg event a (out_payload m) = None) as ->.
    { unfold dec_event_msg. repeat case_bool_decide; destruct m; simplify_eq/=; reflexivity. }
    destruct m; simplify_eq/=; unfold dec_reply, out_payload; simpl; wire_dec. }
  intros [Hn|[Hr _]]; [|by apply Hreply].
  unfold well_named in Hn. destruct (action_under event m) as [a|] eqn:Ha; [|done].
  revert Ha. unfold action_under. repeat case_bool_decide; subst; [..|by intros Ha; apply Hreply].
  all: intros Ha; assert (out_action m = Some a) as Hoa by (by destruct m); (eapply Hout; [exact Hoa|reflexivity|]);
    unfold dec_event_msg; simpl; destruct m; simplify_eq/=;
    unfold dec_ssh, dec_notification, dec_fs, dec_env_out, dec_provision, dec_workspace, out_payload; simpl;
    repeat match goal with o : option _ |- _ => destruct o end;
    unfold the, maybe, object, prop, req, may; simpl; repeat (rewrite dec_enc; simpl); reflexivity.
Qed.
Lemma enc_out_wf m : jwf (enc_out m).
Proof.
  unfold enc_out. wire_wf. intros [= <-]. unfold out_payload.
  destruct m; first [apply enc_wf | wire_wf]. intros [= <-]. wire_wf.
Qed.

(** ** Between services *)
Definition ws_event_fields (p : SvcPayload) : list field :=
  match p with
  | MembersModified uuid added removed => [req "uuid" uuid; req "added" added; req "removed" removed]
  | WorkspaceDeleted uuid members => [req "uuid" uuid; req "members" members]
  | _ => []
  end.
Definition UserSocketClose (socketId : string) : jval := object [req "socketId" socketId].
Definition enc_svc (p : SvcPayload) : jval :=
  match p with
  | SocketSend uid sessionId pattern msg =>
      object [req "uid" uid; req "sessionId" sessionId; req "pattern" pattern; ("msg", Some (enc_out msg))]
  | SocketBroadcast uids sessionIds pattern msg =>
      object [req "uids" uids; req "sessionIds" sessionIds; req "pattern" pattern; ("msg", Some (enc_out msg))]
  | NotifyUser uid n => object [req "uid" uid; req "notification" n]
  | NotifyUndefined n => object [req "notification" n]
  | NotificationRead uid notificationId => object [req "uid" uid; req "notificationId" notificationId]
  | MembersModified _ _ _ | WorkspaceDeleted _ _ => object (ws_event_fields p)
  | SocketClose socketId => object [req "action" "socket.close"; ("payload", Some (UserSocketClose socketId))]
  | EnvMessage msg => enc msg
  | InterEnvFSOpen uuid path stat correlationId =>
      object [req "uuid" uuid; req "path" path; req "stat" stat; may "correlationId" correlationId]
  | InterEnvFSClose uuid ino => object [req "uuid" uuid; req "ino" ino]
  | WatchPath path => object [req "path" path]
  | EnvReply data => match data with Some s => enc s | None => object [] end
  | UserProfileRequest uid => object [req "uid" uid]
  | WorkspaceDeleteOwned ownerUid => object [req "ownerUid" ownerUid]
  end.

(** The types the listeners take a payload for. *)
Inductive listener :=
| OnSocketSend | OnSocketBroadcast | OnNotificationSend | OnNotificationRead | OnMembersModified | OnWorkspaceDeleted
| OnGateway | OnEnv | OnOpenfile | OnClosefile | OnWatch | OnReply | OnUserProfile | OnDeleteOwned.

#[global] Instance listener_eq_dec : EqDecision listener.
Proof. solve_decision. Defined.

Definition read (l : listener) (v : jval) : option SvcPayload :=
  match l with
  | OnSocketSend =>
      u ← the "uid" v; s ← the "sessionId" v; p ← the "pattern" v; x ← prop "msg" v; m ← dec_out p x; Some (SocketSend u s p m)
  | OnSocketBroadcast =>
      u ← the "uids" v; s ← the "sessionIds" v; p ← the "pattern" v; x ← prop "msg" v; m ← dec_out p x;
      Some (SocketBroadcast u s p m)
  | OnNotificationSend =>
      u ← maybe "uid" v; n ← the "notification" v;
      Some (match u with Some u => NotifyUser u n | None => NotifyUndefined n end)
  | OnNotificationRead => u ← the "uid" v; i ← the "notificationId" v; Some (NotificationRead u i)
  | OnMembersModified => u ← the "uuid" v; a ← the "added" v; r ← the "removed" v; Some (MembersModified u a r)
  | OnWorkspaceDeleted => u ← the "uuid" v; m ← the "members" v; Some (WorkspaceDeleted u m)
  | OnGateway =>
      a ← the "action" v; p ← prop "payload" v;
      if String.eqb a "socket.close" then s ← the "socketId" p; Some (SocketClose s) else None
  | OnEnv => EnvMessage <$> dec v
  | OnOpenfile =>
      u ← the "uuid" v; p ← the "path" v; s ← the "stat" v; c ← maybe "correlationId" v; Some (InterEnvFSOpen u p s c)
  | OnClosefile => u ← the "uuid" v; i ← the "ino" v; Some (InterEnvFSClose u i)
  | OnWatch => p ← the "path" v; Some (WatchPath p)
  | OnReply => Some (EnvReply (dec v))
  | OnUserProfile => u ← the "uid" v; Some (UserProfileRequest u)
  | OnDeleteOwned => u ← the "ownerUid" v; Some (WorkspaceDeleteOwned u)
  end.

(** The listener a payload is meant for. *)
Definition meant_for (p : SvcPayload) : listener :=
  match p with
  | SocketSend _ _ _ _ => OnSocketSend | SocketBroadcast _ _ _ _ => OnSocketBroadcast
  | NotifyUser _ _ | NotifyUndefined _ => OnNotificationSend | NotificationRead _ _ => OnNotificationRead
  | MembersModified _ _ _ => OnMembersModified | WorkspaceDeleted _ _ => OnWorkspaceDeleted
  | SocketClose _ => OnGateway | EnvMessage _ => OnEnv | InterEnvFSOpen _ _ _ _ => OnOpenfile
  | InterEnvFSClose _ _ => OnClosefile | WatchPath _ => OnWatch | EnvReply _ => OnReply
  | UserProfileRequest _ => OnUserProfile | WorkspaceDeleteOwned _ => OnDeleteOwned
  end.
(** A message for a socket has the type of its event or is an answer. *)
Definition well_typed (p : SvcPayload) : Prop :=
  match p with
  | SocketSend _ _ pattern msg | SocketBroadcast _ _ pattern msg => typed_msg (H:=any_ids) pattern msg
  | _ => True
  end.

Lemma read_enc p : well_typed p → read (meant_for p) (enc_svc p) = Some p.
Proof.
  destruct p as [| | | | | | | | | | | |[s|]| |]; intros Hw; unfold read, meant_for, enc_svc; try (wire_dec).
  - unfold the, prop, object, req; simpl. by rewrite dec_enc_out.
  - unfold the, prop, object, req; simpl. do 2 (rewrite dec_enc; simpl). by rewrite dec_enc_out.
Qed.
Lemma enc_svc_wf p : jwf (enc_svc p).
Proof.
  destruct p as [| | | | | | | | | | | |[s|]| |]; unfold enc_svc; try apply enc_wf; wire_wf; intros [= <-];
    first [apply enc_out_wf | wire_wf].
Qed.

(** *** Packets: [{ pattern, data: { meta, payload } }]; a path to watch and an
    answer are the data themselves. *)
Definition bare (p : SvcPayload) : bool := match p with WatchPath _ | EnvReply _ => true | _ => false end.
Definition packet_data (meta : option Meta) (p : SvcPayload) : jval :=
  if bare p then enc_svc p else object [may "meta" meta; ("payload", Some (enc_svc p))].
Definition packet (pattern : string) (meta : option Meta) (p : SvcPayload) : string :=
  stringify (object [req "pattern" pattern; ("data", Some (packet_data meta p))]).

Definition reads_data (l : listener) : bool := match l with OnWatch | OnReply => true | _ => false end.
(** The listeners of the controllers unwrap [data]; the gateway's own listener
    on [gateway.<id>] takes the message itself for the event. *)
Definition unpack (l : listener) (text : string) : option (option Meta * SvcPayload) :=
  v ← parse text; data ← (if bool_decide (l = OnGateway) then Some v else prop "data" v);
  if reads_data l then p ← read l data; Some (None, p)
  else meta ← maybe "meta" data; payload ← prop "payload" data; p ← read l payload; Some (meta, p).

Lemma packet_wf (pattern : string) meta p : jwf (object [req "pattern" pattern; ("data", Some (packet_data meta p))]).
Proof.
  wire_wf. intros [= <-]. unfold packet_data. destruct (bare p); [apply enc_svc_wf|]. wire_wf. intros [= <-]. apply enc_svc_wf.
Qed.
Lemma parse_packet (pattern : string) meta p :
  parse (packet pattern meta p) = Some (object [req "pattern" pattern; ("data", Some (packet_data meta p))]).
Proof. unfold packet. apply json_roundtrip, packet_wf. Qed.

(** What the listener takes from the text is what was sent, *)
Lemma packet_roundtrip pattern meta p :
  well_typed p → meant_for p ≠ OnGateway →
  unpack (meant_for p) (packet pattern meta p) = Some (if bare p then None else meta, p).
Proof.
  intros Hw Hg. unfold unpack. rewrite parse_packet, bool_decide_false by done.
  unfold prop at 1, object at 1, req; simpl. replace (reads_data (meant_for p)) with (bare p) by (by destruct p).
  unfold packet_data. destruct (bare p); [by rewrite read_enc|].
  unfold maybe, prop, object, may; destruct meta; simpl; rewrite ?dec_enc; simpl; by rewrite read_enc.
Qed.
(** but for an order to a gateway, of which nothing is read. *)
Lemma packet_unread pattern meta p : unpack OnGateway (packet pattern meta p) = None.
Proof. unfold unpack. rewrite parse_packet. reflexivity. Qed.
