(* ===== verification/Topology.v ===== *)
(** Who listens to what: the brokers each service connects to ([main.ts]), the
    clients it sends with ([common/shared.module.ts]), the patterns its
    controllers handle, and when a message has a receiver. *)
From S2P Require Import Prelude JS Dates Messages Keys Interfaces ClientTypes Validation Codec Wire.

Inductive Transport := T_REDIS | T_RMQ | T_NATS.
#[global] Instance Transport_eq_dec : EqDecision Transport.
Proof. solve_decision. Defined.
Inductive Service := Svc_gateway | Svc_workspace | Svc_notification | Svc_user | Svc_env.
#[global] Instance Service_eq_dec : EqDecision Service.
Proof. solve_decision. Defined.
Definition services : list Service := [Svc_gateway; Svc_workspace; Svc_notification; Svc_user; Svc_env].

(** ** Connections ([connectMicroservice] of the [main.ts]) *)
Record Exchange_options := MkExchangeOptions { xo_exchange : string; xo_type : string; xo_wildcards : bool }.
Record Microservice := MkMicroservice {
  mi_transport : Transport; mi_queue : option string; mi_durable : bool; mi_exchange : option Exchange_options }.

Definition over_redis : Microservice := MkMicroservice T_REDIS None false None.
Definition over_nats (queue : string) : Microservice := MkMicroservice T_NATS (Some queue) false None.
Definition over_rmq (queue : string) (wildcards : bool) : Microservice :=
  MkMicroservice T_RMQ (Some queue) true (Some (MkExchangeOptions "hide-default" "topic" wildcards)).

Definition gateway_main : list Microservice := [over_rmq "gateway" false; over_redis].
Definition workspace_main : list Microservice := [over_rmq "workspace" true].
Definition notification_main : list Microservice := [over_rmq "notification" true; over_redis].
Definition user_main : list Microservice := [over_redis; over_nats "user"].
Definition env_main : list Microservice := [over_redis; over_nats "env"].
Definition main (s : Service) : list Microservice :=
  match s with
  | Svc_gateway => gateway_main | Svc_workspace => workspace_main | Svc_notification => notification_main
  | Svc_user => user_main | Svc_env => env_main
  end.

(** ** Clients ([ClientsModule.register] of the shared modules) *)
Record Client := MkClient { cl_name : string; cl_transport : Transport; cl_exchange : option Exchange_options }.
Definition redis_client (name : string) : Client := MkClient name T_REDIS None.
Definition nats_client (name : string) : Client := MkClient name T_NATS None.
Definition rmq_client (name : string) : Client :=
  MkClient name T_RMQ (Some (MkExchangeOptions "hide-default" "topic" true)).

Definition gateway_clients : list Client :=
  [rmq_client "GATEWAY_SERVICE_RMQ"; redis_client "GATEWAY_SERVICE_REDIS"; nats_client "GATEWAY_SERVICE_NATS"].
Definition workspace_clients : list Client :=
  [redis_client "WORKSPACE_SERVICE_REDIS"; nats_client "WORKSPACE_SERVICE_NATS"; rmq_client "WORKSPACE_SERVICE_RMQ"].
Definition notification_clients : list Client := [redis_client "NOTIFICATION_SERVICE_REDIS"].
Definition user_clients : list Client := [rmq_client "USER_SERVICE_RMQ"; redis_client "USER_SERVICE_REDIS"].
Definition env_clients : list Client := [rmq_client "ENV_SERVICE_RMQ"; redis_client "ENV_SERVICE_REDIS"].
Definition clients (s : Service) : list Client :=
  match s with
  | Svc_gateway => gateway_clients | Svc_workspace => workspace_clients | Svc_notification => notification_clients
  | Svc_user => user_clients | Svc_env => env_clients
  end.

(** ** Handlers ([EventPattern] and [MessagePattern] of the controllers)

    The type a handler takes its payload for; [None] for the patterns no
    message of the services carries: the expiry of keys, a user who comes
    online, the membership check (a question, answered where it is asked) and
    a container that is ready. *)
Definition Handler : Type := Transport * string * option listener.
Definition gateway_handlers : list Handler :=
  [(T_REDIS, "workspace.members.modified", Some OnMembersModified); (T_REDIS, "workspace.deleted", Some OnWorkspaceDeleted);
   (T_REDIS, "socket.send", Some OnSocketSend); (T_REDIS, "socket.broadcast", Some OnSocketBroadcast);
   (T_REDIS, "__keyevent@1__:expired", None)].
Definition workspace_handlers : list Handler :=
  [(T_RMQ, "workspace.membership.check", None); (T_RMQ, "workspace.delete.owned", Some OnDeleteOwned)].
Definition notification_handlers : list Handler :=
  [(T_RMQ, "notification.send", Some OnNotificationSend); (T_RMQ, "notification.read", Some OnNotificationRead);
   (T_REDIS, "user.online", None)].
Definition user_handlers : list Handler := [(T_NATS, "user.profile", Some OnUserProfile)].
Definition env_handlers : list Handler := [(T_NATS, "env.internal", None); (T_NATS, "env.msg", Some OnEnv)].
Definition handlers (s : Service) : list Handler :=
  match s with
  | Svc_gateway => gateway_handlers | Svc_workspace => workspace_handlers | Svc_notification => notification_handlers
  | Svc_user => user_handlers | Svc_env => env_handlers
  end.

(** ** Reception *)

(** A connection takes the messages of a pattern: on RabbitMQ its queue is
    bound to the exchange the clients publish to, by the patterns handled, when
    wildcards are on. *)
Definition receives (mi : Microservice) (t : Transport) : bool :=
  bool_decide (mi_transport mi = t) &&
  match t, mi_exchange mi with
  | T_RMQ, Some x => bool_decide (xo_exchange x = "hide-default") && bool_decide (xo_type x = "topic") && xo_wildcards x
  | T_RMQ, None => false
  | _, _ => true
  end.
Definition handler_of (s : Service) (t : Transport) (pattern : string) : option (option listener) :=
  snd <$> List.find (λ h : Handler, bool_decide (h.1.1 = t) && String.eqb h.1.2 pattern) (handlers s).
Definition listens (t : Transport) (pattern : string) (s : Service) : bool :=
  existsb (λ mi, receives mi t) (main s) && match handler_of s t pattern with Some _ => true | None => false end.
Definition subscribers (t : Transport) (pattern : string) : list Service := List.filter (listens t pattern) services.

(** One service handles the pattern, and takes the payload for its type. *)
Definition served (t : Transport) (pattern : string) (l : listener) : bool :=
  match subscribers t pattern with
  | [s] => bool_decide (handler_of s t pattern = Some (Some l))
  | _ => false
  end.

(** ** The channels of the environment instances ([core.controller.ts])

    An instance subscribes to channels named after it; its listener picks the
    handler by the end of the channel's name. *)

(** The branches of the listener. *)
Inductive branch := AtHealth | AtOpenfile | AtClosefile | AtMessage.
Definition suffix (b : branch) : string :=
  match b with AtHealth => ".health" | AtOpenfile => ".openfile" | AtClosefile => ".closefile" | AtMessage => "" end.

Definition channels (instanceId : string) : list string :=
  ["env." +:+ instanceId; "env." +:+ instanceId +:+ ".health"; "env." +:+ instanceId +:+ ".openfile";
   "env." +:+ instanceId +:+ ".closefile"].

(** [s.endsWith(t)] *)
Fixpoint endsWith (s t : string) : bool :=
  bool_decide (s = t) || match s with EmptyString => false | String _ s => endsWith s t end.

Definition listen (instanceId chan : string) : option branch :=
  if negb (bool_decide (chan ∈ channels instanceId)) then None
  else if endsWith chan ".health" then Some AtHealth
  else if endsWith chan ".openfile" then Some AtOpenfile
  else if endsWith chan ".closefile" then Some AtClosefile
  else Some AtMessage.

(** *** Which instance listens *)
(** The names [randomUUID] gives: no dot, and none of the words the listener
    looks for. *)
Definition instance_name (id : string) : Prop :=
  has_char "."%char id = false ∧ id ∉ ["health"; "openfile"; "closefile"].

Lemma endsWith_spec s t : endsWith s t = true ↔ ∃ r, s = r +:+ t.
Proof.
  split.
  - induction s as [|c s IH]; cbn [endsWith]; rewrite orb_true_iff, bool_decide_eq_true.
    + intros [<-|?]; [by exists ""|done].
    + intros [<-|(r & ->)%IH]; [by exists ""|]. by exists (String c r).
  - intros [r ->]. induction r as [|c r IH].
    + change ("" +:+ t) with t. destruct t; cbn [endsWith]; by rewrite bool_decide_true.
    + change (String c r +:+ t) with (String c (r +:+ t)). cbn [endsWith]. by rewrite IH, orb_true_r.
Qed.

Lemma split_on_last c r t : has_char c t = false → split_on c (r +:+ String c t) = split_on c r ++ [t].
Proof.
  intros Ht. induction r as [|d r IH].
  - change ("" +:+ String c t) with (String c t). cbn [split_on]. rewrite decide_True by done. by rewrite split_on_nochar.
  - change (String d r +:+ String c t) with (String d (r +:+ String c t)). cbn [split_on]. rewrite IH.
    case_decide; [done|]. destruct (split_on c r) as [|h l] eqn:Hr; [|done]. destruct r as [|e r]; simpl in Hr; [done|].
    case_decide; [done|]. by destruct (split_on c r).
Qed.

(** The parts of a channel's name. *)
Definition channel (instanceId : string) (b : branch) : string :=
  match b with AtMessage => "env." +:+ instanceId | _ => "env." +:+ instanceId +:+ suffix b end.
Definition part (b : branch) : list string :=
  match b with AtHealth => ["health"] | AtOpenfile => ["openfile"] | AtClosefile => ["closefile"] | AtMessage => [] end.
Lemma split_channel id b : instance_name id → split_on "."%char (channel id b) = "env" :: id :: part b.
Proof.
  intros [Hid _]. assert (channel id b = "env" +:+ String "." (id +:+ suffix b)) as ->.
  { destruct b; try reflexivity. unfold suffix. by rewrite append_nil_r. }
  rewrite split_on_app by done. f_equal. destruct b; simpl; [by apply split_on_app..|]. rewrite append_nil_r.
  by apply split_on_nochar.
Qed.
Lemma channel_listed id chan : chan ∈ channels id ↔ ∃ b, chan = channel id b.
Proof.
  unfold channels, channel. split.
  - rewrite !elem_of_cons, elem_of_nil. intros [->|[->|[->|[->|[]]]]];
      [by exists AtMessage|by exists AtHealth|by exists AtOpenfile|by exists AtClosefile].
  - intros [[] ->]; rewrite !elem_of_cons; auto.
Qed.

(** A channel ends with the suffix of its own branch only. *)
Lemma channel_ends id b t :
  instance_name id → t ∈ ["health"; "openfile"; "closefile"] → endsWith (channel id b) (String "." t) = bool_decide (part b = [t]).
Proof.
  intros Hid Hin. assert (has_char "."%char t = false) as Ht.
  { rewrite !elem_of_cons, elem_of_nil in Hin. by destruct Hin as [->|[->|[->|[]]]]. }
  apply Bool.eq_iff_eq_true. rewrite endsWith_spec, bool_decide_eq_true. split.
  - intros [r Hr]. pose proof (split_channel id b Hid) as Hs. rewrite Hr, split_on_last in Hs by done.
    assert (last (split_on "."%char r ++ [t]) = last ("env" :: id :: part b)) as Hl by (by rewrite Hs).
    rewrite last_app in Hl. simpl in Hl. destruct b; simpl in *; simplify_eq; try done.
    by destruct Hid.
  - intros Hp. exists ("env." +:+ id). destruct b; simplify_eq/=; unfold channel; simpl; by rewrite append_assoc.
Qed.

Lemma listen_channel id b : instance_name id → listen id (channel id b) = Some b.
Proof.
  intros Hid. unfold listen. rewrite bool_decide_true by (apply channel_listed; by eexists).
  rewrite !channel_ends by (try done; set_solver). by destruct b.
Qed.

Lemma channel_foreign id id' b : instance_name id → instance_name id' → id' ≠ id → listen id' (channel id b) = None.
Proof.
  intros Hid Hid' Hne. unfold listen. rewrite bool_decide_false; [done|]. intros (b' & Hb)%channel_listed.
  pose proof (split_channel id b Hid) as Hs. rewrite Hb, split_channel in Hs by done. by injection Hs.
Qed.

(** ** Messages and their receivers *)

(** A message is for a service that handles its pattern, for one channel of
    the environment instance it names, for the gateway instance or the
    container it names, or for the one who asked. *)
Definition addressed (e : effect) : Prop :=
  match e with
  | Redis chan _ p =>
      match p with
      | EnvMessage msg => ∃ id, chan = channel id AtMessage ∧ ∃ q, im_payload msg = InEnv q
      | InterEnvFSOpen _ _ _ _ => ∃ id, chan = channel id AtOpenfile
      | InterEnvFSClose _ _ => ∃ id, chan = channel id AtClosefile
      | EnvReply _ => ∃ id, chan = channel id AtMessage +:+ ".reply" ∨ chan = channel id AtHealth +:+ ".reply"
      | SocketClose _ => ∃ id, chan = "gateway." +:+ id
      | WatchPath _ => ∃ uuid, chan = "workspace." +:+ uuid +:+ ".watch.add" ∨ chan = "workspace." +:+ uuid +:+ ".watch.remove"
      | _ => served T_REDIS chan (meant_for p) = true
      end
  | Rmq pattern _ p => served T_RMQ pattern (meant_for p) = true
  | Nats pattern _ p => served T_NATS pattern (meant_for p) = true
  | _ => True
  end.
Lemma reply_channel id : "env." +:+ id +:+ ".reply" = channel id AtMessage +:+ ".reply".
Proof. unfold channel. by rewrite append_assoc. Qed.
Lemma health_reply_channel id : "env." +:+ id +:+ ".health.reply" = channel id AtHealth +:+ ".reply".
Proof. unfold channel, suffix. by rewrite !append_assoc. Qed.
Ltac address :=
  first [exact I | reflexivity | eexists; reflexivity | eexists; left; reflexivity | eexists; right; reflexivity
        | eexists; split; [reflexivity|eexists; reflexivity]
        | eexists; left; apply reply_channel | eexists; right; apply health_reply_channel].
#[export] Hint Extern 0 (addressed _) => address : core.

(** Every handler is connected: its service takes messages of its transport. *)
Lemma handlers_connected s t pattern l :
  (t, pattern, l) ∈ handlers s → subscribers t pattern = [s].
Proof.
  intros Hin. destruct s; repeat (apply elem_of_cons in Hin as [[= -> -> ->]|Hin]; [reflexivity|]); by apply elem_of_nil in Hin.
Qed.

(** What [receives] takes for granted of the senders: every RabbitMQ client
    publishes to the topic exchange by the pattern, with wildcards on. *)
Lemma clients_publish s c :
  c ∈ clients s → cl_transport c = T_RMQ → cl_exchange c = Some (MkExchangeOptions "hide-default" "topic" true).
Proof.
  intros Hin. destruct s; repeat (apply elem_of_cons in Hin as [->|Hin]; [done|]); by apply elem_of_nil in Hin.
Qed.
