(* ===== verification/Frame.v ===== *)
(** What the services leave alone.  A property of the shared cache and of the
    messages sent is framed when it survives well-typed messages that have a
    receiver and are not requests to an environment, writes to the presence and
    workspace keys, and profiles filed under their owner.  Handlers that do nothing else preserve
    every framed property ([Framed]). *)
From S2P Require Import Prelude JS Dates Messages Keys Interfaces ClientTypes Validation Codec Wire Topology.

(** A client's request on its way to an environment instance. *)
Definition env_request (e : effect) : option (option Meta * InSocketMessage) :=
  match e with
  | Redis _ meta (EnvMessage msg) | Nats _ meta (EnvMessage msg) => Some (meta, msg)
  | _ => None
  end.
Definition plain_effect `{!ClientIds} (e : effect) : Prop := typed_effect e ∧ addressed e ∧ env_request e = None.

(** The keys of presences, their timers and workspaces, and of the templates. *)
Inductive plain_key : string → Prop :=
| plain_presence u : plain_key (CACHEKEY_PRESENCE u)
| plain_session u s : plain_key (CACHEKEY_PRESENCE_SESSION u s)
| plain_pws u s x : plain_key (CACHEKEY_PRESENCE_WORKSPACE u s x)
| plain_workspace x : plain_key (CACHEKEY_WORKSPACE x)
| plain_templates : plain_key "templates".
#[export] Hint Constructors plain_key : core.

(** The keys a profile is cached under. *)
Inductive profile_key (u : string) : string → Prop :=
| profile_main : profile_key u (CACHEKEY_USER_PROFILE u)
| profile_users : profile_key u ("users:" +:+ u).

Lemma plain_ne_membership k u : plain_key k → k ≠ CACHEKEY_MEMBERSHIP u.
Proof. by intros []. Qed.
Lemma plain_ne_profile k u k' : plain_key k → profile_key u k' → k ≠ k'.
Proof. by intros [] []. Qed.

Class Frame `{!ClientIds} {C} `{!Cache C} (J : C → list effect → Prop) : Prop := {
  frame_emit c o e : plain_effect e → J c o → J c (o ++ [e]);
  frame_set c o k v : plain_key k → J c o → J (kv_set k v c) o;
  frame_del c o k : plain_key k → J c o → J (kv_del k c) o;
  frame_profile_del c o u k : profile_key u k → J c o → J (kv_del k c) o;
  frame_profile c o k p t : profile_key (u_uid p) k → J c o → J (kv_set k (CProfile p, t) c) o;
}.

(** A property that also survives the changes of the membership cache and
    the requests a gateway forwards. *)
Class OpenFrame `{!ClientIds} {C} `{!Cache C} (J : C → list effect → Prop) : Prop := {
  open_frame :: Frame J;
  frame_membership c o u v : J c o → J (kv_set (CACHEKEY_MEMBERSHIP u) v c) o;
  frame_request c o e : typed_effect e → addressed e → is_Some (env_request e) → J c o → J c (o ++ [e]);
}.

(** The documents found for a user are the user's. *)
Class UsersLaws `{!Users} : Prop := { users_by_uid_uid uid p l : users_by_uid uid = p :: l → u_uid p = uid }.

Definition frames {C X} (J : C → list effect → Prop) (w : world C X) : Prop := J (w_cache w) (w_out w).

Section framed_primitives.
Context {K : ClientIds} {C X : Type} `{!Cache C} (J : C → list effect → Prop) `{!Frame J}.
Abbreviation W := (world C X).
Abbreviation keeps := (preserves (frames J : W → Prop)).

Lemma framed_emit e : plain_effect e → keeps (emit e).
Proof. intros He w. exact (frame_emit _ _ e He). Qed.
Lemma frames_set k v t : plain_key k → keeps (cache_set k v t).
Proof. intros Hk w. exact (frame_set _ _ k (v, t) Hk). Qed.
Lemma frames_del k : plain_key k → keeps (cache_del k).
Proof. intros Hk w. exact (frame_del _ _ k Hk). Qed.
Lemma framed_set_profile k uid p t : profile_key uid k → u_uid p = uid → keeps (cache_set k (CProfile p) t).
Proof. intros Hk <- w. exact (frame_profile _ _ k p t Hk). Qed.
Lemma framed_fetch `{!Network} m u : keeps (fetch m u).
Proof. intros w Hw. rewrite fetch_run. by apply framed_emit. Qed.
Lemma framed_put_loc f : keeps (put_loc f).
Proof. by intros w. Qed.
Lemma framed_uuid `{!Random} : keeps randomUUID.
Proof. by intros w. Qed.
Lemma framed_createMessage `{!Random} u r : keeps (createMessage u r).
Proof. by intros w. Qed.
Lemma framed_transact {A} (m : M W A) : keeps m → keeps (transact m).
Proof. intros Hm w Hw. unfold transact. specialize (Hm w Hw). by destruct (m w) as [[]]. Qed.
End framed_primitives.

Section framed_tables.
Context {C X T E Row : Type} `{!Repo T E Row, !TableOf X T} (J : C → list effect → Prop).
Lemma framed_t_save e : preserves (frames (X:=X) J) (t_save e).
Proof. intros w. unfold t_save. by destruct (r_save _ _) as [[? ?]|]. Qed.
Lemma framed_t_delete p : preserves (frames (X:=X) J) (t_delete p).
Proof. intros w. unfold t_delete. by destruct (r_delete _ _). Qed.
End framed_tables.

#[export] Hint Resolve frames_set frames_del framed_fetch framed_put_loc framed_uuid framed_createMessage
  framed_transact framed_t_save framed_t_delete : pres.
#[export] Hint Extern 1 (preserves (frames _) (emit _)) =>
  (apply framed_emit; [done|split; [first [done | reflexivity | left; done | left; reflexivity]|split; [address|reflexivity]]]) : pres.

(** ** Framed properties *)
Section instances.
Context {K : ClientIds} {C : Type} `{!Cache C}.

(** Every message has its declared type. *)
#[global] Instance typed_frame : OpenFrame (λ (_ : C) o, Forall typed_effect o).
Proof.
  assert (∀ o e, typed_effect e → Forall typed_effect o → Forall typed_effect (o ++ [e])) as Hadd.
  { intros o e He Ho. apply Forall_app_2; [done|by apply Forall_singleton]. }
  split; [split|..]; try done; intros; [apply Hadd|by apply Hadd]; [|done]. by destruct H.
Qed.

(** Every message has a receiver. *)
#[global] Instance addressed_frame : OpenFrame (λ (_ : C) o, Forall addressed o).
Proof.
  assert (∀ o e, addressed e → Forall addressed o → Forall addressed (o ++ [e])) as Hadd.
  { intros o e He Ho. apply Forall_app_2; [done|by apply Forall_singleton]. }
  split; [split|..]; try done; intros; [apply Hadd|by apply Hadd]; [|done]. by destruct H as (_ & ? & _).
Qed.

Context `{!CacheLaws C}.

(** The memberships of [c0] are cached and nothing but plain messages was
    sent since [o0]. *)
Definition quiet (c0 : C) (o0 : list effect) (c : C) (o : list effect) : Prop :=
  (∀ u, membership_in c u = membership_in c0 u) ∧ ∃ es, o = o0 ++ es ∧ Forall (λ e, env_request e = None) es.
#[global] Instance quiet_frame c0 o0 : Frame (quiet c0 o0).
Proof.
  split.
  - intros c o e (_ & _ & He) [Hm (es & -> & Hes)]. split; [done|]. exists (es ++ [e]). rewrite app_assoc.
    split; [done|]. apply Forall_app_2; [done|by apply Forall_singleton].
  - intros c o k v Hk [Hm Ho]. split; [|done]. intros u.
    rewrite membership_in_set_ne by (by apply plain_ne_membership). apply Hm.
  - intros c o k Hk [Hm Ho]. split; [|done]. intros u.
    rewrite membership_in_del_ne by (by apply plain_ne_membership). apply Hm.
  - intros c o u k Hk [Hm Ho]. split; [|done]. intros v. rewrite membership_in_del_ne by (by destruct Hk). apply Hm.
  - intros c o k p t Hk [Hm Ho]. split; [|done]. intros u. rewrite membership_in_set_ne by (by destruct Hk). apply Hm.
Qed.

Lemma quiet_refl c o : quiet c o c o.
Proof. split; [done|]. exists []. by rewrite app_nil_r. Qed.
End instances.
