(* ===== verification/Identity.v ===== *)
(** Who a request is made for.  The gateway names the user in the header
    [x-auth-user], as base64 of JSON; the services read it back with the
    decorator of [libs/common/decorator/user-header.ts].  The answer to an
    exception is written by [HttpExceptionFilter]. *)
From S2P Require Import Prelude JS Messages Validation Codec.

(** ** Users as JSON *)
Definition member (k : string) (v : option string) : list (string * jval) :=
  match v with Some s => [(k, JStr s)] | None => [] end.
(** [JSON.stringify] leaves out the members that are undefined. *)
Definition user_json (u : User) : jval :=
  JObj (("uid", JStr (u_uid u)) :: member "name" (u_name u) ++ member "username" (u_username u) ++
    member "email" (u_email u) ++ member "picture" (u_picture u) ++ member "issuer" (u_issuer u) ++
    member "expireAt" (u_expireAt u)).

(** A value that has the type [User], as such. *)
Definition text (k : string) (o : list (string * jval)) : option (option string) :=
  match oget k o with None => Some None | Some (JStr s) => Some (Some s) | Some _ => None end.
Definition as_user (v : jval) : option User :=
  match v with
  | JObj o =>
      match oget "uid" o with
      | Some (JStr uid) =>
          name ← text "name" o; username ← text "username" o; email ← text "email" o;
          picture ← text "picture" o; issuer ← text "issuer" o; expireAt ← text "expireAt" o;
          Some (MkUser uid name username email picture issuer expireAt)
      | _ => None
      end
  | _ => None
  end.

(** ** The header *)

(** [Buffer.from(JSON.stringify(user)).toString('base64')] *)
Definition x_auth_user (user : User) : string := base64_encode (utf8_encode (stringify (user_json user))).

(** The value the decorator gives the handler: [null] without a header. *)
Definition UserHeader (userHeader : option string) : res (option jval) :=
  match if_truthy userHeader with
  | None => Ok None
  | Some h =>
      match utf8_decode (base64_decode h) ≫= parse with
      | Some v => Ok (Some v)
      | None => Throw (PlainError "SyntaxError")
      end
  end.

(** ** Exceptions *)

(** The status of the answer and its members but for the time. *)
Record ErrorBody := MkErrorBody { eb_statusCode : Z; eb_path : string; eb_message : string }.
(** [HttpExceptionFilter.catch]: other exceptions are the framework's. *)
Definition http_exception_filter (e : exn) (url : string) : option (Z * ErrorBody) :=
  match e with
  | HttpException statusCode message => Some (statusCode, MkErrorBody statusCode url message)
  | _ => None
  end.

(** ** Properties *)
Lemma user_json_wf u : jwf (user_json u).
Proof.
  constructor.
  - unfold owf. destruct u as [uid [] [] [] [] [] []]; apply (bool_decide_eq_true (NoDup _)); vm_compute; reflexivity.
  - destruct u as [uid [] [] [] [] [] []]; repeat constructor.
Qed.
Lemma as_user_json u : as_user (user_json u) = Some u.
Proof. by destruct u as [uid [] [] [] [] [] []]. Qed.

Lemma base64_truthy a l : truthy (base64_encode (a :: l)) = true.
Proof. by destruct l as [|b [|c l]]. Qed.

(** The services see the user the gateway named. *)
Lemma header_roundtrip u : UserHeader (Some (x_auth_user u)) = Ok (Some (user_json u)).
Proof.
  unfold UserHeader, x_auth_user. assert (truthy (base64_encode (utf8_encode (stringify (user_json u)))) = true) as Ht.
  { unfold stringify, user_json. rewrite print_obj. apply base64_truthy. }
  unfold if_truthy. cbn [mbind option_bind]. rewrite Ht, base64_roundtrip, utf8_roundtrip. cbn [mbind option_bind]. by rewrite json_roundtrip by apply user_json_wf.
Qed.
