(* ===== verification/CodeGen.v ===== *)
(** The access-code generator [accessCode] of [workspace/src/utils/index.ts]:
    rejection sampling of random bytes into a 31-character alphabet. *)
From S2P Require Import Prelude JS.
From Stdlib Require Import Lia.

Definition CHARSPACE : string := "ABCDEFGHJKMNPQRSTUVWXYZ23456789".

Definition charSpaceLen : Z := Z.of_nat (String.length CHARSPACE).

(** Bytes at or above [maxValid] are rejected. *)
Definition maxValid : Z := 256 - (256 mod charSpaceLen).

(** [charSpace[i]], [None] out of range. *)
Definition char_at (i : Z) : option ascii := String.get (Z.to_nat i) CHARSPACE.

(** The body of the [for] loop over one block of bytes: stops as soon as
    [out] has [len] characters.  [out] is kept as the pushed characters. *)
Fixpoint fill_block (len : nat) (bytes : list Z) (out : list ascii) : list ascii :=
  match bytes with
  | [] => out
  | b :: bytes' =>
      if Nat.ltb (length out) len then
        if maxValid <=? b then fill_block len bytes' out
        else match char_at (b mod charSpaceLen) with
             | Some c => fill_block len bytes' (out ++ [c])
             | None => fill_block len bytes' out
             end
      else out
  end.

(** The [while] loop; [blocks i] is the i-th call of [randomBytes(32)].
    [None] when [fuel] blocks were not enough. *)
Fixpoint code_loop (fuel : nat) (i : nat) (blocks : nat → list Z) (len : nat)
    (out : list ascii) : option (list ascii) :=
  if Nat.ltb (length out) len then
    match fuel with
    | O => None
    | S fuel' => code_loop fuel' (S i) blocks len (fill_block len (blocks i) out)
    end
  else Some out.

Definition accessCode (fuel : nat) (blocks : nat → list Z) (len : nat) : option string :=
  String.string_of_list_ascii <$> code_loop fuel 0 blocks len [].

(** ** A reference definition *)

Definition valid_byte (b : Z) : bool := negb (maxValid <=? b).

(** The characters a byte sequence stands for, rejected bytes dropped. *)
Definition sample (bytes : list Z) : list ascii :=
  omap (λ b, if valid_byte b then char_at (b mod charSpaceLen) else None) bytes.

Definition is_byte (b : Z) : Prop := 0 ≤ b < 256.

Definition first_blocks (n : nat) (blocks : nat → list Z) : list Z :=
  concat (map blocks (seq 0 n)).

(** ** Facts about the alphabet, by computation *)
Lemma charSpaceLen_eq : charSpaceLen = 31.
Proof. reflexivity. Qed.
Lemma maxValid_eq : maxValid = 248.
Proof. reflexivity. Qed.

Lemma char_at_Some i : 0 ≤ i < charSpaceLen → is_Some (char_at i).
Proof.
  rewrite charSpaceLen_eq. intros Hi. unfold char_at.
  assert (∀ n, (n < 31)%nat → is_Some (String.get n CHARSPACE)) as H.
  { intros n Hn. do 31 (destruct n as [|n]; [eexists; reflexivity|]). lia. }
  apply H. lia.
Qed.

(** [sample] of a byte is one character exactly for the accepted bytes. *)
Lemma sample_cons b bytes :
  is_byte b →
  sample (b :: bytes) =
    if maxValid <=? b then sample bytes
    else match char_at (b mod charSpaceLen) with
         | Some c => c :: sample bytes
         | None => sample bytes
         end.
Proof.
  intros Hb. unfold sample, valid_byte. simpl.
  destruct (maxValid <=? b); simpl; [done|]. by destruct (char_at _).
Qed.

Lemma fill_block_spec len bytes out :
  Forall is_byte bytes → (length out ≤ len)%nat →
  fill_block len bytes out = take len (out ++ sample bytes).
Proof.
  revert out. induction bytes as [|b bytes IH]; intros out Hb Hl.
  { simpl. rewrite app_nil_r. by rewrite take_ge. }
  apply Forall_cons in Hb as [Hb Hbs].
  rewrite sample_cons by done. cbn [fill_block].
  destruct (Nat.ltb_spec (length out) len) as [Hlt|Hge].
  - destruct (maxValid <=? b) eqn:Hv; [by apply IH|].
    destruct (char_at _) as [c|]; [|by apply IH].
    rewrite IH; [|done|rewrite length_app; simpl; lia].
    by rewrite <- app_assoc.
  - assert (length out = len) as <- by lia. by rewrite take_app_length.
Qed.

Lemma sample_app l1 l2 : sample (l1 ++ l2) = sample l1 ++ sample l2.
Proof. unfold sample. apply omap_app. Qed.

Lemma take_take_app {A} n (l1 l2 : list A) : take n (take n l1 ++ l2) = take n (l1 ++ l2).
Proof.
  rewrite !take_app, take_take, Nat.min_id, length_take. do 2 f_equal. lia.
Qed.

Lemma code_loop_spec fuel i blocks len out r :
  (∀ j, Forall is_byte (blocks j)) → (length out ≤ len)%nat →
  code_loop fuel i blocks len out = Some r →
  ∃ n, (n ≤ fuel)%nat ∧ r = take len (out ++ sample (concat (map blocks (seq i n)))) ∧ length r = len.
Proof.
  intros Hb. revert i out. induction fuel as [|fuel IH]; intros i out Hl; simpl;
    destruct (Nat.ltb_spec (length out) len) as [Hlt|Hge]; intros Hr; simplify_eq.
  - exists 0%nat. simpl. rewrite app_nil_r, take_ge by lia. split; [lia|]. split; [done|lia].
  - apply IH in Hr as (n & Hn & -> & Hlen).
    + exists (S n). simpl. split; [lia|]. split; [|done].
      by rewrite fill_block_spec, sample_app, app_assoc, take_take_app.
    + rewrite fill_block_spec by done. rewrite length_take. lia.
  - exists 0%nat. simpl. rewrite app_nil_r, take_ge by lia. split; [lia|]. split; [done|lia].
Qed.

Lemma code_loop_enough fuel i blocks len out :
  (∀ j, Forall is_byte (blocks j)) → (length out ≤ len)%nat →
  (len ≤ length out + length (sample (concat (map blocks (seq i fuel)))))%nat →
  is_Some (code_loop fuel i blocks len out).
Proof.
  intros Hb. revert i out. induction fuel as [|fuel IH]; intros i out Hl Hn; simpl in *;
    destruct (Nat.ltb_spec (length out) len) as [Hlt|Hge]; try (by eexists); [lia|].
  apply IH; rewrite fill_block_spec by done; rewrite ?length_take, ?length_app; [lia|].
  rewrite sample_app, length_app in Hn. lia.
Qed.

Lemma sample_length bytes :
  Forall is_byte bytes → length (sample bytes) = length (List.filter valid_byte bytes).
Proof.
  induction 1 as [|b l Hbyte _ IH]; [done|].
  rewrite sample_cons by done. simpl. unfold valid_byte at 1.
  destruct (Z.leb_spec maxValid b) as [Hge|Hlt]; simpl; [done|].
  destruct (char_at_Some (b mod charSpaceLen)) as [c ->].
  { apply Z.mod_pos_bound. by rewrite charSpaceLen_eq. }
  simpl. by rewrite IH.
Qed.

(** ** Properties *)

Lemma string_of_list_length l : String.length (String.string_of_list_ascii l) = length l.
Proof. induction l as [|c l IH]; simpl; [done|by rewrite IH]. Qed.

Lemma accessCode_length fuel blocks len s :
  (∀ j, Forall is_byte (blocks j)) → accessCode fuel blocks len = Some s → String.length s = len.
Proof.
  intros Hb. unfold accessCode. destruct (code_loop _ _ _ _ _) as [r|] eqn:Hr; [|done].
  intros [= <-]. apply code_loop_spec in Hr as (n & Hn & -> & Hl); [|done|simpl; lia].
  by rewrite string_of_list_length.
Qed.

(** C37: the generator equals its reference definition: a code it returns is
    the first [len] characters of the sampled random bytes, and has exactly
    [len] characters. *)
Theorem accessCode_reference fuel blocks len s :
  (∀ j, Forall is_byte (blocks j)) →
  accessCode fuel blocks len = Some s →
  (∃ n, (n ≤ fuel)%nat ∧ s = String.string_of_list_ascii (take len (sample (first_blocks n blocks)))) ∧
  String.length s = len.
Proof.
  intros Hb. unfold accessCode. destruct (code_loop _ _ _ _ _) as [r|] eqn:Hr; [|done].
  intros [= <-]. apply code_loop_spec in Hr as (n & Hn & -> & Hl); [|done|simpl; lia].
  split; [exists n; done|]. by rewrite string_of_list_length.
Qed.

(** A block of 32 bytes of the same value. *)
Definition const_blocks (b : Z) (_ : nat) : list Z := repeat b 32.

Lemma accessCode_reference_witness :
  (∀ j, Forall is_byte (const_blocks 30 j)) ∧
  accessCode 1 (const_blocks 30) 16 = Some "9999999999999999" ∧
  String.length "9999999999999999" = 16%nat.
Proof.
  assert (∀ j, Forall is_byte (const_blocks 30 j)) as Hb.
  { intros j. unfold const_blocks, is_byte. simpl. repeat constructor; lia. }
  assert (accessCode 1 (const_blocks 30) 16 = Some "9999999999999999") as Hr by reflexivity.
  split; [exact Hb|]. split; [exact Hr|].
  exact (proj2 (accessCode_reference 1 (const_blocks 30) 16 _ Hb Hr)).
Defined.

(** C38: the loop terminates with a code as soon as the random blocks contain
    enough accepted bytes. *)
Theorem accessCode_terminates fuel blocks len :
  (∀ j, Forall is_byte (blocks j)) →
  (len ≤ length (List.filter valid_byte (first_blocks fuel blocks)))%nat →
  is_Some (accessCode fuel blocks len).
Proof.
  intros Hb Hlen. unfold accessCode. apply fmap_is_Some, code_loop_enough; [done|simpl; lia|].
  simpl. fold (first_blocks fuel blocks). rewrite sample_length; [done|].
  unfold first_blocks. induction (seq 0 fuel); simpl; [done|]. by apply Forall_app.
Qed.

Lemma accessCode_terminates_witness :
  (16 ≤ length (List.filter valid_byte (first_blocks 1 (const_blocks 7))))%nat ∧
  is_Some (accessCode 1 (const_blocks 7) 16).
Proof.
  split; [vm_compute; lia|]. apply (accessCode_terminates 1 (const_blocks 7) 16).
  - intros j. unfold const_blocks, is_byte. simpl. repeat constructor; lia.
  - vm_compute. lia.
Defined.

(** How many of the 256 byte values are accepted and mapped to [c]. *)
Definition weight (c : ascii) : nat :=
  length (List.filter (λ b, bool_decide (sample [b] = [c])) (map Z.of_nat (seq 0 256))).

(** rejection sampling is unbiased: every character of the alphabet stands
    for the same number (8) of byte values, and no other character can
    appear. *)
Theorem accessCode_unbiased c :
  weight c = if bool_decide (c ∈ String.list_ascii_of_string CHARSPACE) then 8%nat else 0%nat.
Proof.
  destruct c as [[][][][][][][][]]; vm_compute; reflexivity.
Qed.
