(* ===== verification/Entities.v ===== *)
(** The workspace service's data: the TypeORM entities [Workspace],
    [Membership] and [AccessCode] ([workspace/src/common/model]), the role
    levels, the service's three tables and the integrity of the database. *)
From S2P Require Import Prelude JS Messages Keys Interfaces.
From Stdlib Require Import Lia.

Inductive WorkspaceStatus := PROVISIONING | READY | DEPROVISIONING | COLD | DELETING.
#[global] Instance WorkspaceStatus_eq_dec : EqDecision WorkspaceStatus.
Proof. solve_decision. Defined.

Inductive AccessStatus := NEW | UNUSED | USED.
#[global] Instance AccessStatus_eq_dec : EqDecision AccessStatus.
Proof. solve_decision. Defined.

(** ** Rows *)
Record Workspace := WsRow {
  ws_id : Z;
  ws_uuid : string;
  ws_image : string;
  ws_name : string;
  ws_description : string;
  ws_status : WorkspaceStatus;
  ws_dedicated : bool;
  ws_createdAt : Z;
}.

Record Membership := MsRow {
  ms_workspaceId : Z;
  ms_userId : string;
  ms_role : string;
  ms_joinedAt : Z;
}.

Record AccessCode := AcRow {
  ac_id : Z;
  ac_code : string;
  ac_uid : string;
  ac_uuid : string;
  ac_status : AccessStatus;
  ac_ntfnId : option string;
  ac_usedAt : option Z;
  ac_expiresAt : option Z;
}.

#[global] Instance Workspace_eq_dec : EqDecision Workspace.
Proof. solve_decision. Defined.
#[global] Instance Membership_eq_dec : EqDecision Membership.
Proof. solve_decision. Defined.
#[global] Instance AccessCode_eq_dec : EqDecision AccessCode.
Proof. solve_decision. Defined.

(** ** Entity objects, whose fields may be undefined; a nullable column is
    an [option] inside. *)
Record WorkspaceE := WsE {
  we_id : option Z;
  we_uuid : option string;
  we_image : option string;
  we_name : option string;
  we_description : option string;
  we_status : option WorkspaceStatus;
  we_dedicated : option bool;
  we_createdAt : option Z;
}.

Record MembershipE := MsE {
  me_workspaceId : option Z;
  me_userId : option string;
  me_role : option string;
  me_joinedAt : option Z;
}.

Record AccessCodeE := AcE {
  ae_id : option Z;
  ae_code : option string;
  ae_uid : option string;
  ae_uuid : option string;
  ae_status : option AccessStatus;
  ae_ntfnId : option (option string);
  ae_usedAt : option (option Z);
  ae_expiresAt : option (option Z);
}.

(** A loaded row handed back to [save]. *)
Definition ws_entity (r : Workspace) : WorkspaceE :=
  WsE (Some (ws_id r)) (Some (ws_uuid r)) (Some (ws_image r)) (Some (ws_name r))
    (Some (ws_description r)) (Some (ws_status r)) (Some (ws_dedicated r)) (Some (ws_createdAt r)).
Definition ac_entity (r : AccessCode) : AccessCodeE :=
  AcE (Some (ac_id r)) (Some (ac_code r)) (Some (ac_uid r)) (Some (ac_uuid r))
    (Some (ac_status r)) (Some (ac_ntfnId r)) (Some (ac_usedAt r)) (Some (ac_expiresAt r)).

(** [new Workspace(data)] *)
Definition new_Workspace (name description uuid image : option string)
    (status : option WorkspaceStatus) (dedicated : option bool) : WorkspaceE :=
  WsE None (if_truthy uuid) (if_truthy image) (if_truthy name) (if_truthy description)
    status (Some (default false dedicated)) None.

(** [new Membership().setData(data)] *)
Definition Membership_setData (workspaceId : option Z) (userId role : option string) : MembershipE :=
  MsE (match workspaceId with Some n => if decide (n = 0) then None else Some n | None => None end)
    (if_truthy userId) (if_truthy role) None.

(** [new AccessCode(data)] *)
Definition new_AccessCode (code uid uuid : option string) (status : option AccessStatus)
    (ntfnId : option string) (usedAt expiresAt : option Z) : AccessCodeE :=
  AcE None (if_truthy code) (if_truthy uid) (if_truthy uuid) status
    (Some <$> if_truthy ntfnId) (Some <$> usedAt) (Some <$> expiresAt).

(** ** Primary keys and unique columns *)
Definition agrees {A} (o : option A) (a : A) : Prop :=
  match o with Some x => x = a | None => True end.

#[global] Instance Workspace_Entity : Entity WorkspaceE Workspace := {
  e_same r x := bool_decide (ws_id r = ws_id x);
  e_clash r x := bool_decide (ws_id r = ws_id x) || bool_decide (ws_uuid r = ws_uuid x);
  e_keyed e := bool_decide (is_Some (we_id e));
  e_generated := true;
  e_saved e r := agrees (we_id e) (ws_id r) ∧ agrees (we_uuid e) (ws_uuid r) ∧
    agrees (we_image e) (ws_image r) ∧ agrees (we_name e) (ws_name r) ∧
    agrees (we_description e) (ws_description r) ∧ agrees (we_status e) (ws_status r) ∧
    agrees (we_dedicated e) (ws_dedicated r) ∧ agrees (we_createdAt e) (ws_createdAt r);
}.

#[global] Instance Membership_Entity : Entity MembershipE Membership := {
  e_same r x := bool_decide (ms_workspaceId r = ms_workspaceId x) &&
                bool_decide (ms_userId r = ms_userId x);
  e_clash r x := bool_decide (ms_workspaceId r = ms_workspaceId x) &&
                 bool_decide (ms_userId r = ms_userId x);
  e_keyed e := bool_decide (is_Some (me_workspaceId e)) && bool_decide (is_Some (me_userId e));
  e_generated := false;
  e_saved e r := agrees (me_workspaceId e) (ms_workspaceId r) ∧
    agrees (me_userId e) (ms_userId r) ∧ agrees (me_role e) (ms_role r) ∧
    agrees (me_joinedAt e) (ms_joinedAt r);
}.

#[global] Instance AccessCode_Entity : Entity AccessCodeE AccessCode := {
  e_same r x := bool_decide (ac_id r = ac_id x);
  e_clash r x := bool_decide (ac_id r = ac_id x) || bool_decide (ac_code r = ac_code x);
  e_keyed e := bool_decide (is_Some (ae_id e));
  e_generated := true;
  e_saved e r := agrees (ae_id e) (ac_id r) ∧ agrees (ae_code e) (ac_code r) ∧
    agrees (ae_uid e) (ac_uid r) ∧ agrees (ae_uuid e) (ac_uuid r) ∧
    agrees (ae_status e) (ac_status r) ∧ agrees (ae_ntfnId e) (ac_ntfnId r) ∧
    agrees (ae_usedAt e) (ac_usedAt r) ∧ agrees (ae_expiresAt e) (ac_expiresAt r);
}.

Lemma ws_entity_saved r r' : e_saved (ws_entity r) r' → r' = r.
Proof. destruct r, r'. simpl. naive_solver. Qed.
Lemma ac_entity_saved r r' : e_saved (ac_entity r) r' → r' = r.
Proof. destruct r, r'. simpl. naive_solver. Qed.

(** A membership object with a role, once stored, is the row it describes. *)
Lemma setData_saved wid uid role m :
  truthy role = true →
  e_keyed (Membership_setData (Some wid) (Some uid) (Some role)) = true →
  e_saved (Membership_setData (Some wid) (Some uid) (Some role)) m →
  ms_workspaceId m = wid ∧ ms_userId m = uid ∧ ms_role m = role.
Proof.
  unfold Membership_setData. intros Hr. simpl. rewrite Hr.
  case_decide; simpl; [done|]. destruct (truthy uid); simpl; naive_solver.
Qed.

(** ** Roles *)

(** [roleLevels[role]]: [undefined] for an unknown role. *)
Definition roleLevels (role : string) : option Z :=
  if decide (role = "member") then Some 0
  else if decide (role = "admin") then Some 1
  else if decide (role = "owner") then Some 2
  else None.

(** JavaScript's [a < b] when [a] may be [undefined]: [undefined < n] is
    [false]. *)
Definition lt_undef (a : option Z) (b : Z) : bool :=
  match a with Some x => x <? b | None => false end.

(** The roles the service itself ever writes. *)
Definition known_role (role : string) : Prop := role = "owner" ∨ role = "member".

Lemma known_role_level role :
  known_role role → lt_undef (roleLevels role) 1 = false ↔ role = "owner".
Proof. by intros [-> | ->]; split. Qed.

(** ** The service's tables *)
Record DB (Tw Tm Ta : Type) := MkDB { db_ws : Tw; db_ms : Tm; db_ac : Ta }.
Arguments MkDB {Tw Tm Ta}.
Arguments db_ws {Tw Tm Ta}.
Arguments db_ms {Tw Tm Ta}.
Arguments db_ac {Tw Tm Ta}.

#[global] Instance DB_ws Tw Tm Ta : TableOf (DB Tw Tm Ta) Tw :=
  {| tb_get := db_ws; tb_set t d := MkDB t (db_ms d) (db_ac d) |}.
#[global] Instance DB_ms Tw Tm Ta : TableOf (DB Tw Tm Ta) Tm :=
  {| tb_get := db_ms; tb_set t d := MkDB (db_ws d) t (db_ac d) |}.
#[global] Instance DB_ac Tw Tm Ta : TableOf (DB Tw Tm Ta) Ta :=
  {| tb_get := db_ac; tb_set t d := MkDB (db_ws d) (db_ms d) t |}.

Section integrity.
Context {Tw Tm Ta : Type}.
Context `{!Repo Tw WorkspaceE Workspace, !Repo Tm MembershipE Membership,
          !Repo Ta AccessCodeE AccessCode}.
Implicit Types d : DB Tw Tm Ta.

Definition wss d : list Workspace := r_rows (db_ws d).
Definition mss d : list Membership := r_rows (db_ms d).
Definition acs d : list AccessCode := r_rows (db_ac d).

(** Referential integrity, unique keys and known roles. *)
Record db_ok d : Prop := {
  ok_fk m : m ∈ mss d → ∃ r, r ∈ wss d ∧ ws_id r = ms_workspaceId m;
  ok_ws_uuid r r' : r ∈ wss d → r' ∈ wss d → ws_uuid r = ws_uuid r' → ws_id r = ws_id r';
  ok_ws_id r r' : r ∈ wss d → r' ∈ wss d → ws_id r = ws_id r' → r = r';
  ok_ms_key m m' : m ∈ mss d → m' ∈ mss d → ms_workspaceId m = ms_workspaceId m' →
    ms_userId m = ms_userId m' → m = m';
  ok_role m : m ∈ mss d → known_role (ms_role m);
  ok_ac_code a a' : a ∈ acs d → a' ∈ acs d → ac_code a = ac_code a' → a = a';
  ok_ac_id a a' : a ∈ acs d → a' ∈ acs d → ac_id a = ac_id a' → a = a';
  ok_ms_nodup : NoDup (mss d);
}.

(** [uid] belongs to the workspace named [uuid]. *)
Definition is_member d (uuid uid : string) : Prop :=
  ∃ r m, r ∈ wss d ∧ ws_uuid r = uuid ∧ m ∈ mss d ∧ ms_workspaceId m = ws_id r ∧ ms_userId m = uid.

Context `{!RepoLaws Tw WorkspaceE Workspace, !RepoLaws Tm MembershipE Membership,
          !RepoLaws Ta AccessCodeE AccessCode}.

(** *** Each kind of write keeps the database well formed *)

Lemma db_ok_ws_insert d e r t :
  db_ok d → e_keyed e = false → r_save e (db_ws d) = Some (r, t) →
  db_ok (MkDB t (db_ms d) (db_ac d)).
Proof.
  intros Hok Hk Hs.
  assert (∀ x, x ∈ wss d → ws_id r ≠ ws_id x) as Hfresh.
  { intros x Hx Heq. pose proof (r_save_fresh _ _ _ _ x Hs Hk Hx) as Hf. simpl in Hf.
    by apply bool_decide_eq_false in Hf. }
  assert (∀ x, x ∈ wss d → ws_uuid r ≠ ws_uuid x) as Huu.
  { intros x Hx Heq. pose proof (r_save_unique _ _ _ _ x Hs Hx) as Hu. simpl in Hu.
    rewrite orb_true_iff, !bool_decide_eq_true in Hu. apply (Hfresh x Hx). auto. }
  assert (∀ x, x ∈ r_rows t ↔ x = r ∨ x ∈ wss d) as Hrows.
  { intros x. rewrite (elem_r_save _ _ _ _ x Hs). simpl.
    rewrite bool_decide_eq_false. unfold wss in *. naive_solver. }
  destruct Hok as [Hfk Hwu Hwi Hmk Hro Hac Hai Hnd].
  split; simpl; unfold wss, mss, acs in *; simpl in *; try done.
  - intros m Hm. destruct (Hfk m Hm) as (x & Hx & Heq). exists x. rewrite Hrows. auto.
  - intros x y. rewrite !Hrows. naive_solver.
  - intros x y. rewrite !Hrows. naive_solver.
Qed.

Lemma db_ok_ws_update d r0 r r' t :
  db_ok d → r0 ∈ wss d → ws_id r = ws_id r0 → ws_uuid r = ws_uuid r0 →
  r_save (ws_entity r) (db_ws d) = Some (r', t) →
  db_ok (MkDB t (db_ms d) (db_ac d)).
Proof.
  intros Hok Hr0 Hid Huu Hs.
  pose proof (ws_entity_saved _ _ (r_save_row _ _ _ _ Hs)) as ->.
  assert (∀ x, x ∈ r_rows t ↔ x = r ∨ (x ∈ wss d ∧ ws_id r ≠ ws_id x)) as Hrows.
  { intros x. rewrite (elem_r_save _ _ _ _ x Hs). simpl. by rewrite bool_decide_eq_false. }
  destruct Hok as [Hfk Hwu Hwi Hmk Hro Hac Hai Hnd].
  split; simpl; unfold wss, mss, acs in *; simpl in *; try done.
  - intros m Hm. destruct (Hfk m Hm) as (x & Hx & Heq).
    destruct (decide (ws_id r = ws_id x)).
    + exists r. rewrite Hrows. split; [by left|congruence].
    + exists x. rewrite Hrows. auto.
  - intros x y. rewrite !Hrows.
    intros [->|[Hx ?]] [->|[Hy ?]] ?; eauto; rewrite Hid; [|symmetry]; apply Hwu; congruence.
  - intros x y. rewrite !Hrows. naive_solver.
Qed.

Lemma db_ok_ms_save d e m t :
  db_ok d → known_role (ms_role m) → (∃ r, r ∈ wss d ∧ ws_id r = ms_workspaceId m) →
  r_save e (db_ms d) = Some (m, t) →
  db_ok (MkDB (db_ws d) t (db_ac d)).
Proof.
  intros Hok Hrole Hws Hs.
  assert (∀ x, x ∈ r_rows t ↔ x = m ∨
    (x ∈ mss d ∧ ¬ (ms_workspaceId m = ms_workspaceId x ∧ ms_userId m = ms_userId x))) as Hrows.
  { intros x. rewrite (elem_r_save _ _ _ _ x Hs). simpl.
    rewrite andb_false_iff, !bool_decide_eq_false. unfold mss.
    destruct (decide (ms_workspaceId m = ms_workspaceId x)); naive_solver. }
  destruct Hok as [Hfk Hwu Hwi Hmk Hro Hac Hai Hnd].
  split; simpl; unfold wss, mss, acs in *; simpl in *; try done.
  - intros x. rewrite Hrows. naive_solver.
  - intros x y. rewrite !Hrows. naive_solver.
  - intros x. rewrite Hrows. naive_solver.
  - rewrite (r_save_rows _ _ _ _ Hs). constructor; [|by apply NoDup_lfilter].
    rewrite elem_of_lfilter. simpl. intros [_ Hm].
    by rewrite !bool_decide_true in Hm.
Qed.

Lemma db_ok_ms_delete d p t :
  db_ok d → r_delete p (db_ms d) = Some t → db_ok (MkDB (db_ws d) t (db_ac d)).
Proof.
  intros Hok Hd.
  assert (∀ x, x ∈ r_rows t → x ∈ mss d) as Hsub.
  { intros x. rewrite (elem_r_delete _ _ _ x Hd). by intros []. }
  destruct Hok as [Hfk Hwu Hwi Hmk Hro Hac Hai Hnd].
  split; simpl; unfold wss, mss, acs in *; simpl in *; eauto.
  rewrite (r_delete_rows _ _ _ Hd). by apply NoDup_lfilter.
Qed.

Lemma db_ok_ws_delete d p t :
  db_ok d → r_delete p (db_ws d) = Some t →
  (∀ m r, m ∈ mss d → r ∈ wss d → ws_id r = ms_workspaceId m → p r = false) →
  db_ok (MkDB t (db_ms d) (db_ac d)).
Proof.
  intros Hok Hd Hp.
  assert (∀ x, x ∈ r_rows t ↔ x ∈ wss d ∧ p x = false) as Hrows.
  { intros x. apply (elem_r_delete _ _ _ x Hd). }
  destruct Hok as [Hfk Hwu Hwi Hmk Hro Hac Hai Hnd].
  split; simpl; unfold wss, mss, acs in *; simpl in *; try done.
  - intros m Hm. destruct (Hfk m Hm) as (x & Hx & Heq). exists x. rewrite Hrows. eauto.
  - intros x y. rewrite !Hrows. naive_solver.
  - intros x y. rewrite !Hrows. naive_solver.
Qed.

Lemma db_ok_ac_save d e a t :
  db_ok d → r_save e (db_ac d) = Some (a, t) →
  db_ok (MkDB (db_ws d) (db_ms d) t).
Proof.
  intros Hok Hs.
  assert (∀ x, x ∈ r_rows t ↔ x = a ∨ (x ∈ acs d ∧ ac_id a ≠ ac_id x)) as Hrows.
  { intros x. rewrite (elem_r_save _ _ _ _ x Hs). simpl. by rewrite bool_decide_eq_false. }
  assert (∀ x, x ∈ acs d → ac_code a = ac_code x → ac_id a = ac_id x) as Huniq.
  { intros x Hx Heq. pose proof (r_save_unique _ _ _ _ x Hs Hx) as Hu. simpl in Hu.
    rewrite orb_true_iff, !bool_decide_eq_true in Hu. auto. }
  destruct Hok as [Hfk Hwu Hwi Hmk Hro Hac Hai Hnd].
  split; simpl; unfold wss, mss, acs in *; simpl in *; try done.
  - intros x y. rewrite !Hrows.
    intros [->|[Hx ?]] [->|[Hy ?]] Heq; try done; [|symmetry in Heq|]; naive_solver.
  - intros x y. rewrite !Hrows. naive_solver.
Qed.

Lemma db_ok_ac_delete d p t :
  db_ok d → r_delete p (db_ac d) = Some t → db_ok (MkDB (db_ws d) (db_ms d) t).
Proof.
  intros Hok Hd.
  assert (∀ x, x ∈ r_rows t → x ∈ acs d) as Hsub.
  { intros x. rewrite (elem_r_delete _ _ _ x Hd). by intros []. }
  destruct Hok as [Hfk Hwu Hwi Hmk Hro Hac Hai Hnd].
  split; simpl; unfold wss, mss, acs in *; simpl in *; eauto.
Qed.
End integrity.

(** ** Executable tables for the examples *)
Definition pick {A} (o : option A) (old : option A) : option A :=
  match o with Some _ => o | None => old end.

Definition ws_merge (e : WorkspaceE) (old : option Workspace) (n : Z) : option Workspace :=
    match pick (we_image e) (ws_image <$> old), pick (we_name e) (ws_name <$> old),
          pick (we_description e) (ws_description <$> old), pick (we_status e) (ws_status <$> old),
          pick (we_dedicated e) (ws_dedicated <$> old) with
    | Some i, Some nm, Some ds, Some st, Some de =>
        Some (WsRow (default n (we_id e))
                (default "generated-uuid" (pick (we_uuid e) (ws_uuid <$> old)))
                i nm ds st de (default 0 (pick (we_createdAt e) (ws_createdAt <$> old))))
    | _, _, _, _, _ => None
    end.
Lemma ws_merge_saved e o n r : ws_merge e o n = Some r → e_saved e r.
Proof.
  destruct e; unfold ws_merge; simpl. intros H. repeat case_match; simplify_eq/=.
  unfold agrees, pick in *. repeat case_match; naive_solver.
Qed.
#[global] Instance Workspace_Mergeable : Mergeable WorkspaceE Workspace := {|
  mg_match e r := bool_decide (we_id e = Some (ws_id r));
  mg_merge := ws_merge;
  mg_saved := ws_merge_saved;
|}.

Definition ms_merge (e : MembershipE) (old : option Membership) (n : Z) : option Membership :=
    match me_workspaceId e, me_userId e with
    | Some i, Some u =>
        Some (MsRow i u (default "member" (pick (me_role e) (ms_role <$> old)))
                (default 0 (pick (me_joinedAt e) (ms_joinedAt <$> old))))
    | _, _ => None
    end.
Lemma ms_merge_saved e o n r : ms_merge e o n = Some r → e_saved e r.
Proof.
  destruct e; unfold ms_merge; simpl. intros H. repeat case_match; simplify_eq/=.
  unfold agrees, pick in *. repeat case_match; naive_solver.
Qed.
#[global] Instance Membership_Mergeable : Mergeable MembershipE Membership := {|
  mg_match e r := bool_decide (me_workspaceId e = Some (ms_workspaceId r)) &&
                  bool_decide (me_userId e = Some (ms_userId r));
  mg_merge := ms_merge;
  mg_saved := ms_merge_saved;
|}.

Definition ac_merge (e : AccessCodeE) (old : option AccessCode) (n : Z) : option AccessCode :=
    match pick (ae_code e) (ac_code <$> old), pick (ae_uid e) (ac_uid <$> old),
          pick (ae_uuid e) (ac_uuid <$> old), pick (ae_status e) (ac_status <$> old) with
    | Some c, Some u, Some uu, Some st =>
        Some (AcRow (default n (ae_id e)) c u uu st
                (default None (pick (ae_ntfnId e) (ac_ntfnId <$> old)))
                (default None (pick (ae_usedAt e) (ac_usedAt <$> old)))
                (default None (pick (ae_expiresAt e) (ac_expiresAt <$> old))))
    | _, _, _, _ => None
    end.
Lemma ac_merge_saved e o n r : ac_merge e o n = Some r → e_saved e r.
Proof.
  destruct e; unfold ac_merge; simpl. intros H. repeat case_match; simplify_eq/=.
  unfold agrees, pick in *. repeat case_match; naive_solver.
Qed.
#[global] Instance AccessCode_Mergeable : Mergeable AccessCodeE AccessCode := {|
  mg_match e r := bool_decide (ae_id e = Some (ac_id r));
  mg_merge := ac_merge;
  mg_saved := ac_merge_saved;
|}.

(** The concrete database and cache used by the examples. *)
Abbreviation CDB := (DB (ltable Workspace) (ltable Membership) (ltable AccessCode)).
Abbreviation CC := (gmap string (cval * option Z)).
