(* ===== verification/Tokens.v ===== *)
(** The signed tokens of the workspace service: the claims an invitation or an
    access request puts into a JWT, and what the service assumes of the
    [jsonwebtoken] library. *)
From S2P Require Import Prelude JS Messages.

Record InvitationPayload := Invitation {
  iv_notificationId : string;
  iv_inviterId : string;
  iv_inviteeId : string;
  iv_workspaceUUID : string;
  iv_validTill : Z;
  iv_sshKey : option string;
}.

(** The [data] claim: both kinds are signed with the same secret. *)
Inductive TokenData :=
| DInvite (p : InvitationPayload)
| DAccess (p : AccessRequestPayload).

Record ServicePayload := SvcToken {
  tk_iss : string; tk_aud : string; tk_sub : string; tk_data : TokenData;
}.

(** [payload.data.inviteeId] and [payload.data.uuid]: [undefined] on the
    other kind of token. *)
Definition data_inviteeId (d : TokenData) : option string :=
  match d with DInvite p => Some (iv_inviteeId p) | DAccess _ => None end.
Definition data_uuid (d : TokenData) : option string :=
  match d with DInvite _ => None | DAccess p => Some (ar_uuid p) end.
Definition data_uid (d : TokenData) : option string :=
  match d with DInvite _ => None | DAccess p => Some (ar_uid p) end.

(** jsonwebtoken: [sign] and [verify]; [None] stands for its exception. *)
Class JWT := {
  jwt_sign : ServicePayload → string → string;
  jwt_verify : string → string → option ServicePayload;
}.
Class JWTLaws `{!JWT} : Prop := {
  jwt_verify_sign p k : jwt_verify (jwt_sign p k) k = Some p;
}.

(** A day of the calendar, as [setDate] counts them: nothing sets a time zone
    for the services, so their local time is UTC and every day has 24 hours. *)
Definition day_ms : Z := 86400000.

(** The secret of [process.env.WORKSPACE_SERVICE_SECRET]. *)
Class Secret := { SERVICE_SECRET : string }.

