(* ===== verification/Fixtures.v ===== *)
(** Concrete instances of the assumed interfaces, used by the examples that
    show the theorems' hypotheses can hold: a token codec that meets
    [JWTLaws], a random source, and the in-memory tables and cache. *)
From S2P Require Import Prelude JS Messages Keys Interfaces Entities Tokens.
From Stdlib Require Import Lia.

(** ** Lists of strings as one string: each string is preceded by its length
    in unary, closed by a [0]; a leading [1] announces a further string. *)
Fixpoint ones (n : nat) : string :=
  match n with O => "0" | S n => String "1"%char (ones n) end.
Definition ser_str (s : string) : string := ones (String.length s) +:+ s.

Fixpoint des_len (s : string) : option (nat * string) :=
  match s with
  | EmptyString => None
  | String c s' =>
      if decide (c = "1"%char) then (λ '(n, r), (S n, r)) <$> des_len s' else Some (O, s')
  end.
Fixpoint take_str (n : nat) (s : string) : option (string * string) :=
  match n, s with
  | O, _ => Some ("", s)
  | S n, String c s' => (λ '(a, r), (String c a, r)) <$> take_str n s'
  | S _, EmptyString => None
  end.

Lemma des_len_ones n s : des_len (ones n +:+ s) = Some (n, s).
Proof.
  induction n as [|n IH]; [done|].
  change (ones (S n) +:+ s) with (String "1"%char (ones n +:+ s)). simpl. by rewrite IH.
Qed.
Lemma take_str_app s r : take_str (String.length s) (s +:+ r) = Some (s, r).
Proof.
  induction s as [|c s IH]; [done|].
  change (String c s +:+ r) with (String c (s +:+ r)). simpl. by rewrite IH.
Qed.

Fixpoint ser_list (l : list string) : string :=
  match l with [] => "" | s :: l => String "1"%char (ser_str s +:+ ser_list l) end.
Fixpoint des_list (fuel : nat) (s : string) : option (list string) :=
  match fuel, s with
  | _, EmptyString => Some []
  | O, _ => None
  | S fuel, String _ s' =>
      '(n, r) ← des_len s'; '(a, r') ← take_str n r; l ← des_list fuel r'; Some (a :: l)
  end.

Lemma des_ser_list l fuel : (length l ≤ fuel)%nat → des_list fuel (ser_list l) = Some l.
Proof.
  revert fuel. induction l as [|s l IH]; intros fuel Hf; [by destruct fuel|].
  destruct fuel as [|fuel]; simpl in Hf; [lia|]. cbn [ser_list des_list].
  unfold ser_str. rewrite append_assoc, des_len_ones. simpl.
  rewrite take_str_app. simpl. rewrite IH by lia. done.
Qed.

Fixpoint pos_str (p : positive) : string :=
  match p with xH => "" | xO p => String "0"%char (pos_str p) | xI p => String "1"%char (pos_str p) end.
Fixpoint str_pos (s : string) : positive :=
  match s with
  | EmptyString => xH
  | String c s => if decide (c = "0"%char) then xO (str_pos s) else xI (str_pos s)
  end.
Definition Z_str (z : Z) : string :=
  match z with Z0 => "z" | Zpos p => String "+"%char (pos_str p) | Zneg p => String "-"%char (pos_str p) end.
Definition str_Z (s : string) : Z :=
  match s with
  | String c s => if decide (c = "+"%char) then Zpos (str_pos s)
                  else if decide (c = "-"%char) then Zneg (str_pos s) else 0
  | EmptyString => 0
  end.
Lemma str_pos_str p : str_pos (pos_str p) = p.
Proof. induction p; simpl; by f_equal. Qed.
Lemma str_Z_str z : str_Z (Z_str z) = z.
Proof. destruct z; simpl; by rewrite ?str_pos_str. Qed.

Definition opt_str (o : option string) : string :=
  match o with None => "" | Some s => String "1"%char s end.
Definition str_opt (s : string) : option string :=
  match s with EmptyString => None | String _ s => Some s end.
Lemma str_opt_str o : str_opt (opt_str o) = o.
Proof. by destruct o. Qed.

(** ** Tokens *)
Definition payload_strs (p : ServicePayload) : list string :=
  tk_iss p :: tk_aud p :: tk_sub p ::
  match tk_data p with
  | DInvite i => ["i"; iv_notificationId i; iv_inviterId i; iv_inviteeId i; iv_workspaceUUID i;
                  Z_str (iv_validTill i); opt_str (iv_sshKey i)]
  | DAccess a => ["a"; ar_uid a; ar_username a; ar_name a; opt_str (ar_reason a); ar_uuid a]
  end.
Definition strs_payload (l : list string) : option ServicePayload :=
  match l with
  | [iss; aud; sub; _; a; b; c; d; t; k] =>
      Some (SvcToken iss aud sub (DInvite (Invitation a b c d (str_Z t) (str_opt k))))
  | [iss; aud; sub; _; a; b; c; r; u] =>
      Some (SvcToken iss aud sub (DAccess (AccessReq a b c (str_opt r) u)))
  | _ => None
  end.
Lemma strs_payload_strs p : strs_payload (payload_strs p) = Some p.
Proof.
  destruct p as [iss aud sub [[]|[]]]; simpl; by rewrite ?str_Z_str, ?str_opt_str.
Qed.

#[global] Instance demo_JWT : JWT := {|
  jwt_sign p k := ser_list (k :: payload_strs p);
  jwt_verify tok k :=
    match des_list 20 tok with
    | Some (k' :: l) => if decide (k' = k) then strs_payload l else None
    | _ => None
    end;
|}.
#[global] Instance demo_JWTLaws : JWTLaws.
Proof.
  split. intros p k. unfold jwt_verify, jwt_sign, demo_JWT.
  rewrite des_ser_list.
  - rewrite decide_True by done. apply strs_payload_strs.
  - simpl. destruct (tk_data p); simpl; lia.
Qed.

#[global] Instance demo_Random : Random := {| uuid_of n := "uuid-" +:+ ones n |}.
#[global] Instance demo_Secret : Secret := {| SERVICE_SECRET := "secret" |}.

(** ** A small database: one workspace with an owner and a member. *)
Definition demo_ws : Workspace := WsRow 1 "ws-1" "hide-env-go" "demo" "text" READY false 0.
Definition demo_owner : Membership := MsRow 1 "olga" "owner" 0.
Definition demo_member : Membership := MsRow 1 "mark" "member" 0.
Definition demo_db : CDB :=
  MkDB (LTable [demo_ws] 2) (LTable [demo_owner; demo_member] 1) (LTable [] 1).
Definition demo_world : world CC CDB := World ∅ [] 0 1000 demo_db.

Lemma demo_db_ok : db_ok demo_db.
Proof.
  split; unfold mss, wss, acs; rewrite ?list_r_rows; simpl.
  - intros m Hm. exists demo_ws. set_solver.
  - set_solver.
  - set_solver.
  - intros m m' Hm Hm'. repeat (apply elem_of_cons in Hm as [->|Hm]);
      repeat (apply elem_of_cons in Hm' as [->|Hm']);
      try (by apply elem_of_nil in Hm); try (by apply elem_of_nil in Hm'); done.
  - intros m Hm. repeat (apply elem_of_cons in Hm as [->|Hm]);
      [left|right|by apply elem_of_nil in Hm]; done.
  - set_solver.
  - set_solver.
  - repeat constructor; set_solver.
Qed.
Lemma demo_world_ok : db_ok (w_loc demo_world).
Proof. exact demo_db_ok. Qed.
