(* ===== verification/Invite.v ===== *)
(** Invitations ([workspace/src/invite/invite.service.ts]): inviting users,
    accepting and ignoring, with the signed tokens that carry an invitation. *)
From S2P Require Import Prelude JS Messages Keys Interfaces Entities Tokens Fixtures.
From Stdlib Require Import Lia.

Section invite.
Context {C Tw Tm Ta : Type} `{!Cache C}.
Context `{!Repo Tw WorkspaceE Workspace, !Repo Tm MembershipE Membership,
          !Repo Ta AccessCodeE AccessCode}.
Context `{!Random, !JWT, !Secret}.
Abbreviation W := (world C (DB Tw Tm Ta)).
Local Open Scope mon_scope.

Definition ws_findOne_uuid (uuid : string) : M W (option Workspace) :=
  t_findOne (T:=Tw) (λ r, bool_decide (ws_uuid r = uuid)).
Definition ms_findOne (wid : Z) (uid : string) : M W (option Membership) :=
  t_findOne (T:=Tm) (λ m, bool_decide (ms_workspaceId m = wid) && bool_decide (ms_userId m = uid)).
Definition ms_find (wid : Z) : M W (list Membership) :=
  t_find (T:=Tm) (λ m, bool_decide (ms_workspaceId m = wid)).

Definition validateInvite (inviterId workspaceUUID : string) : M W (option exn) :=
  workspace <- ws_findOne_uuid workspaceUUID ;;
  match workspace with
  | None => ret (Some (HttpException 400 "WORKSPACE_NOT_FOUND"))
  | Some ws =>
      membership <- ms_findOne (ws_id ws) inviterId ;;
      match membership with
      | None => ret (Some (HttpException 403 "NO_WORKSPACE_MEMBERSHIP"))
      | Some m =>
          if lt_undef (roleLevels (ms_role m)) 1
          then ret (Some (HttpException 403 "WORKSPACE_ACTION_NOT_AUTHORIZED"))
          else ret None
      end
  end.

Definition check (e : option exn) : M W unit :=
  match e with Some e => throw e | None => ret tt end.

Definition inviteUser (inviterId inviteeId workspaceUUID : string) (sshKey : option string)
    (doValidate : bool) : M W unit :=
  (if doValidate then (e <- validateInvite inviterId workspaceUUID ;; check e) else ret tt) ;;;
  t <- now ;;
  notificationId <- randomUUID ;;
  let payload := Invitation notificationId inviterId inviteeId workspaceUUID (t + 7 * day_ms) sshKey in
  let jwt := jwt_sign (SvcToken "workspace-api" "client" workspaceUUID (DInvite payload)) SERVICE_SECRET in
  meta <- createMessage inviteeId "" ;;
  emit (Rmq "notification.send" (Some meta)
    (NotifyUser inviteeId
      (Ntfn workspace_invite notificationId (IsoOf t) (WorkspaceInvite inviterId workspaceUUID jwt)))).

Definition inviteAllUsers (inviterId : string) (inviteeIds : list string)
    (workspaceUUID : string) (sshKey : option string) : M W unit :=
  e <- validateInvite inviterId workspaceUUID ;;
  check e ;;;
  forM (λ inviteeId, inviteUser inviterId inviteeId workspaceUUID sshKey false) inviteeIds.

Definition validateAccept (inviteeId token : string) : M W ServicePayload :=
  match jwt_verify token SERVICE_SECRET with
  | None => throw (PlainError "JsonWebTokenError")
  | Some payload =>
      if bool_decide (data_inviteeId (tk_data payload) = Some inviteeId) then ret payload
      else throw (HttpException 400 "INVALID_INVITATION_TOKEN")
  end.

(** Tells every session of [mbrs] that the workspace's members changed; the
    presences are all read first. *)
Definition sendMembersModified (uuid uid sessionId : string) : M W unit :=
  emit (Redis "socket.send" (Some (meta_us uid sessionId))
    (SocketSend uid sessionId "workspace" (MembersModifiedMsg uuid))).

Definition notifyMembers (uuid : string) (mbrs : list string) : M W unit :=
  presences <- mapM cache_presence mbrs ;;
  forM (λ '(uid, presence),
    match presence with
    | None => ret tt
    | Some p => forM (sendMembersModified uuid uid) (okeys p)
    end) (zip mbrs presences).

Definition sendNotificationRead (uid notificationId : string) : M W unit :=
  meta <- createMessage uid "" ;;
  emit (Rmq "notification.read" (Some meta) (NotificationRead uid notificationId)).

Definition acceptInvitation (inviteeId token : string) : M W (option string) :=
  payload <- validateAccept inviteeId token ;;
  match tk_data payload with
  | DAccess _ => throw TypeError
  | DInvite iv =>
      wrspc <- ws_findOne_uuid (iv_workspaceUUID iv) ;;
      match wrspc with
      | None => throw TypeError
      | Some wrspc =>
          members <- ms_find (ws_id wrspc) ;;
          workspace <- ws_findOne_uuid (iv_workspaceUUID iv) ;;
          match workspace with
          | None => throw (HttpException 404 "WORKSPACE_NOT_FOUND")
          | Some ws =>
              t_save (T:=Tm)
                (Membership_setData (Some (ws_id ws)) (Some (iv_inviteeId iv)) (Some "member")) ;;;
              sendNotificationRead (iv_inviteeId iv) (iv_notificationId iv) ;;;
              notifyMembers (ws_uuid ws) (ms_userId <$> members) ;;;
              ret (iv_sshKey iv)
          end
      end
  end.

Definition ignoreInvitation (inviteeId token : string) : M W unit :=
  payload <- validateAccept inviteeId token ;;
  match tk_data payload with
  | DAccess _ => throw TypeError
  | DInvite iv => sendNotificationRead (iv_inviteeId iv) (iv_notificationId iv)
  end.

(** *** What these operations leave alone *)
Lemma pres_validateInvite (P : W → Prop) a b : preserves P (validateInvite a b).
Proof. unfold validateInvite, ws_findOne_uuid, ms_findOne. pres. Qed.
Lemma pres_check (P : W → Prop) e : preserves P (check e).
Proof. unfold check. pres. Qed.
Hint Resolve pres_validateInvite pres_check : pres.

Lemma pres_loc_inviteUser (P : DB Tw Tm Ta → Prop) a b c k v :
  preserves (λ w : W, P (w_loc w)) (inviteUser a b c k v).
Proof. unfold inviteUser. pres. Qed.
Hint Resolve pres_loc_inviteUser : pres.
Lemma pres_loc_inviteAllUsers (P : DB Tw Tm Ta → Prop) a l c k :
  preserves (λ w : W, P (w_loc w)) (inviteAllUsers a l c k).
Proof. unfold inviteAllUsers. pres. Qed.
Lemma pres_loc_notifyMembers (P : DB Tw Tm Ta → Prop) uuid l :
  preserves (λ w : W, P (w_loc w)) (notifyMembers uuid l).
Proof. unfold notifyMembers, sendMembersModified. pres. Qed.
Lemma pres_loc_sendRead (P : DB Tw Tm Ta → Prop) u n :
  preserves (λ w : W, P (w_loc w)) (sendNotificationRead u n).
Proof. unfold sendNotificationRead. pres. Qed.
Lemma pres_cache_inviteAllUsers (P : C → Prop) a l c k :
  preserves (λ w : W, P (w_cache w)) (inviteAllUsers a l c k).
Proof. unfold inviteAllUsers, inviteUser. pres. Qed.
Lemma pres_cache_notifyMembers (P : C → Prop) uuid l :
  preserves (λ w : W, P (w_cache w)) (notifyMembers uuid l).
Proof. unfold notifyMembers, sendMembersModified. pres. Qed.
Lemma pres_out_notifyMembers o uuid l :
  preserves (λ w : W, o `prefix_of` w_out w) (notifyMembers uuid l).
Proof. unfold notifyMembers, sendMembersModified. pres. Qed.
Lemma pres_out_inviteAllUsers o a l c k :
  preserves (λ w : W, o `prefix_of` w_out w) (inviteAllUsers a l c k).
Proof. unfold inviteAllUsers, inviteUser. pres. Qed.

(** The [socket.send] messages of [notifyMembers]: one per open session. *)
Definition members_msgs (c : C) (uuid : string) (mbrs : list string) : list effect :=
  concat ((λ uid,
    match presence_in c uid with
    | None => []
    | Some p => (λ sid, Redis "socket.send" (Some (meta_us uid sid))
                   (SocketSend uid sid "workspace" (MembersModifiedMsg uuid))) <$> okeys p
    end) <$> mbrs).

Lemma notifyMembers_run uuid mbrs (w : W) :
  notifyMembers uuid mbrs w = (Ok tt, add_outs (members_msgs (w_cache w) uuid mbrs) w).
Proof.
  unfold notifyMembers, bind.
  rewrite (mapM_reads _ (λ uid w, presence_in (w_cache w) uid)) by done.
  rewrite (forM_emits _ (λ '(uid, p), match p with None => [] | Some p =>
    (λ sid, Redis "socket.send" (Some (meta_us uid sid))
       (SocketSend uid sid "workspace" (MembersModifiedMsg uuid))) <$> okeys p end)).
  - unfold members_msgs. f_equal. f_equal. f_equal.
    induction mbrs as [|u l IH]; [done|]. cbn. by f_equal.
  - intros [uid [p|]] w'; [|by rewrite add_outs_nil].
    rewrite (forM_emits _ (λ sid, [Redis "socket.send" (Some (meta_us uid sid))
       (SocketSend uid sid "workspace" (MembersModifiedMsg uuid))])); [|done].
    f_equal. f_equal. induction (okeys p) as [|k l IH]; [done|]. cbn. by f_equal.
Qed.
End invite.

#[export] Hint Resolve pres_validateInvite pres_check pres_loc_inviteUser pres_loc_inviteAllUsers
  pres_loc_notifyMembers pres_loc_sendRead pres_cache_inviteAllUsers pres_cache_notifyMembers
  pres_out_notifyMembers pres_out_inviteAllUsers : pres.


(** ** Properties *)
Section invite_props.
Context {C Tw Tm Ta : Type} `{!Cache C}.
Context `{!Repo Tw WorkspaceE Workspace, !Repo Tm MembershipE Membership,
          !Repo Ta AccessCodeE AccessCode}.
Context `{!RepoLaws Tw WorkspaceE Workspace, !RepoLaws Tm MembershipE Membership,
          !RepoLaws Ta AccessCodeE AccessCode}.
Context `{!Random, !JWT, !Secret}.
Abbreviation W := (world C (DB Tw Tm Ta)).
Implicit Types w : W.

(** The entity that [acceptInvitation] saves. *)
Definition member_entity (wid : Z) (uid : string) : MembershipE :=
  Membership_setData (Some wid) (Some uid) (Some "member").

Lemma member_entity_saved wid uid (t t' : Tm) m :
  r_save (member_entity wid uid) t = Some (m, t') →
  ms_workspaceId m = wid ∧ ms_userId m = uid ∧ ms_role m = "member".
Proof.
  intros Hs. apply setData_saved; [done| |].
  - by apply (r_save_keyed _ _ _ _ Hs).
  - by apply (r_save_row _ _ _ _ Hs).
Qed.

(** Finding the workspace of a uuid in a well-formed database. *)
Lemma ws_findOne_uuid_run w uuid r :
  db_ok (w_loc w) → r ∈ wss (w_loc w) → ws_uuid r = uuid →
  ws_findOne_uuid uuid w = (Ok (Some r), w).
Proof.
  intros Hok Hr Huu. unfold ws_findOne_uuid, t_findOne, gets. f_equal. f_equal.
  destruct (r_findOne _ _) as [r'|] eqn:Hf.
  - apply r_findOne_Some in Hf as [Hr' Hp]. apply bool_decide_eq_true in Hp.
    f_equal. apply (ok_ws_id _ Hok); [done..|]. apply (ok_ws_uuid _ Hok); [done|done|congruence].
  - rewrite r_findOne_None in Hf. specialize (Hf r Hr). by apply bool_decide_eq_false in Hf.
Qed.

Lemma ws_findOne_uuid_none w uuid :
  (∀ r, r ∈ wss (w_loc w) → ws_uuid r ≠ uuid) → ws_findOne_uuid uuid w = (Ok None, w).
Proof.
  intros Hn. unfold ws_findOne_uuid, t_findOne, gets. f_equal. f_equal.
  apply r_findOne_None. intros r Hr. apply bool_decide_eq_false. by apply Hn.
Qed.

Lemma ms_findOne_run w wid uid m :
  db_ok (w_loc w) → m ∈ mss (w_loc w) → ms_workspaceId m = wid → ms_userId m = uid →
  ms_findOne wid uid w = (Ok (Some m), w).
Proof.
  intros Hok Hm Hw Hu. unfold ms_findOne, t_findOne, gets. f_equal. f_equal.
  destruct (r_findOne _ _) as [m'|] eqn:Hf.
  - apply r_findOne_Some in Hf as [Hm' Hp].
    rewrite andb_true_iff, !bool_decide_eq_true in Hp. destruct Hp.
    f_equal. apply (ok_ms_key _ Hok); [done|done|congruence|congruence].
  - rewrite r_findOne_None in Hf. specialize (Hf m Hm).
    rewrite andb_false_iff, !bool_decide_eq_false in Hf. naive_solver.
Qed.

Lemma ms_findOne_none w wid uid :
  (∀ m, m ∈ mss (w_loc w) → ms_workspaceId m = wid → ms_userId m ≠ uid) →
  ms_findOne wid uid w = (Ok None, w).
Proof.
  intros Hn. unfold ms_findOne, t_findOne, gets. f_equal. f_equal.
  apply r_findOne_None. intros m Hm. rewrite andb_false_iff, !bool_decide_eq_false.
  destruct (decide (ms_workspaceId m = wid)); [right; by apply Hn|by left].
Qed.

(** The message that invites one user, when [n] random values were drawn. *)
Definition invitation_at (n : nat) (t : Z) (inviter invitee uuid : string) (key : option string) : effect :=
  Rmq "notification.send" (Some (MkMeta (Some invitee) None (Some "") (Some (uuid_of (S n)))))
    (NotifyUser invitee (Ntfn workspace_invite (uuid_of n) (IsoOf t) (WorkspaceInvite inviter uuid
      (jwt_sign (SvcToken "workspace-api" "client" uuid
        (DInvite (Invitation (uuid_of n) inviter invitee uuid (t + 7 * day_ms) key))) SERVICE_SECRET)))).

Lemma inviteUser_run w inviter invitee uuid key :
  inviteUser inviter invitee uuid key false w =
  (Ok tt, World (w_cache w) (w_out w ++ [invitation_at (w_rng w) (w_now w) inviter invitee uuid key])
            (S (S (w_rng w))) (w_now w) (w_loc w)).
Proof. done. Qed.

Lemma inviteLoop_run w inviter l uuid key :
  ∃ es w', forM (λ u, inviteUser inviter u uuid key false) l w = (Ok tt, w') ∧
    w_out w' = w_out w ++ es ∧ w_loc w' = w_loc w ∧ w_now w' = w_now w ∧ w_cache w' = w_cache w ∧
    Forall2 (λ u e, ∃ n, e = invitation_at n (w_now w) inviter u uuid key) l es.
Proof.
  revert w. induction l as [|u l IH]; intros w.
  - exists [], w. by rewrite app_nil_r.
  - cbn [forM]. setoid_rewrite (bind_ok _ _ _ _ _ (inviteUser_run w inviter u uuid key)).
    match goal with |- context [forM _ l ?w1] => destruct (IH w1) as (es & w' & Hr & Ho & Hl & Hn & Hc & Hf) end.
    eexists (_ :: es), w'. rewrite Ho, Hl, Hn, Hc. simpl. split_and!; try done.
    + by rewrite <- app_assoc.
    + constructor; [by eexists|done].
Qed.

(** Who may invite: an owner or administrator of the workspace. *)
Definition may_manage (d : DB Tw Tm Ta) (uuid uid : string) : Prop :=
  ∃ r m, r ∈ wss d ∧ ws_uuid r = uuid ∧ m ∈ mss d ∧ ms_workspaceId m = ws_id r ∧
    ms_userId m = uid ∧ lt_undef (roleLevels (ms_role m)) 1 = false.

Lemma validateInvite_spec w inviter uuid :
  ∃ v, validateInvite inviter uuid w = (Ok v, w) ∧ (v = None → may_manage (w_loc w) uuid inviter).
Proof.
  unfold validateInvite, ws_findOne_uuid, ms_findOne, t_findOne, bind, gets. simpl.
  destruct (r_findOne _ (db_ws _)) as [r|] eqn:Hf; [|by eexists].
  destruct (r_findOne _ (db_ms _)) as [m|] eqn:Hg; [|by eexists].
  destruct (lt_undef _ _) eqn:Hlt; [by eexists|]. eexists. split; [done|]. intros _.
  apply r_findOne_Some in Hf as [Hr Hp]. apply r_findOne_Some in Hg as [Hm Hq].
  rewrite andb_true_iff, !bool_decide_eq_true in Hq. apply bool_decide_eq_true in Hp.
  exists r, m. naive_solver.
Qed.

Lemma inviteAllUsers_ok w inviter l uuid key w' :
  inviteAllUsers inviter l uuid key w = (Ok tt, w') →
  may_manage (w_loc w) uuid inviter ∧ w_loc w' = w_loc w ∧ w_cache w' = w_cache w ∧
  ∃ es, w_out w' = w_out w ++ es ∧
    Forall2 (λ u e, ∃ n, e = invitation_at n (w_now w) inviter u uuid key) l es.
Proof.
  unfold inviteAllUsers. destruct (validateInvite_spec w inviter uuid) as (v & Hv & Hmay).
  rewrite (bind_ok _ _ _ _ _ Hv). destruct v; [done|]. unfold check.
  rewrite (bind_ok _ _ w tt w) by done.
  destruct (inviteLoop_run w inviter l uuid key) as (es & w1 & -> & Ho & Hl & Hn & Hc & Hf).
  intros; simplify_eq. split_and!; eauto.
Qed.

(** A verified invitation whose workspace exists is accepted. *)
Lemma acceptInvitation_run w iv tok r iss aud sub :
  db_ok (w_loc w) → jwt_verify tok SERVICE_SECRET = Some (SvcToken iss aud sub (DInvite iv)) →
  r ∈ wss (w_loc w) → ws_uuid r = iv_workspaceUUID iv →
  is_Some (r_save (member_entity (ws_id r) (iv_inviteeId iv)) (db_ms (w_loc w))) →
  ∃ m t w', acceptInvitation (iv_inviteeId iv) tok w = (Ok (iv_sshKey iv), w') ∧
    r_save (member_entity (ws_id r) (iv_inviteeId iv)) (db_ms (w_loc w)) = Some (m, t) ∧
    w_loc w' = MkDB (db_ws (w_loc w)) t (db_ac (w_loc w)).
Proof.
  intros Hok Hv Hr Huu [[m t] Hs]. exists m, t.
  unfold acceptInvitation.
  mstep by (unfold validateAccept; rewrite Hv; simpl; by rewrite bool_decide_true).
  cbn [tk_data].
  mstep by (by apply (ws_findOne_uuid_run w _ r)). mstep by done.
  mstep by (by apply (ws_findOne_uuid_run w _ r)).
  mstep by (unfold t_save; simpl; unfold member_entity in Hs; rewrite Hs; done).
  mstep by done. mstep by apply notifyMembers_run.
  eexists. by split.
Qed.

(** C31: inviting and accepting round-trip: the notification an invitation
    sends carries a token with which, whatever the clock then shows, the
    invitee (and only the invitee) becomes a member of the workspace and gets
    the inviter's SSH key. *)
Theorem invite_accept_roundtrip `{!JWTLaws} w inviter invitee uuid key v w1 :
  inviteUser inviter invitee uuid key v w = (Ok tt, w1) →
  ∃ meta nid tok,
    w_out w1 = w_out w ++ [Rmq "notification.send" (Some meta)
      (NotifyUser invitee (Ntfn workspace_invite nid (IsoOf (w_now w)) (WorkspaceInvite inviter uuid tok)))] ∧
    (∀ w2 r, db_ok (w_loc w2) → r ∈ wss (w_loc w2) → ws_uuid r = uuid →
      is_Some (r_save (member_entity (ws_id r) invitee) (db_ms (w_loc w2))) →
      ∃ w3, acceptInvitation invitee tok w2 = (Ok key, w3) ∧
        is_member (w_loc w3) uuid invitee ∧ db_ok (w_loc w3)) ∧
    (∀ w2 other, other ≠ invitee →
      acceptInvitation other tok w2 = (Throw (HttpException 400 "INVALID_INVITATION_TOKEN"), w2)).
Proof.
  intros Hrun.
  assert (∃ meta nid tok till, w_out w1 = w_out w ++ [Rmq "notification.send" (Some meta)
      (NotifyUser invitee (Ntfn workspace_invite nid (IsoOf (w_now w)) (WorkspaceInvite inviter uuid tok)))] ∧
      tok = jwt_sign (SvcToken "workspace-api" "client" uuid
        (DInvite (Invitation nid inviter invitee uuid till key))) SERVICE_SECRET)
    as (meta & nid & tok & till & Hout & ->).
  { unfold inviteUser in Hrun. minv Hrun.
    rewrite preserves_all_eq in Hm by (intros; destruct v; pres).
    simplify_eq. unfold bind in Hrun. simpl in Hrun. injection Hrun as <-. simpl. eauto 10. }
  set (p := SvcToken _ _ _ _) in *.
  assert (jwt_verify (jwt_sign p SERVICE_SECRET) SERVICE_SECRET = Some p) as Hv by apply jwt_verify_sign.
  exists meta, nid, (jwt_sign p SERVICE_SECRET). split; [done|]. split.
  - intros w2 r Hok Hr Huu Hs.
    destruct (acceptInvitation_run w2 _ _ r _ _ _ Hok Hv Hr Huu Hs) as (m & t & w3 & Hacc & Hs' & Hloc).
    exists w3. split; [done|].
    pose proof (member_entity_saved _ _ _ _ _ Hs') as (Hw & Hu & Hro).
    rewrite Hloc. split; [|by eapply db_ok_ms_save; [|rewrite Hro; right|exists r|] ].
    exists r, m. unfold wss, mss. simpl. repeat split; try done.
    apply (elem_r_save _ _ _ _ m Hs'). by left.
  - intros w2 other Hne. unfold acceptInvitation, validateAccept, bind. rewrite Hv. simpl.
    rewrite bool_decide_false by naive_solver. done.
Qed.
End invite_props.

Lemma invite_accept_roundtrip_witness :
  ∃ w1, inviteUser "olga" "ivan" "ws-1" (Some "key") true demo_world = (Ok tt, w1) ∧
  ∃ tok w3, acceptInvitation "ivan" tok demo_world = (Ok (Some "key"), w3) ∧
    is_member (w_loc w3) "ws-1" "ivan".
Proof.
  eexists. split; [vm_compute; reflexivity|].
  edestruct (invite_accept_roundtrip demo_world "olga" "ivan" "ws-1" (Some "key") true)
    as (meta & nid & tok & _ & Hacc & _); [vm_compute; reflexivity|].
  destruct (Hacc demo_world demo_ws demo_db_ok) as (w3 & Hr & Hm & _); try done.
  - unfold wss. rewrite list_r_rows. by left.
  - eauto.
Defined.
