(* ===== verification/Manage.v ===== *)
(** Workspace management ([workspace/src/manage/manage.service.ts], lines 86
    to 460, and [downgradeWorkspace]): creation, update, membership changes,
    deletion, the membership check other services rely on, and quotas. *)
From S2P Require Import Prelude JS Messages Keys Interfaces Validation Entities Tokens Fixtures Invite.
From Stdlib Require Import Lia.

(** What the user service and Firebase answer to the workspace service. *)
Class Peers := {
  user_profile : string → res User;                   (* nats 'user.profile' *)
  user_all : User → list string → res (list User);    (* POST http://user/api/all *)
  auth_getUser : string → res (list string * bool);   (* providerData, emailVerified *)
}.

(** ** Request and response bodies ([workspace/src/common/dto]) *)
Record CreateDTO := MkCreate {
  cr_name : option string;
  cr_description : option string;
  cr_image : option string;
  cr_dedicated : option bool;
  cr_uuid : option string;
}.
Record UpdateDTO := MkUpdate {
  up_id : option Z;
  up_name : option string;
  up_description : option string;
  up_members : option (list string);
  up_sshKey : option string;
}.
Record MembershipDTO := MkMDTO {
  md_ms : Membership;
  md_name : option string;
  md_username : option string;
  md_picture : option string;
}.
Record WorkspaceDTO := MkWDTO { wd_ws : Workspace; wd_memberships : list MembershipDTO }.

(** Assignments to the fields of a loaded row. *)
Definition ws_with_name (n : string) (r : Workspace) : Workspace :=
  WsRow (ws_id r) (ws_uuid r) (ws_image r) n (ws_description r) (ws_status r) (ws_dedicated r) (ws_createdAt r).
Definition ws_with_description (d : string) (r : Workspace) : Workspace :=
  WsRow (ws_id r) (ws_uuid r) (ws_image r) (ws_name r) d (ws_status r) (ws_dedicated r) (ws_createdAt r).
Definition ws_with_status (s : WorkspaceStatus) (r : Workspace) : Workspace :=
  WsRow (ws_id r) (ws_uuid r) (ws_image r) (ws_name r) (ws_description r) s (ws_dedicated r) (ws_createdAt r).
Definition ws_with_dedicated (b : bool) (r : Workspace) : Workspace :=
  WsRow (ws_id r) (ws_uuid r) (ws_image r) (ws_name r) (ws_description r) (ws_status r) b (ws_createdAt r).

Definition validateCreation (name : option string) : option string :=
  match name with
  | Some n => if truthy n && rmatch nameRegex n then None else Some "INVALID_WORKSPACE_NAME"
  | None => Some "INVALID_WORKSPACE_NAME"
  end.

(** The members to add and to remove: the requested ones that are not
    members, and the members that are not requested. *)
Definition members_added (reqMembers members : list string) : list string :=
  List.filter (λ u, negb (includes u (js_set members))) (js_set reqMembers).
Definition members_removed (reqMembers members : list string) : list string :=
  List.filter (λ u, negb (includes u (js_set reqMembers))) (js_set members).

(** [{...dto, name, username, picture}] from a profile, when there is one. *)
Definition with_profile (m : Membership) (p : option User) : MembershipDTO :=
  match p with
  | Some p => MkMDTO m (u_name p) (u_username p) (u_picture p)
  | None => MkMDTO m None None None
  end.

(** [profileMap[uid]]: the last profile with that uid. *)
Definition profileMap (profiles : list User) : list (string * User) :=
  foldl (λ o p, oset (u_uid p) p o) [] profiles.

(** A workspace loaded with its memberships. *)
Definition WsMs : Type := Workspace * list Membership.
Definition ws_userIds (x : WsMs) : list string := ms_userId <$> x.2.
Definition ws_dto (profiles : list User) (x : WsMs) : WorkspaceDTO :=
  MkWDTO x.1 ((λ m, with_profile m (oget (ms_userId m) (profileMap profiles))) <$> x.2).

Section manage.
Context {C Tw Tm Ta : Type} `{!Cache C}.
Context `{!Repo Tw WorkspaceE Workspace, !Repo Tm MembershipE Membership,
          !Repo Ta AccessCodeE AccessCode}.
Context `{!Random, !JWT, !Secret, !Env, !Peers}.
Abbreviation W := (world C (DB Tw Tm Ta)).
Local Open Scope mon_scope.

(** A reply from another service. *)
Definition reply {A} (r : res A) : M W A := match r with Ok a => ret a | Throw e => throw e end.

Definition createWorkspace (user : User) (data : CreateDTO) : M W WorkspaceDTO :=
  match validateCreation (cr_name data) with
  | Some err => throw (HttpException 400 err)
  | None =>
      transact (
        let newWorkspace := new_Workspace (cr_name data) (cr_description data) (cr_uuid data)
                              (cr_image data) (Some READY) (cr_dedicated data) in
        savedWorkspace <- t_save (T:=Tw) newWorkspace ;;
        let newMembership :=
          Membership_setData (Some (ws_id savedWorkspace)) (Some (u_uid user)) (Some "owner") in
        savedMembership <- t_save (T:=Tm) newMembership ;;
        emit (Nats "user.profile" (Some (MkMeta (Some (u_uid user)) None None None))
          (UserProfileRequest (u_uid user))) ;;;
        profile <- reply (user_profile (u_uid user)) ;;
        ret (MkWDTO savedWorkspace [with_profile savedMembership (Some profile)]))
  end.

Definition ws_findOne_id (id : Z) : M W (option Workspace) :=
  t_findOne (T:=Tw) (λ r, bool_decide (ws_id r = id)).

(** The removal notice of one user. *)
Definition sendExclusion (actor : string) (workspace : Workspace) (removedUid : string) : M W unit :=
  id <- randomUUID ;;
  t <- now ;;
  meta <- createMessage removedUid "" ;;
  emit (Rmq "notification.send" (Some meta)
    (NotifyUser removedUid (Ntfn workspace_membership_removed id (IsoOf t)
      (ExclusionData actor (ws_uuid workspace) (ws_name workspace))))).

Definition ms_delete (wid : Z) (uid : string) : M W unit :=
  t_delete (T:=Tm) (λ m, bool_decide (ms_workspaceId m = wid) && bool_decide (ms_userId m = uid)).

Definition updateMembers (uid : string) (workspace : Workspace) (added removed : list string)
    (sshKey : option string) : M W unit :=
  ms <- ms_find (ws_id workspace) ;;
  let members := ms_userId <$> ms in
  transact (forM (ms_delete (ws_id workspace)) removed) ;;;
  forM (sendExclusion uid workspace) removed ;;;
  inviteAllUsers uid added (ws_uuid workspace) sshKey ;;;
  (if negb (Nat.eqb (length removed) 0)
   then notifyMembers (ws_uuid workspace)
          (List.filter (λ u, negb (includes u removed)) (js_set members))
   else ret tt) ;;;
  emit (Redis "workspace.members.modified" None (MembersModified (ws_uuid workspace) added removed)).

Definition updateWorkspace (uid : string) (data : UpdateDTO) : M W unit :=
  match up_id data with
  | None => throw (HttpException 400 "MISSING_WORKSPACE_ID")
  | Some id =>
      membership <- ms_findOne id uid ;;
      match membership with
      | None => throw (HttpException 403 "NO_WORKSPACE_MEMBERSHIP")
      | Some membership =>
          if lt_undef (roleLevels (ms_role membership)) 1
          then throw (HttpException 401 "WORKSPACE_ACTION_NOT_AUTHORIZED")
          else
            workspace <- ws_findOne_id id ;;
            match workspace with
            | None => throw (HttpException 404 "WORKSPACE_NOT_FOUND")
            | Some workspace =>
                workspace <-
                  (if otruthy (up_name data)
                   then match validateCreation (up_name data) with
                        | Some err => throw (HttpException 400 err)
                        | None => ret (ws_with_name (default "" (up_name data)) workspace)
                        end
                   else ret workspace) ;;
                let workspace :=
                  match up_description data with
                  | Some d => ws_with_description d workspace
                  | None => workspace
                  end in
                match up_members data with
                | Some reqMembers =>
                    ms <- ms_find id ;;
                    let members := ms_userId <$> ms in
                    updateMembers uid workspace (members_added reqMembers members)
                      (members_removed reqMembers members) (up_sshKey data)
                | None => ret tt
                end ;;;
                t_save (T:=Tw) (ws_entity workspace) ;;;
                ret tt
            end
      end
  end.

Definition updateWorkspaceStatus (uuid : option string) (status : WorkspaceStatus) : M W unit :=
  match if_truthy uuid with
  | None => throw (HttpException 400 "MISSING_WORKSPACE_UUID")
  | Some uuid =>
      workspace <- ws_findOne_uuid uuid ;;
      match workspace with
      | None => throw (HttpException 404 "WORKSPACE_NOT_FOUND")
      | Some workspace => t_save (T:=Tw) (ws_entity (ws_with_status status workspace)) ;;; ret tt
      end
  end.

(** [innerJoin] on the caller's membership, [leftJoinAndSelect] of all
    memberships: the caller's workspaces, each with its members. *)
Definition user_workspaces (uid : string) : M W (list WsMs) :=
  gets (λ w,
    let tw := db_ws (w_loc w) in let tm := db_ms (w_loc w) in
    (λ r, (r, r_find (λ m, bool_decide (ms_workspaceId m = ws_id r)) tm)) <$>
      r_find (λ r, existsb (λ m, bool_decide (ms_workspaceId m = ws_id r))
                     (r_find (λ m, bool_decide (ms_userId m = uid)) tm)) tw).

Definition getAllWorkspaces (user : User) : M W (list WorkspaceDTO) :=
  workspaces <- user_workspaces (u_uid user) ;;
  let userIds := concat (ws_userIds <$> workspaces) in
  emit (Http "POST" "http://user/api/all") ;;;
  profiles <- reply (user_all user userIds) ;;
  ret (ws_dto profiles <$> workspaces).

Definition isUserMemberOf (uid workspaceUUID : string) : M W MemberVal :=
  workspace <- ws_findOne_uuid workspaceUUID ;;
  match workspace with
  | None => throw (HttpException 404 "WORKSPACE_NOT_FOUND")
  | Some workspace =>
      membership <- ms_findOne (ws_id workspace) uid ;;
      match membership with
      | None => throw (HttpException 403 "NO_WORKSPACE_MEMBERSHIP")
      | Some _ => ret (MInfo (ws_image workspace) (ws_dedicated workspace))
      end
  end.

Definition session_without_ws (s : CachedSession) : CachedSession :=
  Session (s_state s) (s_socketId s) (s_gatewayId s) None.

(** The body of [members.forEach] for a member whose presence was read. *)
Definition clear_presence (wsUuid uid : string) (presence : CachedPresence) : M W unit :=
  match ofind (λ s, bool_decide (s_wsUuid s = Some wsUuid)) presence with
  | Some (sessionId, session) =>
      if truthy sessionId then
        emit (Redis "socket.send" (Some (meta_us uid sessionId))
          (SocketSend uid sessionId "env" (EnvDisconnect "WORKSPACE_DELETED"))) ;;;
        cache_del (CACHEKEY_PRESENCE_WORKSPACE uid sessionId wsUuid) ;;;
        cache_set (CACHEKEY_PRESENCE uid)
          (CPresence (oset sessionId (session_without_ws session) presence)) None
      else ret tt
  | None => ret tt
  end.

Definition clearCacheOnDelete (members : list string) (wsUuid : string) : M W unit :=
  presences <- mapM cache_presence members ;;
  forM (λ '(uid, presence),
    match presence with Some p => clear_presence wsUuid uid p | None => ret tt end)
    (zip members presences) ;;;
  cache_del (CACHEKEY_WORKSPACE wsUuid).

Definition deleteWorkspace (uid : string) (workspaceUUID : option string) : M W unit :=
  match workspaceUUID with
  | None => throw (HttpException 400 "WORKSPACE_DELETE_INVALID_REQUEST")
  | Some workspaceUUID =>
      workspace <- ws_findOne_uuid workspaceUUID ;;
      match workspace with
      | None => throw (HttpException 404 "WORKSPACE_NOT_FOUND")
      | Some workspace =>
          membership <- ms_findOne (ws_id workspace) uid ;;
          match membership with
          | None => throw (HttpException 403 "NO_WORKSPACE_MEMBERSHIP")
          | Some membership =>
              if lt_undef (roleLevels (ms_role membership)) 1
              then throw (HttpException 403 "WORKSPACE_ACTION_NOT_AUTHORIZED")
              else
                ms <- ms_find (ws_id workspace) ;;
                let members := ms_userId <$> ms in
                transact (
                  t_delete (T:=Tm) (λ m, bool_decide (ms_workspaceId m = ws_id workspace)) ;;;
                  t_delete (T:=Tw) (λ r, bool_decide (ws_uuid r = workspaceUUID))) ;;;
                clearCacheOnDelete members workspaceUUID ;;;
                emit (Http "DELETE" ("http://provisioner/api/delete?uuid=" +:+ workspaceUUID)) ;;;
                emit (Redis "workspace.deleted" None (WorkspaceDeleted workspaceUUID members))
          end
      end
  end.

Definition has_role (uid role : string) (ms : list Membership) : bool :=
  existsb (λ m, bool_decide (ms_userId m = uid) && bool_decide (ms_role m = role)) ms.

(** The deletions of [Promise.allSettled] are run one after the other. *)
Definition deleteOwnedWorkspaces (uid : string) : M W bool :=
  workspaces <- user_workspaces uid ;;
  let ownedWorkspaces := List.filter (λ x, has_role uid "owner" x.2) workspaces in
  let memberWorkspaces := List.filter (λ x, has_role uid "member" x.2) workspaces in
  mapM (λ x, settle (deleteWorkspace uid (Some (ws_uuid x.1)))) ownedWorkspaces ;;;
  transact (t_delete (T:=Tm) (λ m, bool_decide (ms_userId m = uid))) ;;;
  forM (λ x,
    notifyMembers (ws_uuid x.1)
      (List.filter (λ u, bool_decide (u ≠ uid)) (js_set (ws_userIds x))) ;;;
    emit (Redis "workspace.members.modified" None (MembersModified (ws_uuid x.1) [] [uid])))
    memberWorkspaces ;;;
  ret true.

Definition isGuest (authUser : list string * bool) : bool :=
  bool_decide (authUser.1 = []) && negb authUser.2.

Definition checkEligibility (user : User) : M W unit :=
  authUser <- reply (auth_getUser (u_uid user)) ;;
  let limit := nan_or (if isGuest authUser then env_parseInt "WORKSPACE_CREATION_LIMIT_GUEST"
                       else env_parseInt "WORKSPACE_CREATION_LIMIT_NON_GUEST") 1 in
  workspaces <- user_workspaces (u_uid user) ;;
  if limit <=? Z.of_nat (length workspaces)
  then throw (HttpException 403 "MAX_WORKSPACE_QUOTA_REACHED") else ret tt.

Definition downgradeWorkspace (uid uuid : string) : M W unit :=
  notificationId <- randomUUID ;;
  t <- now ;;
  meta <- createMessage uid "" ;;
  emit (Rmq "notification.send" (Some meta)
    (NotifyUser uid (Ntfn workspace_downgraded notificationId (IsoOf t) (WorkspaceDowngraded uuid)))) ;;;
  workspace <- ws_findOne_uuid uuid ;;
  match workspace with
  | None => ret tt
  | Some workspace => t_save (T:=Tw) (ws_entity (ws_with_dedicated false workspace)) ;;; ret tt
  end.
End manage.

#[export] Hint Extern 0 (preserves _ (user_workspaces _)) => apply preserves_gets : pres.
#[export] Hint Extern 0 (preserves _ (ws_findOne_id _)) => apply pres_t_findOne : pres.
#[export] Hint Extern 0 (preserves _ (ws_findOne_uuid _)) => apply pres_t_findOne : pres.
#[export] Hint Extern 0 (preserves _ (ms_findOne _ _)) => apply pres_t_findOne : pres.
#[export] Hint Extern 0 (preserves _ (ms_find _)) => apply pres_t_find : pres.

(** ** Instances for the examples *)
Definition demo_profile (uid : string) : User :=
  MkUser uid (Some "Some Name") (Some "someone") None None None None.
#[global] Instance demo_Env : Env := {| env _ := None |}.
#[global] Instance demo_Peers : Peers := {|
  user_profile uid := Ok (demo_profile uid);
  user_all _ l := Ok (demo_profile <$> l);
  auth_getUser _ := Ok ([], false);
|}.
Definition demo_create : CreateDTO :=
  MkCreate (Some "project") (Some "text") (Some "hide-env-go") (Some true) (Some "ws-2").
