(* ===== verification/ManageUpdate.v ===== *)
(** Properties of workspace creation, the membership check and updates
    ([manage.service.ts]: [createWorkspace], [isUserMemberOf],
    [updateWorkspace], [updateMembers], [updateWorkspaceStatus],
    [downgradeWorkspace], and the invitations of [invite.service.ts]). *)
From S2P Require Import Prelude JS Messages Keys Interfaces Validation Entities Tokens Fixtures Invite Manage.
From Stdlib Require Import Lia.

Section manage_props.
Context {C Tw Tm Ta : Type} `{!Cache C}.
Context `{!Repo Tw WorkspaceE Workspace, !Repo Tm MembershipE Membership,
          !Repo Ta AccessCodeE AccessCode}.
Context `{!RepoLaws Tw WorkspaceE Workspace, !RepoLaws Tm MembershipE Membership,
          !RepoLaws Ta AccessCodeE AccessCode}.
Context `{!Random, !JWT, !Secret, !Env, !Peers}.
Abbreviation W := (world C (DB Tw Tm Ta)).
Implicit Types w : W.

Lemma pres_reply {A} (P : W → Prop) (r : res A) : preserves P (reply r).
Proof. unfold reply. pres. Qed.

(** *** Loaded rows *)
Lemma ws_findOne_uuid_Some w uuid o w' :
  ws_findOne_uuid uuid w = (Ok o, w') →
  w' = w ∧ ∀ r, o = Some r → r ∈ wss (w_loc w) ∧ ws_uuid r = uuid.
Proof.
  unfold ws_findOne_uuid, t_findOne, gets. intros ?; simplify_eq. split; [done|].
  intros r [Hr Hp]%r_findOne_Some. by apply bool_decide_eq_true in Hp.
Qed.

Lemma ws_findOne_id_run w id r :
  db_ok (w_loc w) → r ∈ wss (w_loc w) → ws_id r = id → ws_findOne_id id w = (Ok (Some r), w).
Proof.
  intros Hok Hr Hid. unfold ws_findOne_id, t_findOne, gets. f_equal. f_equal.
  destruct (r_findOne _ _) as [r'|] eqn:Hf.
  - apply r_findOne_Some in Hf as [Hr' Hp]. apply bool_decide_eq_true in Hp.
    f_equal. apply (ok_ws_id _ Hok); [done|done|congruence].
  - rewrite r_findOne_None in Hf. specialize (Hf r Hr). by apply bool_decide_eq_false in Hf.
Qed.

Lemma elem_ms_find w wid l w' :
  ms_find wid w = (Ok l, w') → w' = w ∧ ∀ m, m ∈ l ↔ m ∈ mss (w_loc w) ∧ ms_workspaceId m = wid.
Proof.
  unfold ms_find, t_find, gets. intros ?; simplify_eq. split; [done|]. intros m.
  rewrite elem_r_find. by rewrite bool_decide_eq_true.
Qed.

(** *** Creation *)

(** What the transaction of [createWorkspace] does when it commits. *)
Lemma create_body_ok user data w dto w' :
  db_ok (w_loc w) → createWorkspace user data w = (Ok dto, w') →
  validateCreation (cr_name data) = None ∧
  ∃ r m p tw tm, dto = MkWDTO r [with_profile m (Some p)] ∧
    r_save (new_Workspace (cr_name data) (cr_description data) (cr_uuid data)
       (cr_image data) (Some READY) (cr_dedicated data)) (db_ws (w_loc w)) = Some (r, tw) ∧
    r_save (Membership_setData (Some (ws_id r)) (Some (u_uid user)) (Some "owner"))
       (db_ms (w_loc w)) = Some (m, tm) ∧
    w_loc w' = MkDB tw tm (db_ac (w_loc w)) ∧ w_cache w' = w_cache w.
Proof.
  intros Hok Hrun. unfold createWorkspace in Hrun.
  destruct (validateCreation _); [done|]. split; [done|].
  apply transact_ok in Hrun. minv Hrun. unfold t_save in Hm.
  destruct (r_save _ _) as [[r tw]|] eqn:Hsw; simplify_eq/=.
  minv Hrun. unfold t_save in Hm.
  destruct (r_save (Membership_setData _ _ _) _) as [[m tm]|] eqn:Hsm; simplify_eq/=.
  minv Hrun. injection Hm as <-. minv Hrun. unfold reply in Hm.
  destruct (user_profile _) as [p|]; [|done]. injection Hm as <- <-.
  injection Hrun as <- <-. do 5 eexists. done.
Qed.

Lemma owner_saved wid uid (t t' : Tm) m :
  r_save (Membership_setData (Some wid) (Some uid) (Some "owner")) t = Some (m, t') →
  ms_workspaceId m = wid ∧ ms_userId m = uid ∧ ms_role m = "owner".
Proof.
  intros Hs. apply setData_saved; [done| |].
  - by apply (r_save_keyed _ _ _ _ Hs).
  - by apply (r_save_row _ _ _ _ Hs).
Qed.

Lemma ok_createWorkspace user data :
  preserves (λ w : W, db_ok (w_loc w)) (createWorkspace user data).
Proof.
  intros w Hok. destruct (createWorkspace user data w) as [[dto|e] w'] eqn:Hrun; simpl.
  - apply create_body_ok in Hrun as (_ & r & m & p & tw & tm & _ & Hsw & Hsm & -> & _); [|done].
    apply owner_saved in Hsm as Hm. destruct Hm as (Hw & _ & Hr).
    opose proof (db_ok_ws_insert _ _ _ _ Hok _ Hsw) as Hok1; [done|].
    eapply (db_ok_ms_save _ _ m tm Hok1); [rewrite Hr; by left| |exact Hsm].
    exists r. split; [|done]. apply (elem_r_save _ _ _ _ r Hsw). by left.
  - unfold createWorkspace in Hrun. destruct (validateCreation _); [by injection Hrun as _ <-|].
    apply transact_throw in Hrun. by rewrite Hrun.
Qed.

(** C17: [createWorkspace] is all or nothing.  When it throws, the tables are
    as before.  When it returns, the name was valid, exactly one workspace
    and one membership were added, the workspace is READY with the requested
    name and uuid, its only member is the caller, as owner, and the answer
    carries both rows. *)
Theorem createWorkspace_atomic user data w r w' :
  db_ok (w_loc w) → createWorkspace user data w = (r, w') →
  match r with
  | Throw _ => w_loc w' = w_loc w
  | Ok dto =>
      let ws := wd_ws dto in
      (∃ n, cr_name data = Some n ∧ rmatch nameRegex n = true ∧ ws_name ws = n) ∧
      (∀ u, cr_uuid data = Some u → truthy u = true → ws_uuid ws = u) ∧
      ws_status ws = READY ∧ ws_dedicated ws = default false (cr_dedicated data) ∧
      wss (w_loc w') ≡ₚ ws :: wss (w_loc w) ∧
      (∃ m, md_ms <$> wd_memberships dto = [m] ∧ mss (w_loc w') ≡ₚ m :: mss (w_loc w) ∧
        ms_userId m = u_uid user ∧ ms_role m = "owner" ∧ ms_workspaceId m = ws_id ws) ∧
      (∀ m, m ∈ mss (w_loc w') → ms_workspaceId m = ws_id ws → ms_userId m = u_uid user) ∧
      acs (w_loc w') = acs (w_loc w)
  end.
Proof.
  intros Hok Hrun. destruct r as [dto|e].
  - apply create_body_ok in Hrun as (Hv & r & m & p & tw & tm & -> & Hsw & Hsm & -> & _); [|done].
    apply owner_saved in Hsm as Hm. destruct Hm as (Hw & Hu & Hr).
    pose proof (r_save_row _ _ _ _ Hsw) as Hrow.
    assert (∀ x, x ∈ wss (w_loc w) → ws_id r ≠ ws_id x) as Hfresh.
    { intros x Hx Heq. opose proof (r_save_fresh _ _ _ _ x Hsw _ Hx) as Hf; [done|].
      simpl in Hf. by apply bool_decide_eq_false in Hf. }
    assert (∀ x, x ∈ mss (w_loc w) → ms_workspaceId x ≠ ws_id r) as Hnom.
    { intros x Hx Heq. destruct (ok_fk _ Hok x Hx) as (r' & Hr' & Hid).
      apply (Hfresh r' Hr'). congruence. }
    simpl. unfold new_Workspace in Hrow. simpl in Hrow.
    destruct Hrow as (_ & Huu & _ & Hn & _ & Hst & Hde & _).
    assert (wss (MkDB tw tm (db_ac (w_loc w))) ≡ₚ r :: wss (w_loc w)) as Hwss.
    { unfold wss. simpl. rewrite (r_save_rows _ _ _ _ Hsw). f_equiv.
      rewrite lfilter_all; [done|]. intros x Hx. simpl.
      rewrite bool_decide_false by (by apply Hfresh). done. }
    assert (mss (MkDB tw tm (db_ac (w_loc w))) ≡ₚ m :: mss (w_loc w)) as Hmss.
    { unfold mss. simpl. rewrite (r_save_rows _ _ _ _ Hsm). f_equiv.
      rewrite lfilter_all; [done|]. intros x Hx. simpl.
      rewrite (bool_decide_false (ms_workspaceId m = _)); [done|].
      specialize (Hnom x Hx). congruence. }
    split; [|split; [|split_and!; try done]].
    + destruct (cr_name data) as [n|]; simpl in *; [|done].
      destruct (truthy n), (rmatch nameRegex n) eqn:?; simplify_eq/=. eauto.
    + intros u Hcu Htr. rewrite Hcu in Huu. simpl in Huu. by rewrite Htr in Huu.
    + exists m. done.
    + intros x. rewrite Hmss, elem_of_cons. intros [->|Hx]; [done|]. intros ?. by destruct (Hnom x Hx).
  - unfold createWorkspace in Hrun. destruct (validateCreation _); [by injection Hrun as _ <-|].
    by apply transact_throw in Hrun.
Qed.

(** *** The membership check *)
Lemma is_member_iff w uuid uid r :
  db_ok (w_loc w) → r ∈ wss (w_loc w) → ws_uuid r = uuid →
  is_member (w_loc w) uuid uid ↔
  ∃ m, m ∈ mss (w_loc w) ∧ ms_workspaceId m = ws_id r ∧ ms_userId m = uid.
Proof.
  intros Hok Hr Huu. split.
  - intros (r' & m & Hr' & Huu' & Hm & Hw & Hu). exists m. split_and!; [done| |done].
    rewrite Hw. by apply (ok_ws_uuid _ Hok); [| |congruence].
  - intros (m & Hm & Hw & Hu). exists r, m. done.
Qed.

Lemma ms_findOne_dec w wid uid :
  db_ok (w_loc w) →
  (∃ m, ms_findOne wid uid w = (Ok (Some m), w) ∧ m ∈ mss (w_loc w) ∧
     ms_workspaceId m = wid ∧ ms_userId m = uid) ∨
  (ms_findOne wid uid w = (Ok None, w) ∧
     ∀ m, m ∈ mss (w_loc w) → ms_workspaceId m = wid → ms_userId m ≠ uid).
Proof.
  intros Hok. unfold ms_findOne, t_findOne, gets.
  destruct (r_findOne _ _) as [m|] eqn:Hf; [left|right].
  - apply r_findOne_Some in Hf as [Hm Hp]. rewrite andb_true_iff, !bool_decide_eq_true in Hp.
    exists m. naive_solver.
  - split; [done|]. intros m Hm Hw Hu. rewrite r_findOne_None in Hf. specialize (Hf m Hm).
    rewrite andb_false_iff, !bool_decide_eq_false in Hf. naive_solver.
Qed.

Lemma ws_findOne_uuid_dec w uuid :
  (∃ r, ws_findOne_uuid uuid w = (Ok (Some r), w) ∧ r ∈ wss (w_loc w) ∧ ws_uuid r = uuid) ∨
  (ws_findOne_uuid uuid w = (Ok None, w) ∧ ∀ r, r ∈ wss (w_loc w) → ws_uuid r ≠ uuid).
Proof.
  unfold ws_findOne_uuid, t_findOne, gets.
  destruct (r_findOne _ _) as [r|] eqn:Hf; [left|right].
  - apply r_findOne_Some in Hf as [Hr Hp]. apply bool_decide_eq_true in Hp. eauto.
  - split; [done|]. intros r Hr. rewrite r_findOne_None in Hf. specialize (Hf r Hr).
    by apply bool_decide_eq_false in Hf.
Qed.

Lemma isUserMemberOf_Ok w uid uuid v :
  db_ok (w_loc w) → (isUserMemberOf uid uuid w).1 = Ok v →
  mtruthy v = true ∧ is_member (w_loc w) uuid uid.
Proof.
  intros Hok. unfold isUserMemberOf.
  destruct (ws_findOne_uuid_dec w uuid) as [(r & Hf & Hr & Huu)|(Hf & Hno)];
    rewrite (bind_ok _ _ _ _ _ Hf); [|done].
  destruct (ms_findOne_dec w (ws_id r) uid Hok) as [(m & Hg & Hm & Hw & Hu)|(Hg & Hno)];
    rewrite (bind_ok _ _ _ _ _ Hg); [|done].
  intros; simplify_eq/=. split; [done|]. exists r, m. done.
Qed.

(** [isUserMemberOf] answers, and with the workspace's image and kind,
    exactly when the user is a member of the workspace; otherwise it throws
    404 (no such workspace) or 403 (not a member).  It changes nothing. *)
Theorem isUserMemberOf_correct w uid uuid :
  db_ok (w_loc w) →
  ∃ v, isUserMemberOf uid uuid w = (v, w) ∧
  match v with
  | Ok i => is_member (w_loc w) uuid uid ∧
      ∃ r, r ∈ wss (w_loc w) ∧ ws_uuid r = uuid ∧ i = MInfo (ws_image r) (ws_dedicated r)
  | Throw e => ¬ is_member (w_loc w) uuid uid ∧
      (e = HttpException 404 "WORKSPACE_NOT_FOUND" ↔ ∀ r, r ∈ wss (w_loc w) → ws_uuid r ≠ uuid) ∧
      (e = HttpException 403 "NO_WORKSPACE_MEMBERSHIP" ↔ ∃ r, r ∈ wss (w_loc w) ∧ ws_uuid r = uuid)
  end.
Proof.
  intros Hok. unfold isUserMemberOf.
  destruct (ws_findOne_uuid_dec w uuid) as [(r & Hf & Hr & Huu)|(Hf & Hno)]; mstep by exact Hf.
  - destruct (ms_findOne_dec w (ws_id r) uid Hok) as [(m & Hg & Hm & Hw & Hu)|(Hg & Hno)];
      mstep by exact Hg.
    + eexists. split; [done|]. simpl. split; [|eauto]. exists r, m. done.
    + eexists. split; [done|]. simpl. split; [|split].
      * rewrite (is_member_iff w uuid uid r) by done. naive_solver.
      * split; [done|]. intros Hn. by destruct (Hn r Hr).
      * split; [eauto|done].
  - eexists. split; [done|]. simpl. split; [|split].
    + intros (r & m & Hr & Huu & _). by apply (Hno r Hr).
    + done.
    + split; [done|]. intros (r & Hr & Huu). by destruct (Hno r Hr).
Qed.

(** *** Membership changes *)
Lemma ms_delete_loop wid l w w' :
  forM (ms_delete wid) l w = (Ok tt, w') →
  ∃ t, w' = set_loc (tb_set (t : Tm)) w ∧
    (∀ m, m ∈ r_rows t ↔ m ∈ mss (w_loc w) ∧ ¬ (ms_workspaceId m = wid ∧ ms_userId m ∈ l)).
Proof.
  revert w. induction l as [|u l IH]; intros w Hrun; simpl in Hrun.
  - injection Hrun as <-. exists (db_ms (w_loc w)). destruct w as [c o n t [tw tm ta]].
    split; [done|]. intros m. unfold mss. simpl. set_solver.
  - minv Hrun. unfold ms_delete, t_delete in Hm.
    destruct (r_delete _ _) as [t|] eqn:Hd; [|done]. injection Hm as <-.
    apply IH in Hrun as (t' & -> & Ht'). exists t'. split; [done|].
    intros m. rewrite Ht'. unfold mss. simpl. rewrite (elem_r_delete _ _ _ m Hd).
    rewrite andb_false_iff, !bool_decide_eq_false, elem_of_cons.
    destruct (decide (ms_workspaceId m = wid)), (decide (ms_userId m = u)); naive_solver.
Qed.

Lemma ms_delete_loop_throw wid l w e w' :
  forM (ms_delete wid) l w = (Throw e, w') → e = QueryFailed ∧ w_out w' = w_out w.
Proof.
  revert w. induction l as [|u l IH]; intros w; cbn [forM]; [done|].
  unfold bind, ms_delete at 1, t_delete. destruct (r_delete _ _) as [t|]; [intros [-> ->]%IH; done|by intros [= <- <-]].
Qed.

Lemma ok_ms_delete_loop wid l : preserves (λ w : W, db_ok (w_loc w)) (forM (ms_delete wid) l).
Proof.
  pres. intros w Hok. unfold ms_delete, t_delete.
  destruct (r_delete _ _) as [t|] eqn:Hd; [|done]. by apply (db_ok_ms_delete _ _ _ Hok Hd).
Qed.

Lemma ok_updateMembers uid r added removed key :
  preserves (λ w : W, db_ok (w_loc w)) (updateMembers uid r added removed key).
Proof.
  unfold updateMembers, sendExclusion. pres. apply preserves_transact, ok_ms_delete_loop.
Qed.
Hint Resolve ok_updateMembers : pres.

(** Same workspaces and access codes. *)
Definition same_but_ms (d d' : DB Tw Tm Ta) : Prop := db_ws d' = db_ws d ∧ db_ac d' = db_ac d.

Lemma frame_updateMembers d uid r added removed key :
  preserves (λ w : W, same_but_ms d (w_loc w)) (updateMembers uid r added removed key).
Proof.
  unfold updateMembers, sendExclusion. pres. apply preserves_transact. pres.
  intros w Hw. unfold ms_delete, t_delete. by destruct (r_delete _ _).
Qed.

Lemma pres_out_sendExclusion o a r l :
  preserves (λ w : W, o `prefix_of` w_out w) (forM (sendExclusion a r) l).
Proof. unfold sendExclusion. pres. Qed.

Lemma pres_now_sendExclusion t a r l :
  preserves (λ w : W, w_now w = t) (forM (sendExclusion a r) l).
Proof. unfold sendExclusion. pres; by intros w. Qed.

(** The notice to a removed user. *)
Definition exclusion_of (actor : string) (r : Workspace) (u : string) (e : effect) : Prop :=
  ∃ meta id t, e = Rmq "notification.send" meta (NotifyUser u
    (Ntfn workspace_membership_removed id (IsoOf t) (ExclusionData actor (ws_uuid r) (ws_name r)))).

Lemma sendExclusions_run a r l w :
  ∃ es w', forM (sendExclusion a r) l w = (Ok tt, w') ∧ w_out w' = w_out w ++ es ∧
    w_loc w' = w_loc w ∧ Forall2 (exclusion_of a r) l es.
Proof.
  revert w. induction l as [|u l IH]; intros w.
  - exists [], w. rewrite app_nil_r. by split_and!.
  - cbn [forM]. eassert (sendExclusion a r u w = (Ok tt, _)) as Hr by (unfold sendExclusion, bind; reflexivity).
    setoid_rewrite (bind_ok _ _ _ _ _ Hr).
    match goal with |- context [forM _ l ?w1] => destruct (IH w1) as (es & w' & -> & Ho & Hl & Hes) end.
    eexists (_ :: es), w'. rewrite Ho, Hl. simpl. split_and!; [done|by rewrite <- app_assoc|done|].
    constructor; [|done]. by do 3 eexists.
Qed.

(** What a membership change that returns has done: the removed users'
    rows are gone, the actor still may manage the workspace, every added
    user was invited, and the change was announced last. *)
Lemma updateMembers_ok uid r added removed key w w' :
  updateMembers uid r added removed key w = (Ok tt, w') →
  (∀ m, m ∈ mss (w_loc w') ↔
     m ∈ mss (w_loc w) ∧ ¬ (ms_workspaceId m = ws_id r ∧ ms_userId m ∈ removed)) ∧
  may_manage (w_loc w') (ws_uuid r) uid ∧
  ∃ es, w_out w' = w_out w ++ es ++
      [Redis "workspace.members.modified" None (MembersModified (ws_uuid r) added removed)] ∧
    ∀ u, u ∈ added → ∃ n, invitation_at n (w_now w) uid u (ws_uuid r) key ∈ es.
Proof.
  unfold updateMembers. intros Hrun. minv Hrun. apply elem_ms_find in Hm as [-> _].
  minv Hrun. apply transact_ok, ms_delete_loop in Hm as (t & -> & Ht). cbv zeta in Hrun.
  minv Hrun. pose proof Hm as Hm2.
  apply (run_grows _ _ _ _ (λ o, pres_out_sendExclusion o _ _ _)) in Hm as [es1 Ho1].
  apply (preserves_run _ _ _ _ _ (pres_now_sendExclusion (w_now w) _ _ _)) in Hm2 as Hn1; [|done].
  assert (w_loc s = w_loc (set_loc (tb_set t) w)) as Hl1.
  { eapply (preserves_run (λ w', w_loc w' = _)); [|exact Hm2|done].
    apply (preserves_forM). intros. unfold sendExclusion. pres; by intros w0. }
  clear Hm2. minv Hrun. apply inviteAllUsers_ok in Hm as (Hmay & Hl2 & _ & es2 & Ho2 & Hinv).
  minv Hrun. injection Hrun as <-.
  assert (w_loc s1 = w_loc s0 ∧ ∃ es3, w_out s1 = w_out s0 ++ es3) as [Hl3 [es3 Ho3]].
  { destruct (negb _); [rewrite notifyMembers_run in Hm|]; injection Hm as <-.
    - split; [done|]. simpl. by eexists.
    - split; [done|]. exists []. by rewrite app_nil_r. }
  cbn [add_out w_loc w_out].
  split_and!.
  - intros m. rewrite Hl3, Hl2, Hl1. apply Ht.
  - by rewrite Hl3, Hl2.
  - exists (es1 ++ es2 ++ es3). rewrite Ho3, Ho2, Ho1. simpl. split; [by rewrite <- !app_assoc|].
    intros u [i Hu]%list_elem_of_lookup.
    destruct (Forall2_lookup_l _ _ _ _ _ Hinv Hu) as (e & He & n & ->).
    exists n. rewrite !elem_of_app. right. left. rewrite Hn1 in He. by eapply list_elem_of_lookup_2.
Qed.

(** The row that [updateWorkspace] stores. *)
Definition edited (data : UpdateDTO) (r : Workspace) : Workspace :=
  let r := if otruthy (up_name data) then ws_with_name (default "" (up_name data)) r else r in
  match up_description data with Some d => ws_with_description d r | None => r end.

Lemma edited_id data r : ws_id (edited data r) = ws_id r.
Proof. unfold edited. by destruct (otruthy _), (up_description data). Qed.
Lemma edited_uuid data r : ws_uuid (edited data r) = ws_uuid r.
Proof. unfold edited. by destruct (otruthy _), (up_description data). Qed.

(** Past its guards, [updateWorkspace] changes the members and saves the row. *)
Definition update_tail (uid : string) (id : Z) (data : UpdateDTO) (r : Workspace) : M W unit :=
  (match up_members data with
   | Some reqMembers =>
       ms <- ms_find id ;;
       let members := ms_userId <$> ms in
       updateMembers uid r (members_added reqMembers members)
         (members_removed reqMembers members) (up_sshKey data)
   | None => ret tt
   end ;;; t_save (T:=Tw) (ws_entity r) ;;; ret tt)%mon.

Lemma updateWorkspace_cases uid data w :
  db_ok (w_loc w) →
  (∃ s msg, updateWorkspace uid data w = (Throw (HttpException s msg), w)) ∨
  (∃ id m r, up_id data = Some id ∧ m ∈ mss (w_loc w) ∧ ms_workspaceId m = id ∧
     ms_userId m = uid ∧ lt_undef (roleLevels (ms_role m)) 1 = false ∧
     r ∈ wss (w_loc w) ∧ ws_id r = id ∧
     (otruthy (up_name data) = true → validateCreation (up_name data) = None) ∧
     updateWorkspace uid data w = update_tail uid id data (edited data r) w).
Proof.
  intros Hok. unfold updateWorkspace. destruct (up_id data) as [id|]; [|eauto].
  destruct (ms_findOne_dec w id uid Hok) as [(m & Hg & Hm & Hw & Hu)|(Hg & _)];
    rewrite (bind_ok _ _ _ _ _ Hg); [|left; eauto].
  destruct (lt_undef _ _) eqn:Hlt; [left; eauto|].
  destruct (ok_fk _ Hok m Hm) as (r & Hr & Hid).
  rewrite (bind_ok _ _ _ _ _ (ws_findOne_id_run w id r Hok Hr (eq_trans Hid Hw))).
  destruct (otruthy (up_name data)) eqn:Hn; [destruct (validateCreation _) eqn:Hv|].
  - left. eauto.
  - right. exists id, m, r. split_and!; try done; [congruence|].
    mstep by done. unfold update_tail, edited. by rewrite Hn.
  - right. exists id, m, r. split_and!; try done; [congruence|].
    mstep by done. unfold update_tail, edited. by rewrite Hn.
Qed.

Lemma updateWorkspace_accepted uid data id m w :
  db_ok (w_loc w) → up_id data = Some id → m ∈ mss (w_loc w) → ms_workspaceId m = id → ms_userId m = uid →
  lt_undef (roleLevels (ms_role m)) 1 = false →
  (otruthy (up_name data) = true → validateCreation (up_name data) = None) →
  ∃ r, r ∈ wss (w_loc w) ∧ ws_id r = id ∧ updateWorkspace uid data w = update_tail uid id data (edited data r) w.
Proof.
  intros Hok Hid Hm Hw Hu Hrole Hname. destruct (ok_fk _ Hok m Hm) as (r & Hr & Hrid). exists r.
  split_and!; [done|congruence|]. unfold updateWorkspace. rewrite Hid.
  rewrite (bind_ok _ _ _ _ _ (ms_findOne_run w id uid m Hok Hm Hw Hu)), Hrole.
  rewrite (bind_ok _ _ _ _ _ (ws_findOne_id_run w id r Hok Hr (eq_trans Hrid Hw))).
  unfold update_tail, edited. destruct (otruthy (up_name data)); [rewrite Hname by done|]; mstep by done; done.
Qed.

Lemma ok_update_tail uid id data r0 r w :
  db_ok (w_loc w) → r0 ∈ wss (w_loc w) → ws_id r = ws_id r0 → ws_uuid r = ws_uuid r0 →
  db_ok (w_loc (update_tail uid id data r w).2).
Proof.
  intros Hok Hr0 Hid Huu. unfold update_tail, bind at 1.
  set (mid := match up_members data with Some _ => _ | None => _ end).
  assert (preserves (λ w : W, db_ok (w_loc w)) mid) as Hp1 by (unfold mid; pres).
  assert (preserves (λ w' : W, same_but_ms (w_loc w) (w_loc w')) mid) as Hp2.
  { unfold mid. pres. apply frame_updateMembers. }
  destruct (mid w) as [v w1] eqn:Hmid.
  apply (preserves_run _ _ _ _ _ Hp1) in Hmid as Hok1; [|done].
  apply (preserves_run _ _ _ _ _ Hp2) in Hmid as [Hw1 _]; [|done].
  destruct v; [|done]. unfold bind, t_save. simpl.
  destruct (r_save _ _) as [[r' t]|] eqn:Hs; [|done]. simpl.
  eapply (db_ok_ws_update _ r0 r r' t); try done. unfold wss in *. by rewrite Hw1.
Qed.

Lemma ok_updateWorkspace uid data :
  preserves (λ w : W, db_ok (w_loc w)) (updateWorkspace uid data).
Proof.
  intros w Hok. destruct (updateWorkspace_cases uid data w Hok)
    as [(s & msg & ->)|(id & m & r & _ & _ & _ & _ & _ & Hr & _ & _ & ->)]; [done|].
  by apply (ok_update_tail _ _ _ r); rewrite ?edited_id, ?edited_uuid.
Qed.

(** only an owner may update a workspace: for anyone else the request is
    refused with an HTTP error and nothing has changed, in the tables, the
    cache or the messages sent. *)
Theorem updateWorkspace_authorised uid data w :
  db_ok (w_loc w) →
  (∀ m, m ∈ mss (w_loc w) → up_id data = Some (ms_workspaceId m) → ms_userId m = uid →
     ms_role m ≠ "owner") →
  ∃ s msg, updateWorkspace uid data w = (Throw (HttpException s msg), w).
Proof.
  intros Hok Hno. destruct (updateWorkspace_cases uid data w Hok)
    as [?|(id & m & r & Hid & Hm & Hw & Hu & Hlt & _)]; [done|].
  apply known_role_level in Hlt; [|by apply (ok_role _ Hok)].
  destruct (Hno m Hm); congruence.
Qed.

Lemma elem_members_removed req l u : u ∈ members_removed req l ↔ u ∈ l ∧ u ∉ req.
Proof.
  unfold members_removed. rewrite elem_of_lfilter, elem_of_js_set, negb_true_iff.
  unfold includes. by rewrite bool_decide_eq_false, elem_of_js_set.
Qed.
Lemma elem_members_added req l u : u ∈ members_added req l ↔ u ∈ req ∧ u ∉ l.
Proof.
  unfold members_added. rewrite elem_of_lfilter, elem_of_js_set, negb_true_iff.
  unfold includes. by rewrite bool_decide_eq_false, elem_of_js_set.
Qed.

(** The tables and messages after a members update that returns. *)
Lemma updateWorkspace_members_ok uid data id req w w' :
  db_ok (w_loc w) → up_id data = Some id → up_members data = Some req →
  updateWorkspace uid data w = (Ok tt, w') →
  ∃ r es, r ∈ wss (w_loc w) ∧ ws_id r = id ∧ uid ∈ req ∧
    wss (w_loc w') ≡ₚ edited data r :: List.filter (λ x, negb (bool_decide (ws_id x = id))) (wss (w_loc w)) ∧
    (∀ m, m ∈ mss (w_loc w') ↔ m ∈ mss (w_loc w) ∧ (ms_workspaceId m = id → ms_userId m ∈ req)) ∧
    (∀ u, u ∈ req → ¬ is_member (w_loc w) (ws_uuid r) u →
       ∃ n, invitation_at n (w_now w) uid u (ws_uuid r) (up_sshKey data) ∈ es) ∧
    ∃ added removed, w_out w' = w_out w ++ es ++
        [Redis "workspace.members.modified" None (MembersModified (ws_uuid r) added removed)] ∧
      (∀ u, u ∈ added ↔ u ∈ req ∧ ¬ is_member (w_loc w) (ws_uuid r) u) ∧
      (∀ u, u ∈ removed ↔ is_member (w_loc w) (ws_uuid r) u ∧ u ∉ req).
Proof.
  intros Hok Hid Hreq Hrun. pose proof (updateWorkspace_cases uid data w Hok) as
    [(?&?&Hthrow)|(id' & m & r & Hid' & Hm & Hw & Hu & Hlt & Hr & Hrid & _ & Heq)]; [congruence|].
  assert (id' = id) as -> by congruence. rewrite Heq in Hrun. unfold update_tail in Hrun.
  rewrite Hreq in Hrun. minv Hrun. minv Hm0. apply elem_ms_find in Hm1 as [-> Hl].
  cbv zeta in Hm0.
  apply (preserves_run _ _ _ _ _ (frame_updateMembers (w_loc w) _ _ _ _ _)) in Hm0 as Hsame; [|done].
  apply updateMembers_ok in Hm0 as (Hms & Hmay & es & Hout & Hinv).
  minv Hrun. injection Hrun as <-. unfold t_save in Hm0.
  destruct (r_save _ _) as [[r' t]|] eqn:Hs; [|done]. injection Hm0 as _ <-.
  rewrite edited_id, edited_uuid in *.
  assert (∀ u, u ∈ ms_userId <$> a ↔ is_member (w_loc w) (ws_uuid r) u) as Hmem.
  { intros u. rewrite (is_member_iff w _ u r) by done. rewrite list_elem_of_fmap.
    setoid_rewrite Hl. rewrite Hrid. naive_solver. }
  assert (∀ m, m ∈ mss (w_loc s) ↔
    m ∈ mss (w_loc w) ∧ (ms_workspaceId m = id → ms_userId m ∈ req)) as Hrows.
  { intros m'. rewrite Hms, elem_members_removed, list_elem_of_fmap. setoid_rewrite Hl. rewrite Hrid.
    destruct (decide (ms_userId m' ∈ req)); naive_solver. }
  exists r, es. split_and!; try done.
  - destruct Hmay as (r1 & m1 & Hr1 & Huu1 & Hm1 & Hw1 & Hu1 & _).
    apply Hrows in Hm1 as [Hm1 Himp]. rewrite <- Hu1. apply Himp.
    rewrite Hw1, <- Hrid. apply (ok_ws_uuid _ Hok); [|done|congruence].
    destruct Hsame as [Hws _]. unfold wss in *. by rewrite <- Hws.
  - pose proof (ws_entity_saved _ _ (r_save_row _ _ _ _ Hs)) as ->.
    destruct Hsame as [Hws _]. unfold wss. simpl in *. rewrite Hws in Hs.
    rewrite (r_save_rows _ _ _ _ Hs). simpl. rewrite edited_id, Hrid. f_equiv.
    erewrite List.filter_ext; [reflexivity|]. intros x. simpl. f_equal. by apply bool_decide_ext.
  - intros u Hu' Hno. apply Hinv. rewrite elem_members_added, Hmem. done.
  - do 2 eexists. split; [exact Hout|]. split; intros u.
    + by rewrite elem_members_added, Hmem.
    + by rewrite elem_members_removed, Hmem.
Qed.

(** C16: a members update that returns leaves exactly the requested members:
    of the workspace's rows those whose user is requested remain, every other
    workspace's rows are untouched, each requested user who was not a member
    has been sent an invitation, the caller is among the requested, and the
    change is announced with the users added and removed.  The workspace's
    row takes the new name and description; no other row changes. *)
Theorem updateWorkspace_members uid data id req w w' :
  db_ok (w_loc w) → up_id data = Some id → up_members data = Some req →
  updateWorkspace uid data w = (Ok tt, w') →
  ∃ r es, r ∈ wss (w_loc w) ∧ ws_id r = id ∧ uid ∈ req ∧
    wss (w_loc w') ≡ₚ edited data r :: List.filter (λ x, negb (bool_decide (ws_id x = id))) (wss (w_loc w)) ∧
    (∀ m, m ∈ mss (w_loc w') ↔ m ∈ mss (w_loc w) ∧ (ms_workspaceId m = id → ms_userId m ∈ req)) ∧
    (∀ u, u ∈ req → ¬ is_member (w_loc w) (ws_uuid r) u →
       ∃ n, invitation_at n (w_now w) uid u (ws_uuid r) (up_sshKey data) ∈ es) ∧
    ∃ added removed, w_out w' = w_out w ++ es ++
        [Redis "workspace.members.modified" None (MembersModified (ws_uuid r) added removed)] ∧
      (∀ u, u ∈ added ↔ u ∈ req ∧ ¬ is_member (w_loc w) (ws_uuid r) u) ∧
      (∀ u, u ∈ removed ↔ is_member (w_loc w) (ws_uuid r) u ∧ u ∉ req).
Proof. apply updateWorkspace_members_ok. Qed.

Lemma cache_updateWorkspace c uid data :
  preserves (λ w : W, w_cache w = c) (updateWorkspace uid data).
Proof.
  pose proof (pres_cache_inviteAllUsers (C:=C) (Tw:=Tw) (Tm:=Tm) (Ta:=Ta) (λ c', c' = c)) as Hi.
  pose proof (pres_cache_notifyMembers (C:=C) (Tw:=Tw) (Tm:=Tm) (Ta:=Ta) (λ c', c' = c)) as Hn.
  unfold updateWorkspace, updateMembers, sendExclusion. pres; try (by intros w); try apply Hi; try apply Hn.
  - apply (preserves_transact_cache (λ c', c' = c)), preserves_forM. intros u _.
    apply (pres_cache_t_delete (λ c', c' = c)).
  - apply (pres_cache_t_save (λ c', c' = c)).
Qed.

(** A change of members that removes its author. *)
Lemma updateMembers_self uid r r' added removed key w :
  db_ok (w_loc w) → r ∈ wss (w_loc w) → ws_id r' = ws_id r → ws_uuid r' = ws_uuid r → uid ∈ removed →
  (∃ w', updateMembers uid r' added removed key w = (Throw QueryFailed, w') ∧
     w_loc w' = w_loc w ∧ w_out w' = w_out w) ∨
  (∃ w' es, updateMembers uid r' added removed key w = (Throw (HttpException 403 "NO_WORKSPACE_MEMBERSHIP"), w') ∧
     same_but_ms (w_loc w) (w_loc w') ∧
     (∀ m, m ∈ mss (w_loc w') ↔ m ∈ mss (w_loc w) ∧ ¬ (ms_workspaceId m = ws_id r ∧ ms_userId m ∈ removed)) ∧
     w_out w' = w_out w ++ es ∧ Forall2 (exclusion_of uid r') removed es).
Proof.
  intros Hok Hr Hid Huu Hin. unfold updateMembers.
  destruct (forM (ms_delete (ws_id r')) removed w) as [[[]|e] w1] eqn:Hdel.
  2:{ left. apply ms_delete_loop_throw in Hdel as Hd. destruct Hd as [-> Ho].
      eexists. mstep by done. cbv zeta. mfail by (unfold transact; rewrite Hdel; done). done. }
  right. assert (db_ok (w_loc w1)) as Hok1.
  { eapply (preserves_run _ _ _ _ _ (ok_ms_delete_loop (ws_id r') removed)); [exact Hdel|done]. }
  pose proof Hdel as Hdel'. apply ms_delete_loop in Hdel' as (t & -> & Ht). rewrite Hid in Ht.
  set (w1 := set_loc _ w) in *.
  destruct (sendExclusions_run uid r' removed w1) as (es & w2 & Hrun2 & Ho2 & Hl2 & Hes).
  exists w2, es. split.
  - mstep by done. cbv zeta. mstep by (unfold transact; rewrite Hdel; done). mstep by exact Hrun2.
    mfail by (unfold inviteAllUsers; mstep by (unfold validateInvite;
      mstep by (apply (ws_findOne_uuid_run w2 _ r); rewrite ?Hl2; done);
      mstep by (apply ms_findOne_none; rewrite Hl2; intros m [_ Hm]%Ht Hw Hu; apply Hm; by rewrite Hu); done); done).
    done.
  - rewrite Hl2, Ho2. by split_and!.
Qed.

(** C40: a members request that leaves out its own author fails half way.  An
    author who may manage the workspace, and whose other changes are
    acceptable, is never answered with success.  Unless the database refuses
    to delete, when nothing has changed, the removals are committed before
    the invitation step finds the author no longer a member: the answer is
    403, the rows of every member who is not requested are gone, the new
    name and description are not stored, and of all messages only the
    notices to the removed users have been sent; the
    [workspace.members.modified] that the other services need to revoke the
    access is not. *)
Theorem updateWorkspace_self_removal uid data id req m w r w' :
  db_ok (w_loc w) → up_id data = Some id → up_members data = Some req → uid ∉ req →
  m ∈ mss (w_loc w) → ms_workspaceId m = id → ms_userId m = uid → lt_undef (roleLevels (ms_role m)) 1 = false →
  (otruthy (up_name data) = true → validateCreation (up_name data) = None) →
  updateWorkspace uid data w = (r, w') →
  r = Throw QueryFailed ∧ w_loc w' = w_loc w ∧ w_out w' = w_out w ∨
  r = Throw (HttpException 403 "NO_WORKSPACE_MEMBERSHIP") ∧ same_but_ms (w_loc w) (w_loc w') ∧
    (∀ x, x ∈ mss (w_loc w') ↔ x ∈ mss (w_loc w) ∧ (ms_workspaceId x = id → ms_userId x ∈ req)) ∧
    ∃ ws removed es, ws ∈ wss (w_loc w) ∧ ws_id ws = id ∧
      (∀ u, u ∈ removed ↔ (∃ x, x ∈ mss (w_loc w) ∧ ms_workspaceId x = id ∧ ms_userId x = u) ∧ u ∉ req) ∧
      w_out w' = w_out w ++ es ∧ Forall2 (exclusion_of uid (edited data ws)) removed es.
Proof.
  intros Hok Hid Hreq Hself Hm Hw Hu Hrole Hname.
  destruct (updateWorkspace_accepted uid data id m w Hok Hid Hm Hw Hu Hrole Hname) as (ws & Hws & Hwid & ->).
  unfold update_tail. rewrite Hreq. set (l := r_find (λ m0, bool_decide (ms_workspaceId m0 = id)) (db_ms (w_loc w))).
  set (mr := members_removed req (ms_userId <$> l)).
  assert (∀ u, u ∈ mr ↔ (∃ x, x ∈ mss (w_loc w) ∧ ms_workspaceId x = id ∧ ms_userId x = u) ∧ u ∉ req) as Hmr.
  { intros u. unfold mr, l. rewrite elem_members_removed, list_elem_of_fmap. setoid_rewrite elem_r_find.
    setoid_rewrite bool_decide_eq_true. unfold mss. naive_solver. }
  assert (uid ∈ mr) as Hin by (apply Hmr; eauto 6).
  destruct (updateMembers_self uid ws (edited data ws) (members_added req (ms_userId <$> l)) mr (up_sshKey data) w
    Hok Hws (edited_id _ _) (edited_uuid _ _) Hin) as [(w1 & Hrun & Hl & Ho)|(w1 & es & Hrun & Hsame & Hms & Ho & Hes)].
  - intros Hall. left. revert Hall. mfail by (mstep by done; exact Hrun). by intros [= <- <-].
  - intros Hall. right. revert Hall. mfail by (mstep by done; exact Hrun). intros [= <- <-]. split_and!; try done.
    + intros x. rewrite Hms, Hmr, Hwid. destruct (decide (ms_userId x ∈ req)); naive_solver.
    + exists ws, mr, es. done.
Qed.

(** *** The remaining operations keep the database well formed *)
Lemma ok_ws_save w r0 r :
  db_ok (w_loc w) → r0 ∈ wss (w_loc w) → ws_id r = ws_id r0 → ws_uuid r = ws_uuid r0 →
  db_ok (w_loc (t_save (T:=Tw) (ws_entity r) w).2).
Proof.
  intros Hok Hr0 Hid Huu. unfold t_save. simpl.
  destruct (r_save _ _) as [[r' t]|] eqn:Hs; [|done]. by apply (db_ok_ws_update _ r0 r r' t).
Qed.

(** Loading a workspace by uuid and saving it with other columns changed. *)
Lemma ok_load_save (f : Workspace → Workspace) uuid (none : M W unit) :
  (∀ r, ws_id (f r) = ws_id r) → (∀ r, ws_uuid (f r) = ws_uuid r) →
  preserves (λ w : W, db_ok (w_loc w)) none →
  preserves (λ w : W, db_ok (w_loc w))
    (workspace <- ws_findOne_uuid uuid ;;
     match workspace with
     | None => none
     | Some workspace => t_save (T:=Tw) (ws_entity (f workspace)) ;;; ret tt
     end)%mon.
Proof.
  intros Hid Huu Hnone w Hok.
  destruct (ws_findOne_uuid_dec w uuid) as [(r & Hf & Hr & _)|(Hf & _)];
    rewrite (bind_ok _ _ _ _ _ Hf); [|by apply Hnone].
  pose proof (ok_ws_save w r (f r) Hok Hr (Hid r) (Huu r)) as Hs.
  unfold bind. by destruct (t_save _ w) as [[]].
Qed.

Lemma ok_updateWorkspaceStatus uuid st :
  preserves (λ w : W, db_ok (w_loc w)) (updateWorkspaceStatus uuid st).
Proof.
  unfold updateWorkspaceStatus. destruct (if_truthy uuid); [|pres].
  apply (ok_load_save (ws_with_status st)); [done..|pres].
Qed.

Lemma ok_downgradeWorkspace uid uuid :
  preserves (λ w : W, db_ok (w_loc w)) (downgradeWorkspace uid uuid).
Proof.
  unfold downgradeWorkspace.
  do 4 (apply preserves_bind; [solve [pres]|intros ?]).
  apply (ok_load_save (ws_with_dedicated false)); [done..|pres].
Qed.

Lemma ok_acceptInvitation uid tok :
  preserves (λ w : W, db_ok (w_loc w)) (acceptInvitation uid tok).
Proof.
  unfold acceptInvitation, validateAccept. destruct (jwt_verify _ _) as [p|]; [|by intros w].
  case_bool_decide; [|by intros w]. intros w Hok. rewrite (bind_ok _ _ w p w) by done.
  destruct (tk_data p) as [iv|]; [|done].
  destruct (ws_findOne_uuid_dec w (iv_workspaceUUID iv)) as [(r & Hf & Hr & _)|(Hf & _)];
    rewrite (bind_ok _ _ _ _ _ Hf); [|done].
  rewrite (bind_ok _ _ w _ w) by done. rewrite (bind_ok _ _ _ _ _ Hf). unfold bind at 1, t_save. simpl.
  destruct (r_save _ _) as [[m t]|] eqn:Hs; [|done].
  pose proof (member_entity_saved _ _ _ _ _ Hs) as (Hw & _ & Hro).
  eapply (preserves_run (λ w : W, db_ok (w_loc w))); [|apply surjective_pairing|].
  - pres.
  - eapply (db_ok_ms_save _ _ m t Hok); [rewrite Hro; by right|by exists r|exact Hs].
Qed.

Lemma pres_getAllWorkspaces (P : DB Tw Tm Ta → Prop) u :
  preserves (λ w : W, P (w_loc w)) (getAllWorkspaces u).
Proof. unfold getAllWorkspaces. pose proof @pres_reply. pres. Qed.

Lemma pres_checkEligibility (P : W → Prop) u : preserves P (checkEligibility u).
Proof. unfold checkEligibility. pose proof @pres_reply. pres. Qed.
End manage_props.

(** ** Examples *)
Lemma createWorkspace_atomic_witness :
  ∃ dto w', createWorkspace (demo_profile "ivan") demo_create demo_world = (Ok dto, w') ∧
    ws_status (wd_ws dto) = READY.
Proof.
  destruct (createWorkspace (demo_profile "ivan") demo_create demo_world) as [r w'] eqn:Hrun.
  pose proof (createWorkspace_atomic _ _ _ _ _ demo_world_ok Hrun) as H.
  assert (is_ok r = true) as Hr.
  { change r with ((r, w').1). rewrite <- Hrun. vm_compute. reflexivity. }
  destruct r as [dto|e]; [|discriminate Hr]. exists dto, w'. split; [reflexivity|]. apply H.
Defined.

Lemma isUserMemberOf_correct_witness :
  ∃ v, isUserMemberOf "mark" "ws-1" demo_world = (v, demo_world) ∧ is_ok v = true.
Proof.
  destruct (isUserMemberOf_correct demo_world "mark" "ws-1" demo_world_ok) as (v & Hv & _).
  exists v. split; [done|]. change v with ((v, demo_world).1). rewrite <- Hv. vm_compute. reflexivity.
Defined.

Definition demo_update : UpdateDTO :=
  MkUpdate (Some 1) (Some "renamed") None (Some ["olga"; "ivan"]) (Some "key").

Lemma updateWorkspace_authorised_witness :
  ∃ s msg, updateWorkspace "mark" demo_update demo_world = (Throw (HttpException s msg), demo_world).
Proof.
  apply (updateWorkspace_authorised "mark" demo_update demo_world demo_world_ok).
  unfold mss. rewrite list_r_rows. simpl. intros m Hm _ Hu.
  repeat (apply elem_of_cons in Hm as [->|Hm]); [done|done|by apply elem_of_nil in Hm].
Defined.

Lemma updateWorkspace_members_witness :
  ∃ w', updateWorkspace "olga" demo_update demo_world = (Ok tt, w') ∧
    ∀ m, m ∈ mss (w_loc w') ↔
      m ∈ mss (w_loc demo_world) ∧ (ms_workspaceId m = 1 → ms_userId m ∈ ["olga"; "ivan"]).
Proof.
  destruct (updateWorkspace "olga" demo_update demo_world) as [r w'] eqn:Hrun.
  assert (r = Ok tt) as ->.
  { change r with ((r, w').1). rewrite <- Hrun. vm_compute. reflexivity. }
  exists w'. split; [done|].
  destruct (updateWorkspace_members "olga" demo_update 1 ["olga"; "ivan"] demo_world w' demo_world_ok
    eq_refl eq_refl Hrun) as (ws & es & _ & _ & _ & _ & Hm & _). exact Hm.
Defined.

Lemma demo_ws_in : demo_ws ∈ wss (w_loc demo_world).
Proof. unfold wss. rewrite list_r_rows. by left. Qed.

Definition demo_leave : UpdateDTO := MkUpdate (Some 1) (Some "renamed") None (Some ["mark"]) (Some "key").
Lemma updateWorkspace_self_removal_witness :
  ∃ w', updateWorkspace "olga" demo_leave demo_world = (Throw (HttpException 403 "NO_WORKSPACE_MEMBERSHIP"), w') ∧
    (∀ x, x ∈ mss (w_loc w') ↔ x ∈ mss (w_loc demo_world) ∧ (ms_workspaceId x = 1 → ms_userId x ∈ ["mark"])) ∧
    w_out w' ≠ [].
Proof.
  destruct (updateWorkspace "olga" demo_leave demo_world) as [r w'] eqn:Hrun.
  assert (∃ m, m ∈ mss (w_loc demo_world) ∧ ms_workspaceId m = 1 ∧ ms_userId m = "olga" ∧ lt_undef (roleLevels (ms_role m)) 1 = false)
    as (m & Hm & Hw & Hu & Hrole).
  { unfold mss. rewrite list_r_rows. eexists. split; [by left|]. by split_and!. }
  destruct (updateWorkspace_self_removal "olga" demo_leave 1 ["mark"] m demo_world r w' demo_world_ok
    eq_refl eq_refl ltac:(set_solver) Hm Hw Hu Hrole ltac:(by vm_compute) Hrun)
    as [(-> & _)|(-> & _ & Hrows & ws & removed & es & _ & _ & Hrem & Ho & Hes)].
  - exfalso. apply (f_equal fst) in Hrun. vm_compute in Hrun. discriminate Hrun.
  - exists w'. split; [reflexivity|]. split; [exact Hrows|]. rewrite Ho. intros He%app_eq_nil. destruct He as [_ ->].
    apply Forall2_nil_inv_r in Hes as ->.
    assert ("olga" ∈ @nil string) as Habs by (apply Hrem; split; [by exists m|set_solver]).
    by apply elem_of_nil in Habs.
Defined.
