(* ===== verification/ManageDelete.v ===== *)
(** Properties of deletion ([manage.service.ts]: [deleteWorkspace],
    [clearCacheOnDelete], [deleteOwnedWorkspaces]). *)
From S2P Require Import Prelude JS Messages Keys Interfaces Validation Entities Tokens Fixtures Invite Manage ManageUpdate.
From Stdlib Require Import Lia.

Section delete_props.
Context {C Tw Tm Ta : Type} `{!Cache C}.
Context `{!Repo Tw WorkspaceE Workspace, !Repo Tm MembershipE Membership,
          !Repo Ta AccessCodeE AccessCode}.
Context `{!RepoLaws Tw WorkspaceE Workspace, !RepoLaws Tm MembershipE Membership,
          !RepoLaws Ta AccessCodeE AccessCode}.
Context `{!Random, !JWT, !Secret, !Env, !Peers}.
Abbreviation W := (world C (DB Tw Tm Ta)).
Implicit Types w : W.

(** *** Deletion *)

(** A presence after its workspace's deletion. *)
Definition cleared (wsUuid : string) (p : CachedPresence) : CachedPresence :=
  match ofind (λ s, bool_decide (s_wsUuid s = Some wsUuid)) p with
  | Some (sid, s) => if truthy sid then oset sid (session_without_ws s) p else p
  | None => p
  end.

Lemma clear_loop `{!CacheLaws C} wsUuid (c0 : C) l w :
  NoDup l → (∀ u, u ∈ l → colon_free u) →
  (∀ u, u ∈ l → presence_in (w_cache w) u = presence_in c0 u) →
  ∃ w' es, forM (λ '(uid, presence),
      match presence with Some p => clear_presence wsUuid uid p | None => ret tt end)
      (zip l (presence_in c0 <$> l)) w = (Ok tt, w') ∧
    w_loc w' = w_loc w ∧ w_out w' = w_out w ++ es ∧
    (∀ u, u ∈ l → presence_in (w_cache w') u = cleared wsUuid <$> presence_in c0 u) ∧
    (∀ u, u ∉ l → colon_free u → presence_in (w_cache w') u = presence_in (w_cache w) u).
Proof.
  revert w. induction l as [|u l IH]; intros w Hnd Hcf Hc.
  { exists w, []. rewrite app_nil_r. split_and!; try done. by intros ? ?%elem_of_nil. }
  apply NoDup_cons in Hnd as [Hu Hnd].
  assert (colon_free u) as Hcu by (apply Hcf; by left).
  assert (∃ w1 es1, (match presence_in c0 u with Some p => clear_presence wsUuid u p | None => ret tt end) w
      = (Ok tt, w1) ∧ w_loc w1 = w_loc w ∧ w_out w1 = w_out w ++ es1 ∧
      presence_in (w_cache w1) u = cleared wsUuid <$> presence_in c0 u ∧
      ∀ v, v ≠ u → colon_free v → presence_in (w_cache w1) v = presence_in (w_cache w) v)
    as (w1 & es1 & Hrun & Hl1 & Ho1 & Hp1 & Hf1).
  { assert (presence_in (w_cache w) u = presence_in c0 u) as Hpu by (apply Hc; by left).
    destruct (presence_in c0 u) as [p|] eqn:Hp.
    2:{ exists w, []. rewrite app_nil_r. simpl. done. }
    unfold clear_presence, cleared. destruct (ofind _ p) as [[sid s]|] eqn:Hof.
    2:{ exists w, []. rewrite app_nil_r. simpl. rewrite Hof. done. }
    destruct (truthy sid) eqn:Htr.
    2:{ exists w, []. rewrite app_nil_r. simpl. rewrite Hof, Htr. done. }
    eexists _, _. split; [reflexivity|]. simpl. split_and!; [done|done| |].
    - rewrite presence_in_set_eq, Hof, Htr. done.
    - intros v Hv Hcv. rewrite presence_in_set_ne by key_neq. by rewrite presence_in_del_ne by key_neq. }
  destruct (IH w1 Hnd) as (w' & es & Hrun' & Hl' & Ho' & Hp' & Hf').
  { intros v Hv. apply Hcf. by right. }
  { intros v Hv. rewrite Hf1; [apply Hc; by right|set_solver|apply Hcf; by right]. }
  exists w', (es1 ++ es). cbn [fmap list_fmap zip zip_with forM].
  split; [by mstep by exact Hrun|]. rewrite Hl', Ho', Ho1, app_assoc. split_and!; [done|done| |].
  - intros v [->|Hv]%elem_of_cons; [rewrite Hf' by done; done|by apply Hp'].
  - intros v [Hne Hv]%not_elem_of_cons Hcv. rewrite Hf' by done. by apply Hf1.
Qed.

Lemma clearCacheOnDelete_run `{!CacheLaws C} l wsUuid w :
  NoDup l → (∀ u, u ∈ l → colon_free u) →
  ∃ w' es, clearCacheOnDelete l wsUuid w = (Ok tt, w') ∧ w_loc w' = w_loc w ∧
    w_out w' = w_out w ++ es ∧ workspace_in (w_cache w') wsUuid = None ∧
    (∀ u, u ∈ l → presence_in (w_cache w') u = cleared wsUuid <$> presence_in (w_cache w) u).
Proof.
  intros Hnd Hcf. unfold clearCacheOnDelete.
  mstep by (apply (mapM_reads _ (λ uid w, presence_in (w_cache w) uid)); done).
  destruct (clear_loop wsUuid (w_cache w) l w Hnd Hcf) as (w1 & es & Hrun & Hl & Ho & Hp & _); [done|].
  mstep by exact Hrun. eexists _, es. split; [done|]. simpl. split_and!; [done|done| |].
  - by rewrite workspace_in_del_eq.
  - intros u Hu. rewrite presence_in_del_ne by key_neq. by apply Hp.
Qed.

(** The tables after the deletion of the workspace [r]. *)
Definition deleted_from (d : DB Tw Tm Ta) (r : Workspace) (d' : DB Tw Tm Ta) : Prop :=
  (∀ x, x ∈ wss d' ↔ x ∈ wss d ∧ ws_id x ≠ ws_id r) ∧
  (∀ m, m ∈ mss d' ↔ m ∈ mss d ∧ ms_workspaceId m ≠ ws_id r) ∧
  db_ac d' = db_ac d.

(** The two deletions of the transaction, on a well-formed database. *)
Definition delete_rows (wid : Z) (uuid : string) : M W unit :=
  (t_delete (T:=Tm) (λ m, bool_decide (ms_workspaceId m = wid)) ;;;
   t_delete (T:=Tw) (λ r, bool_decide (ws_uuid r = uuid)))%mon.

Lemma delete_rows_ok r w w' :
  db_ok (w_loc w) → r ∈ wss (w_loc w) →
  delete_rows (ws_id r) (ws_uuid r) w = (Ok tt, w') →
  deleted_from (w_loc w) r (w_loc w') ∧ db_ok (w_loc w') ∧ w_cache w' = w_cache w ∧ w_out w' = w_out w.
Proof.
  intros Hok Hr Hrun. unfold delete_rows in Hrun. minv Hrun. unfold t_delete in Hm, Hrun.
  destruct (r_delete _ (tb_get (w_loc w))) as [tm|] eqn:Hdm; [|done]. injection Hm as <-.
  destruct (r_delete _ (tb_get (w_loc (set_loc _ w)))) as [tw|] eqn:Hdw; [|done]. injection Hrun as <-.
  simpl in Hdm, Hdw. pose proof (db_ok_ms_delete _ _ _ Hok Hdm) as Hok1.
  assert (∀ m, m ∈ r_rows tm ↔ m ∈ mss (w_loc w) ∧ ms_workspaceId m ≠ ws_id r) as Hms.
  { intros m. rewrite (elem_r_delete _ _ _ m Hdm). by rewrite bool_decide_eq_false. }
  split_and!; try done.
  - split_and!; [|exact Hms|done]. intros x. unfold wss at 1. simpl.
    rewrite (elem_r_delete _ _ _ x Hdw), bool_decide_eq_false. fold (wss (w_loc w)).
    split; intros [Hx Hne]; split; try done; intros Heq; apply Hne.
    + by rewrite (ok_ws_id _ Hok x r Hx Hr Heq).
    + by apply (ok_ws_uuid _ Hok).
  - apply (db_ok_ws_delete _ _ tw Hok1 Hdw). simpl. intros m x Hm Hx Heq.
    apply bool_decide_eq_false. intros Huu. apply Hms in Hm as [_ Hm]. apply Hm.
    rewrite <- Heq. by apply (ok_ws_uuid _ Hok).
Qed.

Lemma ok_delete_rows r w :
  db_ok (w_loc w) → r ∈ wss (w_loc w) →
  db_ok (w_loc (transact (delete_rows (ws_id r) (ws_uuid r)) w).2).
Proof.
  intros Hok Hr. destruct (transact _ w) as [[[]|e] w'] eqn:Hrun; simpl.
  - apply transact_ok, delete_rows_ok in Hrun; naive_solver.
  - apply transact_throw in Hrun. by rewrite Hrun.
Qed.

Lemma pres_loc_clearCache (P : DB Tw Tm Ta → Prop) l u :
  preserves (λ w : W, P (w_loc w)) (clearCacheOnDelete l u).
Proof. unfold clearCacheOnDelete, clear_presence. pres. Qed.

(** Past its guards, [deleteWorkspace] deletes, clears the cache and tells
    the provisioner and the other services. *)
Definition delete_tail (r : Workspace) : M W unit :=
  (ms <- ms_find (ws_id r) ;;
   let members := ms_userId <$> ms in
   transact (delete_rows (ws_id r) (ws_uuid r)) ;;;
   clearCacheOnDelete members (ws_uuid r) ;;;
   emit (Http "DELETE" ("http://provisioner/api/delete?uuid=" +:+ ws_uuid r)) ;;;
   emit (Redis "workspace.deleted" None (WorkspaceDeleted (ws_uuid r) members)))%mon.

Lemma deleteWorkspace_cases uid o w :
  db_ok (w_loc w) →
  (∃ s msg, deleteWorkspace uid o w = (Throw (HttpException s msg), w)) ∧
    (∀ r m, o = Some (ws_uuid r) → r ∈ wss (w_loc w) → m ∈ mss (w_loc w) →
       ms_workspaceId m = ws_id r → ms_userId m = uid → ms_role m ≠ "owner") ∨
  (∃ r m, o = Some (ws_uuid r) ∧ r ∈ wss (w_loc w) ∧ m ∈ mss (w_loc w) ∧
     ms_workspaceId m = ws_id r ∧ ms_userId m = uid ∧ ms_role m = "owner" ∧
     deleteWorkspace uid o w = delete_tail r w).
Proof.
  intros Hok. unfold deleteWorkspace. destruct o as [uuid|]; [|left; eauto].
  destruct (ws_findOne_uuid_dec w uuid) as [(r & Hf & Hr & <-)|(Hf & Hno)];
    rewrite (bind_ok _ _ _ _ _ Hf).
  2:{ left. split; [eauto|]. intros r m ? Hr. simplify_eq. by destruct (Hno r Hr). }
  assert (∀ x, x ∈ wss (w_loc w) → ws_uuid r = ws_uuid x → x = r) as Huniq.
  { intros x Hx Heq. apply (ok_ws_id _ Hok); [done..|]. by apply (ok_ws_uuid _ Hok). }
  destruct (ms_findOne_dec w (ws_id r) uid Hok) as [(m & Hg & Hm & Hw & Hu)|(Hg & Hno)];
    rewrite (bind_ok _ _ _ _ _ Hg).
  2:{ left. split; [eauto|]. intros x m Hx Hxin Hm Hw Hu _. simplify_eq.
      rewrite (Huniq x) in Hw by congruence. by destruct (Hno m Hm Hw). }
  pose proof (known_role_level _ (ok_role _ Hok m Hm)) as Hlev.
  destruct (lt_undef _ _) eqn:Hlt; [left|right].
  - split; [eauto|]. intros x m' Hx Hxin Hm' Hw' Hu' Hro. simplify_eq.
    rewrite (Huniq x) in Hw' by congruence.
    rewrite (ok_ms_key _ Hok m' m Hm' Hm) in Hro by congruence. naive_solver.
  - exists r, m. split_and!; try done. by apply Hlev.
Qed.

Lemma ok_deleteWorkspace uid o : preserves (λ w : W, db_ok (w_loc w)) (deleteWorkspace uid o).
Proof.
  intros w Hok. destruct (deleteWorkspace_cases uid o w Hok)
    as [[(s & msg & ->) _]|(r & m & _ & Hr & _ & _ & _ & _ & ->)]; [done|].
  unfold delete_tail. rewrite (bind_ok _ _ w _ w) by done. cbv zeta. unfold bind at 1.
  pose proof (ok_delete_rows r w Hok Hr) as Hok1.
  destruct (transact _ w) as [[[]|e] w1]; simpl in Hok1; [|done].
  eapply (preserves_run (λ w : W, db_ok (w_loc w))); [|apply surjective_pairing|done].
  pose proof pres_loc_clearCache. pres.
Qed.

(** The members of a workspace, once each. *)
Lemma members_NoDup w wid : db_ok (w_loc w) →
  NoDup (ms_userId <$> r_find (λ m, bool_decide (ms_workspaceId m = wid)) (db_ms (w_loc w))).
Proof.
  intros Hok. apply NoDup_fmap_2_strong.
  - intros m m'. rewrite !elem_r_find, !bool_decide_eq_true. intros [Hm Hw] [Hm' Hw'] Heq.
    apply (ok_ms_key _ Hok); [done|done|congruence|done].
  - rewrite r_find_rows. by apply NoDup_lfilter, (ok_ms_nodup _ Hok).
Qed.

(** What a deletion that returns has done. *)
Lemma deleteWorkspace_ok `{!CacheLaws C} uid uuid w w' :
  db_ok (w_loc w) → (∀ m, m ∈ mss (w_loc w) → colon_free (ms_userId m)) →
  deleteWorkspace uid (Some uuid) w = (Ok tt, w') →
  ∃ ws members es,
     ws ∈ wss (w_loc w) ∧ ws_uuid ws = uuid ∧ deleted_from (w_loc w) ws (w_loc w') ∧
     db_ok (w_loc w') ∧ workspace_in (w_cache w') uuid = None ∧
     (∀ u, u ∈ members ↔ is_member (w_loc w) uuid u) ∧
     (∀ u, u ∈ members → presence_in (w_cache w') u = cleared uuid <$> presence_in (w_cache w) u) ∧
     w_out w' = w_out w ++ es ++
       [Http "DELETE" ("http://provisioner/api/delete?uuid=" +:+ uuid);
        Redis "workspace.deleted" None (WorkspaceDeleted uuid members)].
Proof.
  intros Hok Hcf Hrun.
  destruct (deleteWorkspace_cases uid (Some uuid) w Hok)
    as [[(s & msg & Heq) _]|(ws & m & Huu & Hws & Hm & Hw & Hu & Hro & Heq)];
    rewrite Heq in Hrun; [done|].
  simplify_eq. unfold delete_tail in Hrun. rewrite (bind_ok _ _ w _ w) in Hrun by done.
  cbv zeta in Hrun.
  minv Hrun. apply transact_ok, delete_rows_ok in Hm0 as (Hdel & Hok' & Hc & Ho); [|done..].
  set (l := ms_userId <$> _) in *.
  assert (∀ u, u ∈ l ↔ is_member (w_loc w) (ws_uuid ws) u) as Hl.
  { intros u. rewrite (is_member_iff w _ u ws) by done. unfold l. rewrite list_elem_of_fmap.
    setoid_rewrite elem_r_find. setoid_rewrite bool_decide_eq_true. naive_solver. }
  destruct (clearCacheOnDelete_run l (ws_uuid ws) s) as (w1 & es & Hrun1 & Hl1 & Ho1 & Hw1 & Hp1).
  { by apply members_NoDup. }
  { intros u (_ & m' & _ & _ & Hm' & _ & <-)%Hl. by apply Hcf. }
  rewrite (bind_ok _ _ _ _ _ Hrun1) in Hrun. injection Hrun as <-. simpl.
  exists ws, l, es. rewrite Hl1, Ho1, Ho, <- Hc. split_and!; try done.
  by rewrite <- !app_assoc.
Qed.

(** C18: deleting a workspace.  For anyone but an owner it is refused and
    nothing changes.  When it returns, the workspace and all its memberships
    are gone and no other row is, its cached state is dropped, in each
    member's presence the session that was attached to it is detached, and
    the other services are told with the list of former members.  (Member
    ids without a colon, so that their cache keys do not clash.) *)
Theorem deleteWorkspace_complete `{!CacheLaws C} uid uuid w r w' :
  db_ok (w_loc w) →
  (∀ m, m ∈ mss (w_loc w) → colon_free (ms_userId m)) →
  deleteWorkspace uid (Some uuid) w = (r, w') →
  (¬ (∃ ws m, ws ∈ wss (w_loc w) ∧ ws_uuid ws = uuid ∧ m ∈ mss (w_loc w) ∧
       ms_workspaceId m = ws_id ws ∧ ms_userId m = uid ∧ ms_role m = "owner") →
   w' = w ∧ ∃ s msg, r = Throw (HttpException s msg)) ∧
  (r = Ok tt → ∃ ws members es,
     ws ∈ wss (w_loc w) ∧ ws_uuid ws = uuid ∧ deleted_from (w_loc w) ws (w_loc w') ∧
     db_ok (w_loc w') ∧ workspace_in (w_cache w') uuid = None ∧
     (∀ u, u ∈ members ↔ is_member (w_loc w) uuid u) ∧
     (∀ u, u ∈ members → presence_in (w_cache w') u = cleared uuid <$> presence_in (w_cache w) u) ∧
     w_out w' = w_out w ++ es ++
       [Http "DELETE" ("http://provisioner/api/delete?uuid=" +:+ uuid);
        Redis "workspace.deleted" None (WorkspaceDeleted uuid members)]).
Proof.
  intros Hok Hcf Hrun. split; [|intros ->; by eapply deleteWorkspace_ok].
  intros Hno. destruct (deleteWorkspace_cases uid (Some uuid) w Hok)
    as [[(s & msg & Heq) _]|(ws & m & Huu & Hws & Hm & Hw & Hu & Hro & _)].
  - rewrite Heq in Hrun. simplify_eq. eauto.
  - simplify_eq. destruct Hno. eauto 10.
Qed.

(** The membership cache is not touched. *)
Lemma frame_membership_clear `{!CacheLaws C} u x l uuid :
  preserves (λ w : W, membership_in (w_cache w) u = x) (clearCacheOnDelete l uuid).
Proof.
  unfold clearCacheOnDelete, clear_presence.
  assert (∀ k v t, k ≠ CACHEKEY_MEMBERSHIP u →
    preserves (λ w : W, membership_in (w_cache w) u = x) (cache_set k v t)) as Hset.
  { intros k v t Hk w Hw. simpl. by rewrite membership_in_set_ne. }
  assert (∀ k, k ≠ CACHEKEY_MEMBERSHIP u →
    preserves (λ w : W, membership_in (w_cache w) u = x) (cache_del k)) as Hdel.
  { intros k Hk w Hw. simpl. by rewrite membership_in_del_ne. }
  pres; first [apply Hset; key_neq | apply Hdel; key_neq | by intros w].
Qed.

Lemma frame_membership_delete `{!CacheLaws C} u x uid o :
  preserves (λ w : W, membership_in (w_cache w) u = x) (deleteWorkspace uid o).
Proof.
  unfold deleteWorkspace. pres; try (by intros w).
  - apply (preserves_transact_cache (λ c, membership_in c u = x)).
    apply preserves_bind; intros; apply (pres_cache_t_delete (λ c, membership_in c u = x)).
  - apply frame_membership_clear.
Qed.

(** *** An account's workspaces *)
Lemma user_workspaces_run uid w :
  ∃ l, user_workspaces uid w = (Ok l, w) ∧
    (∀ x, x ∈ l → x.1 ∈ wss (w_loc w) ∧
       (∀ m, m ∈ x.2 ↔ m ∈ mss (w_loc w) ∧ ms_workspaceId m = ws_id x.1)) ∧
    (∀ r m, r ∈ wss (w_loc w) → m ∈ mss (w_loc w) → ms_workspaceId m = ws_id r →
       ms_userId m = uid → ∃ x, x ∈ l ∧ x.1 = r).
Proof.
  eexists. split; [done|]. split.
  - intros x (r & -> & Hr)%list_elem_of_fmap. apply elem_r_find in Hr as [Hr _]. simpl.
    split; [done|]. intros m. rewrite elem_r_find. by rewrite bool_decide_eq_true.
  - intros r m Hr Hm Hw Hu. exists (r, r_find (λ m, bool_decide (ms_workspaceId m = ws_id r)) (db_ms (w_loc w))).
    split; [|reflexivity].
    apply list_elem_of_fmap. eexists. split; [done|]. apply elem_r_find. split; [done|].
    apply List.existsb_exists. exists m. rewrite <- list_elem_of_In, elem_r_find.
    by rewrite !bool_decide_true.
Qed.

Lemma clearCacheOnDelete_total l uuid w : ∃ w', clearCacheOnDelete l uuid w = (Ok tt, w').
Proof.
  unfold clearCacheOnDelete.
  mstep by (apply (mapM_reads _ (λ uid w, presence_in (w_cache w) uid)); done).
  match goal with |- context [bind ?m _ w] => assert (∃ w1, m w = (Ok tt, w1)) as [w1 Hr] end.
  { apply forM_total. intros [u [p|]] w'; [|by eexists]. unfold clear_presence.
    destruct (ofind _ _) as [[? ?]|]; [|by eexists]. destruct (truthy _); by eexists. }
  mstep by exact Hr. by eexists.
Qed.

(** An owner's deletion goes through when the database does. *)
Lemma delete_run uid w r m :
  (∀ p (t : Tm), is_Some (r_delete p t)) → (∀ p (t : Tw), is_Some (r_delete p t)) →
  db_ok (w_loc w) → r ∈ wss (w_loc w) → m ∈ mss (w_loc w) → ms_workspaceId m = ws_id r →
  ms_userId m = uid → ms_role m = "owner" →
  ∃ w', deleteWorkspace uid (Some (ws_uuid r)) w = (Ok tt, w') ∧
    deleted_from (w_loc w) r (w_loc w') ∧ db_ok (w_loc w').
Proof.
  intros Htm Htw Hok Hr Hm Hw Hu Hro.
  destruct (deleteWorkspace_cases uid (Some (ws_uuid r)) w Hok)
    as [[_ Hno]|(ws & m' & Huu & Hws & _ & _ & _ & _ & ->)]; [by destruct (Hno r m)|].
  assert (ws = r) as ->.
  { apply (ok_ws_id _ Hok); [done..|]. apply (ok_ws_uuid _ Hok); [done..|congruence]. }
  unfold delete_tail. mstep by done. cbv zeta.
  assert (∃ w1, delete_rows (ws_id r) (ws_uuid r) w = (Ok tt, w1)) as [w1 Hd].
  { unfold delete_rows. destruct (Htm (λ m, bool_decide (ms_workspaceId m = ws_id r)) (db_ms (w_loc w))) as [tm Hdm].
    mstep by (unfold t_delete; simpl; rewrite Hdm; done).
    destruct (Htw (λ x, bool_decide (ws_uuid x = ws_uuid r)) (db_ws (w_loc w))) as [tw Hdw].
    unfold t_delete. simpl. rewrite Hdw. by eexists. }
  mstep by (unfold transact; rewrite Hd; done).
  apply delete_rows_ok in Hd as (Hdel & Hok1 & _); [|done..].
  set (l := ms_userId <$> _).
  destruct (clearCacheOnDelete_total l (ws_uuid r) w1) as [w2 Hc].
  mstep by exact Hc. eexists. split; [done|]. simpl.
  assert (w_loc w2 = w_loc w1) as ->.
  { by apply (preserves_run _ _ _ _ _ (pres_loc_clearCache (λ d, d = w_loc w1) _ _) Hc). }
  done.
Qed.

(** The deletions of [deleteOwnedWorkspaces], one of whose workspaces may
    have been deleted already. *)
Lemma owned_step uid (x : WsMs) w :
  (∀ p (t : Tm), is_Some (r_delete p t)) → (∀ p (t : Tw), is_Some (r_delete p t)) →
  db_ok (w_loc w) →
  (x.1 ∈ wss (w_loc w) ∧ (∃ m, m ∈ mss (w_loc w) ∧ ms_workspaceId m = ws_id x.1 ∧
     ms_userId m = uid ∧ ms_role m = "owner")) ∨
  (∀ r, r ∈ wss (w_loc w) → ws_uuid r ≠ ws_uuid x.1) →
  ∃ v w1, deleteWorkspace uid (Some (ws_uuid x.1)) w = (v, w1) ∧ db_ok (w_loc w1) ∧
    (∀ r, r ∈ wss (w_loc w1) ↔ r ∈ wss (w_loc w) ∧ ws_uuid r ≠ ws_uuid x.1) ∧
    (∀ m, m ∈ mss (w_loc w1) ↔ m ∈ mss (w_loc w) ∧
       (x.1 ∈ wss (w_loc w) → ms_workspaceId m ≠ ws_id x.1)).
Proof.
  intros Htm Htw Hok [(Hr & m & Hm & Hw & Hu & Hro)|Hno].
  - destruct (delete_run uid w x.1 m) as (w1 & Hrun & (Hws & Hms & _) & Hok1); try done.
    exists (Ok tt), w1. split_and!; try done.
    + intros r. rewrite Hws. split; intros [Hin Hne]; (split; [done|]); intros Heq; apply Hne.
      * by apply (ok_ws_uuid _ Hok).
      * by rewrite (ok_ws_id _ Hok r x.1 Hin Hr Heq).
    + intros m'. rewrite Hms. naive_solver.
  - eexists _, w. split_and!.
    + unfold deleteWorkspace. mstep by (by apply ws_findOne_uuid_none). done.
    + done.
    + naive_solver.
    + intros m. split; [|by intros []]. intros Hm. split; [done|]. intros Hx. by destruct (Hno _ Hx).
Qed.

Lemma owned_loop uid l w :
  (∀ p (t : Tm), is_Some (r_delete p t)) → (∀ p (t : Tw), is_Some (r_delete p t)) →
  db_ok (w_loc w) →
  (∀ x : WsMs, x ∈ l →
    (x.1 ∈ wss (w_loc w) ∧ (∃ m, m ∈ mss (w_loc w) ∧ ms_workspaceId m = ws_id x.1 ∧
       ms_userId m = uid ∧ ms_role m = "owner")) ∨
    (∀ r, r ∈ wss (w_loc w) → ws_uuid r ≠ ws_uuid x.1)) →
  ∃ rs w', mapM (λ x, settle (deleteWorkspace uid (Some (ws_uuid x.1)))) l w = (Ok rs, w') ∧
    db_ok (w_loc w') ∧
    (∀ r, r ∈ wss (w_loc w') ↔ r ∈ wss (w_loc w) ∧ ∀ x, x ∈ l → ws_uuid r ≠ ws_uuid x.1) ∧
    (∀ m, m ∈ mss (w_loc w') → m ∈ mss (w_loc w)).
Proof.
  intros Htm Htw. revert w. induction l as [|x l IH]; intros w Hok Hown.
  { eexists [], w. split_and!; try done. set_solver. }
  destruct (owned_step uid x w Htm Htw Hok) as (v & w1 & Hrun & Hok1 & Hws1 & Hms1).
  { apply Hown. by left. }
  destruct (IH w1 Hok1) as (rs & w' & Hrun' & Hok' & Hws' & Hms').
  { intros y Hy. destruct (decide (ws_uuid y.1 = ws_uuid x.1)) as [Heq|Hne].
    - right. intros r [_ Hr]%Hws1. by rewrite Heq.
    - destruct (Hown y) as [(Hyin & m & Hm & Hw & Hu & Hro)|Hno]; [by right| |].
      + left. rewrite Hws1. split; [done|]. exists m. rewrite Hms1. split_and!; try done.
        intros Hx Heq. apply Hne. by rewrite (ok_ws_id _ Hok y.1 x.1) by congruence || done.
      + right. intros r [Hr _]%Hws1. by apply Hno. }
  eexists _, w'. split_and!; [|done| |].
  - cbn [mapM]. mstep by (unfold settle; rewrite Hrun; done). mstep by exact Hrun'. done.
  - intros r. rewrite Hws', Hws1. setoid_rewrite elem_of_cons. naive_solver.
  - intros m Hm. by apply Hms', Hms1 in Hm as [? _].
Qed.

Lemma pres_deleteOwned_notify (P : DB Tw Tm Ta → Prop) uid (l : list WsMs) :
  preserves (λ w : W, P (w_loc w)) (forM (λ x,
    notifyMembers (ws_uuid x.1)
      (List.filter (λ u, bool_decide (u ≠ uid)) (js_set (ws_userIds x))) ;;;
    emit (Redis "workspace.members.modified" None (MembersModified (ws_uuid x.1) [] [uid])))%mon l).
Proof. pres. Qed.

Lemma ok_deleteOwnedWorkspaces uid :
  preserves (λ w : W, db_ok (w_loc w)) (deleteOwnedWorkspaces uid).
Proof.
  unfold deleteOwnedWorkspaces. pose proof ok_deleteWorkspace. pres.
  apply preserves_transact. intros w Hok. unfold t_delete.
  destruct (r_delete _ _) as [t|] eqn:Hd; [|done]. by apply (db_ok_ms_delete _ _ _ Hok Hd).
Qed.

(** closing an account.  When the database does not fail,
    [deleteOwnedWorkspaces] returns, no membership of the user is left
    anywhere, every workspace the user owned is gone, and every other
    workspace is still there. *)
Theorem deleteOwnedWorkspaces_complete uid w :
  db_ok (w_loc w) →
  (∀ p (t : Tm), is_Some (r_delete p t)) → (∀ p (t : Tw), is_Some (r_delete p t)) →
  ∃ w', deleteOwnedWorkspaces uid w = (Ok true, w') ∧ db_ok (w_loc w') ∧
    (∀ m, m ∈ mss (w_loc w') → m ∈ mss (w_loc w) ∧ ms_userId m ≠ uid) ∧
    (∀ r, r ∈ wss (w_loc w') ↔ r ∈ wss (w_loc w) ∧
       ¬ ∃ m, m ∈ mss (w_loc w) ∧ ms_workspaceId m = ws_id r ∧ ms_userId m = uid ∧ ms_role m = "owner").
Proof.
  intros Hok Htm Htw. unfold deleteOwnedWorkspaces.
  destruct (user_workspaces_run uid w) as (l & Hl & Hsound & Hcompl).
  mstep by exact Hl. cbv zeta.
  set (owned := List.filter (λ x : WsMs, has_role uid "owner" x.2) l).
  assert (∀ x, x ∈ owned ↔ x ∈ l ∧ ∃ m, m ∈ mss (w_loc w) ∧ ms_workspaceId m = ws_id x.1 ∧
    ms_userId m = uid ∧ ms_role m = "owner") as Howned.
  { intros x. unfold owned. rewrite elem_of_lfilter. split; intros [Hx Hp]; (split; [done|]); revert Hp;
      unfold has_role; rewrite List.existsb_exists; setoid_rewrite <- list_elem_of_In;
      setoid_rewrite (proj2 (Hsound x Hx)); setoid_rewrite andb_true_iff;
      setoid_rewrite bool_decide_eq_true; naive_solver. }
  destruct (owned_loop uid owned w Htm Htw Hok) as (rs & w1 & Hrun1 & Hok1 & Hws1 & Hms1).
  { intros x [Hx Hm]%Howned. left. split; [by apply Hsound|done]. }
  mstep by exact Hrun1.
  destruct (Htm (λ m, bool_decide (ms_userId m = uid)) (db_ms (w_loc w1))) as [t Ht].
  mstep by (unfold transact, t_delete; simpl; rewrite Ht; done).
  set (w2 := set_loc _ w1).
  match goal with |- context [bind ?m _ w2] => assert (∃ w3, m w2 = (Ok tt, w3)) as [w3 Hn] end.
  { apply forM_total. intros x w'. mstep by apply notifyMembers_run. by eexists. }
  mstep by exact Hn. exists w3. split; [done|].
  apply (preserves_run _ _ _ _ _ (pres_deleteOwned_notify (λ d, d = w_loc w2) uid _)) in Hn as ->; [|done].
  split; [by apply (db_ok_ms_delete _ _ _ Hok1 Ht)|]. split.
  - intros m. unfold mss. simpl. rewrite (elem_r_delete _ _ _ m Ht), bool_decide_eq_false.
    intros [Hm Hu]. split; [by apply Hms1|done].
  - intros r. change (wss (w_loc w2)) with (wss (w_loc w1)). rewrite Hws1. split.
    + intros [Hr Hno]. split; [done|]. intros (m & Hm & Hw & Hu & Hro).
      destruct (Hcompl r m) as (x & Hx & Heq); try done. apply (Hno x); [|by rewrite Heq].
      apply Howned. rewrite Heq. eauto 10.
    + intros [Hr Hno]. split; [done|]. intros x [Hx Hm]%Howned Huu. apply Hno.
      destruct (Hsound x Hx) as [Hxin _]. by rewrite (ok_ws_uuid _ Hok r x.1) by done.
Qed.
End delete_props.

(** ** Examples *)
Lemma deleteWorkspace_complete_witness :
  ∃ w', deleteWorkspace "olga" (Some "ws-1") demo_world = (Ok tt, w') ∧
    workspace_in (w_cache w') "ws-1" = None.
Proof.
  destruct (deleteWorkspace "olga" (Some "ws-1") demo_world) as [r w'] eqn:Hrun.
  assert (r = Ok tt) as ->.
  { change r with ((r, w').1). rewrite <- Hrun. vm_compute. reflexivity. }
  exists w'. split; [done|].
  destruct (deleteWorkspace_complete "olga" "ws-1" demo_world (Ok tt) w' demo_world_ok) as [_ H]; [|done|].
  - unfold mss. rewrite list_r_rows. simpl. intros m Hm.
    repeat (apply elem_of_cons in Hm as [->|Hm]); [done|done|by apply elem_of_nil in Hm].
  - destruct (H eq_refl) as (? & ? & ? & _ & _ & _ & _ & Hw & _). exact Hw.
Defined.

Lemma deleteOwnedWorkspaces_complete_witness :
  ∃ w', deleteOwnedWorkspaces "olga" demo_world = (Ok true, w') ∧
    ∀ m, m ∈ mss (w_loc w') → ms_userId m ≠ "olga".
Proof.
  destruct (deleteOwnedWorkspaces_complete "olga" demo_world demo_world_ok)
    as (w' & Hrun & _ & Hm & _); [by eexists|by eexists|].
  exists w'. split; [done|]. intros m Hin. by apply Hm.
Defined.
