(* ===== verification/Schema.v ===== *)
(** The workspace service's schema: the migrations
    ([workspace/src/migrations]) as statements with their meaning on a
    schema, the columns the entities declare ([workspace/src/common/model]),
    and that the two agree. *)
From S2P Require Import Prelude JS Messages Keys Interfaces Validation Entities Tokens Fixtures Invite Manage.
From Stdlib Require Import Lia.

(** ** Schemas *)
Inductive coltype :=
| Integer
| Varchar (n : option nat)
| Text
| Uuid
| Boolean
| Timestamptz.
Record column := MkCol { co_type : coltype; co_notnull : bool; co_default : option string }.
Inductive constr :=
| PrimaryKey (cols : list string)
| Unique (cols : list string)
| ForeignKey (cols : list string) (table : string) (refs : list string).
Record table := MkTable { ta_cols : gmap string column; ta_cons : gmap string constr }.
Record schema := MkSchema { sc_tables : gmap string table; sc_indexes : gmap string (string * list string) }.

#[global] Instance coltype_eq_dec : EqDecision coltype.
Proof. solve_decision. Defined.
#[global] Instance column_eq_dec : EqDecision column.
Proof. solve_decision. Defined.
#[global] Instance constr_eq_dec : EqDecision constr.
Proof. solve_decision. Defined.
#[global] Instance table_eq_dec : EqDecision table.
Proof. solve_decision. Defined.

Definition empty_schema : schema := MkSchema ∅ ∅.

(** ** Statements *)
Inductive stmt :=
| CreateTable (name : string) (cols : list (string * column)) (cs : list (string * constr))
| CreateIndex (name table : string) (cols : list string)
| AddConstraint (table name : string) (c : constr)
| AddColumn (table name : string) (c : column)
| DropConstraint (table name : string)
| DropColumn (table name : string)
| DropTable (name : string)
| DropIndex (name : string).

(** Whether a constraint of another table refers to this one. *)
Definition references (t : string) (c : constr) : bool :=
  match c with ForeignKey _ t' _ => bool_decide (t' = t) | _ => false end.
Definition referenced (t : string) (s : schema) : bool :=
  existsb (λ '(n, x), bool_decide (n ≠ t) && existsb (references t) (snd <$> map_to_list (ta_cons x)))
    (map_to_list (sc_tables s)).

Definition with_tables (f : gmap string table → gmap string table) (s : schema) : schema :=
  MkSchema (f (sc_tables s)) (sc_indexes s).
Definition with_indexes (f : gmap string (string * list string) → gmap string (string * list string)) (s : schema) : schema :=
  MkSchema (sc_tables s) (f (sc_indexes s)).

(** The effect of a statement, [None] when it fails.  A dropped table takes
    its indexes with it, and is not dropped while another refers to it. *)
Definition exec (q : stmt) (s : schema) : option schema :=
  match q with
  | CreateTable n cols cs =>
      match sc_tables s !! n with
      | Some _ => None
      | None => Some (with_tables <[n := MkTable (list_to_map cols) (list_to_map cs)]> s)
      end
  | CreateIndex i t cols =>
      match sc_indexes s !! i, sc_tables s !! t with
      | None, Some x =>
          if forallb (λ c, bool_decide (is_Some (ta_cols x !! c))) cols
          then Some (with_indexes <[i := (t, cols)]> s) else None
      | _, _ => None
      end
  | AddConstraint t n c =>
      match sc_tables s !! t with
      | Some x =>
          if bool_decide (is_Some (ta_cons x !! n)) then None
          else match c with
               | ForeignKey _ t' _ => if bool_decide (is_Some (sc_tables s !! t')) then
                   Some (with_tables <[t := MkTable (ta_cols x) (<[n := c]> (ta_cons x))]> s) else None
               | _ => Some (with_tables <[t := MkTable (ta_cols x) (<[n := c]> (ta_cons x))]> s)
               end
      | None => None
      end
  | AddColumn t n c =>
      match sc_tables s !! t with
      | Some x => if bool_decide (is_Some (ta_cols x !! n)) then None
                  else Some (with_tables <[t := MkTable (<[n := c]> (ta_cols x)) (ta_cons x)]> s)
      | None => None
      end
  | DropConstraint t n =>
      match sc_tables s !! t with
      | Some x => if bool_decide (is_Some (ta_cons x !! n))
                  then Some (with_tables <[t := MkTable (ta_cols x) (delete n (ta_cons x))]> s) else None
      | None => None
      end
  | DropColumn t n =>
      match sc_tables s !! t with
      | Some x => if bool_decide (is_Some (ta_cols x !! n))
                  then Some (with_tables <[t := MkTable (delete n (ta_cols x)) (ta_cons x)]> s) else None
      | None => None
      end
  | DropTable n =>
      match sc_tables s !! n with
      | Some _ => if referenced n s then None
                  else Some (MkSchema (delete n (sc_tables s))
                               (filter (λ x, x.2.1 ≠ n) (sc_indexes s)))
      | None => None
      end
  | DropIndex i =>
      match sc_indexes s !! i with
      | Some _ => Some (with_indexes (delete i) s)
      | None => None
      end
  end.

Fixpoint execs (qs : list stmt) (s : schema) : option schema :=
  match qs with
  | [] => Some s
  | q :: qs => match exec q s with Some s' => execs qs s' | None => None end
  end.

(** ** The migrations *)
Record Migration := MkMigration { up : list stmt; down : list stmt }.

Definition nn (t : coltype) : column := MkCol t true None.
Definition nn_default (t : coltype) (d : string) : column := MkCol t true (Some d).
Definition nullable_col (t : coltype) : column := MkCol t false None.

(** [SERIAL] is an integer with a sequence as its default. *)
Definition serial : column := nn_default Integer "nextval".

Definition InitSchema : Migration := {|
  up := [
    CreateTable "membership"
      [("workspace_id", nn Integer); ("user_id", nn (Varchar (Some 64%nat)));
       ("role", nn_default (Varchar (Some 25%nat)) "'member'"); ("joined_at", nn_default Timestamptz "now()")]
      [("PK_c812b1092cf66d72ddac549a6b4", PrimaryKey ["workspace_id"; "user_id"])];
    CreateIndex "IDX_2d427c9fcee4242d77174a9fcc" "membership" ["workspace_id"];
    CreateIndex "IDX_e9c72e8d29784031c96f5c6af8" "membership" ["user_id"];
    CreateTable "workspace"
      [("id", serial); ("uuid", nn_default Uuid "uuid_generate_v4()"); ("image", nn (Varchar (Some 50%nat)));
       ("name", nn (Varchar (Some 30%nat))); ("description", nn Text); ("status", nn (Varchar (Some 30%nat)));
       ("dedicated", nn Boolean); ("created_at", nn_default Timestamptz "now()")]
      [("UQ_ee78a3da1b84780b34a739d04ab", Unique ["uuid"]); ("PK_ca86b6f9b3be5fe26d307d09b49", PrimaryKey ["id"])];
    CreateTable "access_code"
      [("id", serial); ("code", nn (Varchar None)); ("uid", nn (Varchar (Some 64%nat)));
       ("uuid", nn (Varchar (Some 64%nat))); ("status", nn (Varchar None));
       ("used_at", nullable_col Timestamptz); ("expires_at", nullable_col Timestamptz)]
      [("UQ_f6519d3be9ac14e21c00e594a58", Unique ["code"]); ("PK_31c26435c0d26a2ce6bee4a763b", PrimaryKey ["id"])];
    AddConstraint "membership" "FK_2d427c9fcee4242d77174a9fccd" (ForeignKey ["workspace_id"] "workspace" ["id"])];
  down := [
    DropConstraint "membership" "FK_2d427c9fcee4242d77174a9fccd";
    DropTable "access_code";
    DropTable "workspace";
    DropIndex "IDX_e9c72e8d29784031c96f5c6af8";
    DropIndex "IDX_2d427c9fcee4242d77174a9fcc";
    DropTable "membership"] |}.

Definition V2 : Migration := {|
  up := [AddColumn "access_code" "ntfnId" (nullable_col (Varchar None))];
  down := [DropColumn "access_code" "ntfnId"] |}.

Definition migrations : list Migration := [InitSchema; V2].
Definition migrated : option schema := execs (concat (up <$> migrations)) empty_schema.
Definition migrated_schema : schema := default empty_schema migrated.

(** ** What the entities declare *)
Inductive ts_type := TsNumber | TsString | TsBoolean | TsDate.
Inductive decorator := Column | PrimaryColumn | PrimaryGeneratedColumn | CreateDateColumn.
(** A property with its decorator's options. *)
Record property := Prop_ {
  pr_name : string; pr_ts : ts_type; pr_deco : decorator;
  pr_column : option string;            (* name *)
  pr_type : option coltype;             (* type *)
  pr_length : option nat;
  pr_nullable : bool;
  pr_unique : bool;
  pr_default : option string;
  pr_generated : bool;                  (* @Generated('uuid') *)
  pr_index : bool;                      (* @Index() *)
}.

(** The type of a column without an explicit one follows the property's. *)
Definition column_type (p : property) : coltype :=
  match pr_type p with
  | Some t => t
  | None => match pr_ts p with
            | TsNumber => Integer | TsString => Varchar (pr_length p) | TsBoolean => Boolean | TsDate => Timestamptz
            end
  end.
Definition column_default (p : property) : option string :=
  match pr_deco p with
  | PrimaryGeneratedColumn => Some "nextval"
  | CreateDateColumn => Some "now()"
  | _ => if pr_generated p then Some "uuid_generate_v4()" else pr_default p
  end.
Definition column_name (p : property) : string := default (pr_name p) (pr_column p).
Definition is_primary (p : property) : bool :=
  match pr_deco p with PrimaryColumn | PrimaryGeneratedColumn => true | _ => false end.

Definition declared_columns (ps : list property) : gmap string column :=
  list_to_map ((λ p, (column_name p, MkCol (column_type p) (negb (pr_nullable p)) (column_default p))) <$> ps).
Definition declared_keys (ps : list property) : list constr :=
  PrimaryKey (column_name <$> List.filter is_primary ps) ::
  ((λ p, Unique [column_name p]) <$> List.filter pr_unique ps).
Definition declared_indexes (ps : list property) : list (list string) :=
  (λ p, [column_name p]) <$> List.filter pr_index ps.

Definition plain (n : string) (t : ts_type) (len : option nat) (nullable : bool) : property :=
  Prop_ n t Column None None len nullable false None false false.
Definition generated_id : property := Prop_ "id" TsNumber PrimaryGeneratedColumn None None None false false None false false.

Definition Workspace_properties : list property := [
  generated_id;
  Prop_ "uuid" TsString Column None (Some Uuid) None false true None true false;
  plain "image" TsString (Some 50%nat) false;
  plain "name" TsString (Some 30%nat) false;
  Prop_ "description" TsString Column None (Some Text) None false false None false false;
  plain "status" TsString (Some 30%nat) false;
  plain "dedicated" TsBoolean None false;
  Prop_ "createdAt" TsString CreateDateColumn (Some "created_at") (Some Timestamptz) None false false None false false].

Definition Membership_properties : list property := [
  Prop_ "workspaceId" TsNumber PrimaryColumn (Some "workspace_id") None None false false None false true;
  Prop_ "userId" TsString PrimaryColumn (Some "user_id") None (Some 64%nat) false false None false true;
  Prop_ "role" TsString Column None None (Some 25%nat) false false (Some "'member'") false false;
  Prop_ "joinedAt" TsString CreateDateColumn (Some "joined_at") (Some Timestamptz) None false false None false false].
(** [@ManyToOne(() => Workspace)] with [@JoinColumn({ name: 'workspace_id' })] *)
Definition Membership_workspace : constr := ForeignKey ["workspace_id"] "workspace" ["id"].

Definition AccessCode_properties : list property := [
  generated_id;
  Prop_ "code" TsString Column None None None false true None false false;
  plain "uid" TsString (Some 64%nat) false;
  plain "uuid" TsString (Some 64%nat) false;
  plain "status" TsString None false;
  plain "ntfnId" TsString None true;
  Prop_ "usedAt" TsDate Column (Some "used_at") (Some Timestamptz) None true false None false false;
  Prop_ "expiresAt" TsDate Column (Some "expires_at") (Some Timestamptz) None true false None false false].

(** The entities of the service, with their relations. *)
Definition entities : list (string * (list property * list constr)) := [
  ("workspace", (Workspace_properties, []));
  ("membership", (Membership_properties, [Membership_workspace]));
  ("access_code", (AccessCode_properties, []))].

(** The table has the declared columns, keys and relations, and no others. *)
Definition table_matches (t : table) (ps : list property) (rels : list constr) : bool :=
  bool_decide (ta_cols t = declared_columns ps) &&
  bool_decide ((map_to_list (ta_cons t)).*2 ≡ₚ declared_keys ps ++ rels).

Definition schema_matches (s : schema) : bool :=
  bool_decide (dom (sc_tables s) = list_to_set (entities.*1)) &&
  forallb (λ '(n, (ps, rels)),
    match sc_tables s !! n with
    | Some t => table_matches t ps rels &&
        bool_decide (List.map snd (List.filter (λ x, bool_decide (x.1 = n)) (snd <$> map_to_list (sc_indexes s)))
                     ≡ₚ declared_indexes ps)
    | None => false
    end) entities.

(** The migrations build the schema the entities declare: starting from
    an empty database they all succeed, and leave exactly the tables, columns
    with their types, defaults and nullability, keys, relations and indexes
    of the decorators, which TypeORM relies on. *)
Theorem migrations_match_entities : migrated = Some migrated_schema ∧ schema_matches migrated_schema = true.
Proof. split; vm_compute; reflexivity. Qed.

(** ** Undoing the migrations *)

(** The service's tables and indexes are not there yet, and nothing else
    refers to tables of these names. *)
Definition service_tables : list string := ["membership"; "workspace"; "access_code"].
Record fresh_for (s : schema) : Prop := {
  fr_tables n : n ∈ service_tables → sc_tables s !! n = None;
  fr_index1 : sc_indexes s !! "IDX_2d427c9fcee4242d77174a9fcc" = None;
  fr_index2 : sc_indexes s !! "IDX_e9c72e8d29784031c96f5c6af8" = None;
  fr_refs n t k c x : sc_tables s !! n = Some t → ta_cons t !! k = Some c → x ∈ service_tables → references x c = false;
  fr_indexes i x : sc_indexes s !! i = Some x → x.1 ∉ service_tables;
}.

Lemma referenced_false x s :
  (∀ n t k c, sc_tables s !! n = Some t → n ≠ x → ta_cons t !! k = Some c → references x c = false) →
  referenced x s = false.
Proof.
  intros Hn. unfold referenced. apply not_true_iff_false. rewrite existsb_exists. intros ([n t] & Hin & Ht).
  apply list_elem_of_In, elem_of_map_to_list in Hin. apply andb_true_iff in Ht as [Hne%bool_decide_eq_true Hc].
  apply existsb_exists in Hc as (c & Hc & Hr). apply list_elem_of_In, list_elem_of_fmap in Hc as ([k c'] & -> & Hk).
  apply elem_of_map_to_list in Hk. simpl in *. by rewrite (Hn n t k c') in Hr.
Qed.

Definition membership_table (fk : bool) : table :=
  MkTable (declared_columns Membership_properties)
    (list_to_map ([("PK_c812b1092cf66d72ddac549a6b4", PrimaryKey ["workspace_id"; "user_id"])] ++
       if fk then [("FK_2d427c9fcee4242d77174a9fccd", Membership_workspace)] else [])).
Definition workspace_table : table :=
  MkTable (declared_columns Workspace_properties)
    (list_to_map [("UQ_ee78a3da1b84780b34a739d04ab", Unique ["uuid"]); ("PK_ca86b6f9b3be5fe26d307d09b49", PrimaryKey ["id"])]).
Definition access_code_table (ntfn : bool) : table :=
  MkTable (declared_columns (List.filter (λ p, ntfn || negb (bool_decide (pr_name p = "ntfnId"))) AccessCode_properties))
    (list_to_map [("UQ_f6519d3be9ac14e21c00e594a58", Unique ["code"]); ("PK_31c26435c0d26a2ce6bee4a763b", PrimaryKey ["id"])]).

(** What the first migration adds to a schema. *)
Definition with_init (s : schema) : schema := MkSchema
  (<["membership" := membership_table true]> (<["access_code" := access_code_table false]>
    (<["workspace" := workspace_table]> (sc_tables s))))
  (<["IDX_e9c72e8d29784031c96f5c6af8" := ("membership", ["user_id"])]>
    (<["IDX_2d427c9fcee4242d77174a9fcc" := ("membership", ["workspace_id"])]> (sc_indexes s))).

Ltac in_tables := repeat (first [by left | right]).

Lemma execs_cons q qs s s' : exec q s = Some s' → execs (q :: qs) s = execs qs s'.
Proof. simpl. by intros ->. Qed.

Lemma execs_app qs qs' s : execs (qs ++ qs') s = match execs qs s with Some s' => execs qs' s' | None => None end.
Proof. revert s. induction qs as [|q qs IH]; intros s; simpl; [done|]. by destruct (exec q s). Qed.

(** The statements, when they succeed. *)
Lemma exec_create n cols cs s :
  sc_tables s !! n = None →
  exec (CreateTable n cols cs) s =
    Some (MkSchema (<[n := MkTable (list_to_map cols) (list_to_map cs)]> (sc_tables s)) (sc_indexes s)).
Proof. simpl. by intros ->. Qed.
Lemma exec_index i t cols x s :
  sc_indexes s !! i = None → sc_tables s !! t = Some x → forallb (λ c, bool_decide (is_Some (ta_cols x !! c))) cols = true →
  exec (CreateIndex i t cols) s = Some (MkSchema (sc_tables s) (<[i := (t, cols)]> (sc_indexes s))).
Proof. simpl. by intros -> -> ->. Qed.
Lemma exec_fk t n cols t' refs x s :
  sc_tables s !! t = Some x → ta_cons x !! n = None → is_Some (sc_tables s !! t') →
  exec (AddConstraint t n (ForeignKey cols t' refs)) s =
    Some (MkSchema (<[t := MkTable (ta_cols x) (<[n := ForeignKey cols t' refs]> (ta_cons x))]> (sc_tables s)) (sc_indexes s)).
Proof. simpl. intros -> Hn Ht. rewrite Hn, bool_decide_false, bool_decide_true by (done || by intros []). done. Qed.
Lemma exec_drop_constraint t n x c s :
  sc_tables s !! t = Some x → ta_cons x !! n = Some c →
  exec (DropConstraint t n) s = Some (MkSchema (<[t := MkTable (ta_cols x) (delete n (ta_cons x))]> (sc_tables s)) (sc_indexes s)).
Proof. simpl. intros -> ->. by rewrite bool_decide_true by by eexists. Qed.
Lemma exec_drop_table n x s :
  sc_tables s !! n = Some x →
  (∀ n' t k c, sc_tables s !! n' = Some t → n' ≠ n → ta_cons t !! k = Some c → references n c = false) →
  (∀ i x, sc_indexes s !! i = Some x → x.1 ≠ n) →
  exec (DropTable n) s = Some (MkSchema (delete n (sc_tables s)) (sc_indexes s)).
Proof.
  simpl. intros -> Hr Hi. rewrite referenced_false by done. do 2 f_equal. apply map_filter_id. naive_solver.
Qed.
Lemma exec_drop_index i x s :
  sc_indexes s !! i = Some x → exec (DropIndex i) s = Some (MkSchema (sc_tables s) (delete i (sc_indexes s))).
Proof. simpl. by intros ->. Qed.

Lemma init_up_run s : fresh_for s → execs (up InitSchema) s = Some (with_init s).
Proof.
  intros Hf. unfold InitSchema. cbn [up].
  erewrite execs_cons by (apply exec_create, (fr_tables s Hf); in_tables).
  erewrite execs_cons by (eapply exec_index; cbn [sc_tables sc_indexes];
    [apply (fr_index1 s Hf)|apply lookup_insert_eq|vm_compute; reflexivity]).
  erewrite execs_cons by (eapply exec_index; cbn [sc_tables sc_indexes];
    [rewrite lookup_insert_ne by done; apply (fr_index2 s Hf)|apply lookup_insert_eq|vm_compute; reflexivity]).
  erewrite execs_cons by (apply exec_create; cbn [sc_tables]; rewrite lookup_insert_ne by done; apply (fr_tables s Hf); in_tables).
  erewrite execs_cons by (apply exec_create; cbn [sc_tables]; rewrite !lookup_insert_ne by done; apply (fr_tables s Hf); in_tables).
  erewrite execs_cons by (eapply exec_fk; cbn [sc_tables];
    [rewrite !lookup_insert_ne by done; apply lookup_insert_eq|vm_compute; reflexivity
    |rewrite lookup_insert_ne by done; rewrite lookup_insert_eq; by eexists]).
  cbn [execs sc_tables sc_indexes ta_cols ta_cons]. unfold with_init. do 2 f_equal.
  rewrite (insert_insert_ne _ "workspace" "membership"), (insert_insert_ne _ "access_code" "membership"),
    insert_insert_eq by done. do 2 f_equal.
Qed.

(** *** Dropping the tables again *)
Definition no_refs (t : table) : Prop :=
  ∀ k c x, ta_cons t !! k = Some c → x ∈ service_tables → references x c = false.

Lemma no_refs_keys cols cs :
  Forall (λ kc, match kc.2 with ForeignKey _ _ _ => False | _ => True end) cs → no_refs (MkTable cols (list_to_map cs)).
Proof.
  intros Hcs k c x Hk _. apply elem_of_list_to_map_2 in Hk. rewrite Forall_forall in Hcs.
  specialize (Hcs _ Hk). by destruct c.
Qed.

Definition unlinked (m : gmap string table) : Prop := map_Forall (λ _ t, no_refs t) m.
Lemma unlinked_insert n t m : no_refs t → unlinked m → unlinked (<[n := t]> m).
Proof. intros. by apply map_Forall_insert_2. Qed.
Lemma unlinked_fresh s : fresh_for s → unlinked (sc_tables s).
Proof. intros Hf n t Hn k c x Hk Hx. by eapply (fr_refs s Hf). Qed.

Lemma exec_drop_service n x s :
  n ∈ service_tables → unlinked (sc_tables s) → sc_tables s !! n = Some x → (∀ i y, sc_indexes s !! i = Some y → y.1 ≠ n) →
  exec (DropTable n) s = Some (MkSchema (delete n (sc_tables s)) (sc_indexes s)).
Proof. intros Hn Hu Hx Hi. eapply exec_drop_table; [done| |done]. intros n' t k c Ht _ Hk. by apply (Hu n' t Ht k). Qed.

Definition ms_bare : table :=
  MkTable (ta_cols (membership_table true)) (delete "FK_2d427c9fcee4242d77174a9fccd" (ta_cons (membership_table true))).
Lemma ms_bare_eq : ms_bare = membership_table false.
Proof. vm_compute. reflexivity. Qed.

Lemma init_down_run s : fresh_for s → execs (down InitSchema) (with_init s) = Some s.
Proof.
  intros Hf. unfold InitSchema, with_init. cbn [down].
  erewrite execs_cons by (eapply exec_drop_constraint; cbn [sc_tables]; [apply lookup_insert_eq|vm_compute; reflexivity]).
  cbn [sc_tables sc_indexes]. rewrite insert_insert_eq. fold ms_bare. rewrite ms_bare_eq.
  set (idx := <["IDX_e9c72e8d29784031c96f5c6af8" := _]> _).
  assert (unlinked (<["membership" := membership_table false]> (<["access_code" := access_code_table false]>
    (<["workspace" := workspace_table]> (sc_tables s))))) as Hu.
  { repeat (apply unlinked_insert; [apply no_refs_keys; repeat constructor|]). by apply unlinked_fresh. }
  assert (∀ i y n, idx !! i = Some y → n ∈ ["access_code"; "workspace"] → y.1 ≠ n) as Hi.
  { intros i y n. unfold idx. rewrite !lookup_insert. repeat case_decide; [intros [= <-] Hn; simpl; intros <-; by (rewrite !elem_of_cons, elem_of_nil in Hn; naive_solver)..|].
    intros Hy Hn <-. apply (fr_indexes s Hf i y Hy). unfold service_tables. set_solver. }
  erewrite execs_cons by (eapply exec_drop_service; [in_tables|done|
    cbn [sc_tables]; rewrite lookup_insert_ne by done; apply lookup_insert_eq|intros; eapply Hi; [done|in_tables]]).
  cbn [sc_tables sc_indexes]. rewrite delete_insert_ne, delete_insert_eq by done. rewrite (delete_id _ "access_code"); last first.
  { rewrite lookup_insert_ne by done. apply (fr_tables s Hf). in_tables. }
  assert (unlinked (<["membership" := membership_table false]> (<["workspace" := workspace_table]> (sc_tables s)))) as Hu2.
  { repeat (apply unlinked_insert; [apply no_refs_keys; repeat constructor|]). by apply unlinked_fresh. }
  erewrite execs_cons by (eapply exec_drop_service; [in_tables|done|
    cbn [sc_tables]; rewrite lookup_insert_ne by done; apply lookup_insert_eq|intros; eapply Hi; [done|in_tables]]).
  cbn [sc_tables sc_indexes]. rewrite delete_insert_ne, delete_insert_eq, (delete_id _ "workspace")
    by (done || (apply (fr_tables s Hf); in_tables)).
  erewrite execs_cons by (eapply exec_drop_index, lookup_insert_eq). unfold idx. cbn [sc_tables sc_indexes].
  rewrite delete_insert_eq, (delete_id _ "IDX_e9c72e8d29784031c96f5c6af8")
    by (rewrite lookup_insert_ne by done; apply (fr_index2 s Hf)).
  erewrite execs_cons by (eapply exec_drop_index, lookup_insert_eq). cbn [sc_tables sc_indexes].
  rewrite delete_insert_eq, (delete_id _ "IDX_2d427c9fcee4242d77174a9fcc") by apply (fr_index1 s Hf).
  erewrite execs_cons; [|eapply exec_drop_service; [in_tables| |apply lookup_insert_eq|]]; cbn [sc_tables sc_indexes execs].
  - rewrite delete_insert_eq, delete_id by (apply (fr_tables s Hf); in_tables). by destruct s.
  - apply unlinked_insert; [apply no_refs_keys; repeat constructor|by apply unlinked_fresh].
  - intros i y Hy Hn. apply (fr_indexes s Hf i y Hy). rewrite Hn. in_tables.
Qed.

(** Adding a column and dropping it again. *)
Lemma column_up_down t n c x s :
  sc_tables s !! t = Some x → ta_cols x !! n = None → execs [AddColumn t n c; DropColumn t n] s = Some s.
Proof.
  intros Ht Hn. erewrite execs_cons by (simpl; rewrite Ht, Hn, bool_decide_false by (by intros []); reflexivity).
  simpl. rewrite lookup_insert_eq. simpl. rewrite lookup_insert_eq, bool_decide_true by (by eexists).
  unfold with_tables. simpl. rewrite delete_insert_id, insert_insert_eq by done.
  replace (MkTable (ta_cols x) (ta_cons x)) with x by (by destruct x). rewrite insert_id by done. by destruct s.
Qed.

(** the migrations can be undone.  On any schema that does not have the
    service's tables, applying every migration and then reverting them, the
    last one first, succeeds and gives back the schema; in particular the
    relation is dropped before the table it refers to. *)
Theorem migrations_undone s :
  fresh_for s → execs (concat (up <$> migrations) ++ concat (down <$> reverse migrations)) s = Some s.
Proof.
  intros Hf. unfold migrations. cbn [fmap list_fmap concat reverse rev_append]. rewrite !app_nil_r, <- app_assoc.
  rewrite execs_app, (init_up_run s Hf). change (up V2) with [AddColumn "access_code" "ntfnId" (nullable_col (Varchar None))].
  rewrite (app_assoc (up V2)), execs_app. unfold V2. cbn [up down app].
  rewrite (column_up_down "access_code" "ntfnId" _ (access_code_table false) (with_init s)).
  - by apply init_down_run.
  - cbn [with_init sc_tables]. rewrite lookup_insert_ne by done. apply lookup_insert_eq.
  - vm_compute. reflexivity.
Qed.

(** ** The constraints and the service's tables *)

(** What a column of a row holds, as a key is compared. *)
Inductive cell := CInt (n : Z) | CStr (s : string) | CBool (b : bool) | CNull.
#[global] Instance cell_eq_dec : EqDecision cell.
Proof. solve_decision. Defined.

Definition ws_cell (r : Workspace) (c : string) : cell :=
  if bool_decide (c = "id") then CInt (ws_id r)
  else if bool_decide (c = "uuid") then CStr (ws_uuid r)
  else if bool_decide (c = "image") then CStr (ws_image r)
  else if bool_decide (c = "name") then CStr (ws_name r)
  else if bool_decide (c = "description") then CStr (ws_description r)
  else if bool_decide (c = "dedicated") then CBool (ws_dedicated r)
  else CNull.
Definition ms_cell (m : Membership) (c : string) : cell :=
  if bool_decide (c = "workspace_id") then CInt (ms_workspaceId m)
  else if bool_decide (c = "user_id") then CStr (ms_userId m)
  else if bool_decide (c = "role") then CStr (ms_role m)
  else CNull.
Definition ac_cell (a : AccessCode) (c : string) : cell :=
  if bool_decide (c = "id") then CInt (ac_id a)
  else if bool_decide (c = "code") then CStr (ac_code a)
  else if bool_decide (c = "uid") then CStr (ac_uid a)
  else if bool_decide (c = "uuid") then CStr (ac_uuid a)
  else CNull.

Lemma cell_ws_id r : ws_cell r "id" = CInt (ws_id r).
Proof. done. Qed.
Lemma cell_ws_uuid r : ws_cell r "uuid" = CStr (ws_uuid r).
Proof. done. Qed.
Lemma cell_ms_workspace m : ms_cell m "workspace_id" = CInt (ms_workspaceId m).
Proof. done. Qed.
Lemma cell_ms_user m : ms_cell m "user_id" = CStr (ms_userId m).
Proof. done. Qed.
Lemma cell_ac_id a : ac_cell a "id" = CInt (ac_id a).
Proof. done. Qed.
Lemma cell_ac_code a : ac_cell a "code" = CStr (ac_code a).
Proof. done. Qed.

Definition same_key {R} (cells : R → string → cell) (cols : list string) (r x : R) : bool :=
  forallb (λ c, bool_decide (cells r c = cells x c)) cols.

(** Two rows clash on a key of the table. *)
Definition clashes {R} (cells : R → string → cell) (t : table) (r x : R) : bool :=
  existsb (λ c, match c with
                | PrimaryKey cols | Unique cols => same_key cells cols r x
                | ForeignKey _ _ _ => false
                end) (map_to_list (ta_cons t)).*2.
Definition same_primary {R} (cells : R → string → cell) (t : table) (r x : R) : bool :=
  existsb (λ c, match c with PrimaryKey cols => same_key cells cols r x | _ => false end) (map_to_list (ta_cons t)).*2.

Definition constraints (t : table) : list constr := (map_to_list (ta_cons t)).*2.

(** The tables the migrations leave, and their constraints. *)
Lemma migrated_tables :
  sc_tables migrated_schema = {["workspace" := workspace_table; "membership" := membership_table true;
                                "access_code" := access_code_table true]}.
Proof. vm_compute. reflexivity. Qed.
Lemma workspace_constraints : constraints workspace_table = [Unique ["uuid"]; PrimaryKey ["id"]].
Proof. vm_compute. reflexivity. Qed.
Lemma membership_constraints :
  constraints (membership_table true) = [Membership_workspace; PrimaryKey ["workspace_id"; "user_id"]].
Proof. vm_compute. reflexivity. Qed.
Lemma access_code_constraints : constraints (access_code_table true) = [Unique ["code"]; PrimaryKey ["id"]].
Proof. vm_compute. reflexivity. Qed.

(** the keys the tables are assumed to enforce are the keys the
    migrations create: two rows have equal primary keys, or clash on a key,
    in the model of a repository exactly when they do under the constraints
    of the migrated tables. *)
Theorem keys_are_migrated :
  (∃ t, sc_tables migrated_schema !! "workspace" = Some t ∧ ∀ r x : Workspace,
     clashes ws_cell t r x = e_clash r x ∧ same_primary ws_cell t r x = e_same r x) ∧
  (∃ t, sc_tables migrated_schema !! "membership" = Some t ∧ ∀ m x : Membership,
     clashes ms_cell t m x = e_clash m x ∧ same_primary ms_cell t m x = e_same m x) ∧
  (∃ t, sc_tables migrated_schema !! "access_code" = Some t ∧ ∀ a x : AccessCode,
     clashes ac_cell t a x = e_clash a x ∧ same_primary ac_cell t a x = e_same a x).
Proof.
  rewrite migrated_tables. split_and!; (eexists; split; [done|]); intros r x; unfold clashes, same_primary;
    fold (constraints workspace_table) (constraints (membership_table true)) (constraints (access_code_table true));
    rewrite ?workspace_constraints, ?membership_constraints, ?access_code_constraints; unfold same_key; simpl;
    rewrite ?cell_ws_id, ?cell_ws_uuid, ?cell_ms_workspace, ?cell_ms_user, ?cell_ac_id, ?cell_ac_code;
    unfold e_clash, e_same, Workspace_Entity, Membership_Entity, AccessCode_Entity;
    split; repeat case_bool_decide; first [reflexivity | exfalso; congruence].
Qed.

(** A constraint holds of the rows of the three tables. *)
Definition key_holds {R} (cells : R → string → cell) (cols : list string) (rows : list R) : Prop :=
  ∀ r x, r ∈ rows → x ∈ rows → same_key cells cols r x = true → r = x.
Definition relation_holds {R S} (cells : R → string → cell) (cells' : S → string → cell) (cols refs : list string)
    (rows : list R) (rows' : list S) : Prop :=
  ∀ r, r ∈ rows → ∃ x, x ∈ rows' ∧ cells r <$> cols = cells' x <$> refs.

Section constraints_hold.
Context {Tw Tm Ta : Type} `{!Repo Tw WorkspaceE Workspace, !Repo Tm MembershipE Membership, !Repo Ta AccessCodeE AccessCode}.
Implicit Types d : DB Tw Tm Ta.

Definition holds d (name : string) (c : constr) : Prop :=
  match c with
  | PrimaryKey cols | Unique cols =>
      (name = "workspace" → key_holds ws_cell cols (wss d)) ∧
      (name = "membership" → key_holds ms_cell cols (mss d)) ∧
      (name = "access_code" → key_holds ac_cell cols (acs d))
  | ForeignKey cols t refs =>
      name = "membership" → t = "workspace" → relation_holds ms_cell ws_cell cols refs (mss d) (wss d)
  end.

Lemma migrated_constraint name t k c :
  sc_tables migrated_schema !! name = Some t → ta_cons t !! k = Some c →
  (name = "workspace" ∧ c ∈ [Unique ["uuid"]; PrimaryKey ["id"]]) ∨
  (name = "membership" ∧ c ∈ [Membership_workspace; PrimaryKey ["workspace_id"; "user_id"]]) ∨
  (name = "access_code" ∧ c ∈ [Unique ["code"]; PrimaryKey ["id"]]).
Proof.
  intros Ht Hk. assert (c ∈ constraints t) as Hc.
  { apply list_elem_of_fmap. exists (k, c). split; [done|]. by apply elem_of_map_to_list. }
  rewrite migrated_tables in Ht. rewrite !lookup_insert, lookup_singleton in Ht. repeat case_decide; simplify_eq.
  - left. by rewrite workspace_constraints in Hc.
  - right; left. by rewrite membership_constraints in Hc.
  - right; right. by rewrite access_code_constraints in Hc.
Qed.

(** A well-formed database satisfies every constraint of the migrated
    schema: the primary keys, the unique columns and the relation of the
    memberships to their workspaces. *)
Theorem constraints_hold d name t k c :
  db_ok d → sc_tables migrated_schema !! name = Some t → ta_cons t !! k = Some c → holds d name c.
Proof.
  intros Hok Ht Hk. destruct (migrated_constraint _ _ _ _ Ht Hk) as [[-> Hc]|[[-> Hc]|[-> Hc]]];
    rewrite !elem_of_cons, elem_of_nil in Hc; destruct Hc as [->|[->|[]]]; simpl; split_and?; try done; intros _;
    try (intros r x Hr Hx; unfold same_key; simpl;
      rewrite ?cell_ws_id, ?cell_ws_uuid, ?cell_ms_workspace, ?cell_ms_user, ?cell_ac_id, ?cell_ac_code, ?andb_true_r, ?andb_true_iff, ?bool_decide_eq_true).
  - intros [= Huu]. apply (ok_ws_id _ Hok); [done..|]. by apply (ok_ws_uuid _ Hok).
  - intros [= Hid]. by apply (ok_ws_id _ Hok).
  - intros _ m Hm. destruct (ok_fk _ Hok m Hm) as (r & Hr & Hid). exists r. split; [done|]. simpl. by rewrite cell_ms_workspace, cell_ws_id, Hid.
  - intros [[= Hw] [= Hu]]. by apply (ok_ms_key _ Hok).
  - intros [= Hc]. by apply (ok_ac_code _ Hok).
  - intros [= Hid]. by apply (ok_ac_id _ Hok).
Qed.
End constraints_hold.

(** ** Widths *)

(** A string fits the column: [character varying(n)] refuses a longer one. *)
Definition fits (t : coltype) (s : string) : bool :=
  match t with Varchar (Some n) => (String.length s <=? n)%nat | _ => true end.
Definition column_of (name col : string) : option coltype :=
  t ← sc_tables migrated_schema !! name; c ← ta_cols t !! col; Some (co_type c).

Definition ws_status_text (s : WorkspaceStatus) : string :=
  match s with
  | PROVISIONING => "PROVISIONING" | READY => "READY" | DEPROVISIONING => "DEPROVISIONING"
  | COLD => "COLD" | DELETING => "DELETING"
  end.

Fixpoint repeat_char (c : ascii) (n : nat) : string :=
  match n with O => "" | S n => String c (repeat_char c n) end.
Lemma repeat_char_length c n : String.length (repeat_char c n) = n.
Proof. induction n; simpl; auto. Qed.
Lemma repeat_char_chars c n x : x ∈ chars (repeat_char c n) → x = c.
Proof. induction n as [|n IH]; simpl; [by intros ?%elem_of_nil|]. rewrite elem_of_cons. naive_solver. Qed.
Lemma repeat_char_chars_length c n : length (chars (repeat_char c n)) = n.
Proof. induction n; simpl; auto. Qed.

Lemma long_name_valid n : (4 ≤ n)%nat → validateCreation (Some (repeat_char "a"%char n)) = None.
Proof.
  intros Hn. destruct n as [|n]; [lia|]. unfold validateCreation.
  assert (rmatch nameRegex (repeat_char "a"%char (S n)) = true) as ->.
  { apply nameRegex_spec. exists "a"%char, (chars (repeat_char "a"%char n)). split_and!; [done|done| |].
    - rewrite repeat_char_chars_length. lia.
    - intros x ->%repeat_char_chars. apply (bool_decide_eq_true_1 _). vm_compute. reflexivity. }
  done.
Qed.

(** what the service writes and the widths of its columns.  Every status
    and every role it writes fits its column.  The check of a name has no
    upper bound while the column has 30 characters: names of every length
    from four pass the check, and exactly those of at most 30 characters fit. *)
Theorem column_widths :
  (∀ s, ∃ t, column_of "workspace" "status" = Some t ∧ fits t (ws_status_text s) = true) ∧
  (∀ role, known_role role → ∃ t, column_of "membership" "role" = Some t ∧ fits t role = true) ∧
  (∃ t, column_of "workspace" "name" = Some t ∧ ∀ n, (4 ≤ n)%nat → ∃ name,
     String.length name = n ∧ validateCreation (Some name) = None ∧ fits t name = (n <=? 30)%nat).
Proof.
  split_and!.
  - intros s. exists (Varchar (Some 30%nat)). split; [vm_compute; reflexivity|by destruct s].
  - intros role [-> | ->]; exists (Varchar (Some 25%nat)); (split; [vm_compute; reflexivity|done]).
  - exists (Varchar (Some 30%nat)). split; [vm_compute; reflexivity|]. intros n Hn. exists (repeat_char "a"%char n).
    split; [apply repeat_char_length|]. split; [by apply long_name_valid|]. unfold fits. by rewrite repeat_char_length.
Qed.

(** ** Examples *)

(** A database that only has TypeORM's own table. *)
Definition typeorm_schema : schema := MkSchema
  {["migrations" := MkTable {["id" := serial; "name" := nn (Varchar None)]} {["PK" := PrimaryKey ["id"]]}]} ∅.
Lemma typeorm_fresh : fresh_for typeorm_schema.
Proof.
  split; try done.
  - intros n. unfold service_tables. rewrite !elem_of_cons, elem_of_nil. by intros [->|[->|[->|[]]]].
  - intros n t k c x. simpl. rewrite lookup_singleton. case_decide; [|done]. intros [= <-]. simpl.
    rewrite lookup_singleton. case_decide; [|done]. by intros [= <-].
Qed.
Lemma migrations_undone_witness :
  execs (concat (up <$> migrations) ++ concat (down <$> reverse migrations)) typeorm_schema = Some typeorm_schema.
Proof. apply migrations_undone. exact typeorm_fresh. Defined.

Lemma constraints_hold_witness : holds demo_db "membership" Membership_workspace.
Proof.
  apply (constraints_hold demo_db "membership" (membership_table true) "FK_2d427c9fcee4242d77174a9fccd");
    [exact demo_db_ok|rewrite migrated_tables; reflexivity|vm_compute; reflexivity].
Defined.

Lemma column_widths_witness :
  ∃ name, String.length name = 31%nat ∧ validateCreation (Some name) = None ∧ fits (Varchar (Some 30%nat)) name = false.
Proof.
  destruct column_widths as (_ & _ & t & Ht & Hn). destruct (Hn 31%nat) as (name & Hl & Hv & Hf); [lia|].
  assert (t = Varchar (Some 30%nat)) as -> by (vm_compute in Ht; by injection Ht).
  exists name. split; [exact Hl|]. split; [exact Hv|exact Hf].
Defined.
