(* ===== verification/Access.v ===== *)
(** Access codes for dedicated workspaces ([manage.service.ts], lines 461 to
    751, and [email.service.ts]): requesting, approving or rejecting,
    consuming, resetting and deleting a code, and the capacity check. *)
From S2P Require Import Prelude JS Messages Keys Interfaces Entities Tokens Fixtures CodeGen Invite Manage ManageUpdate.
From Stdlib Require Import Lia.

(** [randomBytes(32)]: the blocks of the n-th generated code, and how many
    of them a run may draw. *)
Class RandomBytes := { random_blocks : nat → nat → list Z; code_fuel : nat }.

(** What TypeORM does with an [undefined] (or [null]) column of a [where]
    object, in [find] and in [delete]: [true] when the condition is left out,
    [false] when it matches no row. *)
Class Orm := { find_undef : bool; del_undef : bool }.

(** The Kubernetes API: the nodes' allocatable cpu, and the pods with their
    phase and their containers' cpu requests. *)
Record Pod := MkPod { pod_phase : option string; pod_cpus : list (option string) }.
Class K8s := { listNode : res (list (option string)); listNamespacedPod : res (list Pod) }.

(** *** Field updates of a loaded row *)
Definition ac_with_status (s : AccessStatus) (a : AccessCode) : AccessCode :=
  AcRow (ac_id a) (ac_code a) (ac_uid a) (ac_uuid a) s (ac_ntfnId a) (ac_usedAt a) (ac_expiresAt a).
Definition ac_with_ntfnId (n : string) (a : AccessCode) : AccessCode :=
  AcRow (ac_id a) (ac_code a) (ac_uid a) (ac_uuid a) (ac_status a) (Some n) (ac_usedAt a) (ac_expiresAt a).
Definition ac_mark_used (t : Z) (a : AccessCode) : AccessCode :=
  AcRow (ac_id a) (ac_code a) (ac_uid a) (ac_uuid a) USED (ac_ntfnId a) (Some t) (ac_expiresAt a).

(** NEW or UNUSED. *)
Definition is_active (a : AccessCode) : bool :=
  bool_decide (ac_status a = UNUSED) || bool_decide (ac_status a = NEW).

(** A column compared with a value that may be undefined. *)
Definition col_is (skip : bool) (o : option string) (v : option string) : bool :=
  match o with Some s => bool_decide (v = Some s) | None => skip end.

(** *** Capacity arithmetic; [None] is [NaN] *)

(** [parseInt(cpu ?? '') * 1000 || parseInt(cpu?.replace('m', '') ?? '')] *)
Definition allocatable (cpu : option string) : option Z :=
  match parseInt (default "" cpu) with
  | Some n => if decide (n * 1000 = 0) then parseInt (default "" (drop_first "m"%char <$> cpu))
              else Some (n * 1000)
  | None => parseInt (default "" (drop_first "m"%char <$> cpu))
  end.

Definition add_nan (a b : option Z) : option Z :=
  match a, b with Some x, Some y => Some (x + y) | _, _ => None end.

Definition cpu_request (cpuReq : string) : option Z :=
  if ends_with "m"%char cpuReq then parseInt10 (drop_first "m"%char cpuReq)
  else (λ n, n * 1000) <$> parseInt10 cpuReq.

Definition add_container (acc : option Z) (c : option string) : option Z :=
  match if_truthy c with Some cpuReq => add_nan acc (cpu_request cpuReq) | None => acc end.

Definition add_pod (acc : option Z) (p : Pod) : option Z :=
  if bool_decide (pod_phase p = Some "Running") then foldl add_container acc (pod_cpus p) else acc.

Definition requestedSysCpu (pods : list Pod) : option Z := foldl add_pod (Some 0) pods.

Section access.
Context {C Tw Tm Ta : Type} `{!Cache C}.
Context `{!Repo Tw WorkspaceE Workspace, !Repo Tm MembershipE Membership,
          !Repo Ta AccessCodeE AccessCode}.
Context `{!Random, !RandomBytes, !JWT, !Secret, !Env, !Peers, !Orm, !K8s, !Users}.
Abbreviation W := (world C (DB Tw Tm Ta)).
Local Open Scope mon_scope.

Definition env_parseInt_or (k d : string) (dflt : Z) : Z :=
  nan_or (parseInt (default d (env k))) dflt.

Definition canProvision : M W bool :=
  match if_truthy (env "DEV_PLATFORM_SIMULATE") with
  | Some sim => ret (bool_decide (split_on ","%char sim !! 1%nat = Some "true"))
  | None =>
      totalDedicatedCount <-
        t_count (T:=Tw) (λ r, ws_dedicated r && bool_decide (ws_status r ≠ DELETING)) ;;
      unusedAccessCodeCount <- t_count (T:=Ta) (λ a, bool_decide (ac_status a = UNUSED)) ;;
      match listNode, listNamespacedPod with
      | Ok (cpu :: _), Ok pods =>
          match allocatable cpu with
          | None => throw (HttpException 500 "UNKNOWN")
          | Some allocatableCpu =>
              if decide (allocatableCpu = 0) then throw (HttpException 500 "UNKNOWN")
              else
                let wsCpu := env_parseInt_or "WORKSPACE_CPU_REQUEST" "350" 200 in
                let idleThresholdCpu := env_parseInt_or "IDLE_THRESHOLD_CPU" "350" 350 in
                ret (match requestedSysCpu pods with
                     | Some sys => (totalDedicatedCount + unusedAccessCodeCount + 1) * wsCpu + sys
                                     <? allocatableCpu - idleThresholdCpu
                     | None => false
                     end)
          end
      | _, _ => throw (HttpException 500 "UNKNOWN")
      end
  end.

Definition getUserProfile (uid : string) : M W (option User) :=
  userProfile <- cache_profile uid ;;
  match userProfile with
  | Some p => ret (Some p)
  | None =>
      match users_by_uid uid with
      | [] => ret None
      | p :: _ => cache_set (CACHEKEY_USER_PROFILE uid) (CProfile p) None ;;; ret (Some p)
      end
  end.

(** The mail carries the request and its token in the approve and reject
    links. *)
Definition sendAccessRequestEmail (to : string) (req : AccessRequestPayload) (token : string) : M W unit :=
  emit (Mail to req token).

(** [accessCode(16)] *)
Definition drawCode : M W string :=
  λ w, match accessCode code_fuel (random_blocks (w_rng w)) 16 with
       | Some c => (Ok c, tick_rng w)
       | None => (Throw OutOfFuel, w)
       end.

Definition createAccessRequest (user : User) (reason : option string) : M W unit :=
  activeCount <- t_count (T:=Ta) (λ a, bool_decide (ac_uid a = u_uid user) && is_active a) ;;
  if negb (activeCount =? 0) then throw (HttpException 400 "ACCESS_CODE_LIMIT") else
  can <- canProvision ;;
  if negb can then throw (HttpException 403 "NO_CAPACITY") else
  profile <- getUserProfile (u_uid user) ;;
  uuid <- randomUUID ;;
  let payload := AccessReq (u_uid user) (default "Unknown" (profile ≫= u_username))
                   (default "Unknown" (profile ≫= u_name)) reason uuid in
  let token := jwt_sign (SvcToken "workspace-api" "client" "dedicated-workspace" (DAccess payload))
                 SERVICE_SECRET in
  sendAccessRequestEmail (default "undefined" (env "ADMIN_EMAIL")) payload token ;;;
  let days := env_parseInt_or "ACCESS_CODE_EXPIRY_DAYS" "5" 5 in
  t <- now ;;
  code <- drawCode ;;
  t_save (T:=Ta) (new_AccessCode (Some code) (Some (u_uid user)) (Some uuid) (Some NEW)
                    None None (Some (t + days * day_ms))) ;;;
  ret tt.

Definition ac_findOne_uuid (uuid : option string) : M W (option AccessCode) :=
  t_findOne (T:=Ta) (λ a, col_is find_undef uuid (Some (ac_uuid a))).

(** The notice of the decision; an invitation's token has no [uid]. *)
Definition sendDecision (d : TokenData) (success : bool) (code notificationId : string) : M W unit :=
  t <- now ;;
  rid <- randomUUID ;;
  let meta := MkMeta (data_uid d) None (Some "") (Some rid) in
  let n := Ntfn workspace_access_code notificationId (IsoOf t)
             (WorkspaceAccessRequest success code (data_uuid d)) in
  emit (Rmq "notification.send" (Some meta)
    match data_uid d with Some uid => NotifyUser uid n | None => NotifyUndefined n end).

Definition fulfillAccessRequest (action token : string) : M W unit :=
  match jwt_verify token SERVICE_SECRET with
  | None => throw (HttpException 400 "BAD_TOKEN")
  | Some payload =>
      let data := tk_data payload in
      accessCode <-
        (if bool_decide (action = "reject") then
           t_delete (T:=Ta) (λ a, col_is del_undef (data_uuid data) (Some (ac_uuid a))) ;;;
           ret None
         else
           accessCode <- ac_findOne_uuid (data_uuid data) ;;
           match accessCode with
           | None => throw (HttpException 400 "NOT_FOUND")
           | Some a =>
               a <- t_save (T:=Ta) (ac_entity (ac_with_status UNUSED a)) ;;
               ret (Some a)
           end) ;;
      notificationId <- randomUUID ;;
      sendDecision data (bool_decide (is_Some accessCode)) (default "" (ac_code <$> accessCode))
        notificationId ;;;
      match accessCode with
      | Some a => t_save (T:=Ta) (ac_entity (ac_with_ntfnId notificationId a)) ;;; ret tt
      | None => ret tt
      end
  end.

(** The rows that [deleteAccessCode] looks for: any of the three pairs. *)
Definition code_match (skip : bool) (uid : string) (uuid code ntfnId : option string)
    (a : AccessCode) : bool :=
  bool_decide (ac_uid a = uid) &&
  (col_is skip uuid (Some (ac_uuid a)) || col_is skip code (Some (ac_code a)) ||
   col_is skip ntfnId (ac_ntfnId a)).

Definition deleteAccessCode (user : User) (uuid ntfnId code : option string) : M W bool :=
  accessCode <- t_findOne (T:=Ta) (code_match find_undef (u_uid user) uuid code ntfnId) ;;
  let ntfnId := match accessCode with Some a => ac_ntfnId a | None => ntfnId end in
  t_delete (T:=Ta) (code_match del_undef (u_uid user) uuid code ntfnId) ;;;
  match if_truthy ntfnId with
  | Some n => sendNotificationRead (u_uid user) n
  | None => ret tt
  end ;;;
  ret true.

Definition ac_findOne_code (uid code : string) : M W (option AccessCode) :=
  t_findOne (T:=Ta) (λ a, bool_decide (ac_uid a = uid) && bool_decide (ac_code a = code)).

(** [UPDATE ... SET status = 'used', used_at = NOW() WHERE uid AND code],
    and whether a row was affected. *)
Definition markCodeAsUsed (uid code : string) : M W bool :=
  rows <- t_find (T:=Ta) (λ a, bool_decide (ac_uid a = uid) && bool_decide (ac_code a = code)) ;;
  t <- now ;;
  mapM (λ a, t_save (T:=Ta) (ac_entity (ac_mark_used t a))) rows ;;;
  ret (negb (Nat.eqb (length rows) 0)).

(** The checks of [consumeAccessCode], before it marks the code. *)
Definition checkAccessCode (user : User) (code : string) : M W unit :=
  accessCode <- ac_findOne_code (u_uid user) code ;;
  match accessCode with
  | None => throw (HttpException 404 "ACCESS_CODE_INVALID")
  | Some a =>
      if bool_decide (ac_status a = USED) then throw (HttpException 403 "ACCESS_CODE_ALREADY_USED")
      else
        t <- now ;;
        if default 0 (ac_expiresAt a) <? t then throw (HttpException 400 "ACCESS_CODE_EXPIRED")
        else ret tt
  end.

Definition markOrFail (user : User) (code : string) : M W bool :=
  success <- markCodeAsUsed (u_uid user) code ;;
  if negb success then throw (HttpException 403 "ACCESS_CODE_IN_USE") else ret true.

Definition consumeAccessCode (user : User) (code : string) : M W bool :=
  checkAccessCode user code ;;;
  markOrFail user code.

Definition resetAccessCode (user : User) (code : string) : M W bool :=
  accessCode <- ac_findOne_code (u_uid user) code ;;
  match accessCode with
  | None => throw (HttpException 404 "ACCESS_CODE_INVALID")
  | Some a =>
      if bool_decide (ac_status a ≠ USED) then throw (HttpException 400 "ACCESS_CODE_NOT_IN_USE")
      else t_save (T:=Ta) (ac_entity (ac_with_status UNUSED a)) ;;; ret true
  end.
End access.
