(* ===== verification/AccessProps.v ===== *)
(** Properties of access codes: who may hold one, what approval, consumption
    and reset do to it, and where the life cycle can be bypassed. *)
From S2P Require Import Prelude JS Messages Keys Interfaces Entities Tokens Fixtures CodeGen Invite Manage ManageUpdate Access.
From Stdlib Require Import Lia.

Section access_props.
Context {C Tw Tm Ta : Type} `{!Cache C}.
Context `{!Repo Tw WorkspaceE Workspace, !Repo Tm MembershipE Membership,
          !Repo Ta AccessCodeE AccessCode}.
Context `{!RepoLaws Tw WorkspaceE Workspace, !RepoLaws Tm MembershipE Membership,
          !RepoLaws Ta AccessCodeE AccessCode}.
Context `{!Random, !RandomBytes, !JWT, !Secret, !Env, !Peers, !Orm, !K8s, !Users}.
Abbreviation W := (world C (DB Tw Tm Ta)).
Implicit Types w : W.

(** *** Saving a changed row *)

(** The tables after the row with [a]'s identifier became [a]. *)
Definition replaced (a : AccessCode) (d d' : DB Tw Tm Ta) : Prop :=
  db_ws d' = db_ws d ∧ db_ms d' = db_ms d ∧
  ∀ x, x ∈ acs d' ↔ x = a ∨ (x ∈ acs d ∧ ac_id x ≠ ac_id a).

Lemma ac_save_ok a w r w' :
  t_save (T:=Ta) (ac_entity a) w = (Ok r, w') →
  r = a ∧ replaced a (w_loc w) (w_loc w') ∧ w_cache w' = w_cache w ∧ w_out w' = w_out w ∧
  w_rng w' = w_rng w ∧ w_now w' = w_now w.
Proof.
  unfold t_save. destruct (r_save _ _) as [[r' t]|] eqn:Hs; [|done]. intros; simplify_eq.
  pose proof (ac_entity_saved _ _ (r_save_row _ _ _ _ Hs)) as ->. split_and!; try done.
  split_and!; try done. intros x. unfold acs. simpl.
  rewrite (elem_r_save _ _ _ _ x Hs). simpl. rewrite bool_decide_eq_false. naive_solver.
Qed.

Lemma ok_ac_save e : preserves (λ w : W, db_ok (w_loc w)) (t_save (T:=Ta) e).
Proof.
  intros w Hok. unfold t_save. destruct (r_save _ _) as [[a t]|] eqn:Hs; [|done].
  by apply (db_ok_ac_save _ _ _ _ Hok Hs).
Qed.
Lemma ok_ac_delete p : preserves (λ w : W, db_ok (w_loc w)) (t_delete (T:=Ta) p).
Proof.
  intros w Hok. unfold t_delete. destruct (r_delete _ _) as [t|] eqn:Hd; [|done].
  by apply (db_ok_ac_delete _ _ _ Hok Hd).
Qed.
Hint Resolve ok_ac_save ok_ac_delete : pres.

Lemma pres_canProvision (P : W → Prop) : preserves P canProvision.
Proof. unfold canProvision. pres. Qed.
Lemma pres_loc_drawCode (P : DB Tw Tm Ta → Prop) : preserves (λ w : W, P (w_loc w)) drawCode.
Proof. intros w. unfold drawCode. by destruct (accessCode _ _ _). Qed.
Lemma pres_loc_getUserProfile (P : DB Tw Tm Ta → Prop) u :
  preserves (λ w : W, P (w_loc w)) (getUserProfile u).
Proof. unfold getUserProfile. pres. Qed.
Hint Resolve pres_canProvision pres_loc_drawCode pres_loc_getUserProfile : pres.

Lemma ok_createAccessRequest u r : preserves (λ w : W, db_ok (w_loc w)) (createAccessRequest u r).
Proof. unfold createAccessRequest, sendAccessRequestEmail. pres. Qed.
Lemma ok_fulfillAccessRequest a t : preserves (λ w : W, db_ok (w_loc w)) (fulfillAccessRequest a t).
Proof. unfold fulfillAccessRequest, ac_findOne_uuid, sendDecision. pres. Qed.
Lemma ok_deleteAccessCode u a b c : preserves (λ w : W, db_ok (w_loc w)) (deleteAccessCode u a b c).
Proof. unfold deleteAccessCode. pres. Qed.
Lemma ok_markOrFail u c : preserves (λ w : W, db_ok (w_loc w)) (markOrFail u c).
Proof. unfold markOrFail, markCodeAsUsed. pres. Qed.
Lemma pres_checkAccessCode (P : W → Prop) u c : preserves P (checkAccessCode u c).
Proof. unfold checkAccessCode, ac_findOne_code. pres. Qed.
Hint Resolve ok_markOrFail pres_checkAccessCode : pres.
Lemma ok_consumeAccessCode u c : preserves (λ w : W, db_ok (w_loc w)) (consumeAccessCode u c).
Proof. unfold consumeAccessCode. pres. Qed.
Lemma ok_resetAccessCode u c : preserves (λ w : W, db_ok (w_loc w)) (resetAccessCode u c).
Proof. unfold resetAccessCode, ac_findOne_code. pres. Qed.

(** *** Requesting *)
Lemma drawCode_ok w c w' : drawCode w = (Ok c, w') →
  w' = tick_rng w ∧ accessCode code_fuel (random_blocks (w_rng w)) 16 = Some c.
Proof. unfold drawCode. destruct (accessCode _ _ _); intros; by simplify_eq. Qed.

Lemma active_count uid w :
  Z.of_nat (length (r_find (λ a, bool_decide (ac_uid a = uid) && is_active a) (db_ac (w_loc w)))) = 0 ↔
  ∀ a, a ∈ acs (w_loc w) → ac_uid a = uid → is_active a = false.
Proof.
  split.
  - intros Hl a Ha Hu. destruct (is_active a) eqn:Hact; [|done].
    assert (a ∈ r_find (λ a, bool_decide (ac_uid a = uid) && is_active a) (db_ac (w_loc w))) as Hin.
    { apply elem_r_find. split; [done|]. rewrite bool_decide_true by done. done. }
    destruct (r_find _ _); [by apply elem_of_nil in Hin|simpl in Hl; lia].
  - intros Hno. destruct (r_find _ _) as [|a l] eqn:Hf; [done|].
    assert (a ∈ a :: l) as Hin by (by left). rewrite <- Hf in Hin.
    apply elem_r_find in Hin as [Ha Hp]. apply andb_true_iff in Hp as [Hu Hact].
    apply bool_decide_eq_true in Hu. by rewrite Hno in Hact.
Qed.

Lemma getUserProfile_frame u w p w' :
  getUserProfile u w = (Ok p, w') →
  w_loc w' = w_loc w ∧ w_out w' = w_out w ∧ w_rng w' = w_rng w ∧ w_now w' = w_now w.
Proof.
  unfold getUserProfile. intros Hrun. minv Hrun. injection Hm as <- <-.
  destruct (profile_in _ _); [by injection Hrun as <- <-|].
  destruct (users_by_uid u); by injection Hrun as <- <-.
Qed.

(** The claims of a request's token. *)
Definition request_token (req : AccessRequestPayload) : string :=
  jwt_sign (SvcToken "workspace-api" "client" "dedicated-workspace" (DAccess req)) SERVICE_SECRET.

(** What a request that returns has done. *)
Lemma createAccessRequest_ok user reason w w' :
  (∀ n j, Forall is_byte (random_blocks n j)) →
  truthy (u_uid user) = true → (∀ n, truthy (uuid_of n) = true) →
  createAccessRequest user reason w = (Ok tt, w') →
  (∀ a, a ∈ acs (w_loc w) → ac_uid a = u_uid user → is_active a = false) ∧
  canProvision w = (Ok true, w) ∧
  ∃ a req, ac_uid a = u_uid user ∧ ac_status a = NEW ∧ ac_uuid a = uuid_of (w_rng w) ∧
    ac_uuid a = ar_uuid req ∧ ar_uid req = u_uid user ∧ ar_reason req = reason ∧
    ac_expiresAt a = Some (w_now w + env_parseInt_or "ACCESS_CODE_EXPIRY_DAYS" "5" 5 * day_ms) ∧
    String.length (ac_code a) = 16%nat ∧
    (∀ x, x ∈ acs (w_loc w) → ac_id x ≠ ac_id a) ∧
    acs (w_loc w') ≡ₚ a :: acs (w_loc w) ∧
    db_ws (w_loc w') = db_ws (w_loc w) ∧ db_ms (w_loc w') = db_ms (w_loc w) ∧
    w_out w' = w_out w ++ [Mail (default "undefined" (env "ADMIN_EMAIL")) req (request_token req)].
Proof.
  intros Hbytes Huid Huuid Hrun. unfold createAccessRequest in Hrun.
  rewrite (bind_ok _ _ w _ w) in Hrun by done.
  destruct (Z.eqb_spec (Z.of_nat (length (r_find (λ a, bool_decide (ac_uid a = u_uid user) && is_active a)
    (tb_get (T:=Ta) (w_loc w))))) 0) as [Hn|Hn]; [|done]. cbn [negb] in Hrun.
  split; [exact (proj1 (active_count (u_uid user) w) Hn)|].
  minv Hrun. rewrite (preserves_all_eq canProvision w) in Hm by (intros; apply pres_canProvision).
  injection Hm as Hcan <-. destruct a; [|done]. cbn [negb] in Hrun.
  rewrite (preserves_all_eq canProvision w), Hcan by (intros; apply pres_canProvision). split; [done|].
  minv Hrun. apply getUserProfile_frame in Hm as (Hl & Ho & Hg & Ht).
  do 3 (erewrite bind_ok in Hrun by reflexivity; cbv zeta in Hrun). minv Hrun.
  apply drawCode_ok in Hm as [-> Hcode].
  pose proof (accessCode_length _ _ _ _ (Hbytes _) Hcode) as Hlen.
  minv Hrun. injection Hrun as <-. unfold t_save in Hm.
  destruct (r_save _ _) as [[r t]|] eqn:Hs; [|done]. injection Hm as <- <-.
  simpl in *. rewrite Hl in Hs |- *. pose proof (r_save_row _ _ _ _ Hs) as Hrow. simpl in Hrow.
  rewrite Huid, Huuid, Hg in Hrow.
  replace (truthy a0) with true in Hrow by (destruct a0; [done|by symmetry; apply bool_decide_eq_true]).
  destruct Hrow as (_ & Hc & Hu & Huu & Hst & _ & _ & Hex). simpl in *.
  assert (∀ x, x ∈ acs (w_loc w) → ac_id x ≠ ac_id r) as Hfresh.
  { intros x Hx Heq. opose proof (r_save_fresh _ _ _ _ x Hs _ Hx) as Hf; [done|].
    simpl in Hf. by rewrite bool_decide_true in Hf. }
  eexists r, _. rewrite Ho, Ht, Hg in *. subst a0. split_and!; try done. all: try done.
  unfold acs. simpl. rewrite (r_save_rows _ _ _ _ Hs). f_equiv. rewrite lfilter_all; [done|].
  intros x Hx. simpl. rewrite bool_decide_false; [done|]. intros Heq. by apply (Hfresh x Hx).
Qed.

(** an access request is admitted only for a user without an active code
    and while there is capacity; then exactly one row is added, for that
    user, NEW, with a 16-character code, and the administrator is mailed a
    token for it.  A user who already holds an active code is refused with
    nothing changed. *)
Theorem createAccessRequest_admission user reason w r w' :
  (∀ n j, Forall is_byte (random_blocks n j)) →
  truthy (u_uid user) = true → (∀ n, truthy (uuid_of n) = true) →
  createAccessRequest user reason w = (r, w') →
  ((∃ a, a ∈ acs (w_loc w) ∧ ac_uid a = u_uid user ∧ is_active a = true) →
     r = Throw (HttpException 400 "ACCESS_CODE_LIMIT") ∧ w' = w) ∧
  (r = Ok tt →
     canProvision w = (Ok true, w) ∧
     ∃ a req, acs (w_loc w') ≡ₚ a :: acs (w_loc w) ∧ ac_uid a = u_uid user ∧ ac_status a = NEW ∧
       String.length (ac_code a) = 16%nat ∧ ac_uuid a = ar_uuid req ∧
       (∀ x, x ∈ acs (w_loc w') → ac_uid x = u_uid user → is_active x = true → x = a) ∧
       w_out w' = w_out w ++ [Mail (default "undefined" (env "ADMIN_EMAIL")) req (request_token req)]).
Proof.
  intros Hbytes Huid Huuid Hrun. split.
  - intros (a & Ha & Hu & Hact). unfold createAccessRequest in Hrun.
    rewrite (bind_ok _ _ w _ w) in Hrun by done.
    destruct (Z.eqb_spec (Z.of_nat (length (r_find (λ a, bool_decide (ac_uid a = u_uid user) && is_active a)
      (tb_get (T:=Ta) (w_loc w))))) 0) as [Hn|Hn]; [|by injection Hrun as <- <-].
    pose proof (proj1 (active_count (u_uid user) w) Hn a Ha Hu). congruence.
  - intros ->. apply createAccessRequest_ok in Hrun
      as (Hno & Hcan & a & req & Hu & Hst & _ & Huu & _ & _ & _ & Hlen & _ & Hrows & _ & _ & Hout);
      [|done..].
    split; [done|]. exists a, req. split_and!; try done.
    intros x Hx Hxu Hact. rewrite Hrows, elem_of_cons in Hx. destruct Hx as [->|Hx]; [done|].
    by rewrite Hno in Hact.
Qed.

(** *** Consuming *)
Lemma ac_findOne_code_run w uid code a :
  db_ok (w_loc w) → a ∈ acs (w_loc w) → ac_uid a = uid → ac_code a = code →
  ac_findOne_code uid code w = (Ok (Some a), w).
Proof.
  intros Hok Ha Hu Hc. unfold ac_findOne_code, t_findOne, gets. f_equal. f_equal.
  destruct (r_findOne _ _) as [a'|] eqn:Hf.
  - apply r_findOne_Some in Hf as [Ha' Hp]. rewrite andb_true_iff, !bool_decide_eq_true in Hp.
    f_equal. apply (ok_ac_code _ Hok); [done|done|]. destruct Hp. congruence.
  - rewrite r_findOne_None in Hf. specialize (Hf a Ha).
    rewrite andb_false_iff, !bool_decide_eq_false in Hf. naive_solver.
Qed.

Lemma ac_findOne_code_dec w uid code :
  (∃ a, ac_findOne_code uid code w = (Ok (Some a), w) ∧ a ∈ acs (w_loc w) ∧
     ac_uid a = uid ∧ ac_code a = code) ∨
  (ac_findOne_code uid code w = (Ok None, w) ∧
     ∀ a, a ∈ acs (w_loc w) → ac_uid a = uid → ac_code a ≠ code).
Proof.
  unfold ac_findOne_code, t_findOne, gets.
  destruct (r_findOne _ _) as [a|] eqn:Hf; [left|right].
  - apply r_findOne_Some in Hf as [Ha Hp]. rewrite andb_true_iff, !bool_decide_eq_true in Hp.
    exists a. naive_solver.
  - split; [done|]. intros a Ha Hu Hc. rewrite r_findOne_None in Hf. specialize (Hf a Ha).
    rewrite andb_false_iff, !bool_decide_eq_false in Hf. naive_solver.
Qed.

Lemma replaced_refl_tail a d d1 d2 :
  replaced a d d1 → replaced a d1 d2 → replaced a d d2.
Proof.
  intros (Hw & Hm & Ha) (Hw' & Hm' & Ha'). split_and!; [congruence|congruence|].
  intros x. rewrite Ha', Ha. naive_solver.
Qed.

Lemma mark_loop a t l w rs w' :
  l ≠ [] → (∀ x, x ∈ l → x = a) →
  mapM (λ x, t_save (T:=Ta) (ac_entity (ac_mark_used t x))) l w = (Ok rs, w') →
  replaced (ac_mark_used t a) (w_loc w) (w_loc w') ∧ w_out w' = w_out w ∧ w_now w' = w_now w.
Proof.
  revert w rs. induction l as [|x l IH]; intros w rs Hne Hall Hrun; [done|].
  assert (x = a) as -> by (apply Hall; by left).
  cbn [mapM] in Hrun. minv Hrun. apply ac_save_ok in Hm as (_ & Hrep & _ & Ho & _ & Hn).
  minv Hrun. injection Hrun as <- <-. destruct (decide (l = [])) as [->|Hl].
  - injection Hm as <- <-. done.
  - apply IH in Hm as (Hrep' & Ho' & Hn'); [|done|intros y Hy; apply Hall; by right].
    split; [by eapply replaced_refl_tail|]. by rewrite Ho', Hn'.
Qed.

Lemma markOrFail_ok user code w a b w' :
  db_ok (w_loc w) → a ∈ acs (w_loc w) → ac_uid a = u_uid user → ac_code a = code →
  markOrFail user code w = (Ok b, w') →
  b = true ∧ replaced (ac_mark_used (w_now w) a) (w_loc w) (w_loc w') ∧ w_out w' = w_out w ∧
  w_now w' = w_now w.
Proof.
  intros Hok Ha Hu Hc Hrun. unfold markOrFail in Hrun. minv Hrun. unfold markCodeAsUsed in Hm.
  do 2 (erewrite bind_ok in Hm by reflexivity). minv Hm. injection Hm as <- <-.
  set (l := r_find _ _) in *.
  assert (∀ x, x ∈ l → x = a) as Hall.
  { intros x [Hx Hp]%elem_r_find. rewrite andb_true_iff, !bool_decide_eq_true in Hp.
    apply (ok_ac_code _ Hok); [done|done|]. destruct Hp. congruence. }
  assert (a ∈ l) as Hin.
  { apply elem_r_find. split; [done|]. by rewrite !bool_decide_true. }
  destruct l as [|x l]; [by apply elem_of_nil in Hin|]. injection Hrun as <- <-.
  apply (mark_loop a) in Hm0; naive_solver.
Qed.

(** What [consumeAccessCode] requires of a code at time [t]. *)
Definition consumable (user : User) (t : Z) (a : AccessCode) : Prop :=
  ac_uid a = u_uid user ∧ ac_status a ≠ USED ∧ t ≤ default 0 (ac_expiresAt a).

Lemma checkAccessCode_spec user code w :
  db_ok (w_loc w) →
  ∃ v, checkAccessCode user code w = (v, w) ∧
  (v = Ok tt ↔ ∃ a, a ∈ acs (w_loc w) ∧ ac_code a = code ∧ consumable user (w_now w) a).
Proof.
  intros Hok. unfold checkAccessCode.
  destruct (ac_findOne_code_dec w (u_uid user) code) as [(a & Hf & Ha & Hu & Hc)|(Hf & Hno)].
  2:{ mstep by exact Hf. eexists. split; [done|]. split; [done|].
      intros (a & Ha & Hc & Hu & _). by destruct (Hno a Ha Hu). }
  assert (∀ x, x ∈ acs (w_loc w) → ac_code x = code → x = a) as Huniq.
  { intros x Hx Hxc. apply (ok_ac_code _ Hok); [done|done|congruence]. }
  mstep by exact Hf. case_bool_decide as Hst.
  { eexists. split; [done|]. split; [done|]. intros (x & Hx & Hxc & _ & Hns & _).
    by rewrite (Huniq x Hx Hxc) in Hns. }
  mstep by done. destruct (Z.ltb_spec (default 0 (ac_expiresAt a)) (w_now w)) as [Hexp|Hexp];
    (eexists; split; [done|]); split; try done.
  - intros (x & Hx & Hxc & _ & _ & Ht). rewrite (Huniq x Hx Hxc) in Ht. lia.
  - intros _. exists a. done.
Qed.

(** C33: a code is consumed once.  Consumption succeeds only for a code that
    belongs to the caller, is not used and has not expired; it then becomes
    USED, stamped with the time, every other row unchanged; and a second
    consumption is refused with 403 and changes nothing. *)
Theorem consumeAccessCode_once user code w b w' :
  db_ok (w_loc w) → consumeAccessCode user code w = (Ok b, w') →
  ∃ a, a ∈ acs (w_loc w) ∧ ac_code a = code ∧ consumable user (w_now w) a ∧
    replaced (ac_mark_used (w_now w) a) (w_loc w) (w_loc w') ∧ db_ok (w_loc w') ∧
    consumeAccessCode user code w' = (Throw (HttpException 403 "ACCESS_CODE_ALREADY_USED"), w').
Proof.
  intros Hok Hrun.
  pose proof (preserves_run _ _ _ _ _ (ok_consumeAccessCode user code) Hrun Hok) as Hok'.
  unfold consumeAccessCode in Hrun. minv Hrun.
  destruct (checkAccessCode_spec user code w Hok) as (v & Hv & Hiff).
  rewrite Hv in Hm. injection Hm as -> <-. destruct (proj1 Hiff eq_refl) as (a & Ha & Hc & Hcons).
  exists a. destruct (markOrFail_ok user code w a b w') as (_ & Hrep & _); try done; [apply Hcons|].
  split_and!; try done.
  unfold consumeAccessCode, checkAccessCode.
  mfail by (mstep by (apply (ac_findOne_code_run w' _ _ (ac_mark_used (w_now w) a));
    [done|by apply Hrep; left|apply Hcons|done]); done). done.
Qed.

(** Two requests for the same code, interleaved so that both pass their
    checks before either marks the code. *)
Definition consume_interleaved (user : User) (code : string) : M W bool :=
  (checkAccessCode user code ;;;       (* request 1 *)
   checkAccessCode user code ;;;       (* request 2 *)
   markOrFail user code ;;;            (* request 1 *)
   markOrFail user code)%mon.          (* request 2 *)

Lemma mapM_save_throw {A} (f : A → AccessCodeE) l w e w' :
  mapM (λ x, t_save (T:=Ta) (f x)) l w = (Throw e, w') → e = QueryFailed.
Proof.
  revert w. induction l as [|x l IH]; intros w; cbn [mapM]; [done|].
  unfold bind at 1. unfold t_save at 1. destruct (r_save _ _) as [[r t]|]; [|by intros; simplify_eq].
  unfold bind. destruct (mapM _ l _) as [[rs|e'] w1] eqn:Hl; [done|].
  intros; simplify_eq. by eapply IH.
Qed.

Lemma markOrFail_throw user code w a e w' :
  a ∈ acs (w_loc w) → ac_uid a = u_uid user → ac_code a = code →
  markOrFail user code w = (Throw e, w') → e = QueryFailed.
Proof.
  intros Ha Hu Hc. unfold markOrFail, markCodeAsUsed, bind, t_find, now, gets. simpl.
  set (l := r_find _ _). assert (a ∈ l) as Hin.
  { apply elem_r_find. split; [done|]. by rewrite !bool_decide_true. }
  destruct (mapM _ l w) as [[rs|e'] w1] eqn:Hm; simpl.
  - destruct l; [by apply elem_of_nil in Hin|]. done.
  - intros; simplify_eq. by apply mapM_save_throw in Hm.
Qed.

(** consumption is not atomic: [markCodeAsUsed] does not look at the
    status, so of two concurrent requests that both passed the checks neither
    is refused; unless the database fails, both succeed. *)
Theorem consume_race user code w a r w' :
  db_ok (w_loc w) → a ∈ acs (w_loc w) → ac_code a = code → consumable user (w_now w) a →
  consume_interleaved user code w = (r, w') → r = Ok true ∨ r = Throw QueryFailed.
Proof.
  intros Hok Ha Hc Hcons Hrun. unfold consume_interleaved in Hrun.
  destruct (checkAccessCode_spec user code w Hok) as (v & Hv & Hiff).
  assert (v = Ok tt) as -> by (apply Hiff; eauto).
  do 2 rewrite (bind_ok _ _ _ _ _ Hv) in Hrun. unfold bind in Hrun.
  destruct (markOrFail user code w) as [[b|e] w1] eqn:Hrun1.
  2:{ injection Hrun as <- <-. right. f_equal.
      eapply (markOrFail_throw _ _ _ a); [done|apply Hcons|done|exact Hrun1]. }
  pose proof (preserves_run _ _ _ _ _ (ok_markOrFail user code) Hrun1 Hok) as Hok1.
  apply (markOrFail_ok user code w a) in Hrun1 as (_ & Hrep & _); [|done|done|apply Hcons|done].
  assert (ac_mark_used (w_now w) a ∈ acs (w_loc w1)) as Ha1 by (apply Hrep; by left).
  destruct r as [b2|e].
  - left. eapply markOrFail_ok in Hrun as (-> & _); [done|done|exact Ha1|apply Hcons|done].
  - right. f_equal. eapply (markOrFail_throw _ _ _ _ _ _ Ha1); [apply Hcons|done|exact Hrun].
Qed.

(** *** Approval *)
Lemma ac_findOne_uuid_run w a :
  a ∈ acs (w_loc w) → (∀ x, x ∈ acs (w_loc w) → ac_uuid x = ac_uuid a → x = a) →
  ac_findOne_uuid (Some (ac_uuid a)) w = (Ok (Some a), w).
Proof.
  intros Ha Huniq. unfold ac_findOne_uuid, t_findOne, gets. f_equal. f_equal.
  destruct (r_findOne _ _) as [x|] eqn:Hf.
  - apply r_findOne_Some in Hf as [Hx Hp]. apply bool_decide_eq_true in Hp. f_equal.
    apply Huniq; [done|congruence].
  - rewrite r_findOne_None in Hf. specialize (Hf a Ha). simpl in Hf. by rewrite bool_decide_true in Hf.
Qed.

(** The decision notice sent to the requester. *)
Definition decision_at (n : nat) (t : Z) (d : TokenData) (success : bool) (code : string) : effect :=
  Rmq "notification.send" (Some (MkMeta (data_uid d) None (Some "") (Some (uuid_of (S n)))))
    (let ntfn := Ntfn workspace_access_code (uuid_of n) (IsoOf t)
                   (WorkspaceAccessRequest success code (data_uuid d)) in
     match data_uid d with Some uid => NotifyUser uid ntfn | None => NotifyUndefined ntfn end).

Lemma sendDecision_run d b c n w :
  sendDecision d b c (uuid_of n) w = (Ok tt, World (w_cache w)
    (w_out w ++ [Rmq "notification.send" (Some (MkMeta (data_uid d) None (Some "") (Some (uuid_of (w_rng w)))))
      (let ntfn := Ntfn workspace_access_code (uuid_of n) (IsoOf (w_now w))
                     (WorkspaceAccessRequest b c (data_uuid d)) in
       match data_uid d with Some uid => NotifyUser uid ntfn | None => NotifyUndefined ntfn end)])
    (S (w_rng w)) (w_now w) (w_loc w)).
Proof. reflexivity. Qed.

(** Approval with any verified token whose lookup finds [a]. *)
Lemma approve_ok w tok p a w' :
  jwt_verify tok SERVICE_SECRET = Some p →
  ac_findOne_uuid (data_uuid (tk_data p)) w = (Ok (Some a), w) →
  fulfillAccessRequest "approve" tok w = (Ok tt, w') →
  replaced (ac_with_ntfnId (uuid_of (w_rng w)) (ac_with_status UNUSED a)) (w_loc w) (w_loc w') ∧
  w_now w' = w_now w ∧
  w_out w' = w_out w ++ [decision_at (w_rng w) (w_now w) (tk_data p) true (ac_code a)].
Proof.
  intros Hv Hf Hrun. unfold fulfillAccessRequest in Hrun. rewrite Hv in Hrun. cbv zeta in Hrun.
  rewrite bool_decide_false in Hrun by done.
  minv Hrun. rewrite (bind_ok _ _ _ _ _ Hf) in Hm. minv Hm. injection Hm as <- <-.
  apply ac_save_ok in Hm0 as (-> & Hrep & _ & Ho & Hg & Ht).
  erewrite bind_ok in Hrun by reflexivity.
  rewrite (bind_ok _ _ _ _ _ (sendDecision_run _ _ _ _ _)) in Hrun. minv Hrun. injection Hrun as <-.
  apply ac_save_ok in Hm as (_ & Hrep2 & _ & Ho2 & _ & Ht2).
  cbn in Ho2, Ht2, Hrep2. rewrite Ho2, Ht2, Ho, Hg, Ht in *. split_and!; try done.
  destruct Hrep as (Hw & Hms & Hrep), Hrep2 as (Hw2 & Hms2 & Hrep2).
  split_and!; [congruence|congruence|]. intros x. rewrite Hrep2, Hrep. naive_solver.
Qed.

Lemma approve_throw w tok p a e w' :
  jwt_verify tok SERVICE_SECRET = Some p →
  ac_findOne_uuid (data_uuid (tk_data p)) w = (Ok (Some a), w) →
  fulfillAccessRequest "approve" tok w = (Throw e, w') → e = QueryFailed.
Proof.
  intros Hv Hf Hrun. unfold fulfillAccessRequest in Hrun. rewrite Hv in Hrun. cbv zeta in Hrun.
  rewrite bool_decide_false in Hrun by done. unfold bind at 1 in Hrun.
  rewrite (bind_ok _ _ _ _ _ Hf) in Hrun. unfold bind at 1, t_save in Hrun.
  destruct (r_save _ _) as [[r t]|]; [|by injection Hrun as <- _].
  unfold ret at 1 in Hrun. erewrite bind_ok in Hrun by reflexivity.
  rewrite (bind_ok _ _ _ _ _ (sendDecision_run _ _ _ _ _)) in Hrun. unfold bind, t_save in Hrun.
  destruct (r_save _ _) as [[r' t']|]; [done|by injection Hrun as <- _].
Qed.

(** A code that is not used yet, at its user's consumption. *)
Lemma consume_unused user code w a r w' :
  db_ok (w_loc w) → a ∈ acs (w_loc w) → ac_code a = code → ac_uid a = u_uid user → ac_status a ≠ USED →
  consumeAccessCode user code w = (r, w') →
  if w_now w <=? default 0 (ac_expiresAt a)
  then r = Throw QueryFailed ∨ r = Ok true ∧ replaced (ac_mark_used (w_now w) a) (w_loc w) (w_loc w')
  else r = Throw (HttpException 400 "ACCESS_CODE_EXPIRED") ∧ w' = w.
Proof.
  intros Hok Ha Hc Hu Hst. unfold consumeAccessCode.
  assert (checkAccessCode user code w = (if w_now w <=? default 0 (ac_expiresAt a) then Ok tt
    else Throw (HttpException 400 "ACCESS_CODE_EXPIRED"), w)) as Hcheck.
  { unfold checkAccessCode. mstep by (by apply (ac_findOne_code_run w _ _ a)). rewrite bool_decide_false by done.
    mstep by done. rewrite Z.leb_antisym. by destruct (_ <? _). }
  destruct (w_now w <=? default 0 (ac_expiresAt a)).
  - rewrite (bind_ok _ _ _ _ _ Hcheck). destruct r as [v|e]; intros Hrun.
    + right. by apply (markOrFail_ok user code w a) in Hrun as (-> & Hrep & _).
    + left. f_equal. by apply (markOrFail_throw _ _ _ a) in Hrun.
  - rewrite (bind_throw _ _ _ _ _ Hcheck). by intros [= <- <-].
Qed.

(** The clock of a world. *)
Definition at_now (t : Z) w : W := World (w_cache w) (w_out w) (w_rng w) t (w_loc w).

(** C32: the life cycle of an access code.  The token mailed for an admitted
    request approves that very request: unless the database fails, approval
    makes the code UNUSED and sends it to the requester.  When the requester
    then consumes it, until it expires the consumption succeeds and marks it
    used, every other row unchanged, unless the database fails; after that it
    is refused and nothing changes.  (The request's identifier is a new one,
    and the random generator gives bytes.) *)
Theorem access_lifecycle `{!JWTLaws} user reason w w1 :
  db_ok (w_loc w) → (∀ n j, Forall is_byte (random_blocks n j)) →
  truthy (u_uid user) = true → (∀ n, truthy (uuid_of n) = true) →
  (∀ a, a ∈ acs (w_loc w) → ac_uuid a ≠ uuid_of (w_rng w)) →
  createAccessRequest user reason w = (Ok tt, w1) →
  ∃ to req tok code, w_out w1 = w_out w ++ [Mail to req tok] ∧
    ∀ r2 w2, fulfillAccessRequest "approve" tok w1 = (r2, w2) →
      r2 = Throw QueryFailed ∨
      r2 = Ok tt ∧ ∃ n a, w_out w2 = w_out w1 ++ [decision_at n (w_now w1) (DAccess req) true code] ∧
        a ∈ acs (w_loc w2) ∧ ac_code a = code ∧ ac_status a = UNUSED ∧ ac_ntfnId a = Some (uuid_of n) ∧
        ∀ t r3 w3, consumeAccessCode user code (at_now t w2) = (r3, w3) →
          if t <=? w_now w + env_parseInt_or "ACCESS_CODE_EXPIRY_DAYS" "5" 5 * day_ms
          then r3 = Throw QueryFailed ∨ r3 = Ok true ∧ replaced (ac_mark_used t a) (w_loc w2) (w_loc w3)
          else r3 = Throw (HttpException 400 "ACCESS_CODE_EXPIRED") ∧ w3 = at_now t w2.
Proof.
  intros Hok Hbytes Huid Huuid Hfresh Hrun.
  pose proof (preserves_run _ _ _ _ _ (ok_createAccessRequest user reason) Hrun Hok) as Hok1.
  apply createAccessRequest_ok in Hrun
    as (_ & _ & a & req & Hu & Hst & Huu & Huu2 & Hru & _ & Hex & _ & _ & Hrows & _ & _ & Hout); [|done..].
  exists (default "undefined" (env "ADMIN_EMAIL")), req, (request_token req), (ac_code a).
  split; [done|]. intros r2 w2 Happ.
  assert (jwt_verify (request_token req) SERVICE_SECRET =
    Some (SvcToken "workspace-api" "client" "dedicated-workspace" (DAccess req))) as Hv
    by apply jwt_verify_sign.
  assert (ac_findOne_uuid (Some (ar_uuid req)) w1 = (Ok (Some a), w1)) as Hf.
  { rewrite <- Huu2. apply ac_findOne_uuid_run; [rewrite Hrows; by left|].
    intros x. rewrite Hrows, elem_of_cons. intros [->|Hx] Heq; [done|].
    destruct (Hfresh x Hx). congruence. }
  destruct r2 as [[]|e]; [right; split; [done|]|left; f_equal; by eapply approve_throw].
  pose proof (preserves_run _ _ _ _ _ (ok_fulfillAccessRequest _ _) Happ Hok1) as Hok2.
  destruct (approve_ok _ _ _ _ _ Hv Hf Happ) as (Hrep & _ & Hout2). set (a2 := ac_with_ntfnId _ _) in Hrep.
  assert (a2 ∈ acs (w_loc w2)) as Ha2 by (apply Hrep; by left).
  exists (w_rng w1), a2. split; [exact Hout2|]. split_and!; try done. intros t r3 w3 Hcon.
  apply (consume_unused user (ac_code a) (at_now t w2) a2) in Hcon; try done.
  unfold a2 in Hcon at 1. simpl in Hcon. by rewrite Hex in Hcon.
Qed.

(** approval is not guarded by the status: following the mailed approve
    link again after the code was consumed turns it back to UNUSED, and the
    same code can be consumed a second time. *)
Theorem approve_replay user code w b w1 tok p w2 :
  db_ok (w_loc w) →
  (∀ x y, x ∈ acs (w_loc w) → y ∈ acs (w_loc w) → ac_uuid x = ac_uuid y → x = y) →
  consumeAccessCode user code w = (Ok b, w1) →
  jwt_verify tok SERVICE_SECRET = Some p →
  (∀ a, a ∈ acs (w_loc w) → ac_code a = code → data_uuid (tk_data p) = Some (ac_uuid a)) →
  fulfillAccessRequest "approve" tok w1 = (Ok tt, w2) →
  ∃ a, a ∈ acs (w_loc w2) ∧ ac_code a = code ∧ consumable user (w_now w) a.
Proof.
  intros Hok Huniq Hcon Hv Htok Happ. unfold consumeAccessCode in Hcon. minv Hcon.
  destruct (checkAccessCode_spec user code w Hok) as (v & Hv' & Hiff).
  rewrite Hv' in Hm. injection Hm as -> <-. destruct (proj1 Hiff eq_refl) as (a & Ha & Hc & Hu & Hns & Hex).
  eapply (markOrFail_ok user code w a) in Hcon as (_ & Hrep & _ & _); [|done..].
  assert (ac_findOne_uuid (data_uuid (tk_data p)) w1 = (Ok (Some (ac_mark_used (w_now w) a)), w1)) as Hf.
  { rewrite (Htok a Ha Hc). apply (ac_findOne_uuid_run w1 (ac_mark_used (w_now w) a)).
    - apply Hrep. by left.
    - intros x [->|[Hx Hid]]%Hrep Heq; [done|]. by rewrite (Huniq x a Hx Ha Heq) in Hid. }
  destruct (approve_ok _ _ _ _ _ Hv Hf Happ) as (Hrep2 & _).
  eexists. split; [by apply Hrep2; left|]. done.
Qed.

(** token confusion.  Invitations and access requests are signed with the
    same secret, and an invitation's claims have no request uuid.  Where the
    ORM leaves undefined conditions out of a [find], the token of any
    invitation is taken for an approval, as long as some request exists: it
    is never refused, and unless the database fails an access code nobody
    approved becomes UNUSED. *)
Theorem invitation_token_approves `{!JWTLaws} w iss aud sub iv r w' :
  find_undef = true → (∃ a, a ∈ acs (w_loc w)) →
  fulfillAccessRequest "approve" (jwt_sign (SvcToken iss aud sub (DInvite iv)) SERVICE_SECRET) w = (r, w') →
  r = Throw QueryFailed ∨
  r = Ok tt ∧ ∃ a a', a ∈ acs (w_loc w) ∧ a' ∈ acs (w_loc w') ∧ ac_id a' = ac_id a ∧
    ac_code a' = ac_code a ∧ ac_status a' = UNUSED.
Proof.
  intros Hundef [a0 Ha0] Hrun. set (p := SvcToken iss aud sub (DInvite iv)) in *.
  assert (jwt_verify (jwt_sign p SERVICE_SECRET) SERVICE_SECRET = Some p) as Hv by apply jwt_verify_sign.
  assert (∃ a, ac_findOne_uuid None w = (Ok (Some a), w) ∧ a ∈ acs (w_loc w)) as (a & Hf & Ha).
  { unfold ac_findOne_uuid, t_findOne, gets.
    destruct (r_findOne _ _) as [a|] eqn:Hfo; [apply r_findOne_Some in Hfo as [? _]; eauto|].
    rewrite r_findOne_None in Hfo. specialize (Hfo a0 Ha0). simpl in Hfo. congruence. }
  destruct r as [[]|e]; [right|left].
  - destruct (approve_ok w _ p a w' Hv Hf Hrun) as (Hrep & _). split; [done|].
    eexists a, _. split; [done|]. split; [by apply Hrep; left|]. done.
  - f_equal. by apply (approve_throw w _ p a e w' Hv Hf).
Qed.

(** *** Deleting and resetting *)

(** deleting codes only ever touches the caller's own: every other
    user's row is still there; and the call reports success. *)
Theorem deleteAccessCode_own user uuid ntfnId code w b w' :
  deleteAccessCode user uuid ntfnId code w = (Ok b, w') →
  b = true ∧ db_ws (w_loc w') = db_ws (w_loc w) ∧ db_ms (w_loc w') = db_ms (w_loc w) ∧
  (∀ a, a ∈ acs (w_loc w') → a ∈ acs (w_loc w)) ∧
  (∀ a, a ∈ acs (w_loc w) → ac_uid a ≠ u_uid user → a ∈ acs (w_loc w')) ∧
  (∀ a, a ∈ acs (w_loc w') → ac_uid a = u_uid user →
     Some (ac_uuid a) ≠ uuid ∧ Some (ac_code a) ≠ code) ∧
  (del_undef = true → uuid = None ∨ code = None →
     ∀ a, a ∈ acs (w_loc w') → ac_uid a ≠ u_uid user).
Proof.
  unfold deleteAccessCode. intros Hrun. erewrite bind_ok in Hrun by reflexivity. cbv zeta in Hrun.
  set (n := match _ with Some a => ac_ntfnId a | None => ntfnId end) in Hrun.
  minv Hrun. unfold t_delete in Hm. destruct (r_delete _ _) as [t|] eqn:Hd; [|done].
  injection Hm as <-. minv Hrun. injection Hrun as <- <-.
  assert (w_loc s = w_loc (set_loc (tb_set t) w)) as ->.
  { eapply (preserves_run (λ w', w_loc w' = _)); [|exact Hm|done].
    destruct (if_truthy n); [apply (pres_loc_sendRead (λ d, d = _))|apply preserves_ret]. }
  assert (∀ a, a ∈ r_rows t ↔ a ∈ acs (w_loc w) ∧ code_match del_undef (u_uid user) uuid code n a = false) as Hrows.
  { intros a. by rewrite (elem_r_delete _ _ _ a Hd). }
  unfold code_match in Hrows. setoid_rewrite andb_false_iff in Hrows.
  setoid_rewrite orb_false_iff in Hrows. setoid_rewrite orb_false_iff in Hrows.
  setoid_rewrite bool_decide_eq_false in Hrows.
  unfold acs. simpl. split_and!; try done.
  - intros a Ha. by apply Hrows in Ha as [? _].
  - intros a Ha Hu. apply Hrows. auto.
  - intros a [Ha [Hne|[[Huu Hc] _]]]%Hrows Hu; [done|].
    split; intros <-; simpl in *; by rewrite bool_decide_true in * by done.
  - intros Hdu Hnone a [Ha [Hne|[[Huu Hc] _]]]%Hrows Hu; [done|].
    destruct Hnone as [-> | ->]; simpl in *; congruence.
Qed.

(** resetting takes a USED code of the caller back to UNUSED, whatever
    other codes the caller holds: a user whose other code is active then
    holds two active codes, past the limit [createAccessRequest] enforces. *)
Theorem resetAccessCode_spec user code w b w' :
  db_ok (w_loc w) → resetAccessCode user code w = (Ok b, w') →
  ∃ a, a ∈ acs (w_loc w) ∧ ac_code a = code ∧ ac_uid a = u_uid user ∧ ac_status a = USED ∧
    replaced (ac_with_status UNUSED a) (w_loc w) (w_loc w') ∧
    (∀ x, x ∈ acs (w_loc w) → ac_uid x = u_uid user → is_active x = true →
       x ∈ acs (w_loc w') ∧ ac_with_status UNUSED a ∈ acs (w_loc w') ∧ x ≠ ac_with_status UNUSED a).
Proof.
  intros Hok Hrun. unfold resetAccessCode in Hrun.
  destruct (ac_findOne_code_dec w (u_uid user) code) as [(a & Hf & Ha & Hu & Hc)|(Hf & _)];
    rewrite (bind_ok _ _ _ _ _ Hf) in Hrun; [|done].
  case_bool_decide as Hst; [done|]. minv Hrun. injection Hrun as <- <-.
  apply ac_save_ok in Hm as (_ & Hrep & _).
  exists a. split_and!; try done. intros x Hx Hxu Hact.
  assert (ac_id x ≠ ac_id a) as Hid.
  { intros Heq. rewrite (ok_ac_id _ Hok x a Hx Ha Heq) in Hact. unfold is_active in Hact.
    by rewrite Hst in Hact. }
  split_and!; [apply Hrep; by right|apply Hrep; by left|]. intros ->. done.
Qed.
End access_props.

(** ** Capacity *)
Fixpoint all_digits (s : string) : bool :=
  match s with
  | EmptyString => true
  | String c s => bool_decide (is_Some (digit_val 10 c)) && all_digits s
  end.

Lemma digit_facts c :
  is_Some (digit_val 10 c) →
  is_space c = false ∧ c ≠ "-"%char ∧ c ≠ "+"%char ∧ c ≠ "x"%char ∧ c ≠ "X"%char ∧ c ≠ "m"%char.
Proof.
  destruct c as [[][][][][][][][]]; vm_compute;
    first [by intros [? ?] | intros _; split; [reflexivity|repeat split; intros [=]]].
Qed.

Lemma digits_m acc s : all_digits s = true → digits 10 acc (s +:+ "m") = digits 10 acc s.
Proof.
  revert acc. induction s as [|c s IH]; intros acc; [done|].
  change (String c s +:+ "m") with (String c (s +:+ "m")). simpl. intros [_ Hs]%andb_true_iff.
  destruct (digit_val 10 c); [by apply IH|done].
Qed.

Lemma drop_first_m s : all_digits s = true → drop_first "m"%char (s +:+ "m") = s.
Proof.
  induction s as [|c s IH]; [done|].
  change (String c s +:+ "m") with (String c (s +:+ "m")). simpl.
  intros [Hc Hs]%andb_true_iff. apply bool_decide_eq_true, digit_facts in Hc as (_ & _ & _ & _ & _ & Hm).
  rewrite decide_False by done. by rewrite IH.
Qed.

Lemma ends_with_m s : ends_with "m"%char (s +:+ "m") = true.
Proof.
  induction s as [|c s IH]; [done|].
  change (String c s +:+ "m") with (String c (s +:+ "m")).
  cbn [ends_with]. destruct (s +:+ "m"); done.
Qed.

(** A digit string, possibly followed by [m], parses as its digits. *)
Lemma parse_digits c s t :
  all_digits (String c s) = true → t = String c s ∨ t = String c s +:+ "m" →
  parseInt t = digits 10 None (String c s) ∧ parseInt10 t = digits 10 None (String c s).
Proof.
  intros Hd Ht. pose proof Hd as [Hc Hs]%andb_true_iff.
  apply bool_decide_eq_true, digit_facts in Hc as (Hsp & Hmi & Hpl & _ & _ & _).
  assert (∃ r, t = String c r ∧ digits 10 None t = digits 10 None (String c s) ∧
    strip_0x t = None) as (r & -> & Hdig & Hx).
  { destruct Ht as [-> | ->].
    - exists s. split_and!; try done. destruct s as [|b s]; [done|]. simpl in Hs.
      apply andb_true_iff in Hs as [Hb _].
      apply bool_decide_eq_true, digit_facts in Hb as (_ & _ & _ & Hx & HX & _).
      simpl. rewrite !(bool_decide_false (b = _)) by done. by rewrite andb_false_r.
    - exists (s +:+ "m"). split_and!; [done|by apply digits_m|].
      destruct s as [|b s]; [by simpl; rewrite andb_false_r|]. simpl in Hs.
      apply andb_true_iff in Hs as [Hb _].
      apply bool_decide_eq_true, digit_facts in Hb as (_ & _ & _ & Hx & HX & _).
      change (String c (String b s) +:+ "m") with (String c (String b (s +:+ "m"))). simpl.
      rewrite !(bool_decide_false (b = _)) by done. by rewrite andb_false_r. }
  unfold parseInt, parseInt10, parse_signed. cbn [trim_left]. rewrite Hsp.
  rewrite !decide_False by done. by rewrite Hx.
Qed.

(** the two readings of a Kubernetes CPU quantity disagree.  The
    quantity [n]m (n millicores) counts as [n] when a pod requests it, as
    Kubernetes defines it, but as [1000 * n] when it is a node's allocatable
    CPU: [parseInt] stops at the [m] and the fallback that strips it is never
    reached, so the capacity check takes the node for a thousand times
    larger. *)
Theorem allocatable_millicores s n :
  all_digits s = true → digits 10 None s = Some n → n ≠ 0 →
  cpu_request (s +:+ "m") = Some n ∧ allocatable (Some (s +:+ "m")) = Some (n * 1000).
Proof.
  intros Hd Hn Hz. destruct s as [|c s]; [done|].
  destruct (parse_digits c s (String c s +:+ "m") Hd) as [Hp _]; [by right|].
  destruct (parse_digits c s (String c s) Hd) as [_ Hq]; [by left|].
  split.
  - unfold cpu_request. by rewrite ends_with_m, drop_first_m, Hq.
  - unfold allocatable, from_option, id. rewrite Hp, Hn. by rewrite decide_False by lia.
Qed.

Lemma allocatable_millicores_witness :
  cpu_request "1930m" = Some 1930 ∧ allocatable (Some "1930m") = Some 1930000.
Proof. apply (allocatable_millicores "1930" 1930); [reflexivity|reflexivity|lia]. Defined.

(** ** Examples *)
#[global] Instance demo_RandomBytes : RandomBytes :=
  {| random_blocks _ _ := replicate 32 7; code_fuel := 1 |}.
#[global] Instance demo_Orm : Orm := {| find_undef := true; del_undef := true |}.
#[global] Instance demo_K8s : K8s := {| listNode := Ok [Some "4"]; listNamespacedPod := Ok [] |}.
#[global] Instance demo_Users : Users := {| users_by_uid u := [demo_profile u] |}.

Lemma demo_bytes n j : Forall is_byte (random_blocks n j).
Proof. apply Forall_replicate. unfold is_byte. lia. Qed.
Lemma demo_uuid n : truthy (uuid_of n) = true.
Proof. by apply bool_decide_eq_true. Qed.

Definition demo_code : AccessCode :=
  AcRow 7 "CCCCCCCCCCCCCCCC" "mark" "req-1" UNUSED None None (Some 5000).
Definition demo_code_world : world CC CDB :=
  World ∅ [] 0 1000 (MkDB (db_ws demo_db) (db_ms demo_db) (LTable [demo_code] 8)).

Lemma demo_acs : acs (w_loc demo_code_world) = [demo_code].
Proof. reflexivity. Qed.
Lemma demo_code_world_ok : db_ok (w_loc demo_code_world).
Proof.
  destruct demo_db_ok. split; try done; rewrite ?demo_acs; set_solver.
Qed.

Lemma createAccessRequest_admission_witness :
  ∃ w', createAccessRequest (demo_profile "ivan") None demo_code_world = (Ok tt, w') ∧
    canProvision demo_code_world = (Ok true, demo_code_world).
Proof.
  destruct (createAccessRequest (demo_profile "ivan") None demo_code_world) as [r w'] eqn:Hrun.
  assert (r = Ok tt) as ->.
  { change r with ((r, w').1). rewrite <- Hrun. vm_compute. reflexivity. }
  exists w'. split; [reflexivity|].
  destruct (createAccessRequest_admission (demo_profile "ivan") None demo_code_world _ _ demo_bytes eq_refl demo_uuid Hrun) as [_ H].
  by destruct (H eq_refl).
Defined.

Lemma consumeAccessCode_once_witness :
  ∃ w', consumeAccessCode (demo_profile "mark") "CCCCCCCCCCCCCCCC" demo_code_world = (Ok true, w') ∧
    consumeAccessCode (demo_profile "mark") "CCCCCCCCCCCCCCCC" w' =
      (Throw (HttpException 403 "ACCESS_CODE_ALREADY_USED"), w').
Proof.
  destruct (consumeAccessCode (demo_profile "mark") "CCCCCCCCCCCCCCCC" demo_code_world) as [r w'] eqn:Hrun.
  assert (r = Ok true) as ->.
  { change r with ((r, w').1). rewrite <- Hrun. vm_compute. reflexivity. }
  exists w'. split; [reflexivity|].
  destruct (consumeAccessCode_once _ _ _ _ _ demo_code_world_ok Hrun) as (a & _ & _ & _ & _ & _ & H).
  exact H.
Defined.

Lemma demo_consumable : consumable (demo_profile "mark") (w_now demo_code_world) demo_code.
Proof. split; [done|]. split; [done|]. simpl. lia. Qed.
Lemma demo_code_in : demo_code ∈ acs (w_loc demo_code_world).
Proof. rewrite demo_acs. by left. Qed.

Lemma consume_race_witness :
  ∃ r w', consume_interleaved (demo_profile "mark") "CCCCCCCCCCCCCCCC" demo_code_world = (r, w') ∧
    (r = Ok true ∨ r = Throw QueryFailed) ∧ is_ok r = true.
Proof.
  destruct (consume_interleaved (demo_profile "mark") "CCCCCCCCCCCCCCCC" demo_code_world) as [r w'] eqn:Hrun.
  exists r, w'. split; [done|]. split.
  - exact (consume_race _ _ _ _ _ _ demo_code_world_ok demo_code_in eq_refl demo_consumable Hrun).
  - change r with ((r, w').1). rewrite <- Hrun. vm_compute. reflexivity.
Defined.

(** The whole cycle, run: requested, approved with the mailed token, consumed
    with the code of the notice. *)
Definition cycle_requested : world CC CDB := (createAccessRequest (demo_profile "ivan") None demo_code_world).2.
Definition cycle_token : string := match w_out cycle_requested with [Mail _ _ tok] => tok | _ => "" end.
Definition cycle_approved : world CC CDB := (fulfillAccessRequest "approve" cycle_token cycle_requested).2.
Definition cycle_code : string :=
  match last (w_out cycle_approved) with
  | Some (Rmq _ _ (NotifyUser _ (Ntfn _ _ _ (WorkspaceAccessRequest _ code _)))) => code
  | _ => ""
  end.
Definition cycle_consumed (t : Z) : res bool * world CC CDB :=
  consumeAccessCode (demo_profile "ivan") cycle_code (at_now t cycle_approved).

Lemma access_lifecycle_witness :
  createAccessRequest (demo_profile "ivan") None demo_code_world = (Ok tt, cycle_requested) ∧
  fulfillAccessRequest "approve" cycle_token cycle_requested = (Ok tt, cycle_approved) ∧
  (∃ a, a ∈ acs (w_loc cycle_approved) ∧ ac_status a = UNUSED ∧ (cycle_consumed 2000).1 = Ok true ∧
    replaced (ac_mark_used 2000 a) (w_loc cycle_approved) (w_loc (cycle_consumed 2000).2)) ∧
  (cycle_consumed 900000000).1 = Throw (HttpException 400 "ACCESS_CODE_EXPIRED").
Proof.
  assert (∀ a, a ∈ acs (w_loc demo_code_world) → ac_uuid a ≠ uuid_of (w_rng demo_code_world)) as Hnew.
  { rewrite demo_acs. intros a [->|Ha%elem_of_nil]%elem_of_cons; [discriminate|done]. }
  assert (createAccessRequest (demo_profile "ivan") None demo_code_world = (Ok tt, cycle_requested)) as Hreq
    by (vm_compute; reflexivity).
  assert (fulfillAccessRequest "approve" cycle_token cycle_requested = (Ok tt, cycle_approved)) as Happ
    by (vm_compute; reflexivity).
  split; [exact Hreq|]. split; [exact Happ|].
  pose proof (access_lifecycle (demo_profile "ivan") None demo_code_world cycle_requested demo_code_world_ok demo_bytes eq_refl
    demo_uuid Hnew Hreq) as (to & req & tok & code & Hout & Hrest).
  assert (tok = cycle_token) as ->.
  { unfold cycle_token. rewrite Hout. reflexivity. }
  destruct (Hrest _ _ Happ) as [Hf|(_ & n & a & Hout2 & Ha & _ & Hst & _ & Hcon)]; [discriminate Hf|].
  assert (code = cycle_code) as -> by (unfold cycle_code; rewrite Hout2, last_snoc; reflexivity).
  split.
  - exists a. split; [exact Ha|]. split; [exact Hst|].
    specialize (Hcon 2000 _ _ (surjective_pairing (cycle_consumed 2000))). vm_compute (Z.leb 2000 _) in Hcon.
    destruct Hcon as [Hq|[Ht Hrep]]; [vm_compute in Hq; discriminate Hq|]. split; [exact Ht|exact Hrep].
  - specialize (Hcon 900000000 _ _ (surjective_pairing (cycle_consumed 900000000))).
    vm_compute (Z.leb 900000000 _) in Hcon. exact (proj1 Hcon).
Defined.

Definition demo_request : AccessRequestPayload := AccessReq "mark" "someone" "Some Name" None "req-1".
Lemma approve_replay_witness :
  ∃ w1 w2, consumeAccessCode (demo_profile "mark") "CCCCCCCCCCCCCCCC" demo_code_world = (Ok true, w1) ∧
    fulfillAccessRequest "approve" (request_token demo_request) w1 = (Ok tt, w2) ∧
    ∃ a, a ∈ acs (w_loc w2) ∧ consumable (demo_profile "mark") 1000 a.
Proof.
  destruct (consumeAccessCode (demo_profile "mark") "CCCCCCCCCCCCCCCC" demo_code_world) as [r w1] eqn:Hrun.
  destruct (fulfillAccessRequest "approve" (request_token demo_request) w1) as [r2 w2] eqn:Happ.
  assert (r = Ok true) as ->.
  { change r with ((r, w1).1). rewrite <- Hrun. vm_compute. reflexivity. }
  assert (r2 = Ok tt) as ->.
  { change r2 with ((r2, w2).1). rewrite <- Happ. change w1 with ((Ok true, w1).2). rewrite <- Hrun.
    vm_compute. reflexivity. }
  exists w1, w2. split; [done|]. split; [done|].
  destruct (approve_replay (demo_profile "mark") "CCCCCCCCCCCCCCCC" demo_code_world _ w1 (request_token demo_request) _ _ demo_code_world_ok ltac:(rewrite demo_acs; set_solver) Hrun
    (jwt_verify_sign _ _) ltac:(rewrite demo_acs; intros a [->|Ha%elem_of_nil]%elem_of_cons; done) Happ)
    as (a & Ha & _ & Hc). eauto.
Defined.

Lemma invitation_token_approves_witness :
  ∃ r w', fulfillAccessRequest "approve" (jwt_sign (SvcToken "workspace-api" "client" "ws-1"
      (DInvite (Invitation "n" "olga" "mark" "ws-1" 0 None))) SERVICE_SECRET) demo_code_world = (r, w') ∧
    is_ok r = true ∧ (r = Throw QueryFailed ∨ r = Ok tt ∧ ∃ a, a ∈ acs (w_loc w') ∧ ac_status a = UNUSED).
Proof.
  destruct (fulfillAccessRequest "approve" (jwt_sign (SvcToken "workspace-api" "client" "ws-1"
      (DInvite (Invitation "n" "olga" "mark" "ws-1" 0 None))) SERVICE_SECRET) demo_code_world) as [r w'] eqn:Hrun.
  exists r, w'. split; [done|]. split.
  - change r with ((r, w').1). rewrite <- Hrun. vm_compute. reflexivity.
  - opose proof (invitation_token_approves _ _ _ _ _ _ _ _ _ Hrun) as H;
      [reflexivity|exists demo_code; exact demo_code_in|].
    destruct H as [H|[H (a & a' & _ & Ha & _ & _ & Hs)]]; eauto.
Defined.

Lemma deleteAccessCode_own_witness :
  ∃ w', deleteAccessCode (demo_profile "ivan") (Some "req-1") None None demo_code_world = (Ok true, w') ∧
    demo_code ∈ acs (w_loc w').
Proof.
  destruct (deleteAccessCode (demo_profile "ivan") (Some "req-1") None None demo_code_world) as [r w'] eqn:Hrun.
  assert (r = Ok true) as ->.
  { change r with ((r, w').1). rewrite <- Hrun. vm_compute. reflexivity. }
  exists w'. split; [done|].
  destruct (deleteAccessCode_own _ _ _ _ _ _ _ Hrun) as (_ & _ & _ & _ & H & _).
  apply H; [exact demo_code_in|discriminate].
Defined.

Definition demo_used_world : world CC CDB :=
  World ∅ [] 0 1000 (MkDB (db_ws demo_db) (db_ms demo_db) (LTable [ac_mark_used 900 demo_code] 8)).
Lemma demo_used_world_ok : db_ok (w_loc demo_used_world).
Proof.
  assert (acs (w_loc demo_used_world) = [ac_mark_used 900 demo_code]) as Ha by reflexivity.
  destruct demo_db_ok. split; try done; rewrite ?Ha; set_solver.
Qed.
Lemma resetAccessCode_spec_witness :
  ∃ w', resetAccessCode (demo_profile "mark") "CCCCCCCCCCCCCCCC" demo_used_world = (Ok true, w') ∧
    ∃ a, a ∈ acs (w_loc w') ∧ ac_status a = UNUSED.
Proof.
  destruct (resetAccessCode (demo_profile "mark") "CCCCCCCCCCCCCCCC" demo_used_world) as [r w'] eqn:Hrun.
  assert (r = Ok true) as ->.
  { change r with ((r, w').1). rewrite <- Hrun. vm_compute. reflexivity. }
  exists w'. split; [done|].
  destruct (resetAccessCode_spec _ _ _ _ _ demo_used_world_ok Hrun) as (a & _ & _ & _ & _ & Hrep & _).
  exists (ac_with_status UNUSED a). split; [apply Hrep; by left|done].
Defined.
