(* ===== verification/WorkspaceService.v ===== *)
(** The workspace service as a whole: the requests its controllers accept
    ([manage.controller.ts], [invite.controller.ts]), each handled by one
    operation of the services, and what every reachable state satisfies. *)
From S2P Require Import Prelude JS Messages Keys Interfaces Entities Tokens Fixtures Invite Manage ManageUpdate ManageDelete Access AccessProps.

(** One constructor per route or message pattern. *)
Inductive request :=
| Create (user : User) (data : CreateDTO)
| Update (user : User) (data : UpdateDTO)
| UpdateStatus (uuid : option string) (status : WorkspaceStatus)
| All (user : User)
| CheckEligibility (user : User)
| AccessRequest (user : User) (reason : option string)
| AccessFulfill (action token : string)
| AccessConsume (user : User) (code : string)
| AccessReset (user : User) (code : string)
| AccessDelete (user : User) (reqId ntfnId code : option string)
| Downgrade (uid uuid : string)
| CheckMembership (uid workspaceUUID : string)
| DeleteWs (user : User) (workspaceUUID : string)
| DeleteOwned (ownerUid : string)
| InviteUser (user : User) (inviteeId workspaceUUID : string) (sshKey : option string)
| InviteAll (user : User) (inviteeIds : list string) (workspaceUUID : string) (sshKey : option string)
| Accept (user : User) (token : string)
| Ignore (user : User) (token : string).

Section service.
Context {C Tw Tm Ta : Type} `{!Cache C}.
Context `{!Repo Tw WorkspaceE Workspace, !Repo Tm MembershipE Membership,
          !Repo Ta AccessCodeE AccessCode}.
Context `{!Random, !RandomBytes, !JWT, !Secret, !Env, !Peers, !Orm, !K8s, !Users}.
Abbreviation W := (world C (DB Tw Tm Ta)).
Local Open Scope mon_scope.

(** Runs a request; the body of the answer is dropped. *)
Definition handle (r : request) : M W unit :=
  match r with
  | Create user data => createWorkspace user data ;;; ret tt
  | Update user data => updateWorkspace (u_uid user) data
  | UpdateStatus uuid status => updateWorkspaceStatus uuid status
  | All user => getAllWorkspaces user ;;; ret tt
  | CheckEligibility user => checkEligibility user
  | AccessRequest user reason => createAccessRequest user reason
  | AccessFulfill action token => fulfillAccessRequest action token
  | AccessConsume user code => consumeAccessCode user code ;;; ret tt
  | AccessReset user code => resetAccessCode user code ;;; ret tt
  | AccessDelete user reqId ntfnId code => deleteAccessCode user reqId ntfnId code ;;; ret tt
  | Downgrade uid uuid => downgradeWorkspace uid uuid
  | CheckMembership uid uuid => isUserMemberOf uid uuid ;;; ret tt
  | DeleteWs user uuid => deleteWorkspace (u_uid user) (Some uuid)
  | DeleteOwned uid => deleteOwnedWorkspaces uid ;;; ret tt
  | InviteUser user inviteeId uuid key => inviteUser (u_uid user) inviteeId uuid key true
  | InviteAll user inviteeIds uuid key => inviteAllUsers (u_uid user) inviteeIds uuid key
  | Accept user token => acceptInvitation (u_uid user) token ;;; ret tt
  | Ignore user token => ignoreInvitation (u_uid user) token
  end.

(** The service runs a request, or time passes, or another service changes
    the shared cache. *)
Inductive step : W → W → Prop :=
| step_handle r w : step w (handle r w).2
| step_time w t : w_now w ≤ t → step w (World (w_cache w) (w_out w) (w_rng w) t (w_loc w))
| step_cache w c : step w (World c (w_out w) (w_rng w) (w_now w) (w_loc w)).

Context `{!RepoLaws Tw WorkspaceE Workspace, !RepoLaws Tm MembershipE Membership,
          !RepoLaws Ta AccessCodeE AccessCode}.

Lemma ok_handle r : preserves (λ w : W, db_ok (w_loc w)) (handle r).
Proof.
  destruct r; cbn [handle];
    try (apply preserves_bind; [|intros ?; apply preserves_ret]).
  - apply ok_createWorkspace.
  - apply ok_updateWorkspace.
  - apply ok_updateWorkspaceStatus.
  - apply pres_getAllWorkspaces.
  - apply pres_checkEligibility.
  - apply ok_createAccessRequest.
  - apply ok_fulfillAccessRequest.
  - apply ok_consumeAccessCode.
  - apply ok_resetAccessCode.
  - apply ok_deleteAccessCode.
  - apply ok_downgradeWorkspace.
  - unfold isUserMemberOf. pres.
  - apply ok_deleteWorkspace.
  - apply ok_deleteOwnedWorkspaces.
  - apply pres_loc_inviteUser.
  - apply pres_loc_inviteAllUsers.
  - apply ok_acceptInvitation.
  - unfold ignoreInvitation, validateAccept. pres.
Qed.

(** C7: integrity of the workspace service's database.  From a well-formed
    database, whatever requests are served, in whatever order, failing or
    not, every membership refers to an existing workspace, uuids, codes and
    (workspace, user) pairs stay unique, and every role is one the service
    assigns. *)
Theorem service_integrity w w' : db_ok (w_loc w) → rtc step w w' → db_ok (w_loc w').
Proof.
  intros Hok Hsteps. induction Hsteps as [w|w w1 w' Hstep _ IH]; [done|].
  apply IH. destruct Hstep; [by apply ok_handle|done..].
Qed.
End service.

Lemma service_integrity_witness :
  db_ok (w_loc (handle (DeleteWs (demo_profile "olga") "ws-1") demo_world).2).
Proof.
  apply (service_integrity demo_world); [exact demo_world_ok|].
  apply rtc_once. constructor.
Defined.
