(* ===== verification/GwMembership.v ===== *)
(** The gateway's membership cache ([gateway/src/socket/membership.service.ts]):
    what the workspace service answered is kept per user and dropped when the
    workspace service announces a change. *)
From S2P Require Import Prelude JS Messages Keys Interfaces.
From Stdlib Require Import Lia.

(** The reply to [workspace.membership.check] on RabbitMQ. *)
Class MembershipRpc := { rpc_check : string → string → res MemberVal }.

Section membership.
Context {C X : Type} `{!Cache C, !MembershipRpc}.
Abbreviation W := (world C X).
Local Open Scope mon_scope.

Definition cacheMembership (uid workspaceUUID : string) (isMember : MemberVal)
    (cache : option CachedMembership) : M W unit :=
  cache_set (CACHEKEY_MEMBERSHIP uid) (CMembership (oset workspaceUUID isMember (default [] cache))) None.

Definition fetchMembership (uid workspaceUUID : string) (cache : option CachedMembership) : M W MemberVal :=
  match rpc_check uid workspaceUUID with
  | Throw e => throw e
  | Ok isMember => cacheMembership uid workspaceUUID isMember cache ;;; ret isMember
  end.

Definition checkMembership (uid workspaceUUID : string) : M W MemberVal :=
  cachedMemberships <- cache_membership uid ;;
  match cachedMemberships ≫= oget workspaceUUID with
  | Some v => ret v
  | None => fetchMembership uid workspaceUUID cachedMemberships
  end.

(** One entry of the [Map] of users to update; [f] changes the cached entry
    of the workspace if there is one. *)
Definition update_entry (f : CachedMembership → CachedMembership) (uuid uid : string)
    (cache : option CachedMembership) : M W unit :=
  match cache with
  | None => ret tt
  | Some m =>
      match oget uuid m with
      | Some _ => cache_set (CACHEKEY_MEMBERSHIP uid) (CMembership (f m)) None
      | None => ret tt
      end
  end.

(** The [Map] of uid to cached memberships has one entry per distinct uid. *)
Definition update_entries (f : CachedMembership → CachedMembership) (uids : list string)
    (uuid : string) : M W unit :=
  cachedMemberships <- mapM cache_membership (js_set uids) ;;
  forM (λ '(uid, cache), update_entry f uuid uid cache) (zip (js_set uids) cachedMemberships).

Definition invalidateRemovedMembers (uids : list string) (uuid : string) : M W unit :=
  update_entries (odel uuid) uids uuid.

Definition updateAddedMembers (uids : list string) (uuid : string) : M W unit :=
  update_entries (oset uuid (MBool true)) uids uuid.

Definition handleMembersModified (uuid : string) (added removed : list string) : M W unit :=
  invalidateRemovedMembers removed uuid ;;;
  updateAddedMembers added uuid.

Definition handleWorkspaceDeleted (uuid : string) (members : list string) : M W unit :=
  invalidateRemovedMembers members uuid.

(** [app.controller.ts]: the events of the workspace service. *)
Definition on_event (e : effect) : M W unit :=
  match e with
  | Redis channel _ (MembersModified uuid added removed) =>
      if bool_decide (channel = "workspace.members.modified")
      then handleMembersModified uuid added removed else ret tt
  | Redis channel _ (WorkspaceDeleted uuid members) =>
      if bool_decide (channel = "workspace.deleted")
      then handleWorkspaceDeleted uuid members else ret tt
  | _ => ret tt
  end.
End membership.

(** ** Properties *)
Section membership_props.
Context {C X : Type} `{!Cache C, !CacheLaws C}.
Abbreviation W := (world C X).
Implicit Types w : W.

(** The cached answer for a user and a workspace. *)
Definition cached_answer (c : C) (uid uuid : string) : option MemberVal :=
  membership_in c uid ≫= oget uuid.

(** Every cached answer is positive and true. *)
Definition coherent (member : string → string → Prop) (c : C) : Prop :=
  ∀ uid uuid v, cached_answer c uid uuid = Some v → mtruthy v = true ∧ member uuid uid.

(** What the gateway relies on: the workspace service answers only for
    members, and then with a truthy value. *)
Definition rpc_sound `{!MembershipRpc} (member : string → string → Prop) : Prop :=
  ∀ uid uuid v, rpc_check uid uuid = Ok v → mtruthy v = true ∧ member uuid uid.

Lemma checkMembership_run `{!MembershipRpc} uid uuid w :
  checkMembership uid uuid w =
  match cached_answer (w_cache w) uid uuid with
  | Some v => (Ok v, w)
  | None => match rpc_check uid uuid with
            | Throw e => (Throw e, w)
            | Ok v => (Ok v, set_cache (kv_set (CACHEKEY_MEMBERSHIP uid)
                 (CMembership (oset uuid v (default [] (membership_in (w_cache w) uid))), None)) w)
            end
  end.
Proof.
  unfold checkMembership, cached_answer, bind, cache_membership, gets. simpl.
  destruct (membership_in (w_cache w) uid ≫= oget uuid); [done|]. unfold fetchMembership.
  by destruct (rpc_check uid uuid).
Qed.

Lemma cached_answer_set c uid uuid v t u x :
  cached_answer (kv_set (CACHEKEY_MEMBERSHIP uid)
    (CMembership (oset uuid v (default [] (membership_in c uid))), t) c) u x =
  if decide (u = uid ∧ x = uuid) then Some v else cached_answer c u x.
Proof.
  unfold cached_answer. destruct (decide (u = uid)) as [->|Hne].
  - rewrite membership_in_set_eq. simpl. destruct (decide (x = uuid)) as [->|Hx].
    + rewrite oget_oset_eq, decide_True by done. done.
    + rewrite oget_oset_ne by done. rewrite decide_False by naive_solver.
      by destruct (membership_in c uid).
  - rewrite membership_in_set_ne by key_neq. by rewrite decide_False by naive_solver.
Qed.

Lemma checkMembership_decides `{!MembershipRpc} member uid uuid w :
  coherent member (w_cache w) → rpc_sound member →
  match checkMembership uid uuid w with
  | (Ok v, w') => (mtruthy v = true ∧ member uuid uid) ∧ w_out w' = w_out w
  | (Throw e, w') => rpc_check uid uuid = Throw e ∧ w_out w' = w_out w
  end.
Proof.
  intros Hco Hrpc. rewrite checkMembership_run.
  destruct (cached_answer (w_cache w) uid uuid) as [v|] eqn:Hc; [split; [by eapply Hco|done]|].
  destruct (rpc_check uid uuid) as [v|e] eqn:Hr; [|done]. split; [by apply Hrpc|done].
Qed.

(** the gateway's authorisation decision is sound.  As long as the cache
    holds only positive answers that are true and the workspace service
    answers only for members, a positive decision is given to members only,
    the cache stays that way, and a user the service refuses is refused. *)
Theorem checkMembership_sound `{!MembershipRpc} member uid uuid w :
  coherent member (w_cache w) → rpc_sound member →
  coherent member (w_cache (checkMembership uid uuid w).2) ∧
  match (checkMembership uid uuid w).1 with
  | Ok v => mtruthy v = true ∧ member uuid uid
  | Throw e => rpc_check uid uuid = Throw e ∧ cached_answer (w_cache w) uid uuid = None
  end.
Proof.
  intros Hco Hrpc. rewrite checkMembership_run.
  destruct (cached_answer (w_cache w) uid uuid) as [v|] eqn:Hc; simpl; [split; [done|by eapply Hco]|].
  destruct (rpc_check uid uuid) as [v|e] eqn:Hr; simpl; [|done].
  split; [|by apply Hrpc]. intros u x v'. rewrite cached_answer_set.
  case_decide as Heq; [destruct Heq; intros; simplify_eq; by apply Hrpc|apply Hco].
Qed.

(** *** Updates announced by the workspace service *)
Definition updated_entry (f : CachedMembership → CachedMembership) (uuid : string)
    (m : CachedMembership) : CachedMembership :=
  match oget uuid m with Some _ => f m | None => m end.

Lemma update_loop f uuid (c0 : C) l w :
  NoDup l → (∀ u, u ∈ l → membership_in (w_cache w) u = membership_in c0 u) →
  ∃ w', forM (λ '(uid, cache), update_entry f uuid uid cache) (zip l (membership_in c0 <$> l)) w = (Ok tt, w') ∧
    w_loc w' = w_loc w ∧ w_out w' = w_out w ∧
    (∀ u, membership_in (w_cache w') u =
       if decide (u ∈ l) then updated_entry f uuid <$> membership_in c0 u else membership_in (w_cache w) u).
Proof.
  revert w. induction l as [|u l IH]; intros w Hnd Hc.
  { by exists w. }
  apply NoDup_cons in Hnd as [Hu Hnd].
  assert (membership_in (w_cache w) u = membership_in c0 u) as Hcu by (apply Hc; by left).
  assert (∃ w1, update_entry f uuid u (membership_in c0 u) w = (Ok tt, w1) ∧ w_loc w1 = w_loc w ∧
    w_out w1 = w_out w ∧ membership_in (w_cache w1) u = updated_entry f uuid <$> membership_in c0 u ∧
    ∀ v, v ≠ u → membership_in (w_cache w1) v = membership_in (w_cache w) v)
    as (w1 & Hr & Hl1 & Ho1 & Hu1 & Hv1).
  { unfold update_entry. destruct (membership_in c0 u) as [m|]; [|by exists w].
    unfold updated_entry. simpl. destruct (oget uuid m); [|by exists w].
    eexists. split; [reflexivity|]. simpl. split_and!; try done; [by rewrite membership_in_set_eq|].
    intros v Hv. by rewrite membership_in_set_ne by key_neq. }
  destruct (IH w1 Hnd) as (w' & Hr' & Hl' & Ho' & Hm').
  { intros v Hv. rewrite Hv1 by set_solver. apply Hc. by right. }
  exists w'. cbn [fmap list_fmap zip zip_with forM]. split; [by mstep by exact Hr|].
  rewrite Hl', Ho'. split_and!; [done|done|]. intros v. rewrite Hm'.
  destruct (decide (v = u)) as [->|Hne].
  - rewrite decide_False by done. by rewrite decide_True by (by left).
  - destruct (decide (v ∈ l)); [by rewrite decide_True by (by right)|].
    rewrite decide_False by set_solver. by apply Hv1.
Qed.

Lemma update_entries_run f uids uuid w :
  ∃ w', update_entries f uids uuid w = (Ok tt, w') ∧ w_loc w' = w_loc w ∧ w_out w' = w_out w ∧
    (∀ u, membership_in (w_cache w') u =
       if decide (u ∈ uids) then updated_entry f uuid <$> membership_in (w_cache w) u
       else membership_in (w_cache w) u).
Proof.
  unfold update_entries.
  mstep by (apply (mapM_reads _ (λ uid w, membership_in (w_cache w) uid)); done).
  destruct (update_loop f uuid (w_cache w) (js_set uids) w (js_set_NoDup uids))
    as (w' & Hr & Hl & Ho & Hm); [done|].
  exists w'. split_and!; try done. intros u. rewrite Hm.
  destruct (decide (u ∈ uids)) as [Hin|Hin]; rewrite <- elem_of_js_set in Hin.
  - by rewrite decide_True.
  - by rewrite decide_False.
Qed.

Lemma handleWorkspaceDeleted_run uuid members w :
  ∃ w', handleWorkspaceDeleted uuid members w = (Ok tt, w') ∧ w_loc w' = w_loc w ∧ w_out w' = w_out w ∧
    (∀ u x, cached_answer (w_cache w') u x =
       if decide (u ∈ members ∧ x = uuid) then None else cached_answer (w_cache w) u x).
Proof.
  destruct (update_entries_run (odel uuid) members uuid w) as (w' & Hr & Hl & Ho & Hm).
  exists w'. split_and!; try done. intros u x. unfold cached_answer. rewrite Hm.
  destruct (decide (u ∈ members)) as [Hin|Hin]; [|by rewrite decide_False by naive_solver].
  destruct (membership_in (w_cache w) u) as [m|]; simpl; [|by case_decide].
  unfold updated_entry. destruct (decide (x = uuid)) as [->|Hx].
  - rewrite decide_True by done. destruct (oget uuid m) eqn:Hg; [by rewrite oget_odel_eq|done].
  - rewrite decide_False by naive_solver. destruct (oget uuid m); [by rewrite oget_odel_ne|done].
Qed.

Lemma handleMembersModified_run uuid added removed w :
  ∃ w', handleMembersModified uuid added removed w = (Ok tt, w') ∧ w_loc w' = w_loc w ∧
    w_out w' = w_out w ∧
    (∀ u x v, cached_answer (w_cache w') u x = Some v →
       (u ∉ removed ∨ x ≠ uuid) ∧ ∃ v0, cached_answer (w_cache w) u x = Some v0 ∧
         (v = v0 ∨ v = MBool true)).
Proof.
  destruct (handleWorkspaceDeleted_run uuid removed w) as (w1 & Hr1 & Hl1 & Ho1 & Hm1).
  destruct (update_entries_run (oset uuid (MBool true)) added uuid w1) as (w' & Hr & Hl & Ho & Hm).
  exists w'. unfold handleMembersModified. rewrite (bind_ok _ _ _ _ _ Hr1).
  split_and!; [done|congruence|congruence|]. intros u x v Hv.
  assert (∃ v0, cached_answer (w_cache w1) u x = Some v0 ∧ (v = v0 ∨ v = MBool true)) as (v0 & Hv0 & Hor).
  { revert Hv. unfold cached_answer. rewrite Hm. destruct (decide (u ∈ added)); [|eauto].
    destruct (membership_in (w_cache w1) u) as [m|]; simpl; [|done]. unfold updated_entry.
    destruct (oget uuid m) eqn:Hg; [|eauto]. destruct (decide (x = uuid)) as [->|Hx].
    - rewrite oget_oset_eq. intros; simplify_eq. eauto.
    - rewrite oget_oset_ne by done. eauto. }
  rewrite Hm1 in Hv0. case_decide as Hd; [done|]. split; [|eauto].
  destruct (decide (u ∈ removed)), (decide (x = uuid)); naive_solver.
Qed.
End membership_props.

Section membership_example.
Definition demo_member_of (uuid uid : string) : Prop := uid = "olga".
Instance demo_MembershipRpc : MembershipRpc :=
  {| rpc_check uid _ := if decide (uid = "olga") then Ok (MInfo "img" false)
                        else Throw (HttpException 403 "NO_WORKSPACE_MEMBERSHIP") |}.
Definition empty_world : world (gmap string (cval * option Z)) unit := World ∅ [] 0 0 tt.

Lemma checkMembership_sound_witness :
  (checkMembership "olga" "ws-1" empty_world).1 = Ok (MInfo "img" false) ∧ demo_member_of "ws-1" "olga".
Proof.
  assert (coherent demo_member_of (w_cache empty_world)) as Hco by done.
  assert (rpc_sound demo_member_of) as Hrpc.
  { intros uid uuid v. simpl. case_decide; [|done]. intros; simplify_eq. done. }
  pose proof (checkMembership_sound demo_member_of "olga" "ws-1" empty_world Hco Hrpc) as [_ H].
  split; [reflexivity|]. exact (proj2 H).
Defined.
End membership_example.
