(* ===== verification/Coherence.v ===== *)
(** The workspace service and the gateway together: the gateway's cached
    memberships agree with the workspace service's tables once it has
    processed the events the workspace service sends. *)
From S2P Require Import Prelude JS Messages Keys Interfaces Validation Entities Tokens Fixtures Invite Manage ManageUpdate ManageDelete GwMembership.
From Stdlib Require Import Lia.

Section coherence.
Context {C Tw Tm Ta : Type} `{!Cache C, !CacheLaws C}.
Context `{!Repo Tw WorkspaceE Workspace, !Repo Tm MembershipE Membership,
          !Repo Ta AccessCodeE AccessCode}.
Context `{!RepoLaws Tw WorkspaceE Workspace, !RepoLaws Tm MembershipE Membership,
          !RepoLaws Ta AccessCodeE AccessCode}.
Context `{!Random, !JWT, !Secret, !Env, !Peers}.
Context {X : Type}.
Abbreviation W := (world C (DB Tw Tm Ta)).
Implicit Types w : W.

(** The membership check that the gateway sends over RabbitMQ is served by
    [isUserMemberOf]. *)
Definition rpc_of (w : W) : MembershipRpc :=
  {| rpc_check uid uuid := (isUserMemberOf uid uuid w).1 |}.

Lemma rpc_of_sound w : db_ok (w_loc w) → rpc_sound (H := rpc_of w) (is_member (w_loc w)).
Proof. intros Hok uid uuid v Hv. by apply isUserMemberOf_Ok. Qed.

(** The event reaches the gateway, which shares the cache. *)
Definition gateway_after (w : W) (g : X) : world C X := World (w_cache w) [] 0 (w_now w) g.

Lemma deleted_member d r d' uuid u :
  db_ok d → r ∈ wss d → deleted_from d r d' →
  is_member d uuid u → uuid ≠ ws_uuid r → is_member d' uuid u.
Proof.
  intros Hok Hr (Hws & Hms & _) (r' & m & Hr' & Huu & Hm & Hw & Hu) Hne.
  assert (ws_id r' ≠ ws_id r) as Hid.
  { intros Heq. apply Hne. by rewrite <- Huu, (ok_ws_id _ Hok r' r Hr' Hr Heq). }
  exists r', m. rewrite Hws, Hms. split_and!; try done. by rewrite Hw.
Qed.

Lemma deleted_not_member d r d' u :
  deleted_from d r d' → db_ok d → r ∈ wss d → ¬ is_member d' (ws_uuid r) u.
Proof.
  intros (Hws & Hms & _) Hok Hr (r' & m & Hr' & Huu & _).
  apply Hws in Hr' as [Hr' Hne]. apply Hne. by apply (ok_ws_uuid _ Hok).
Qed.

(** revocation by deletion, end to end.  When the workspace service has
    deleted a workspace and the gateway has processed the last event it
    sent, the gateway's cache is again coherent with the tables, and every
    membership check for that workspace is refused, whoever asks. *)
Theorem deletion_revokes uid uuid w w' (g : X) :
  db_ok (w_loc w) → (∀ m, m ∈ mss (w_loc w) → colon_free (ms_userId m)) →
  coherent (is_member (w_loc w)) (w_cache w) →
  deleteWorkspace uid (Some uuid) w = (Ok tt, w') →
  ∃ e g', last (w_out w') = Some e ∧
    on_event e (gateway_after w' g) = (Ok tt, g') ∧
    coherent (is_member (w_loc w')) (w_cache g') ∧
    ∀ u, is_ok (@checkMembership C X _ (rpc_of w') u uuid g').1 = false.
Proof.
  intros Hok Hcf Hco Hrun.
  assert (∀ u, membership_in (w_cache w') u = membership_in (w_cache w) u) as Hsame.
  { intros u. by apply (preserves_run _ _ _ _ _ (frame_membership_delete u _ uid (Some uuid)) Hrun). }
  apply deleteWorkspace_ok in Hrun as (ws & members & es & Hws & Huu & Hdel & Hok' & _ & Hmem & _ & Hout);
    [|done..].
  destruct (handleWorkspaceDeleted_run uuid members (gateway_after w' g)) as (g' & Hr & Hl & _ & Hc).
  assert (coherent (is_member (w_loc w')) (w_cache g')) as Hco'.
  { intros u x v. rewrite Hc. case_decide as Hd; [done|]. unfold cached_answer. simpl. rewrite Hsame.
    intros Hv. destruct (Hco u x v Hv) as [Htr Hm]. split; [done|].
    eapply (deleted_member (w_loc w) ws); try done. intros ->. apply Hd. split; [|done].
    rewrite <- Huu in *. by apply Hmem. }
  exists (Redis "workspace.deleted" None (WorkspaceDeleted uuid members)), g'.
  split_and!; [|done|done|].
  - rewrite Hout, app_assoc, last_app. done.
  - intros u. assert (¬ is_member (w_loc w') uuid u) as Hno.
    { rewrite <- Huu. by eapply deleted_not_member. }
    rewrite checkMembership_run.
    destruct (cached_answer (w_cache g') u uuid) as [v|] eqn:Ha; [by apply Hco' in Ha as [_ ?]|].
    destruct (rpc_check u uuid) as [v|e] eqn:Hrpc; [|done].
    by apply (rpc_of_sound w' Hok') in Hrpc as [_ ?].
Qed.

(** a members update that returns is followed by the gateway too: once
    the announced event is processed, no removed user has a cached
    membership of the workspace left, and the cache is coherent with the new
    tables. *)
Theorem members_update_revokes uid data id req w w' (g : X) :
  db_ok (w_loc w) → coherent (is_member (w_loc w)) (w_cache w) →
  up_id data = Some id → up_members data = Some req →
  updateWorkspace uid data w = (Ok tt, w') →
  ∃ e g', last (w_out w') = Some e ∧
    on_event e (gateway_after w' g) = (Ok tt, g') ∧
    coherent (is_member (w_loc w')) (w_cache g').
Proof.
  intros Hok Hco Hid Hreq Hrun.
  pose proof (preserves_run _ _ _ _ _ (cache_updateWorkspace (w_cache w) uid data) Hrun eq_refl) as Hcache.
  apply (updateWorkspace_members_ok uid data id req) in Hrun
    as (r & es & Hr & Hrid & _ & Hws & Hms & _ & added & removed & Hout & Hadd & Hrem); [|done..].
  destruct (handleMembersModified_run (ws_uuid r) added removed (gateway_after w' g))
    as (g' & Hg & _ & _ & Hc).
  exists (Redis "workspace.members.modified" None (MembersModified (ws_uuid r) added removed)), g'.
  split_and!; [by rewrite Hout, app_assoc, last_app|done|].
  intros u x v Hv. apply Hc in Hv as (Hor & v0 & Hv0 & Hvv). simpl in Hv0. rewrite Hcache in Hv0.
  destruct (Hco u x v0 Hv0) as [Htr Hm]. split; [destruct Hvv; by subst|].
  destruct Hm as (r' & m & Hr' & Huu & Hm & Hw & Hu).
  destruct (decide (ws_id r' = id)) as [Heq|Hne].
  - assert (r' = r) as -> by (apply (ok_ws_id _ Hok); congruence || done).
    exists (edited data r), m. rewrite Hws, Hms, edited_id, edited_uuid. split_and!; try done; [by left|].
    intros _. destruct (decide (u ∈ req)) as [|Hnr]; [by rewrite Hu|].
    destruct Hor as [Hor|Hor]; [|done]. destruct Hor. apply Hrem. split; [|done]. by exists r, m.
  - exists r', m. rewrite Hws, Hms, elem_of_cons, elem_of_lfilter. split_and!; try done.
    + right. split; [done|]. by rewrite bool_decide_false.
    + intros ?. congruence.
Qed.
End coherence.

(** ** Examples: one user's membership is cached, then revoked. *)
Definition demo_cached_world : world CC CDB :=
  World {[CACHEKEY_MEMBERSHIP "mark" := (CMembership [("ws-1", MInfo "hide-env-go" false)], None)]}
    [] 0 1000 demo_db.

Lemma demo_mark_member : is_member (w_loc demo_cached_world) "ws-1" "mark".
Proof.
  exists demo_ws, demo_member. unfold wss, mss. rewrite !list_r_rows. simpl.
  split_and!; try done; set_solver.
Qed.

Lemma demo_cached_coherent : coherent (is_member (w_loc demo_cached_world)) (w_cache demo_cached_world).
Proof.
  intros u x v. unfold cached_answer, membership_in. simpl. rewrite lookup_singleton.
  case_decide as Hd; [|done]. apply (inj CACHEKEY_MEMBERSHIP) in Hd as <-. simpl.
  case_decide as Hx; [|done]. intros [= <-]. subst. split; [done|]. exact demo_mark_member.
Qed.

Lemma demo_cached_world_ok : db_ok (w_loc demo_cached_world).
Proof. exact demo_db_ok. Qed.

Lemma deletion_revokes_witness :
  ∃ w' e g', deleteWorkspace "olga" (Some "ws-1") demo_cached_world = (Ok tt, w') ∧
    last (w_out w') = Some e ∧ on_event e (gateway_after w' tt) = (Ok tt, g') ∧
    is_ok (@checkMembership _ _ _ (rpc_of w') "mark" "ws-1" g').1 = false.
Proof.
  destruct (deleteWorkspace "olga" (Some "ws-1") demo_cached_world) as [r w'] eqn:Hrun.
  assert (r = Ok tt) as ->.
  { change r with ((r, w').1). rewrite <- Hrun. vm_compute. reflexivity. }
  destruct (deletion_revokes "olga" "ws-1" demo_cached_world w' tt demo_cached_world_ok)
    as (e & g' & He & Hg & _ & Hck); [|exact demo_cached_coherent|exact Hrun|].
  - unfold mss. rewrite list_r_rows. simpl. intros m Hm.
    repeat (apply elem_of_cons in Hm as [->|Hm]); [done|done|by apply elem_of_nil in Hm].
  - exists w', e, g'. split_and!; [done|done|done|apply Hck].
Defined.

Definition demo_remove_mark : UpdateDTO := MkUpdate (Some 1) None None (Some ["olga"]) None.
Lemma members_update_revokes_witness :
  ∃ w' e g', updateWorkspace "olga" demo_remove_mark demo_cached_world = (Ok tt, w') ∧
    last (w_out w') = Some e ∧ on_event e (gateway_after w' tt) = (Ok tt, g') ∧
    coherent (is_member (w_loc w')) (w_cache g').
Proof.
  destruct (updateWorkspace "olga" demo_remove_mark demo_cached_world) as [r w'] eqn:Hrun.
  assert (r = Ok tt) as ->.
  { change r with ((r, w').1). rewrite <- Hrun. vm_compute. reflexivity. }
  destruct (members_update_revokes "olga" demo_remove_mark 1 ["olga"] demo_cached_world w' tt
    demo_cached_world_ok demo_cached_coherent eq_refl eq_refl Hrun) as (e & g' & He & Hg & Hc).
  exists w', e, g'. done.
Defined.

