(* ===== verification/Presence.v ===== *)
(** Presence of users and workspaces in the gateway
    ([gateway/src/socket/presence.service.ts]): sessions and workspaces are
    active, then inactive, then expire, driven by the time-to-live of marker
    keys in the cache. *)
From S2P Require Import Prelude JS Messages Keys Interfaces GwMembership.
From Stdlib Require Import Lia.

Section presence.
Context {C X : Type} `{!Cache C, !MembershipRpc, !Env} {Net : Network}.
Abbreviation W := (world C X).
Local Open Scope mon_scope.

Definition wsPingTimeout : Z := nan_or (env_parseInt "WORKSPACE_PING_TIMEOUT") 20000.
Definition wsActivityTimeout : Z := nan_or (env_parseInt "WORKSPACE_ACTIVITY_TIMEOUT") 300000.
Definition sessionPingTimeout : Z := nan_or (env_parseInt "SESSION_PING_TIMEOUT") 20000.
Definition sessionActivityTimeout : Z := nan_or (env_parseInt "SESSION_ACTIVITY_TIMEOUT") 360000.

Definition session_with_state (st : ActState) (s : CachedSession) : CachedSession :=
  Session st (s_socketId s) (s_gatewayId s) (s_wsUuid s).
Definition ws_with_state (st : ActState) (x : CachedWorkspace) : CachedWorkspace :=
  CWs st (c_fs x) (c_dirs x) (c_docs x) (c_sshs x).
Definition ws_with_docs (d : gmap Z string) (x : CachedWorkspace) : CachedWorkspace :=
  CWs (c_state x) (c_fs x) (c_dirs x) d (c_sshs x).
Definition ws_with_sshs (d : gmap string string) (x : CachedWorkspace) : CachedWorkspace :=
  CWs (c_state x) (c_fs x) (c_dirs x) (c_docs x) d.
Definition ws_with_dirs (d : list (string * list string)) (x : CachedWorkspace) : CachedWorkspace :=
  CWs (c_state x) (c_fs x) d (c_docs x) (c_sshs x).

(** Mutates the presence object; the result is the object afterwards. *)
Definition setSessionState (presence : CachedPresence) (uid sessionId : string) (state : ActState) :
    M W CachedPresence :=
  match oget sessionId presence with
  | None => throw TypeError
  | Some s =>
      let presence := oset sessionId (session_with_state state s) presence in
      cache_set (CACHEKEY_PRESENCE uid) (CPresence presence) None ;;;
      match state with
      | inactive => cache_set (CACHEKEY_PRESENCE_SESSION uid sessionId) (CFlag 0) (Some sessionActivityTimeout)
      | active => cache_set (CACHEKEY_PRESENCE_SESSION uid sessionId) (CFlag 1) (Some sessionPingTimeout)
      end ;;;
      ret presence
  end.

Definition setWorkspaceState (workspace : option CachedWorkspace) (uid sessionId : string)
    (wsUuid : option string) (state : ActState) : M W unit :=
  match workspace, wsUuid with
  | Some workspace, Some wsUuid =>
      if truthy wsUuid then
        cache_set (CACHEKEY_WORKSPACE wsUuid) (CWorkspace (ws_with_state state workspace)) None ;;;
        match state with
        | inactive => cache_set (CACHEKEY_PRESENCE_WORKSPACE uid sessionId wsUuid) (CFlag 0) (Some wsActivityTimeout)
        | active => cache_set (CACHEKEY_PRESENCE_WORKSPACE uid sessionId wsUuid) (CFlag 1) (Some wsPingTimeout)
        end
      else ret tt
  | _, _ => ret tt
  end.

(** [session.ping]; the watchers of the workspace's root, when the session is
    attached to the pinged workspace. *)
Definition handlePresenceMessage (uid sessionId : string) (presence : CachedPresence)
    (uuid : option string) : M W (option (list string)) :=
  presence <- setSessionState presence uid sessionId active ;;
  match if_truthy (oget sessionId presence ≫= s_wsUuid) with
  | None => ret None
  | Some wsUuid =>
      if bool_decide (Some wsUuid = uuid) then
        isMember <- checkMembership uid wsUuid ;;
        if mtruthy isMember then
          workspace <- cache_workspace wsUuid ;;
          setWorkspaceState workspace uid sessionId (Some wsUuid) active ;;;
          ret (workspace ≫= λ x, oget "/workspace/" (c_dirs x))
        else ret None
      else ret None
  end.

(** The session, if any, through which a user is attached to a workspace. *)
Definition attached_session (wsUuid : string) (p : option CachedPresence) : option string :=
  p ≫= λ p, fst <$> ofind (λ s, bool_decide (s_wsUuid s = Some wsUuid)) p.

(** The users watching some directory of the workspace. *)
Definition watchers (x : CachedWorkspace) : list string := js_set (concat (ovals (c_dirs x))).

Definition sendDisconnect (code uid sessionId : string) : M W unit :=
  emit (Redis "socket.send" (Some (meta_us uid sessionId))
    (SocketSend uid sessionId "env" (EnvDisconnect code))).

Definition for_sessions (f : string → string → M W unit) (l : list (string * option string)) : M W unit :=
  forM (λ '(uid, sid), match if_truthy sid with Some sid => f uid sid | None => ret tt end) l.

Definition dispose_url (wsUuid : string) : string := "http://provisioner/api/dispose?uuid=" +:+ wsUuid.

(** The workspace's entry goes; what follows depends on the provisioner. *)
Definition handleWorkspaceExpiry (wsUuid : string) : M W unit :=
  workspace <- cache_workspace wsUuid ;;
  match workspace with
  | Some x =>
      let userIds := watchers x in
      presences <- mapM cache_presence userIds ;;
      let sessionIds := attached_session wsUuid <$> presences in
      for_sessions (λ uid sid, cache_del (CACHEKEY_PRESENCE_WORKSPACE uid sid wsUuid)) (zip userIds sessionIds) ;;;
      for_sessions (sendDisconnect "INACTIVE_TIMEOUT") (zip userIds sessionIds)
  | None => ret tt
  end ;;;
  cache_del (CACHEKEY_WORKSPACE wsUuid) ;;;
  fetch "POST" (dispose_url wsUuid).

Definition handleSessionExpiry (presence : CachedPresence) (uid sessionId : string) : M W unit :=
  match oget sessionId presence with
  | None => throw TypeError
  | Some s =>
      emit (Redis ("gateway." +:+ s_gatewayId s) None (SocketClose (s_socketId s))) ;;;
      match if_truthy (s_wsUuid s) with
      | Some wsUuid => handleWorkspaceExpiry wsUuid
      | None => ret tt
      end ;;;
      let presence := odel sessionId presence in
      match presence with
      | [] => cache_del (CACHEKEY_PRESENCE uid)
      | _ => cache_set (CACHEKEY_PRESENCE uid) (CPresence presence) None
      end
  end.

Definition handleStaleSession (uid sessionId : string) : M W unit :=
  presence <- cache_presence uid ;;
  match presence with
  | None => ret tt
  | Some presence =>
      match oget sessionId presence with
      | None => ret tt
      | Some session =>
          match s_state session with
          | active =>
              match if_truthy (s_wsUuid session) with
              | Some wsUuid =>
                  workspace <- cache_workspace wsUuid ;;
                  setWorkspaceState workspace uid sessionId (Some wsUuid) inactive
              | None => ret tt
              end ;;;
              setSessionState presence uid sessionId inactive ;;;
              ret tt
          | inactive => handleSessionExpiry presence uid sessionId
          end
      end
  end.

Definition handleStaleWorkspace (uid sessionId wsUuid : string) : M W unit :=
  workspace <- cache_workspace wsUuid ;;
  match workspace with
  | None => ret tt
  | Some x =>
      match c_state x with
      | active => setWorkspaceState (Some x) uid sessionId (Some wsUuid) inactive
      | inactive => handleWorkspaceExpiry wsUuid
      end
  end.

(** [const [uid, sessionId, wsUuid] = parts], of which some may be missing. *)
Definition handleStalePresence (parts : list string) : M W unit :=
  let uid := default "undefined" (parts !! 0%nat) in
  let sessionId := default "undefined" (parts !! 1%nat) in
  match if_truthy (parts !! 2%nat) with
  | None => handleStaleSession uid sessionId
  | Some wsUuid => handleStaleWorkspace uid sessionId wsUuid
  end.
End presence.
