(* ===== verification/PresenceProps.v ===== *)
(** Properties of presence: how sessions and workspaces expire, and that
    every session the gateway records has a pending timer. *)
From S2P Require Import Prelude JS Messages Keys Interfaces GwMembership Presence.
From Stdlib Require Import Lia.

Section presence_props.
Context {C X : Type} `{!Cache C, !CacheLaws C, !MembershipRpc, !Env} {Net : Network}.
Abbreviation W := (world C X).
Implicit Types w : W.

(** The marker value and its time to live for a state. *)
Definition session_marker (st : ActState) : cval * option Z :=
  match st with
  | active => (CFlag 1, Some sessionPingTimeout)
  | inactive => (CFlag 0, Some sessionActivityTimeout)
  end.
Definition ws_marker (st : ActState) : cval * option Z :=
  match st with
  | active => (CFlag 1, Some wsPingTimeout)
  | inactive => (CFlag 0, Some wsActivityTimeout)
  end.

Definition session_cache (p : CachedPresence) (uid sid : string) (st : ActState) (c : C) : C :=
  kv_set (CACHEKEY_PRESENCE_SESSION uid sid) (session_marker st)
    (kv_set (CACHEKEY_PRESENCE uid) (CPresence p, None) c).

Lemma setSessionState_run p uid sid st s w :
  oget sid p = Some s →
  let p' := oset sid (session_with_state st s) p in
  setSessionState p uid sid st w = (Ok p', set_cache (session_cache p' uid sid st) w).
Proof. intros Hs. unfold setSessionState. rewrite Hs. by destruct st. Qed.

Definition ws_cache (x : CachedWorkspace) (uid sid ws : string) (st : ActState) (c : C) : C :=
  kv_set (CACHEKEY_PRESENCE_WORKSPACE uid sid ws) (ws_marker st)
    (kv_set (CACHEKEY_WORKSPACE ws) (CWorkspace (ws_with_state st x), None) c).

Lemma setWorkspaceState_run x uid sid ws st w :
  truthy ws = true →
  setWorkspaceState (Some x) uid sid (Some ws) st w = (Ok tt, set_cache (ws_cache x uid sid ws st) w).
Proof. intros Ht. unfold setWorkspaceState. rewrite Ht. by destruct st. Qed.

(** The key families that hold no session and no session marker. *)
Inductive other_key : string → Prop :=
| other_key_ws ws : other_key (CACHEKEY_WORKSPACE ws)
| other_key_pws u s ws : other_key (CACHEKEY_PRESENCE_WORKSPACE u s ws)
| other_key_profile u : other_key (CACHEKEY_USER_PROFILE u)
| other_key_membership u : other_key (CACHEKEY_MEMBERSHIP u)
| other_key_users u : other_key ("users:" +:+ u)
| other_key_templates : other_key "templates".

Lemma other_key_presence k u : other_key k → colon_free u → k ≠ CACHEKEY_PRESENCE u.
Proof. intros [] Hu; key_neq. Qed.
Lemma other_key_session k u s : other_key k → colon_free u → colon_free s → k ≠ CACHEKEY_PRESENCE_SESSION u s.
Proof. intros [] Hu Hs; key_neq. Qed.

(** Two caches that agree on the presence of colon-free users and their
    markers. *)
Definition same_sessions (c c' : C) : Prop :=
  (∀ u, colon_free u → presence_in c' u = presence_in c u) ∧
  (∀ u s, colon_free u → colon_free s →
     kv_get (CACHEKEY_PRESENCE_SESSION u s) c' = kv_get (CACHEKEY_PRESENCE_SESSION u s) c).

#[local] Instance same_sessions_refl : Reflexive same_sessions.
Proof. by intros c. Qed.
#[local] Instance same_sessions_trans : Transitive same_sessions.
Proof.
  intros c1 c2 c3 [H1 H2] [H3 H4]. split; intros.
  - rewrite H3 by done. by apply H1.
  - rewrite H4 by done. by apply H2.
Qed.

Lemma same_sessions_set k v c : other_key k → same_sessions c (kv_set k v c).
Proof.
  intros Hk. split; intros.
  - apply presence_in_set_ne. by apply other_key_presence.
  - rewrite kv_get_set_ne; [done|]. apply not_eq_sym. by apply other_key_session.
Qed.
Lemma same_sessions_del k c : other_key k → same_sessions c (kv_del k c).
Proof.
  intros Hk. split; intros.
  - apply presence_in_del_ne. by apply other_key_presence.
  - rewrite kv_get_del_ne; [done|]. apply not_eq_sym. by apply other_key_session.
Qed.

Hint Constructors other_key : core.


Lemma same_set (c0 : C) k v t :
  other_key k → preserves (λ w : W, same_sessions c0 (w_cache w)) (cache_set k v t).
Proof. intros Hk w Hw. etrans; [exact Hw|]. by apply same_sessions_set. Qed.
Lemma same_del (c0 : C) k :
  other_key k → preserves (λ w : W, same_sessions c0 (w_cache w)) (cache_del k).
Proof. intros Hk w Hw. etrans; [exact Hw|]. by apply same_sessions_del. Qed.
Hint Resolve same_set same_del : pres.

Lemma same_setWorkspaceState c0 x uid sid ws st :
  preserves (λ w : W, same_sessions c0 (w_cache w)) (setWorkspaceState x uid sid ws st).
Proof. unfold setWorkspaceState. pres. Qed.
Lemma same_handleWorkspaceExpiry c0 ws :
  preserves (λ w : W, same_sessions c0 (w_cache w)) (handleWorkspaceExpiry ws).
Proof. unfold handleWorkspaceExpiry, for_sessions, sendDisconnect. pres. Qed.
Hint Resolve same_setWorkspaceState same_handleWorkspaceExpiry : pres.

Lemma pres_out_handleWorkspaceExpiry o ws :
  preserves (λ w : W, o `prefix_of` w_out w) (handleWorkspaceExpiry ws).
Proof. unfold handleWorkspaceExpiry, for_sessions, sendDisconnect. pres. Qed.

(** The outcome of asking for the disposal of a workspace. *)
Definition dispose_result (ws : string) (t : Z) : res unit :=
  if reachable (dispose_url ws) t then Ok tt else Throw TypeError.

Lemma handleWorkspaceExpiry_run ws w :
  ∃ w', handleWorkspaceExpiry ws w = (dispose_result ws (w_now w), w') ∧
    same_sessions (w_cache w) (w_cache w') ∧ w_loc w' = w_loc w.
Proof.
  assert (∃ w', handleWorkspaceExpiry ws w = (dispose_result ws (w_now w), w')) as [w' Hr].
  { assert (∀ w1, w_now w1 = w_now w →
      ∃ w', bind (cache_del (CACHEKEY_WORKSPACE ws)) (λ _, fetch "POST" (dispose_url ws)) w1 =
        (dispose_result ws (w_now w), w')) as Hend.
    { intros w1 Hn1. mstep by done. rewrite fetch_run. simpl. rewrite Hn1. by eexists. }
    unfold handleWorkspaceExpiry. mstep by done.
    destruct (workspace_in (w_cache w) ws) as [x|]; [|rewrite (bind_ok _ _ w tt w) by done; by apply Hend].
    assert (∀ f (l : list (string * option string)) w0, (∀ u s w0, ∃ w1, f u s w0 = (Ok tt, w1)) →
      ∃ w1, for_sessions (C:=C) (X:=X) f l w0 = (Ok tt, w1)) as Hfor.
    { intros f l w0 Hf. apply forM_total. intros [u s] w1. destruct (if_truthy s); [apply Hf|by eexists]. }
    set (us := watchers x).
    assert (mapM cache_presence us w = (Ok ((λ u, presence_in (w_cache w) u) <$> us), w)) as Hm
      by (apply (mapM_reads _ (λ uid w, presence_in (w_cache w) uid)); done).
    set (l := zip us (attached_session ws <$> ((λ u, presence_in (w_cache w) u) <$> us))).
    destruct (Hfor (λ uid sid, cache_del (CACHEKEY_PRESENCE_WORKSPACE uid sid ws)) l w) as [w1 H1];
      [intros; by eexists|].
    destruct (Hfor (sendDisconnect "INACTIVE_TIMEOUT") l w1) as [w2 H2]; [intros; by eexists|].
    assert (∀ f w0 w3, (∀ u s, preserves (λ w', w_now w' = w_now w) (f u s)) → w_now w0 = w_now w →
      for_sessions (C:=C) (X:=X) f l w0 = (Ok tt, w3) → w_now w3 = w_now w) as Hnow.
    { intros f w0 w3 Hf Hw0 Hrun. eapply (preserves_run (λ w', w_now w' = w_now w)); [|exact Hrun|done].
      unfold for_sessions. pres. }
    assert (w_now w2 = w_now w) as Hn2.
    { eapply (Hnow (sendDisconnect "INACTIVE_TIMEOUT")); [by intros u s w0| |exact H2].
      eapply (Hnow (λ uid sid, cache_del (CACHEKEY_PRESENCE_WORKSPACE uid sid ws))); [by intros u s w0|done|exact H1]. }
    erewrite bind_ok; [by apply Hend|]. cbv zeta. rewrite (bind_ok _ _ _ _ _ Hm).
    rewrite (bind_ok _ _ _ _ _ H1). exact H2. }
  exists w'. split; [done|]. split.
  - eapply (preserves_run _ _ _ _ _ (same_handleWorkspaceExpiry (w_cache w) ws) Hr). done.
  - eapply (preserves_run (λ w', w_loc w' = _)); [|exact Hr|done].
    unfold handleWorkspaceExpiry, for_sessions, sendDisconnect. pres; intros w0 Hw0; rewrite ?fetch_run; done.
Qed.

(** The presence of a user after the session [sid] is gone. *)
Definition without_session (p : CachedPresence) (sid : string) : option CachedPresence :=
  match odel sid p with [] => None | q => Some q end.

(** What the disposal that comes with a session's expiry answers. *)
Definition expiry_result (s : CachedSession) (t : Z) : res unit :=
  match if_truthy (s_wsUuid s) with Some ws => dispose_result ws t | None => Ok tt end.

(** A failed disposal comes before the session is removed. *)
Lemma handleSessionExpiry_run p uid sid s w :
  colon_free uid → oget sid p = Some s →
  ∃ w', handleSessionExpiry p uid sid w = (expiry_result s (w_now w), w') ∧
    presence_in (w_cache w') uid =
      (if is_ok (expiry_result s (w_now w)) then without_session p sid else presence_in (w_cache w) uid) ∧
    (∀ v, v ≠ uid → colon_free v → presence_in (w_cache w') v = presence_in (w_cache w) v) ∧
    (∀ v s', colon_free v → colon_free s' →
       kv_get (CACHEKEY_PRESENCE_SESSION v s') (w_cache w') =
       kv_get (CACHEKEY_PRESENCE_SESSION v s') (w_cache w)) ∧
    Redis ("gateway." +:+ s_gatewayId s) None (SocketClose (s_socketId s)) ∈ w_out w'.
Proof.
  intros Hcf Hs. unfold handleSessionExpiry. rewrite Hs.
  set (e := Redis _ _ _). mstep by done. set (w0 := add_out e w).
  assert (∃ w1, match if_truthy (s_wsUuid s) with Some x => handleWorkspaceExpiry x | None => ret tt end w0
    = (expiry_result s (w_now w), w1) ∧ same_sessions (w_cache w) (w_cache w1) ∧ e ∈ w_out w1)
    as (w1 & Hr & [Hp Hk] & He).
  { unfold expiry_result. destruct (if_truthy (s_wsUuid s)) as [x|].
    - destruct (handleWorkspaceExpiry_run x w0) as (w1 & Hr & Hsame & _). exists w1.
      split_and!; try done. apply (run_grows _ _ _ _ (λ o, pres_out_handleWorkspaceExpiry o x)) in Hr as [es ->].
      unfold w0. simpl. set_solver.
    - exists w0. split_and!; try done. unfold w0. simpl. set_solver. }
  destruct (expiry_result s (w_now w)) as [[]|err] eqn:Hres.
  2:{ exists w1. split; [by mfail by exact Hr|]. simpl. split_and!; try done; [by apply Hp|].
      intros v _ Hv. by apply Hp. }
  mstep by exact Hr. cbv zeta. unfold without_session.
  destruct (odel sid p) as [|y q]; (eexists; split; [done|]); simpl; split_and!; try done.
  - apply presence_in_del_eq.
  - intros v Hv Hcv. rewrite presence_in_del_ne by key_neq. by apply Hp.
  - intros v s' Hv Hs'. rewrite kv_get_del_ne by key_neq. by apply Hk.
  - apply presence_in_set_eq.
  - intros v Hv Hcv. rewrite presence_in_set_ne by key_neq. by apply Hp.
  - intros v s' Hv Hs'. rewrite kv_get_set_ne by key_neq. by apply Hk.
Qed.

Lemma handleStaleSession_active uid sid p s w :
  colon_free uid → colon_free sid → presence_in (w_cache w) uid = Some p →
  oget sid p = Some s → s_state s = active →
  ∃ c, same_sessions (w_cache w) c ∧
    handleStaleSession uid sid w =
    (Ok tt, set_cache (λ _, session_cache (oset sid (session_with_state inactive s) p) uid sid inactive c) w).
Proof.
  intros Hu Hsid Hp Hs Hst. unfold handleStaleSession.
  mstep by (unfold cache_presence, gets; rewrite Hp; done). rewrite Hs, Hst.
  assert (∃ c, same_sessions (w_cache w) c ∧
    match if_truthy (s_wsUuid s) with
    | Some ws => (workspace <- cache_workspace ws ;; setWorkspaceState workspace uid sid (Some ws) inactive)%mon
    | None => ret tt end w = (Ok tt, set_cache (λ _, c) w)) as (c & Hsame & Hr).
  { assert (w = set_cache (λ _, w_cache w) w) as Hw by (by destruct w).
    destruct (if_truthy (s_wsUuid s)) as [ws|] eqn:Hws; [|exists (w_cache w); split; [done|by rewrite <- Hw]].
    assert (truthy ws = true) as Htr.
    { unfold if_truthy in Hws. destruct (s_wsUuid s) as [x|]; [|done].
      destruct (truthy x) eqn:?; by simplify_eq. }
    unfold bind, cache_workspace, gets. destruct (workspace_in (w_cache w) ws) as [x|].
    - rewrite setWorkspaceState_run by done. eexists. split; [|reflexivity].
      unfold ws_cache. etrans; [by apply (same_sessions_set (CACHEKEY_WORKSPACE ws))|].
      by apply same_sessions_set.
    - exists (w_cache w). split; [done|by rewrite <- Hw]. }
  exists c. split; [done|]. mstep by exact Hr.
  mstep by (by apply setSessionState_run). done.
Qed.

Lemma handleStaleSession_inactive uid sid p s w :
  presence_in (w_cache w) uid = Some p → oget sid p = Some s → s_state s = inactive →
  handleStaleSession uid sid w = handleSessionExpiry p uid sid w.
Proof.
  intros Hp Hs Hst. unfold handleStaleSession.
  mstep by (unfold cache_presence, gets; rewrite Hp; done). by rewrite Hs, Hst.
Qed.

(** Redis drops the marker of a session, and the event is handled. *)
Definition session_timeout (uid sid : string) : M W unit :=
  (cache_del (CACHEKEY_PRESENCE_SESSION uid sid) ;;; handleStaleSession uid sid)%mon.


(** ** Every recorded session has a timer *)
Definition marked (c : C) (uid sid : string) : Prop :=
  is_Some (kv_get (CACHEKEY_PRESENCE_SESSION uid sid) c).

(** All sessions of colon-free names, apart from those in [ex], have a marker. *)
Definition timed_but (ex : string → string → Prop) (c : C) : Prop :=
  ∀ u s p x, colon_free u → colon_free s → presence_in c u = Some p → oget s p = Some x →
    ex u s ∨ marked c u s.
Definition timed (c : C) : Prop := timed_but (λ _ _, False) c.

Lemma timed_same ex c c' : same_sessions c c' → timed_but ex c → timed_but ex c'.
Proof.
  intros [Hp Hk] Ht u s p x Hu Hs. rewrite Hp by done. unfold marked. rewrite Hk by done.
  by apply Ht.
Qed.

(** Recording a session arms its timer. *)
Lemma timed_session_cache p uid sid st c :
  colon_free uid → colon_free sid → timed_but (λ u s, u = uid ∧ s = sid) c →
  (∀ s, s ≠ sid → oget s p = oget s (default [] (presence_in c uid))) →
  timed (session_cache p uid sid st c).
Proof.
  intros Hu Hs Ht Hother u s q x Hcu Hcs Hq Hx. right. unfold marked, session_cache.
  destruct (decide (u = uid ∧ s = sid)) as [[-> ->]|Hne].
  { rewrite kv_get_set_eq. by eexists. }
  assert (CACHEKEY_PRESENCE_SESSION u s ≠ CACHEKEY_PRESENCE_SESSION uid sid) as Hk.
  { intros [-> ->]%session_key_inj; naive_solver. }
  rewrite kv_get_set_ne by done. rewrite kv_get_set_ne by key_neq.
  unfold session_cache in Hq. rewrite presence_in_set_ne in Hq by key_neq.
  destruct (decide (u = uid)) as [->|Hnu].
  - rewrite presence_in_set_eq in Hq. injection Hq as <-. rewrite Hother in Hx by naive_solver.
    destruct (presence_in c uid) as [p0|] eqn:Hp0; [|done].
    by destruct (Ht uid s p0 x Hcu Hcs Hp0 Hx) as [?|?].
  - rewrite presence_in_set_ne in Hq by key_neq.
    by destruct (Ht u s q x Hcu Hcs Hq Hx) as [[? _]|?].
Qed.

Lemma timed_weaken ex c : timed c → timed_but ex c.
Proof. intros Ht u s p x ????. right. by destruct (Ht u s p x). Qed.

(** An expired marker: only its own session is without one. *)
Lemma timed_marker_del uid sid c :
  colon_free uid → colon_free sid →
  timed c → timed_but (λ u s, u = uid ∧ s = sid) (kv_del (CACHEKEY_PRESENCE_SESSION uid sid) c).
Proof.
  intros Hu Hs Ht u s p x Hcu Hcs. rewrite presence_in_del_ne by key_neq. intros Hp Hx.
  destruct (decide (u = uid ∧ s = sid)) as [?|Hne]; [by left|right]. unfold marked.
  rewrite kv_get_del_ne; [by destruct (Ht u s p x)|].
  intros [-> ->]%session_key_inj; naive_solver.
Qed.

Lemma oget_without p sid q s x :
  without_session p sid = Some q → oget s q = Some x → s ≠ sid ∧ oget s p = Some x.
Proof.
  unfold without_session. destruct (odel sid p) as [|y l] eqn:Hd; [done|]. intros [= <-] Hx.
  rewrite <- Hd in Hx. destruct (decide (s = sid)) as [->|Hne]; [by rewrite oget_odel_eq in Hx|].
  by rewrite oget_odel_ne in Hx.
Qed.

Lemma timed_staleSession uid sid w :
  (∀ ws, reachable (dispose_url ws) (w_now w) = true) →
  colon_free uid → colon_free sid → timed_but (λ u s, u = uid ∧ s = sid) (w_cache w) →
  ∃ w', handleStaleSession uid sid w = (Ok tt, w') ∧ timed (w_cache w').
Proof.
  intros Hup Hu Hs Ht. destruct (presence_in (w_cache w) uid) as [p|] eqn:Hp.
  2:{ exists w. split; [unfold handleStaleSession; by mstep by (unfold cache_presence, gets; rewrite Hp; done)|].
      intros u s q x ?? Hq Hx. destruct (Ht u s q x) as [[-> ->]|?]; [done..| |by right]. congruence. }
  destruct (oget sid p) as [s|] eqn:Hsess.
  2:{ exists w. split; [unfold handleStaleSession; mstep by (unfold cache_presence, gets; rewrite Hp; done); by rewrite Hsess|].
      intros u s q x ?? Hq Hx. destruct (Ht u s q x) as [[-> ->]|?]; [done..| |by right]. congruence. }
  destruct (s_state s) eqn:Hst.
  - destruct (handleStaleSession_active uid sid p s w) as (c & Hsame & ->); try done.
    eexists. split; [done|]. simpl. apply timed_session_cache; [done..|by eapply timed_same|].
    intros s' Hs'. rewrite oget_oset_ne by done. by rewrite (proj1 Hsame), Hp by done.
  - rewrite (handleStaleSession_inactive uid sid p s) by done.
    destruct (handleSessionExpiry_run p uid sid s w) as (w' & Hr & Hp' & Hv & Hk & _); try done.
    assert (expiry_result s (w_now w) = Ok tt) as Hres.
    { unfold expiry_result, dispose_result. destruct (if_truthy _); [by rewrite Hup|done]. }
    rewrite Hres in Hr, Hp'. simpl in Hp'. exists w'. split; [done|]. intros u s' q x Hcu Hcs Hq Hx. right. unfold marked. rewrite Hk by done.
    destruct (decide (u = uid)) as [->|Hne].
    + rewrite Hp' in Hq. destruct (oget_without p sid q s' x Hq Hx) as [Hne Hx'].
      destruct (Ht uid s' p x) as [[_ ?]|?]; done.
    + rewrite Hv in Hq by done. destruct (Ht u s' q x) as [[? _]|?]; done.
Qed.
End presence_props.
