(* ===== verification/Socket.v ===== *)
(** The socket gateway ([gateway/src/socket/socket.gateway.ts] and
    [socket.controller.ts]): connections, client messages and their routing
    to the environment instances, expiry events, and delivery to sockets. *)
From S2P Require Import Validation Codec Prelude JS Messages Keys Interfaces GwMembership Presence.
From Stdlib Require Import Lia.

(** What a socket carries: [socket.data], set by [handleConnection]. *)
Record SocketData := MkSocketData { sd_user : User; sd_sessionId : string }.

(** A gateway instance. *)
Record Gateway := MkGateway {
  g_instanceId : string;
  g_allowConnections : bool;
  g_sockets : list (string * option SocketData);   (* socket.id => socket.data *)
}.

(** The handshake of a new socket. *)
Record Handshake := MkHandshake { hs_socketId : string; hs_token : option string; hs_sessionId : string }.

(** [POST http://auth/api/validate]: the user of a valid token. *)
Class Auth := { validate_token : string → option User }.
(** Redlock: whether a lock can be had at a time, within the retries, and
    whether a lock taken then is still held when its holder releases it (it
    expires after ten seconds; releasing an expired lock throws). *)
Class Redlock := { lock_free : string → Z → bool; lock_kept : string → Z → bool }.
Definition lock_result `{!Redlock} (lock : string) (t : Z) : res unit :=
  if lock_kept lock t then Ok tt else Throw (PlainError "ExecutionError").
(** Whether [env.<id>.health] replies within a second.  Like every question
    that one service asks another and waits for, it is a parameter, not a
    message among those sent; what the asked instance does is
    [EnvWs.on_health]. *)
Class Health := { env_healthy : string → bool }.

Definition set_socket (id : string) (d : SocketData) (g : Gateway) : Gateway :=
  MkGateway (g_instanceId g) (g_allowConnections g) (oset id (Some d) (g_sockets g)).

Section socket.
Context {C : Type} `{!Cache C, !MembershipRpc, !Env, !Auth, !Redlock, !Health, !Users} {Net : Network}.
Abbreviation W := (world C Gateway).
Local Open Scope mon_scope.

Definition acquireLock (key : string) : M W string :=
  t <- now ;;
  if lock_free ("locks:" +:+ key) t
  then emit (LockAcquired ("locks:" +:+ key)) ;;; ret ("locks:" +:+ key)
  else throw (PlainError "ExecutionError").
Definition releaseLock (lock : string) : M W unit :=
  emit (LockReleased lock) ;;;
  t <- now ;;
  if lock_kept lock t then ret tt else throw (PlainError "ExecutionError").

(** The user of a valid token; the profile is cached on the way. *)
Definition handleAuthentication (token : string) : M W (option User) :=
  match validate_token token with
  | None => ret None
  | Some user =>
      userProfile <- cache_profile (u_uid user) ;;
      match userProfile with
      | Some _ => ret (Some user)
      | None =>
          match users_by_uid (u_uid user) with
          | [] => ret (Some user)
          | p :: _ => cache_set (CACHEKEY_USER_PROFILE (u_uid user)) (CProfile p) None ;;; ret (Some user)
          end
      end
  end.

Definition handleConnection (socket : Handshake) : M W unit :=
  g <- get_loc ;;
  if negb (g_allowConnections g) then emit (CloseSocket (hs_socketId socket)) else
  match if_truthy (hs_token socket) with
  | None => emit (CloseSocket (hs_socketId socket))
  | Some token =>
      user <- handleAuthentication token ;;
      match user with
      | None => emit (CloseSocket (hs_socketId socket))
      | Some user =>
          let sessionId := hs_sessionId socket in
          let uid := u_uid user in
          lock <- acquireLock (uid +:+ ":" +:+ sessionId) ;;
          put_loc (set_socket (hs_socketId socket) (MkSocketData user sessionId)) ;;;
          presence <- cache_presence uid ;;
          let presence := default [] presence in
          let old := oget sessionId presence in
          let wsUuid := old ≫= s_wsUuid in
          let presence := oset sessionId
            (Session active (hs_socketId socket) (g_instanceId g) wsUuid) presence in
          match old with
          | Some s =>
              if truthy (s_socketId s) && truthy (s_gatewayId s)
              then emit (Redis ("gateway." +:+ s_gatewayId s) None (SocketClose (s_socketId s)))
              else ret tt
          | None => ret tt
          end ;;;
          presence <- setSessionState presence uid sessionId active ;;
          workspace <- cache_workspace (default "undefined" wsUuid) ;;
          match workspace with
          | Some _ => setWorkspaceState workspace uid sessionId wsUuid active
          | None => ret tt
          end ;;;
          releaseLock lock
      end
  end.

(** [socket.data.user.uid] of a socket that was never authenticated throws. *)
Definition socket_data (socketId : string) : M W SocketData :=
  g <- get_loc ;;
  match oget socketId (g_sockets g) with
  | Some (Some d) => ret d
  | _ => throw TypeError
  end.

Definition handleDisconnect (socketId : string) : M W unit :=
  d <- socket_data socketId ;;
  let uid := u_uid (sd_user d) in
  let sessionId := sd_sessionId d in
  lock <- acquireLock (uid +:+ ":" +:+ sessionId) ;;
  presence <- cache_presence uid ;;
  match presence with
  | None => ret tt
  | Some presence =>
      match oget sessionId presence with
      | None => ret tt
      | Some _ =>
          presence <- setSessionState presence uid sessionId inactive ;;
          let wsUuid := oget sessionId presence ≫= s_wsUuid in
          workspace <- cache_workspace (default "undefined" wsUuid) ;;
          match workspace with
          | Some _ => setWorkspaceState workspace uid sessionId wsUuid inactive
          | None => ret tt
          end ;;;
          releaseLock lock
      end
  end.

(** The listener on [gateway.<instance>]: [meta] and [payload] are read from
    the parsed message itself. *)
Definition on_gateway_event (chan message : string) : M W unit :=
  g <- get_loc ;;
  if bool_decide (chan ≠ "gateway." +:+ g_instanceId g) then ret tt
  else match parse message with
  | None => throw (PlainError "SyntaxError")
  | Some parsed =>
      meta <- of_res (jmember "meta" (Some parsed)) ;;
      if negb (match jmember_opt "uid" meta with Some uid => jtruthy uid | None => false end) then ret tt else
      action <- of_res (jmember "action" (prop "payload" parsed)) ;;
      match action with
      | Some (JStr action) =>
          if bool_decide (action = "socket.close") then
            socketId <- of_res (jmember "socketId" (prop "payload" parsed ≫= prop "payload")) ;;
            match socketId with
            | Some (JStr socketId) =>
                match oget socketId (g_sockets g) with
                | Some _ => emit (CloseSocket socketId)
                | None => ret tt
                end
            | _ => ret tt
            end
          else ret tt
      | _ => ret tt
      end
  end.

(** Closes every socket and refuses new ones. *)
Definition onModuleDestroy : M W unit :=
  put_loc (λ g, MkGateway (g_instanceId g) false (g_sockets g)) ;;;
  g <- get_loc ;;
  forM (λ id, emit (CloseSocket id)) (okeys (g_sockets g)).

Definition session_of (presence : option CachedPresence) (sessionId : string) : option CachedSession :=
  match presence with Some p => oget sessionId p | None => None end.

Definition send (uid sessionId pattern : string) (msg : OutMsg) : M W unit :=
  presence <- cache_presence uid ;;
  match if_truthy (s_socketId <$> session_of presence sessionId) with
  | Some socketId => emit (ToSocket socketId pattern msg)
  | None => ret tt
  end.

(** [presence?.[sessionId].socketId]: throws when the user is present but
    the session is not. *)
Definition broadcast (uids sessionIds : list string) (pattern : string) (msg : OutMsg) : M W unit :=
  presenceAll <- mapM cache_presence uids ;;
  socketIds <- mapM (λ '(idx, presence),
      match presence with
      | None => ret None
      | Some p =>
          match oget (default "undefined" (sessionIds !! idx)) p with
          | Some s => ret (Some (s_socketId s))
          | None => throw TypeError
          end
      end) (imap (λ i p, (i, p)) presenceAll) ;;
  forM (λ s, match if_truthy s with
             | Some socketId => emit (ToSocket socketId pattern msg)
             | None => ret tt
             end) socketIds.

Definition stickyActions : list string :=
  ["fs.sync"; "ssh.data"; "ssh.close"; "fs.open.ack"; "fs.conflict.resolve"; "ws.run"].

Definition handleFSLoss (socketId : string) (workspace : CachedWorkspace) (wsUuid : string) (ino : Z) : M W unit :=
  cache_set (CACHEKEY_WORKSPACE wsUuid) (CWorkspace (ws_with_docs (delete ino (c_docs workspace)) workspace)) None ;;;
  emit (ToSocket socketId "fs" (FSLost ino)).

Definition handleSSHSLoss (socketId : string) (workspace : CachedWorkspace) (sessionId wsUuid sshSessionId : string) : M W unit :=
  cache_set (CACHEKEY_WORKSPACE wsUuid) (CWorkspace (ws_with_sshs (delete sessionId (c_sshs workspace)) workspace)) None ;;;
  emit (ToSocket socketId "ssh" (SSHClosed sshSessionId (Some true))).

(** The instance a sticky message is for. *)
Definition env_instance (workspace : CachedWorkspace) (sessionId : string) (p : EnvPayload) : option string :=
  match p with
  | FSSyncIn _ ino _ | FSOpenAck _ ino | FSConflictResolve _ ino _ => c_docs workspace !! ino
  | SSHData _ _ _ | SSHClose _ _ => c_sshs workspace !! sessionId
  | WSRun _ _ _ => Some (c_fs workspace)
  | _ => Some ""
  end.

(** An error answer, when the client asked for one. *)
Definition reply_error (socketId : string) (correlationId : option string) (code : string) : M W unit :=
  match if_truthy correlationId with
  | Some cid => emit (ToSocket socketId cid (RespError code))
  | None => ret tt
  end.

Definition handleEnvMessage (socketId uid sessionId : string) (p : EnvPayload)
    (correlationId : option string) : M W unit :=
  workspace <- cache_workspace (env_uuid p) ;;
  match workspace with
  | None => reply_error socketId correlationId "NO_WORKSPACE"
  | Some workspace =>
      isAuthZ <- checkMembership uid (env_uuid p) ;;
      if negb (mtruthy isAuthZ) then reply_error socketId correlationId "NOT_A_MEMBER"
      else if bool_decide (env_action p ∈ stickyActions) then
        let envInstanceId := default "undefined" (env_instance workspace sessionId p) in
        if negb (env_healthy envInstanceId) then
          match p with
          | FSSyncIn uuid ino _ | FSOpenAck uuid ino | FSConflictResolve uuid ino _ =>
              handleFSLoss socketId workspace uuid ino
          | SSHData uuid sshSessionId _ | SSHClose uuid sshSessionId =>
              handleSSHSLoss socketId workspace sessionId uuid sshSessionId
          | WSRun _ _ _ => reply_error socketId correlationId "WS_NOT_REACHABLE"
          | _ => ret tt
          end
        else emit (Redis ("env." +:+ envInstanceId) (Some (meta_us uid sessionId))
               (EnvMessage (InMsg (InEnv p) correlationId)))
      else emit (Nats "env.msg" (Some (meta_us uid sessionId))
             (EnvMessage (InMsg (InEnv p) correlationId)))
  end.

Definition handleSocketMessage (socketId : string) (msg : InSocketMessage) : M W unit :=
  d <- socket_data socketId ;;
  let uid := u_uid (sd_user d) in
  let sessionId := sd_sessionId d in
  presence <- cache_presence uid ;;
  match presence with
  | Some presence =>
      match oget sessionId presence with
      | Some _ =>
          match im_payload msg with
          | InEnv p => handleEnvMessage socketId uid sessionId p (im_correlationId msg)
          | InPing uuid =>
              awareness <- handlePresenceMessage uid sessionId presence uuid ;;
              match awareness with
              | Some uids => send uid sessionId "env" (EnvAwareness uids)
              | None => ret tt
              end
          end
      | None =>
          reply_error socketId (im_correlationId msg) "NO_SESSION" ;;;
          emit (CloseSocket socketId)
      end
  | None =>
      reply_error socketId (im_correlationId msg) "NO_SESSION" ;;;
      emit (CloseSocket socketId)
  end.

Definition handleCacheExpiry (key : string) : M W unit :=
  lock <- acquireLock key ;;
  match split_on colon key with
  | type :: parts => if bool_decide (type = "presence") then handleStalePresence parts else ret tt
  | [] => ret tt
  end ;;;
  releaseLock lock.

(** The events of [socket.controller.ts]: what other services ask the
    gateways to deliver. *)
Definition handle_socket_event (e : effect) : M W unit :=
  match e with
  | Redis channel _ (SocketSend uid sessionId pattern msg) =>
      if bool_decide (channel = "socket.send") then send uid sessionId pattern msg else ret tt
  | Redis channel _ (SocketBroadcast uids sessionIds pattern msg) =>
      if bool_decide (channel = "socket.broadcast") then broadcast uids sessionIds pattern msg else ret tt
  | _ => ret tt
  end.
End socket.
