(* ===== verification/SocketProps.v ===== *)
(** Properties of the socket gateway: routing and authorisation of client
    messages, delivery, and the timers of sessions over all its events. *)
From S2P Require Import ClientTypes Codec Wire Prelude JS Messages Keys Interfaces GwMembership Presence PresenceProps Socket.
From Stdlib Require Import Lia.

Section socket_props.
Context {C : Type} `{!Cache C, !CacheLaws C, !MembershipRpc, !Env, !Auth, !Redlock, !Health, !Users} {Net : Network}.
Abbreviation W := (world C Gateway).
Implicit Types w : W.
Hint Constructors other_key : core.
Hint Resolve same_set same_del same_setWorkspaceState same_handleWorkspaceExpiry : pres.

(** ** What each event does to the sessions *)
Lemma same_checkMembership c0 uid uuid :
  preserves (λ w : W, same_sessions c0 (w_cache w)) (checkMembership uid uuid).
Proof. unfold checkMembership, fetchMembership, cacheMembership. pres. Qed.
Hint Resolve same_checkMembership : pres.

Lemma same_acquireLock c0 k : preserves (λ w : W, same_sessions c0 (w_cache w)) (acquireLock k).
Proof. unfold acquireLock. pres. Qed.
Lemma same_handleAuthentication c0 t :
  preserves (λ w : W, same_sessions c0 (w_cache w)) (handleAuthentication t).
Proof. unfold handleAuthentication. pres. Qed.
Lemma same_handleEnvMessage c0 sk uid sid p cid :
  preserves (λ w : W, same_sessions c0 (w_cache w)) (handleEnvMessage sk uid sid p cid).
Proof. unfold handleEnvMessage, reply_error, handleFSLoss, handleSSHSLoss. pres. Qed.
Lemma same_send c0 a b c d : preserves (λ w : W, same_sessions c0 (w_cache w)) (send a b c d).
Proof. unfold send. pres. Qed.
Lemma same_handleStaleWorkspace c0 uid sid ws :
  preserves (λ w : W, same_sessions c0 (w_cache w)) (handleStaleWorkspace uid sid ws).
Proof. unfold handleStaleWorkspace. pres. Qed.
Hint Resolve same_acquireLock same_handleAuthentication same_handleEnvMessage same_send
  same_handleStaleWorkspace : pres.

(** A part of a handler that leaves the sessions alone keeps them timed. *)
Lemma timed_of_same {A} (m : M W A) :
  (∀ c0, preserves (λ w : W, same_sessions c0 (w_cache w)) m) →
  preserves (λ w : W, timed (w_cache w)) m.
Proof.
  intros Hm w Ht. eapply timed_same; [|exact Ht]. apply (Hm (w_cache w) w). by split.
Qed.

Lemma timed_set_session uid sid p st w :
  colon_free uid → colon_free sid → timed (w_cache w) →
  (∀ s, s ≠ sid → oget s p = oget s (default [] (presence_in (w_cache w) uid))) →
  timed (w_cache (setSessionState p uid sid st w).2).
Proof.
  intros Hu Hs Ht Hother. destruct (oget sid p) as [s|] eqn:Hsess.
  - rewrite (setSessionState_run p uid sid st s) by done. simpl.
    apply timed_session_cache; [done..|by apply timed_weaken|].
    intros s' Hs'. rewrite oget_oset_ne by done. by apply Hother.
  - unfold setSessionState. by rewrite Hsess.
Qed.

(** The users and sessions of the sockets are colon-free. *)
Definition sockets_ok (g : Gateway) : Prop :=
  ∀ id d, oget id (g_sockets g) = Some (Some d) → colon_free (u_uid (sd_user d)) ∧ colon_free (sd_sessionId d).

Definition gw_inv (w : W) : Prop := timed (w_cache w) ∧ sockets_ok (w_loc w).

Lemma inv_of_same {A} (m : M W A) :
  (∀ c0, preserves (λ w : W, same_sessions c0 (w_cache w)) m) →
  preserves (λ w : W, sockets_ok (w_loc w)) m → preserves gw_inv m.
Proof.
  intros Hs Hl. apply (preserves_and (λ w : W, timed (w_cache w)) (λ w : W, sockets_ok (w_loc w)));
    [by apply timed_of_same|done].
Qed.

Lemma sockets_ok_set id d g :
  sockets_ok g → colon_free (u_uid (sd_user d)) → colon_free (sd_sessionId d) → sockets_ok (set_socket id d g).
Proof.
  intros Hok Hu Hs id' d'. unfold set_socket. simpl. destruct (decide (id' = id)) as [->|Hne].
  - rewrite oget_oset_eq. intros; by simplify_eq.
  - rewrite oget_oset_ne by done. apply Hok.
Qed.

Lemma timed_set_then {A} uid sid p st (k : CachedPresence → M W A) w :
  colon_free uid → colon_free sid → timed (w_cache w) →
  (∀ s, s ≠ sid → oget s p = oget s (default [] (presence_in (w_cache w) uid))) →
  (∀ p c0, preserves (λ w : W, same_sessions c0 (w_cache w)) (k p)) →
  timed (w_cache (bind (setSessionState p uid sid st) k w).2).
Proof.
  intros Hu Hs Ht Hother Hk. pose proof (timed_set_session uid sid p st w Hu Hs Ht Hother) as Ht1.
  unfold bind. destruct (setSessionState p uid sid st w) as [[p'|e] w1]; simpl in *; [|done].
  by apply (timed_of_same (k p')).
Qed.

(** The state of a workspace that follows a session's. *)
Lemma same_ws_state c0 ws uid sid o st (k : M W unit) :
  preserves (λ w : W, same_sessions c0 (w_cache w)) k →
  preserves (λ w : W, same_sessions c0 (w_cache w))
    (workspace <- cache_workspace ws ;;
     match workspace with
     | Some _ => setWorkspaceState workspace uid sid o st
     | None => ret tt
     end ;;; k)%mon.
Proof. intros. pres; done. Qed.

Lemma acquireLock_run k w :
  acquireLock k w =
  if lock_free ("locks:" +:+ k) (w_now w)
  then (Ok ("locks:" +:+ k), add_out (LockAcquired ("locks:" +:+ k)) w)
  else (Throw (PlainError "ExecutionError"), w).
Proof. unfold acquireLock, bind, now, gets. by destruct (lock_free _ _). Qed.

Lemma releaseLock_run lock w :
  releaseLock lock w = (lock_result lock (w_now w), add_out (LockReleased lock) w).
Proof. unfold releaseLock, lock_result, bind, emit, modify, now, gets. simpl. by destruct (lock_kept _ _). Qed.

Lemma handleAuthentication_user tok w u w1 :
  handleAuthentication tok w = (Ok (Some u), w1) → validate_token tok = Some u.
Proof.
  unfold handleAuthentication. destruct (validate_token tok) as [u'|]; [|done]. intros Hrun.
  minv Hrun. injection Hm as <- <-. destruct (profile_in _ _); [by injection Hrun as -> _|].
  destruct (users_by_uid _); [by injection Hrun as -> _|]. minv Hrun. by injection Hrun as -> _.
Qed.

Lemma inv_handleConnection hs :
  (∀ t u, validate_token t = Some u → colon_free (u_uid u)) → colon_free (hs_sessionId hs) →
  preserves gw_inv (handleConnection hs).
Proof.
  intros Hauth Hsid w Hinv. unfold handleConnection. rewrite (bind_ok _ _ w (w_loc w) w) by done.
  destruct (negb _); [done|]. destruct (if_truthy (hs_token hs)) as [tok|]; [|done].
  assert (preserves gw_inv (handleAuthentication tok)) as Hpa.
  { apply inv_of_same; [intros; pres|unfold handleAuthentication; pres]. }
  specialize (Hpa w Hinv). unfold bind at 1.
  destruct (handleAuthentication tok w) as [[[u|]|e] w1] eqn:Ha; simpl in Hpa; try done.
  assert (colon_free (u_uid u)) as Hcf by (by eapply Hauth, handleAuthentication_user). cbv zeta.
  unfold bind at 1. rewrite acquireLock_run. destruct (lock_free _ _); [|done]. cbv iota beta.
  set (w2 := add_out _ w1). assert (gw_inv w2) as Hinv2 by done.
  rewrite (bind_ok _ _ w2 tt (set_loc (set_socket (hs_socketId hs) (MkSocketData u (hs_sessionId hs))) w2)) by done.
  set (w3 := set_loc _ w2). destruct Hinv2 as [Ht Hsk].
  rewrite (bind_ok _ _ w3 (presence_in (w_cache w3) (u_uid u)) w3) by done. split.
  - set (old := oget _ _). unfold bind at 1.
    match goal with |- context [match ?m w3 with _ => _ end] =>
      assert (∃ w4, m w3 = (Ok tt, w4) ∧ w_cache w4 = w_cache w3) as (w4 & -> & Hc4) end.
    { destruct old as [s|]; [destruct (_ && _)|]; by eexists. }
    apply timed_set_then; [done|done|by rewrite Hc4| |].
    + intros s Hs. rewrite oget_oset_ne by done. by rewrite Hc4.
    + intros p c0. apply same_ws_state. unfold releaseLock. pres.
  - eapply (preserves_run (λ w : W, sockets_ok (w_loc w))); [|apply surjective_pairing|by apply sockets_ok_set].
    unfold setSessionState, setWorkspaceState, releaseLock. pres.
Qed.

Lemma socket_data_run id w :
  socket_data id w = (match oget id (g_sockets (w_loc w)) with
                      | Some (Some d) => Ok d | _ => Throw TypeError end, w).
Proof. unfold socket_data, bind, get_loc, gets. by destruct (oget _ _) as [[]|]. Qed.

Lemma inv_handleDisconnect id : preserves gw_inv (handleDisconnect id).
Proof.
  intros w [Ht Hsk]. unfold handleDisconnect, bind at 1. rewrite socket_data_run.
  destruct (oget id (g_sockets (w_loc w))) as [[d|]|] eqn:Hd; [|done|done].
  destruct (Hsk id d Hd) as [Hu Hs]. cbv zeta iota beta. unfold bind at 1. rewrite acquireLock_run.
  destruct (lock_free _ _); [|done]. set (w2 := add_out _ w). cbv iota beta.
  rewrite (bind_ok _ _ w2 (presence_in (w_cache w2) (u_uid (sd_user d))) w2) by done.
  destruct (presence_in (w_cache w2) _) as [p|] eqn:Hp; [|done].
  destruct (oget (sd_sessionId d) p) eqn:Hsess; [|done]. split.
  - apply timed_set_then; [done..|by rewrite Hp|]. intros p' c0. apply same_ws_state. unfold releaseLock. pres.
  - eapply (preserves_run (λ w : W, sockets_ok (w_loc w))); [|apply surjective_pairing|done].
    unfold setSessionState, setWorkspaceState, releaseLock. pres.
Qed.

Lemma loc_checkMembership (P : Gateway → Prop) uid uuid :
  preserves (λ w : W, P (w_loc w)) (checkMembership uid uuid).
Proof. unfold checkMembership, fetchMembership, cacheMembership. pres. Qed.
Hint Resolve loc_checkMembership : pres.

Lemma inv_handleSocketMessage id msg : preserves gw_inv (handleSocketMessage id msg).
Proof.
  intros w [Ht Hsk]. unfold handleSocketMessage, bind at 1. rewrite socket_data_run.
  destruct (oget id (g_sockets (w_loc w))) as [[d|]|] eqn:Hd; [|done|done].
  destruct (Hsk id d Hd) as [Hu Hs]. cbv zeta iota beta.
  rewrite (bind_ok _ _ w (presence_in (w_cache w) (u_uid (sd_user d))) w) by done.
  assert (preserves gw_inv (reply_error (C:=C) id (im_correlationId msg) "NO_SESSION" ;;; emit (CloseSocket id))%mon) as Hno.
  { apply inv_of_same; [intros c0|]; unfold reply_error; pres. }
  destruct (presence_in (w_cache w) _) as [p|] eqn:Hp; [|by apply Hno].
  destruct (oget (sd_sessionId d) p) eqn:Hsess; [|by apply Hno].
  destruct (im_payload msg) as [ep|uuid].
  - apply inv_of_same; [intros; pres| |done].
    unfold handleEnvMessage, reply_error, handleFSLoss, handleSSHSLoss. pres.
  - split.
    + unfold handlePresenceMessage. rewrite bind_assoc.
      apply timed_set_then; [done..|by rewrite Hp|]. intros p' c0. pres.
    + eapply (preserves_run (λ w : W, sockets_ok (w_loc w))); [|apply surjective_pairing|done].
      unfold handlePresenceMessage, setSessionState, setWorkspaceState, send. pres.
Qed.

(** Redis removes an expired key and the gateway that gets the lock handles
    the event. *)
Definition key_expired (key : string) : M W unit :=
  (cache_del key ;;; handleCacheExpiry key)%mon.

Lemma inv_session_expired uid sid w :
  (∀ ws, reachable (dispose_url ws) (w_now w) = true) → colon_free uid → colon_free sid → gw_inv w →
  lock_free ("locks:" +:+ CACHEKEY_PRESENCE_SESSION uid sid) (w_now w) = true →
  gw_inv (key_expired (CACHEKEY_PRESENCE_SESSION uid sid) w).2.
Proof.
  intros Hup Hu Hs [Ht Hsk] Hlock. unfold key_expired. rewrite (bind_ok _ _ w tt _) by done.
  unfold handleCacheExpiry, bind at 1. rewrite acquireLock_run. simpl w_now. rewrite Hlock. cbv iota beta.
  rewrite split_presence_session by done. rewrite bool_decide_true by done.
  set (w1 := add_out _ _). cbn [handleStalePresence lookup list_lookup if_truthy default from_option].
  destruct (timed_staleSession uid sid w1 Hup Hu Hs) as (w2 & Hr & Ht2); [by apply timed_marker_del|].
  assert (w_loc w2 = w_loc w) as Hl2.
  { eapply (preserves_run (λ w', w_loc w' = w_loc w)); [|exact Hr|done].
    unfold handleStaleSession, handleSessionExpiry, handleWorkspaceExpiry, setSessionState,
      setWorkspaceState, for_sessions, sendDisconnect. pres; intros w0 Hw0; rewrite ?fetch_run; done. }
  unfold handleStalePresence. simpl.
  rewrite (bind_ok _ _ _ _ _ Hr), releaseLock_run. unfold gw_inv. simpl. by rewrite Hl2.
Qed.

Lemma inv_workspace_expired uid sid ws :
  colon_free uid → colon_free sid → colon_free ws → truthy ws = true →
  preserves gw_inv (key_expired (CACHEKEY_PRESENCE_WORKSPACE uid sid ws)).
Proof.
  intros Hu Hs Hw Htr. unfold key_expired, handleCacheExpiry.
  rewrite split_presence_workspace by done. rewrite bool_decide_true by done.
  unfold handleStalePresence. simpl. rewrite Htr. simpl. unfold releaseLock.
  apply inv_of_same; [intros c0; pres|].
  unfold acquireLock, handleStaleWorkspace, handleWorkspaceExpiry, setWorkspaceState, for_sessions, sendDisconnect.
  pres.
Qed.

(** The events of a gateway; [step_other]: what the other services do to
    the shared cache, which leaves sessions and their markers alone. *)
Inductive gw_step : W → W → Prop :=
| step_connect hs w : colon_free (hs_sessionId hs) → gw_step w (handleConnection hs w).2
| step_disconnect id w : gw_step w (handleDisconnect id w).2
| step_message id msg w : gw_step w (handleSocketMessage id msg w).2
| step_session_expired uid sid w : colon_free uid → colon_free sid →
    (∀ ws, reachable (dispose_url ws) (w_now w) = true) →
    lock_free ("locks:" +:+ CACHEKEY_PRESENCE_SESSION uid sid) (w_now w) = true →
    gw_step w (key_expired (CACHEKEY_PRESENCE_SESSION uid sid) w).2
| step_workspace_expired uid sid ws w : colon_free uid → colon_free sid → colon_free ws →
    truthy ws = true → gw_step w (key_expired (CACHEKEY_PRESENCE_WORKSPACE uid sid ws) w).2
| step_other c w : same_sessions (w_cache w) c → gw_step w (set_cache (λ _, c) w)
| step_clock t w : gw_step w (World (w_cache w) (w_out w) (w_rng w) t (w_loc w)).

(** no session is ever recorded without a pending timer.  Whatever
    connections, disconnections, messages and expiries the gateway handles,
    every session in every user's presence has its marker key in the cache;
    so a session whose client falls silent always times out. *)
Theorem sessions_always_timed w w' :
  (∀ t u, validate_token t = Some u → colon_free (u_uid u)) →
  timed (w_cache w) → sockets_ok (w_loc w) → rtc gw_step w w' → timed (w_cache w').
Proof.
  intros Hauth Ht Hsk Hsteps. assert (gw_inv w) as Hinv by done. clear Ht Hsk.
  assert (gw_inv w') as [? _]; [|done].
  induction Hsteps as [w|w w1 w' Hstep _ IH]; [done|]. apply IH. clear IH. destruct Hstep.
  - by apply inv_handleConnection.
  - by apply inv_handleDisconnect.
  - by apply inv_handleSocketMessage.
  - by apply inv_session_expired.
  - by apply inv_workspace_expired.
  - destruct Hinv. split; [|done]. simpl. by eapply timed_same.
  - done.
Qed.

(** ** Connections and delivery *)

(** The record of a session after a (re)connection through [hs]. *)
Definition connected (g : Gateway) (hs : Handshake) (old : option CachedSession) : CachedSession :=
  Session active (hs_socketId hs) (g_instanceId g) (old ≫= s_wsUuid).

(** The order to close the socket the session had before. *)
Definition close_order (old : option CachedSession) : list effect :=
  match old with
  | Some s => if truthy (s_socketId s) && truthy (s_gatewayId s)
              then [Redis ("gateway." +:+ s_gatewayId s) None (SocketClose (s_socketId s))] else []
  | None => []
  end.

Lemma handleAuthentication_run tok u w :
  validate_token tok = Some u →
  ∃ w1, handleAuthentication tok w = (Ok (Some u), w1) ∧ w_loc w1 = w_loc w ∧ w_out w1 = w_out w ∧
    w_now w1 = w_now w ∧ same_sessions (w_cache w) (w_cache w1).
Proof.
  intros Hv. unfold handleAuthentication. rewrite Hv. mstep by done.
  destruct (profile_in _ _); [by exists w|]. destruct (users_by_uid _); [by exists w|].
  eexists. split; [reflexivity|]. split_and!; try done. simpl. by apply same_sessions_set.
Qed.

Lemma ws_state_total ws uid sid o st (lock : string) w :
  ∃ w', (workspace <- cache_workspace ws ;;
     match workspace with
     | Some _ => setWorkspaceState workspace uid sid o st
     | None => ret tt
     end ;;; releaseLock (C:=C) lock)%mon w = (lock_result lock (w_now w), w') ∧
    w_out w' = w_out w ++ [LockReleased lock] ∧ w_loc w' = w_loc w.
Proof.
  unfold bind, cache_workspace, gets. destruct (workspace_in _ _) as [x|]; [|simpl; rewrite releaseLock_run; by eexists].
  unfold setWorkspaceState. destruct o as [u|]; [|simpl; rewrite releaseLock_run; by eexists].
  destruct (truthy u); [|simpl; rewrite releaseLock_run; by eexists].
  destruct st; simpl; rewrite releaseLock_run; by eexists.
Qed.

(** What an accepted connection does. *)
Lemma handleConnection_run hs tok u w :
  g_allowConnections (w_loc w) = true → if_truthy (hs_token hs) = Some tok → validate_token tok = Some u →
  colon_free (u_uid u) →
  let key := "locks:" +:+ (u_uid u +:+ ":" +:+ hs_sessionId hs) in
  lock_free key (w_now w) = true →
  let p := default [] (presence_in (w_cache w) (u_uid u)) in
  let old := oget (hs_sessionId hs) p in
  ∃ w', handleConnection hs w = (lock_result key (w_now w), w') ∧
    presence_in (w_cache w') (u_uid u) = Some (oset (hs_sessionId hs) (connected (w_loc w) hs old) p) ∧
    w_out w' = w_out w ++ LockAcquired key :: close_order old ++ [LockReleased key].
Proof.
  intros Hallow Htok Hv Hcf key Hlock p old. unfold handleConnection.
  rewrite (bind_ok _ _ w (w_loc w) w) by done. rewrite Hallow, Htok. cbn [negb].
  destruct (handleAuthentication_run tok u w Hv) as (w1 & Ha & Hl1 & Ho1 & Hn1 & [Hsame _]).
  rewrite (bind_ok _ _ _ _ _ Ha). cbv zeta.
  erewrite bind_ok by (rewrite acquireLock_run, Hn1; fold key; by rewrite Hlock).
  rewrite (bind_ok _ _ _ tt (set_loc (set_socket (hs_socketId hs) (MkSocketData u (hs_sessionId hs)))
     (add_out (LockAcquired key) w1))) by done.
  set (w3 := set_loc _ _).
  rewrite (bind_ok _ _ w3 (presence_in (w_cache w1) (u_uid u)) w3) by done. rewrite Hsame by done.
  fold p. fold old.
  match goal with |- context [bind ?m _ w3] =>
    assert (∃ w4, m w3 = (Ok tt, w4) ∧ w_out w4 = w_out w3 ++ close_order old ∧ w_now w4 = w_now w3)
      as (w4 & Hr4 & Ho4 & Hn4) end.
  { unfold close_order. destruct old as [s|]; [destruct (_ && _)|]; eexists; (split; [reflexivity|]);
      by rewrite ?app_nil_r. }
  rewrite (bind_ok _ _ _ _ _ Hr4).
  erewrite bind_ok by (by apply setSessionState_run; apply oget_oset_eq).
  destruct (ws_state_total (default "undefined" (old ≫= s_wsUuid)) (u_uid u) (hs_sessionId hs)
    (old ≫= s_wsUuid) active key (set_cache (session_cache
      (oset (hs_sessionId hs) (session_with_state active (connected (w_loc w) hs old))
        (oset (hs_sessionId hs) (connected (w_loc w) hs old) p)) (u_uid u) (hs_sessionId hs) active) w4))
    as (w5 & Hr5 & Ho5 & _).
  simpl in Hr5. rewrite Hn4 in Hr5. simpl in Hr5. rewrite Hn1 in Hr5.
  exists w5. split; [exact Hr5|]. split.
  - pose proof (same_ws_state (w_cache (set_cache (session_cache
      (oset (hs_sessionId hs) (session_with_state active (connected (w_loc w) hs old))
        (oset (hs_sessionId hs) (connected (w_loc w) hs old) p)) (u_uid u) (hs_sessionId hs) active) w4))
      (default "undefined" (old ≫= s_wsUuid)) (u_uid u) (hs_sessionId hs) (old ≫= s_wsUuid) active
      (releaseLock key)) as Hp.
    specialize (Hp ltac:(unfold releaseLock; pres)).
    apply (preserves_run _ _ _ _ _ Hp) in Hr5 as [Hs5 _]; [|by split]. rewrite Hs5 by done. simpl.
    unfold session_cache. rewrite presence_in_set_ne by key_neq. rewrite presence_in_set_eq.
    by rewrite oset_oset.
  - rewrite Ho5. simpl. rewrite Ho4. unfold w3. simpl. rewrite Ho1. by rewrite <- !app_assoc.
Qed.

(** a connection makes its session reachable.  An accepted connection
    records the session under the new socket and this instance, keeping the
    workspace it was attached to; a message sent to the session afterwards
    goes to that socket; and the lock taken is released (which fails if it
    has expired by then). *)
Theorem connection_reachable hs tok u w pattern msg :
  g_allowConnections (w_loc w) = true → if_truthy (hs_token hs) = Some tok → validate_token tok = Some u →
  colon_free (u_uid u) → truthy (hs_socketId hs) = true →
  let key := "locks:" +:+ (u_uid u +:+ ":" +:+ hs_sessionId hs) in
  lock_free key (w_now w) = true →
  ∃ w' p s, handleConnection hs w = (lock_result key (w_now w), w') ∧
    presence_in (w_cache w') (u_uid u) = Some p ∧ oget (hs_sessionId hs) p = Some s ∧
    s_state s = active ∧ s_socketId s = hs_socketId hs ∧ s_gatewayId s = g_instanceId (w_loc w) ∧
    s_wsUuid s = (oget (hs_sessionId hs) (default [] (presence_in (w_cache w) (u_uid u))) ≫= s_wsUuid) ∧
    send (u_uid u) (hs_sessionId hs) pattern msg w' =
      (Ok tt, add_out (ToSocket (hs_socketId hs) pattern msg) w') ∧
    last (w_out w') = Some (LockReleased key).
Proof.
  intros Hallow Htok Hv Hcf Hid key Hlock.
  destruct (handleConnection_run hs tok u w Hallow Htok Hv Hcf Hlock) as (w' & Hr & Hp & Ho).
  eexists w', _, _. split; [exact Hr|]. split; [exact Hp|]. split; [apply oget_oset_eq|].
  split_and!; try done.
  - unfold send. mstep by (unfold cache_presence, gets; rewrite Hp; reflexivity).
    unfold session_of. rewrite oget_oset_eq. simpl. by rewrite Hid.
  - rewrite Ho. change (?a :: ?b ++ ?c) with ((a :: b) ++ c). by rewrite app_assoc, last_app.
Qed.

(** A message sent with the Redis client has its [meta] inside [data], where
    the listener does not look: it drops every order. *)
Lemma orders_dropped channel meta p chan (g : W) :
  on_gateway_event channel (packet chan meta p) g = (Ok tt, g).
Proof. unfold on_gateway_event. mstep by done. case_bool_decide; [done|]. by rewrite parse_packet. Qed.

(** orders to close a replaced socket are lost.  When a session
    reconnects, its old gateway instance is told to close the old socket; but
    the listener there looks for the user in the message itself, where the
    packet has its [data], and drops every order: at the old instance, with
    the socket still open, nothing happens. *)
Theorem close_order_ignored hs tok u w s (g : W) :
  g_allowConnections (w_loc w) = true → if_truthy (hs_token hs) = Some tok → validate_token tok = Some u →
  colon_free (u_uid u) →
  lock_free ("locks:" +:+ (u_uid u +:+ ":" +:+ hs_sessionId hs)) (w_now w) = true →
  oget (hs_sessionId hs) (default [] (presence_in (w_cache w) (u_uid u))) = Some s →
  truthy (s_socketId s) = true → truthy (s_gatewayId s) = true →
  ∃ r w' channel meta p, handleConnection hs w = (r, w') ∧ Redis channel meta p ∈ w_out w' ∧
    channel = "gateway." +:+ s_gatewayId s ∧ p = SocketClose (s_socketId s) ∧
    on_gateway_event channel (packet channel meta p) g = (Ok tt, g).
Proof.
  intros Hallow Htok Hv Hcf Hlock Hold Hs Hg.
  destruct (handleConnection_run hs tok u w Hallow Htok Hv Hcf Hlock) as (w' & Hr & _ & Ho).
  eexists _, w', _, None, _. split; [exact Hr|]. split; [|split_and!; [reflexivity..|apply orders_dropped]].
  rewrite Ho, Hold. unfold close_order. rewrite Hs, Hg. simpl. set_solver.
Qed.

(** a disconnection of a session that is no longer recorded takes the
    session's lock and never releases it: it stays taken until it times out. *)
Theorem disconnect_keeps_lock id d w :
  oget id (g_sockets (w_loc w)) = Some (Some d) →
  let key := "locks:" +:+ (u_uid (sd_user d) +:+ ":" +:+ sd_sessionId d) in
  lock_free key (w_now w) = true →
  session_of (presence_in (w_cache w) (u_uid (sd_user d))) (sd_sessionId d) = None →
  handleDisconnect id w = (Ok tt, add_out (LockAcquired key) w).
Proof.
  intros Hd key Hlock Hno. unfold handleDisconnect. mstep by (rewrite socket_data_run, Hd; done). cbv zeta.
  mstep by (rewrite acquireLock_run; fold key; rewrite Hlock; done).
  mstep by (unfold cache_presence, gets; reflexivity).
  cbn [add_out w_cache]. unfold session_of in Hno.
  destruct (presence_in (w_cache w) _) as [p|]; [by rewrite Hno|done].
Qed.

(** ** Routing of client messages *)

(** Where a forwarded message may go. *)
Definition routed (x : CachedWorkspace) (uid sid : string) (p : EnvPayload) (cid : option string)
    (e : effect) : Prop :=
  (¬ (env_action p ∈ stickyActions) ∧
     e = Nats "env.msg" (Some (meta_us uid sid)) (EnvMessage (InMsg (InEnv p) cid))) ∨
  (env_action p ∈ stickyActions ∧
     ∃ i, env_instance x sid p = Some i ∧ env_healthy i = true ∧
       e = Redis ("env." +:+ i) (Some (meta_us uid sid)) (EnvMessage (InMsg (InEnv p) cid))).

Definition is_forward (e : effect) : Prop :=
  match e with Nats _ _ _ | Redis _ _ _ => True | _ => False end.

(** At most one message was sent, and it satisfies [P] if it is forwarded. *)
Definition sends (P : effect → Prop) (w w' : W) : Prop :=
  ∃ es, w_out w' = w_out w ++ es ∧ (length es ≤ 1)%nat ∧ ∀ e, e ∈ es → is_forward e → P e.

Lemma sends_none P w w' : w_out w' = w_out w → sends P w w'.
Proof.
  intros Ho. exists []. rewrite app_nil_r. split; [done|]. split; [simpl; lia|].
  by intros e ?%elem_of_nil.
Qed.
Lemma sends_one (P : effect → Prop) w w' e :
  w_out w' = w_out w ++ [e] → (is_forward e → P e) → sends P w w'.
Proof.
  intros Ho HP. exists [e]. split; [done|]. split; [simpl; lia|]. by intros e' ->%list_elem_of_singleton.
Qed.
Lemma sends_error P w w0 sk cid code :
  w_out w0 = w_out w → sends P w (reply_error sk cid code w0).2.
Proof.
  intros Ho. unfold reply_error. destruct (if_truthy cid); simpl; [|by apply sends_none].
  eapply sends_one; [simpl; by rewrite Ho|done].
Qed.

(** C19: only members reach an environment.  Given a coherent cache, when a
    client's message is forwarded at all, its sender is a member of the
    workspace, the workspace is running, the message is unchanged and tagged
    with the sender's user and session; a sticky message goes to the healthy
    instance that holds its document, terminal or workspace, any other to
    the shared queue; and at most one message leaves.  (The workspace
    service vouches for members only, and no instance is called
    "undefined".) *)
Theorem env_message_routing member sk uid sid p cid w :
  coherent member (w_cache w) → rpc_sound member → env_healthy "undefined" = false →
  sends (λ e, member (env_uuid p) uid ∧
           ∃ x, workspace_in (w_cache w) (env_uuid p) = Some x ∧ routed x uid sid p cid e)
    w (handleEnvMessage sk uid sid p cid w).2.
Proof.
  intros Hco Hrpc Hund. unfold handleEnvMessage.
  rewrite (bind_ok _ _ w (workspace_in (w_cache w) (env_uuid p)) w) by done.
  destruct (workspace_in (w_cache w) (env_uuid p)) as [x|]; [|by apply sends_error].
  pose proof (checkMembership_decides member uid (env_uuid p) w Hco Hrpc) as Hck.
  unfold bind at 1. destruct (checkMembership uid (env_uuid p) w) as [[v|e] w1].
  2:{ apply sends_none. apply Hck. }
  destruct Hck as ([Htr Hm] & Ho). rewrite Htr. cbn [negb].
  case_bool_decide as Hst.
  2:{ eapply sends_one; [simpl; by rewrite Ho|]. intros _. split; [done|]. exists x. split; [done|]. by left. }
  destruct (env_healthy (default "undefined" (env_instance x sid p))) eqn:Hh; cbn [negb].
  - eapply sends_one; [simpl; by rewrite Ho|]. intros _. split; [done|]. exists x. split; [done|]. right.
    split; [done|]. destruct (env_instance x sid p) as [i|]; [by exists i|]. simpl in Hh. congruence.
  - destruct p; try (by apply sends_none); try (by apply sends_error);
      (eapply sends_one; [simpl; by rewrite Ho|done]).
Qed.
End socket_props.

(** ** Examples *)
Section socket_examples.
Instance sk_Rpc : MembershipRpc := {| rpc_check uid _ := if decide (uid = "olga") then Ok (MInfo "img" false)
  else Throw (HttpException 403 "NO_WORKSPACE_MEMBERSHIP") |}.
Instance sk_Env : Env := {| env _ := None |}.
Instance sk_Auth : Auth := {| validate_token t := if decide (t = "good")
  then Some (MkUser "olga" None None None None None None) else None |}.
Instance sk_Lock : Redlock := {| lock_free _ _ := true; lock_kept _ _ := true |}.
Instance sk_Net : Network := {| reachable _ _ := true |}.
Instance sk_Health : Health := {| env_healthy i := bool_decide (i = "env-1") |}.
Instance sk_Users : Users := {| users_by_uid _ := [] |}.

Definition olga : User := MkUser "olga" None None None None None None.
Definition sess : CachedSession := Session active "sock-0" "gw-0" (Some "ws-1").
Definition demo_cws : CachedWorkspace := CWs active "env-1" [("/workspace/", ["olga"])] {[ 5 := "env-1" ]} ∅.
Definition demo_cache : gmap string (cval * option Z) :=
  <[CACHEKEY_PRESENCE "olga" := (CPresence [("s1", sess)], None)]>
  (<[CACHEKEY_PRESENCE_SESSION "olga" "s1" := (CFlag 1, Some 20000)]>
  {[CACHEKEY_WORKSPACE "ws-1" := (CWorkspace demo_cws, None)]}).
Definition demo_gw : world (gmap string (cval * option Z)) Gateway :=
  World demo_cache [] 0 0 (MkGateway "gw-1" true [("sock-0", Some (MkSocketData olga "s1"))]).
Definition demo_hs : Handshake := MkHandshake "sock-1" (Some "good") "s1".


Lemma demo_gw_timed : timed (w_cache demo_gw).
Proof.
  intros u s p x Hu Hs. unfold presence_in, demo_gw, demo_cache. simpl.
  destruct (decide (u = "olga")) as [->|Hne].
  - intros [= <-] [= -> _]%oget_elem%list_elem_of_singleton. right. by eexists.
  - rewrite lookup_insert_ne by (intros Heq; apply (inj CACHEKEY_PRESENCE) in Heq; congruence).
    rewrite lookup_insert_ne by (apply not_eq_sym; by apply presence_ne_session).
    rewrite lookup_singleton_ne by done. done.
Qed.
Lemma demo_gw_sockets : sockets_ok (w_loc demo_gw).
Proof. intros id d [= -> ->]%oget_elem%list_elem_of_singleton. done. Qed.

Lemma demo_auth_colon_free t u : validate_token t = Some u → colon_free (u_uid u).
Proof. simpl. case_decide; [|done]. intros [= <-]. reflexivity. Qed.

Lemma sessions_always_timed_witness : timed (w_cache (handleConnection demo_hs demo_gw).2).
Proof.
  apply (sessions_always_timed demo_gw);
    [exact demo_auth_colon_free|exact demo_gw_timed|exact demo_gw_sockets|].
  apply rtc_once. by constructor.
Defined.

Lemma connection_reachable_witness :
  ∃ w', handleConnection demo_hs demo_gw = (Ok tt, w') ∧
    send "olga" "s1" "env" (EnvDisconnect "X") w' = (Ok tt, add_out (ToSocket "sock-1" "env" (EnvDisconnect "X")) w').
Proof.
  destruct (connection_reachable demo_hs "good" olga demo_gw "env" (EnvDisconnect "X"))
    as (w' & p & s & Hr & _ & _ & _ & _ & _ & _ & Hs & _); [reflexivity..|]. eauto.
Defined.

Lemma close_order_ignored_witness :
  ∃ r w' ch meta p, handleConnection demo_hs demo_gw = (r, w') ∧ Redis ch meta p ∈ w_out w' ∧
    p = SocketClose "sock-0" ∧
    on_gateway_event ch (packet ch meta p) (World demo_cache [] 0 0
      (MkGateway "gw-0" true [("sock-0", Some (MkSocketData olga "s1"))])) =
    (Ok tt, World demo_cache [] 0 0 (MkGateway "gw-0" true [("sock-0", Some (MkSocketData olga "s1"))])).
Proof.
  destruct (close_order_ignored demo_hs "good" olga demo_gw sess (World demo_cache [] 0 0
      (MkGateway "gw-0" true [("sock-0", Some (MkSocketData olga "s1"))])))
    as (r & w' & ch & meta & p & Hr & Hin & _ & Hp & He); [reflexivity..|]. exists r, w', ch, meta, p. done.
Defined.

Lemma disconnect_keeps_lock_witness :
  handleDisconnect "sock-9" (World ∅ [] 0 0 (MkGateway "gw-1" true [("sock-9", Some (MkSocketData olga "s9"))])
    : world (gmap string (cval * option Z)) Gateway) =
  (Ok tt, add_out (LockAcquired "locks:olga:s9")
    (World ∅ [] 0 0 (MkGateway "gw-1" true [("sock-9", Some (MkSocketData olga "s9"))]))).
Proof. by apply (disconnect_keeps_lock "sock-9" (MkSocketData olga "s9")). Defined.

Lemma env_message_routing_witness :
  (handleEnvMessage "sock-0" "olga" "s1" (FSSyncIn "ws-1" 5 "buf") None demo_gw).1 = Ok tt ∧
  sends (λ e, demo_member_of "ws-1" "olga" ∧ ∃ x, workspace_in (w_cache demo_gw) "ws-1" = Some x ∧
      routed x "olga" "s1" (FSSyncIn "ws-1" 5 "buf") None e)
    demo_gw (handleEnvMessage "sock-0" "olga" "s1" (FSSyncIn "ws-1" 5 "buf") None demo_gw).2.
Proof.
  split; [reflexivity|].
  apply (env_message_routing demo_member_of "sock-0" "olga" "s1" (FSSyncIn "ws-1" 5 "buf") None demo_gw).
  - intros u x v. unfold cached_answer, membership_in, demo_gw, demo_cache. simpl.
    rewrite lookup_insert_ne by done. rewrite lookup_insert_ne by done.
    by rewrite lookup_singleton_ne by done.
  - intros u x v. simpl. case_decide; [|done]. intros [= <-]. done.
  - reflexivity.
Defined.
End socket_examples.
