(* ===== verification/Proxy.v ===== *)
(** The gateway's proxy ([gateway/src/proxy]): the routing table, its lookup,
    and the two ways of forwarding a request. *)
From stdpp Require Import pretty.
From S2P Require Import Prelude JS Messages Keys Interfaces Validation Codec Identity Tokens Socket.
From Stdlib Require Import Lia.

(** ** Routing table ([translations.ts]) *)
Inductive Protocol := HTTP | REDIS | NATS | RMQ.
#[global] Instance Protocol_eq_dec : EqDecision Protocol.
Proof. solve_decision. Defined.

Record Translation := MkTr {
  tr_target : Protocol; tr_pattern : option string; tr_action : option string;
}.
Definition Paths : Type := list (string * list (string * Translation)).
Record Rule := MkRule { ru_service : string; ru_paths : Paths }.

Definition to_http : Translation := MkTr HTTP None None.
Definition to_redis (pattern : string) : Translation := MkTr REDIS (Some pattern) None.
Definition to_nats (pattern action : string) : Translation := MkTr NATS (Some pattern) (Some action).

Definition rules : list Rule := [
  MkRule "user" [
    ("register", [("POST", to_http)]);
    ("update", [("PATCH", to_http)]);
    ("search", [("GET", to_http)]);
    ("delete", [("DELETE", to_http)]);
    ("*", [("GET", to_http)])];
  MkRule "notification" [
    ("all", [("GET", to_http)]);
    ("read", [("POST", to_http)]);
    ("readall", [("POST", to_http)])];
  MkRule "workspace-*" [
    ("dir/open", [("GET", to_redis "fs:open")]);
    ("dir/close", [("POST", to_redis "fs:close")]);
    ("file/open", [("POST", to_redis "fs:open")]);
    ("file/close", [("POST", to_redis "fs:close")]);
    ("file/save", [("POST", to_redis "fs:save")])];
  MkRule "workspace" [
    ("all", [("GET", to_http)]);
    ("update", [("PATCH", to_http)]);
    ("ignore", [("POST", to_http)]);
    ("accept", [("POST", to_http)]);
    ("access-request", [("POST", to_http)]);
    ("access-delete", [("DELETE", to_http)]);
    ("*", [("DELETE", to_http)])];
  MkRule "provisioner" [("provision", [("POST", to_http)])];
  MkRule "env" [
    ("open", [("POST", to_nats "env.msg" "open")]);
    ("close", [("POST", to_nats "env.msg" "close")])]
].

(** The [minimatch] package. *)
Class Minimatch := { minimatch : string → string → bool }.

(** The lookup of [proxyRequest]. *)
Definition find_translation `{!Minimatch} (serviceName servicePath method : string) : option Translation :=
  match List.find (λ r, minimatch serviceName (ru_service r)) rules with
  | None => None
  | Some rule =>
      match oget servicePath (ru_paths rule) ≫= oget method with
      | Some t => Some t
      | None =>
          match oget "*" (ru_paths rule) with
          | Some ms => oget method ms
          | None => None
          end
      end
  end.

Fixpoint join (sep : string) (l : list string) : string :=
  match l with
  | [] => ""
  | [s] => s
  | s :: l => s +:+ sep +:+ join sep l
  end.

(** ** Proxying *)

(** The members of a JavaScript object. *)
Definition json := list (string * jval).

(** [{...a, ...b}] *)
Definition spread (a b : json) : json := foldl (λ o '(k, v), oset k v o) a b.
(** The members that a spread copies: of an array and a string they are
    named by the index. *)
Definition own_members (v : jval) : json :=
  match v with
  | JObj o => o
  | JArr l => imap (λ i x, (pretty i, x)) l
  | JStr s => imap (λ i c, (pretty i, JStr (String c EmptyString))) (chars s)
  | JNull | JBool _ | JNum _ => []
  end.

(** A client's request: [path] is the path of the URL, [url] has the query
    too; the headers have lower-case names; the body is what the body parsers
    made of it, [None] for [undefined]. *)
Record Request := MkReq {
  rq_method : string; rq_path : string; rq_url : string; rq_headers : obj string; rq_body : option jval;
}.
(** [req.body], when it is truthy. *)
Definition sent_body (req : Request) : option jval :=
  b ← rq_body req; if jtruthy b then Some b else None.

(** A request the gateway makes. *)
Record HttpRequest := MkHttpReq {
  hq_method : string; hq_url : string; hq_headers : obj string; hq_body : option string;
}.

Inductive rpc_result := RpcOk (data : jval) | RpcErr (statusCode : Z) (message : string) | RpcTimeout.

(** The services behind the gateway: the response to an HTTP request (its
    status, and its body where that is JSON), [None] when there is none, and
    the reply to a message.  [url_params] is [URLSearchParams.toString]. *)
Class Backends := {
  http_reply : HttpRequest → option (Z * option jval);
  rpc_reply : Protocol → string → string → json → rpc_result;
  url_params : json → string;
}.

Section proxy.
Context `{!Minimatch, !Backends}.

Definition request_url (serviceName path : string) (queries : json) : string :=
  let url := "http://" +:+ serviceName +:+ "/api/" +:+ path in
  match queries with [] => url | _ => url +:+ "?" +:+ url_params queries end.

(** The options of [fetch]. *)
Definition forwarded (serviceName path : string) (req : Request) (user : User) (queries : json) : HttpRequest :=
  MkHttpReq (rq_method req) (request_url serviceName path queries)
    [("Content-Type", default "application/json" (if_truthy (oget "content-type" (rq_headers req))));
     ("x-auth-user", x_auth_user user)]
    (stringify <$> sent_body req).

(** [fetch] rejects a GET or HEAD request that has a body. *)
Definition fetch_refused (q : HttpRequest) : bool :=
  match hq_body q with Some _ => bool_decide (hq_method q ∈ ["GET"; "HEAD"]) | None => false end.

(** The [message] of the exception made from [error?.message ?? 'UNKNOWN']:
    an [HttpException] without a text has the words of its class name. *)
Definition error_message (error : option jval) : string :=
  match jmember_opt "message" error with
  | None | Some JNull => "UNKNOWN"
  | Some (JStr m) => m
  | Some v => match prop "message" v with Some (JStr m) => m | _ => "Http Exception" end
  end.

(** The data of the response, [None] when there is none.  A [fetch] without a
    response rejects with a [TypeError]. *)
Definition sendRequest (serviceName path : string) (req : Request) (user : User) (queries : json) :
    res (option jval) :=
  let q := forwarded serviceName path req user queries in
  if fetch_refused q then Throw TypeError else
  match http_reply q with
  | None => Throw TypeError
  | Some (status, body) =>
      if (status <? 200) || (299 <? status) then Throw (HttpException status (error_message body))
      else if status =? 204 then Ok None
      else Ok body
  end.

(** The payload sent for a message: the action of the route, overridden by
    the query and then by the body. *)
Definition message_payload (translation : Translation) (req : Request) (queries : json) : json :=
  let payload := match tr_action translation with Some a => [("reqAction", JStr a)] | None => [] end in
  let payload := spread payload queries in
  match sent_body req with Some b => spread payload (own_members b) | None => payload end.

Definition sendMessage (translation : Translation) (req : Request) (user : User) (queries : json) :
    res (option jval) :=
  match tr_target translation with
  | HTTP => Throw (HttpException 500 "UNKNOWN")
  | p =>
      match rpc_reply p (default "undefined" (tr_pattern translation)) (u_uid user)
              (message_payload translation req queries) with
      | RpcOk data => Ok (Some data)
      | RpcErr statusCode message => Throw (HttpException statusCode message)
      | RpcTimeout => Throw (HttpException 500 "UNKNOWN")
      end
  end.

Definition proxyRequest (serviceName : string) (path : list string) (queries : json) (req : Request)
    (user : User) : res (option jval) :=
  let servicePath := join "/" path in
  match find_translation serviceName servicePath (rq_method req) with
  | None => Throw (HttpException 404 "Not Found")
  | Some translation =>
      if bool_decide (tr_target translation = HTTP)
      then sendRequest serviceName servicePath req user queries
      else sendMessage translation req user queries
  end.

(** the internal operations of the workspace service cannot be reached
    from outside: changing a status, consuming, resetting or fulfilling an
    access code, creating or downgrading a workspace and checking
    memberships are answered 404 whatever the query and the body, as long as
    [minimatch] takes a pattern without a wildcard literally and
    [workspace-*] does not match [workspace]. *)
Theorem internal_routes_hidden queries req user route method :
  (∀ s p, has_char "*"%char p = false → minimatch s p = bool_decide (s = p)) →
  minimatch "workspace" "workspace-*" = false →
  (route, method) ∈ [("update-status", "PATCH"); ("access-consume", "POST"); ("access-reset", "POST");
    ("access-fulfill", "POST"); ("create", "POST"); ("downgrade", "POST"); ("check-eligibility", "GET")] →
  rq_method req = method →
  proxyRequest "workspace" [route] queries req user = Throw (HttpException 404 "Not Found").
Proof.
  intros Hlit Hws Hin Hm. unfold proxyRequest, find_translation. rewrite Hm.
  assert (List.find (λ r, minimatch "workspace" (ru_service r)) rules =
    Some (MkRule "workspace" [("all", [("GET", to_http)]); ("update", [("PATCH", to_http)]);
      ("ignore", [("POST", to_http)]); ("accept", [("POST", to_http)]);
      ("access-request", [("POST", to_http)]); ("access-delete", [("DELETE", to_http)]);
      ("*", [("DELETE", to_http)])])) as ->.
  { unfold rules. cbn [List.find ru_service]. rewrite Hws, !Hlit by reflexivity. reflexivity. }
  repeat (apply elem_of_cons in Hin as [[= -> ->]|Hin]; [reflexivity|]). by apply elem_of_nil in Hin.
Qed.

(** the action of a message route is not fixed by the route: a query or
    a body field [reqAction] replaces it, so a request to open can carry the
    action of another one. *)
Theorem route_action_overridable translation req queries a b :
  tr_action translation = Some a → (∀ v, sent_body req = Some v → oget "reqAction" (own_members v) = None) →
  oget "reqAction" queries = Some b → owf queries →
  oget "reqAction" (message_payload translation req queries) = Some b.
Proof.
  intros Ha Hbody Hq Hwf.
  assert (∀ (q p : json) k, k ∉ okeys q → oget k (spread p q) = oget k p) as Hskip.
  { induction q as [|[k v] q IH]; intros p k' Hk; [done|]. unfold spread in *. simpl in *.
    apply not_elem_of_cons in Hk as [Hne Hk]. rewrite IH by done. by rewrite oget_oset_ne. }
  assert (∀ (q p : json) k v, owf q → oget k q = Some v → oget k (spread p q) = Some v) as Hset.
  { induction q as [|[k v] q IH]; intros p k' v' Hq' Hg; [done|]. simpl in Hg.
    apply NoDup_cons in Hq' as [Hk Hq']. change (spread p ((k, v) :: q)) with (spread (oset k v p) q).
    case_decide as Hd; [|by apply IH]. simplify_eq. rewrite Hskip by done. apply oget_oset_eq. }
  unfold message_payload. rewrite Ha.
  assert (oget "reqAction" (spread [("reqAction", JStr a)] queries) = Some b) as Hs by (by apply Hset).
  destruct (sent_body req) as [body|]; [|done]. rewrite Hskip; [done|].
  intros Hin. apply oget_keys in Hin as [x Hx]. specialize (Hbody body eq_refl). congruence.
Qed.
End proxy.

Section proxy_examples.
Instance px_Minimatch : Minimatch :=
  {| minimatch s p := if decide (p = "workspace-*") then bool_decide (s = "workspace-1") else bool_decide (s = p) |}.
Instance px_Backends : Backends :=
  {| http_reply _ := Some (200, Some (JObj [])); rpc_reply _ _ _ _ := RpcOk (JObj []); url_params _ := "" |}.

Lemma internal_routes_hidden_witness :
  proxyRequest "workspace" ["downgrade"] [] (MkReq "POST" "/api/workspace/downgrade" "/api/workspace/downgrade" [] None)
    (MkUser "u" None None None None None None) = Throw (HttpException 404 "Not Found").
Proof.
  apply (internal_routes_hidden [] (MkReq "POST" "/api/workspace/downgrade" "/api/workspace/downgrade" [] None)
    (MkUser "u" None None None None None None) "downgrade" "POST").
  - intros s p Hp. simpl. case_decide; [by subst|done].
  - reflexivity.
  - set_solver.
  - reflexivity.
Defined.

Lemma route_action_overridable_witness :
  oget "reqAction" (message_payload (to_nats "env.msg" "open") (MkReq "POST" "/api/env/open" "/api/env/open" [] None)
    [("reqAction", JStr "close")]) = Some (JStr "close").
Proof.
  apply (route_action_overridable _ _ _ "open" (JStr "close")); [reflexivity|done|reflexivity|].
  apply NoDup_singleton.
Defined.
End proxy_examples.
