(* ===== verification/Public.v ===== *)
(** The gateway's public endpoints ([gateway/src/public]) and guards
    ([gateway/src/common/guard]): availability of usernames over a cuckoo
    filter, templates, the webhook, and who may pass. *)
From S2P Require Import Prelude JS Messages Keys Interfaces Validation Tokens Fixtures Socket.
From Stdlib Require Import Lia.

(** ** The users collection of Firestore: documents named by username *)
Class UserStore (U : Type) := {
  us_kv :: KV U string User;
  us_where : string → U → list User;      (* where('uid', '==', uid) *)
  us_ids : U → list string;               (* listDocuments *)
}.
Class UserStoreLaws (U : Type) `{!UserStore U} : Prop := {
  us_kv_laws :: KVLaws U string User;
  us_where_spec uid t p : p ∈ us_where uid t ↔ ∃ id, kv_get id t = Some p ∧ u_uid p = uid;
  us_ids_spec t id : id ∈ us_ids t ↔ is_Some (kv_get id t);
}.

(** RedisBloom's cuckoo filter: an added value is found until removed. *)
Class Cuckoo (F : Type) := {
  cf_exists : string → F → bool; cf_add : string → F → F; cf_del : string → F → F;
}.
Class CuckooLaws (F : Type) `{!Cuckoo F} : Prop := {
  cf_exists_add v t : cf_exists v (cf_add v t) = true;
  cf_exists_mono v v' t : cf_exists v t = true → cf_exists v (cf_add v' t) = true;
}.

(** [s.toLowerCase()] on 8-bit characters. *)
Definition lower_ascii (c : ascii) : ascii :=
  let n := nat_of_ascii c in
  if (Nat.leb 65 n && Nat.leb n 90) || (Nat.leb 192 n && Nat.leb n 222 && negb (Nat.eqb n 215))
  then ascii_of_nat (n + 32) else c.
Fixpoint toLowerCase (s : string) : string :=
  match s with EmptyString => EmptyString | String c s => String (lower_ascii c) (toLowerCase s) end.

Record PubState (F U : Type) := MkPub { ps_filter : F; ps_users : U }.
Arguments MkPub {F U}.
Arguments ps_filter {F U}.
Arguments ps_users {F U}.

Inductive WebHookDTO :=
| UserRegistered (uid username : string) (profile : User)
| UserDeleted (uid username : string)
| OtherHook.

(** The configuration of the guards. *)
Class GuardEnv := { common_verify : string → option ServicePayload }.
(** [static/templates.json] and the reply of the workspace service to a
    decision on an access request ([None]: unreachable). *)
Class PublicPeers := {
  templates_file : list (string * string);
  fulfill_reply : string → string → option (res unit);
}.
(** An answer of the authentication service to the two e-mail requests. *)
Record AuthReply := MkAuthReply { rp_status : Z; rp_message : option string; rp_token : option string }.
Class AuthMail := {
  register_reply : string → option AuthReply;          (* by e-mail address *)
  verify_reply : string → string → option AuthReply;   (* by e-mail address and code *)
}.

Section public.
Context {C F U : Type} `{!Cache C, !Cuckoo F, !UserStore U}.
Context `{!Auth, !Users, !JWT, !Secret, !GuardEnv, !PublicPeers, !AuthMail, !Redlock}.
Abbreviation W := (world C (PubState F U)).
Local Open Scope mon_scope.

Definition set_filter (f : F → F) : M W unit :=
  put_loc (λ s, MkPub (f (ps_filter s)) (ps_users s)).

Definition cuckooCheck (value : string) : M W bool := gets (λ w, cf_exists value (ps_filter (w_loc w))).
Definition cuckooAdd (value : string) : M W unit := set_filter (cf_add value).
Definition cuckooRemove (value : string) : M W unit := set_filter (cf_del value).

Definition addUsername (username : string) : M W unit := cuckooAdd (toLowerCase username).
Definition removeUsername (username : string) : M W unit := cuckooRemove (toLowerCase username).

Definition validateUsername (username : string) : bool := truthy username && rmatch usernameRegex username.

(** Whether the username is available. *)
Definition checkUsernameExistence (username : string) : M W bool :=
  if negb (validateUsername username) then throw (HttpException 400 "INVALID_USER_USERNAME") else
  existsInFilter <- cuckooCheck (toLowerCase username) ;;
  if negb existsInFilter then ret true else
  s <- get_loc ;;
  ret (negb (bool_decide (is_Some (kv_get username (ps_users s))))).

(** Fills the filter from the collection; the names are added as they are.
    Reserving a filter that does not exist yet leaves it empty. *)
Definition seed (lock : string) : M W unit :=
  s <- get_loc ;;
  forM cuckooAdd (us_ids (ps_users s)) ;;;
  emit (LockReleased lock).

(** [onModuleInit]: one instance of the gateway seeds at a time; the others
    go on without. *)
Definition initFilter : M W unit :=
  try_catch
    (t <- now ;;
     if lock_free "locks:usernames_cuckoo_init" t
     then emit (LockAcquired "locks:usernames_cuckoo_init") ;;; seed "locks:usernames_cuckoo_init"
     else throw (PlainError "ExecutionError"))
    (λ _, ret tt).

(** A request to the authentication service: its answer, or what the caller
    throws. *)
Definition auth_answer (url : string) (reply : option AuthReply) : M W AuthReply :=
  emit (Http "POST" url) ;;;
  match reply with
  | None => throw (HttpException 500 "UNKNOWN")
  | Some r =>
      if (rp_status r <? 200) || (299 <? rp_status r)
      then throw (HttpException (rp_status r) (default "UNKNOWN" (rp_message r))) else ret r
  end.

Definition registerEmail (email : string) : M W unit :=
  auth_answer "http://auth/api/register-email" (register_reply email) ;;; ret tt.
Definition verifyEmail (email code : string) : M W (option string) :=
  r <- auth_answer "http://auth/api/verify-email" (verify_reply email code) ;;
  ret (rp_token r).

Definition refreshProfileCheckCache (uid : string) (data : User) : M W unit :=
  userProfile <- cache_profile uid ;;
  match userProfile with
  | Some _ => ret tt
  | None => cache_set (CACHEKEY_USER_PROFILE uid) (CProfile data) None
  end.

Definition removeCaches (uid : string) : M W unit :=
  cache_del (CACHEKEY_MEMBERSHIP uid) ;;;
  cache_del (CACHEKEY_USER_PROFILE uid) ;;;
  presence <- cache_presence uid ;;
  match presence with
  | None => ret tt
  | Some p =>
      forM (λ sessionId, cache_del (CACHEKEY_PRESENCE_SESSION uid sessionId)) (okeys p) ;;;
      cache_del (CACHEKEY_PRESENCE uid)
  end.

Definition getTemplates : M W (list (string * string)) :=
  cached <- cache_get "templates" ;;
  match cached with
  | Some (CTemplates l) => ret l
  | _ => cache_set "templates" (CTemplates templates_file) (Some 3600000) ;;; ret templates_file
  end.

(** [PublicController.onModuleInit] *)
Definition cacheTemplates : M W unit := try_catch (getTemplates ;;; ret tt) (λ _, ret tt).

(** [{ success, error }] *)
Definition fulfillAccessRequest (action token : string) : M W (bool * option string) :=
  emit (Http "POST" "http://workspace/api/access-fulfill") ;;;
  match fulfill_reply action token with
  | None => ret (false, Some "UNKNOWN")
  | Some (Throw (HttpException _ message)) => ret (false, Some message)
  | Some (Throw _) => ret (false, None)
  | Some (Ok _) => ret (true, None)
  end.

(** The request to the workspace service that deletes a user's workspaces. *)
Definition requestDeleteOwned (uid : string) : M W unit :=
  emit (Rmq "workspace.delete.owned" None (WorkspaceDeleteOwned uid)).

Definition handleWebhook (data : WebHookDTO) : M W unit :=
  match data with
  | UserRegistered uid username profile =>
      addUsername username ;;; refreshProfileCheckCache uid profile
  | UserDeleted uid username =>
      removeUsername username ;;; removeCaches uid ;;; requestDeleteOwned uid
  | OtherHook => ret tt
  end.

(** *** Guards *)

(** [AuthGuard.canActivate]: the user of the request, and whether it passes. *)
Definition bearer (authorization : string) : string :=
  match split_on " "%char authorization with
  | "Bearer" :: t :: _ => t
  | _ => authorization
  end.

Definition authGuard (authorization : option string) (path : string) : M W (User * bool) :=
  match if_truthy authorization with
  | None => throw (HttpException 401 "Authorization header missing")
  | Some a =>
      match validate_token (bearer a) with
      | None => throw (HttpException 401 "Authentication failed")
      | Some userData =>
          if bool_decide (path = "/api/user/register") then ret (userData, true) else
          userProfile <- cache_profile (u_uid userData) ;;
          match userProfile with
          | Some _ => ret (userData, true)
          | None =>
              match users_by_uid (u_uid userData) with
              | [] => ret (userData, false)
              | p :: _ =>
                  cache_set (CACHEKEY_USER_PROFILE (u_uid userData)) (CProfile p) None ;;;
                  ret (userData, true)
              end
          end
      end
  end.

Definition allowedIss : list string := ["firebase-service"; "workspace-api"].
Definition allowedaud : list string := ["gateway-api"; "client"].

(** [PublicGuard.canActivate]; [metadata] is what [GuardParam] set on the
    handler, if anything. *)
Definition publicGuard (metadata : option string) (query_token authorization : option string) : res bool :=
  match metadata with
  | None => Throw TypeError
  | Some guardType =>
      let ws := bool_decide (guardType = "workspace") in
      let token := if ws then query_token
                   else authorization ≫= λ a, split_on " "%char a !! 1%nat in
      match if_truthy token with
      | None => Throw (HttpException 401 "Authorization header or token param is missing")
      | Some token =>
          match (if ws then jwt_verify token SERVICE_SECRET else common_verify token) with
          | None => Throw (HttpException 401 "Unauthorized access")
          | Some payload =>
              Ok (bool_decide (tk_aud payload ∈ allowedaud) && bool_decide (tk_iss payload ∈ allowedIss))
          end
      end
  end.

(** *** Routes *)
Inductive public_request :=
| CheckUsername (username : string)
| RegisterEmail (email : string)
| VerifyEmail (email code : string)
| Templates
| Webhook (authorization : option string) (data : WebHookDTO)
| AccessFulfill (action : string) (token : option string).

(** The type given by [GuardParam] to the handler of a guarded route. *)
Definition guard_metadata (r : public_request) : option string :=
  match r with AccessFulfill _ _ => Some "workspace" | _ => None end.

(** A guard that answers false is a 403; the framework turns any other
    exception into a 500. *)
Definition guarded (g : res bool) (m : M W unit) : M W unit :=
  match g with
  | Ok true => m
  | Ok false => throw (HttpException 403 "Forbidden resource")
  | Throw e => throw e
  end.

Definition handle_public (r : public_request) : M W unit :=
  match r with
  | CheckUsername username => checkUsernameExistence username ;;; ret tt
  | RegisterEmail email => registerEmail email
  | VerifyEmail email code => verifyEmail email code ;;; ret tt
  | Templates => getTemplates ;;; ret tt
  | Webhook authorization data => guarded (publicGuard (guard_metadata r) None authorization) (handleWebhook data)
  | AccessFulfill action token =>
      guarded (publicGuard (guard_metadata r) token None)
        (fulfillAccessRequest action (default "undefined" token) ;;; ret tt)
  end.
End public.

(** ** Properties *)
Section public_props.
Context {C F U : Type} `{!Cache C, !Cuckoo F, !UserStore U, !UserStoreLaws U}.
Context `{!Auth, !Users, !JWT, !Secret, !GuardEnv, !PublicPeers}.
Abbreviation W := (world C (PubState F U)).
Implicit Types w : W.

(** Every registered username is in the filter, in lower case. *)
Definition filter_complete (s : PubState F U) : Prop :=
  ∀ id, is_Some (kv_get id (ps_users s)) → cf_exists (toLowerCase id) (ps_filter s) = true.

(** the availability check is exact while the filter is complete: a
    valid username is reported available exactly when no document has that
    name (false positives of the filter are corrected by the lookup), an
    invalid one is refused; and registering through the webhook keeps the
    filter complete for the new name. *)
Theorem checkUsername_exact `{!CuckooLaws F} username w uid profile :
  filter_complete (w_loc w) →
  (validateUsername username = true →
     checkUsernameExistence username w = (Ok (negb (bool_decide (is_Some (kv_get username (ps_users (w_loc w)))))), w)) ∧
  (validateUsername username = false →
     checkUsernameExistence username w = (Throw (HttpException 400 "INVALID_USER_USERNAME"), w)) ∧
  filter_complete (MkPub (ps_filter (w_loc (handleWebhook (UserRegistered uid username profile) w).2))
                     (kv_set username profile (ps_users (w_loc w)))).
Proof.
  intros Hc. split_and!.
  - intros Hv. unfold checkUsernameExistence. rewrite Hv. cbn [negb]. mstep by done.
    destruct (cf_exists _ _) eqn:Hf; cbn [negb]; [by mstep by done|].
    rewrite bool_decide_false; [done|]. intros Hs. apply Hc in Hs. congruence.
  - intros Hv. unfold checkUsernameExistence. by rewrite Hv.
  - intros id Hs. unfold handleWebhook, refreshProfileCheckCache, bind, cache_profile, gets. simpl in *.
    assert (cf_exists (toLowerCase id) (cf_add (toLowerCase username) (ps_filter (w_loc w))) = true) as Hadd.
    { destruct (decide (id = username)) as [->|Hne]; [apply cf_exists_add|].
      rewrite kv_get_set_ne in Hs by done. apply cf_exists_mono. by apply Hc. }
    by destruct (profile_in _ _).
Qed.

(** the guard of the proxy lets a request pass only with a token the
    authentication service accepts, and, but for registration itself, only
    for a user whose profile exists (cached or stored). *)
Theorem authGuard_sound authorization path w u w' :
  authGuard authorization path w = (Ok (u, true), w') →
  (∃ a, authorization = Some a ∧ validate_token (bearer a) = Some u) ∧
  (path = "/api/user/register" ∨ is_Some (profile_in (w_cache w) (u_uid u)) ∨ users_by_uid (u_uid u) ≠ []).
Proof.
  unfold authGuard. destruct authorization as [a|]; [|done]. cbn [if_truthy].
  destruct (truthy a); [|done]. destruct (validate_token (bearer a)) as [u'|] eqn:Hv; [|done].
  case_bool_decide as Hp.
  { intros Hr; injection Hr as -> _. split; [by exists a|by left]. }
  intros Hrun. minv Hrun. injection Hm as <- <-.
  destruct (profile_in _ _) as [p|] eqn:Hprof.
  { injection Hrun as -> _. rewrite Hprof. split; [by exists a|by right; left]. }
  destruct (users_by_uid _) as [|p l] eqn:Hu; [done|]. minv Hrun. injection Hrun as -> _.
  split; [eauto|]. right. right. by rewrite Hu.
Qed.

(** The internal routes.  An access request is fulfilled only for a link
    whose token the workspace service signed for the right audience and
    issuer; and the webhook, whose handler lacks the metadata its guard
    reads, fails for every request: no registration or deletion announced
    that way ever reaches the filter or the caches. *)
Theorem internal_routes_guarded `{!AuthMail} r w w' o :
  handle_public r w = (o, w') →
  match r with
  | Webhook _ _ => o = Throw TypeError ∧ w' = w
  | AccessFulfill _ token => w' = w ∨ ∃ t payload, token = Some t ∧
      jwt_verify t SERVICE_SECRET = Some payload ∧ tk_aud payload ∈ allowedaud ∧ tk_iss payload ∈ allowedIss
  | _ => True
  end.
Proof.
  destruct r as [ | | | |authorization data|action token]; try done; simpl; [by intros [= <- <-]|].
  destruct token as [t|]; cbn [if_truthy]; [|by intros [= _ <-]; left].
  destruct (truthy t); [|by intros [= _ <-]; left].
  destruct (jwt_verify t SERVICE_SECRET) as [payload|] eqn:Hj; [|by intros [= _ <-]; left].
  destruct (bool_decide (tk_aud payload ∈ allowedaud)) eqn:Ha; [|by intros [= _ <-]; left].
  destruct (bool_decide (tk_iss payload ∈ allowedIss)) eqn:Hi; [|by intros [= _ <-]; left].
  intros _. right. exists t, payload. apply bool_decide_eq_true in Ha, Hi. done.
Qed.
End public_props.

(** ** The filter after seeding *)

(** A filter without false positives: a set. *)
#[global] Instance set_Cuckoo : Cuckoo (gset string) := {|
  cf_exists v t := bool_decide (v ∈ t); cf_add v t := {[v]} ∪ t; cf_del v t := t ∖ {[v]};
|}.
#[global] Instance set_CuckooLaws : CuckooLaws (gset string).
Proof.
  split; simpl; intros.
  - apply bool_decide_eq_true. set_solver.
  - apply bool_decide_eq_true. apply bool_decide_eq_true in H. set_solver.
Qed.

Section seeding.
Context {C U : Type} `{!Cache C, !UserStore U, !UserStoreLaws U}.
Abbreviation W := (world C (PubState (gset string) U)).

Lemma seed_loop l (w : W) :
  ∃ w', forM cuckooAdd l w = (Ok tt, w') ∧ ps_users (w_loc w') = ps_users (w_loc w) ∧
    ∀ v, v ∈ ps_filter (w_loc w') ↔ v ∈ ps_filter (w_loc w) ∨ v ∈ l.
Proof.
  revert w. induction l as [|x l IH]; intros w; simpl.
  { exists w. split_and!; try done. set_solver. }
  destruct (IH (set_loc (λ s, MkPub (cf_add x (ps_filter s)) (ps_users s)) w)) as (w' & Hr & Hu & Hf).
  exists w'. split; [exact Hr|]. split; [exact Hu|]. intros v. rewrite Hf. simpl. set_solver.
Qed.

(** seeding adds the names as they are, while the check and the webhook
    use lower case.  Even with a filter that never errs, after seeding an
    empty filter a taken username with a capital letter is reported
    available (unless its lower-case form is itself taken). *)
Theorem seed_misses_capitals (lock username : string) (w : W) :
  ps_filter (w_loc w) = ∅ → is_Some (kv_get username (ps_users (w_loc w))) →
  kv_get (toLowerCase username) (ps_users (w_loc w)) = None → validateUsername username = true →
  ∃ w', seed lock w = (Ok tt, w') ∧ is_Some (kv_get username (ps_users (w_loc w'))) ∧
    checkUsernameExistence username w' = (Ok true, w').
Proof.
  intros Hf Hs Hno Hv. unfold seed. mstep by done.
  destruct (seed_loop (us_ids (ps_users (w_loc w))) w) as (w' & Hr & Hu & Hfil).
  mstep by exact Hr. exists (add_out (LockReleased lock) w'). split; [done|]. cbn [w_loc add_out].
  rewrite Hu. split; [done|].
  unfold checkUsernameExistence. rewrite Hv. cbn [negb]. mstep by done.
  simpl. rewrite bool_decide_false; [done|]. rewrite Hfil, Hf, us_ids_spec, Hno.
  intros [?|[? ?]]; [set_solver|done].
Qed.
End seeding.

(** ** Examples *)
#[global] Instance gmap_UserStore : UserStore (gmap string User) := {|
  us_where uid t := List.filter (λ p, bool_decide (u_uid p = uid)) (map_to_list t).*2;
  us_ids t := (map_to_list t).*1;
|}.
#[global] Instance gmap_UserStoreLaws : UserStoreLaws (gmap string User).
Proof.
  split; [apply _| |].
  - intros uid t p. simpl. rewrite elem_of_lfilter, bool_decide_eq_true, list_elem_of_fmap. split.
    + intros [([id p'] & -> & Hin%elem_of_map_to_list) Hu]. eauto.
    + intros (id & Hg & Hu). split; [|done]. exists (id, p). split; [done|]. by apply elem_of_map_to_list.
  - intros t id. simpl. rewrite list_elem_of_fmap. split.
    + intros ([id' p] & -> & Hin%elem_of_map_to_list). by exists p.
    + intros [p Hg]. exists (id, p). split; [done|]. by apply elem_of_map_to_list.
Qed.

Definition demo_user (uid username : string) : User :=
  MkUser uid (Some "Some Name") (Some username) None None None None.
Definition demo_pub : world (gmap string (cval * option Z)) (PubState (gset string) (gmap string User)) :=
  World ∅ [] 0 0 (MkPub ∅ {["Alice" := demo_user "a" "Alice"]}).
Definition demo_pub_full : world (gmap string (cval * option Z)) (PubState (gset string) (gmap string User)) :=
  World ∅ [] 0 0 (MkPub {["alice"]} {["Alice" := demo_user "a" "Alice"]}).

Lemma seed_misses_capitals_witness :
  ∃ w', seed "lock" demo_pub = (Ok tt, w') ∧ checkUsernameExistence "Alice" w' = (Ok true, w').
Proof.
  destruct (seed_misses_capitals "lock" "Alice" demo_pub) as (w' & Hs & _ & Hc);
    [reflexivity|by eexists|reflexivity|vm_compute; reflexivity|]. eauto.
Defined.

Lemma checkUsername_exact_witness :
  checkUsernameExistence "Alice" demo_pub_full = (Ok false, demo_pub_full).
Proof.
  destruct (checkUsername_exact "Alice" demo_pub_full "a" (demo_user "a" "Alice")) as [H _].
  - intros id. simpl. rewrite lookup_singleton. case_decide as Hd; [|by intros []]. subst. intros _. reflexivity.
  - apply H. vm_compute. reflexivity.
Defined.

Section guard_example.
Instance gu_Auth : Auth := {| validate_token t := if decide (t = "good") then Some (demo_user "a" "Alice") else None |}.
Instance gu_Users : Users := {| users_by_uid u := [demo_user u "Alice"] |}.
Lemma authGuard_sound_witness :
  ∃ w', authGuard (Some "Bearer good") "/api/workspace/all" demo_pub = (Ok (demo_user "a" "Alice", true), w') ∧
    validate_token (bearer "Bearer good") = Some (demo_user "a" "Alice").
Proof.
  eexists. split; [vm_compute; reflexivity|].
  edestruct (authGuard_sound (Some "Bearer good") "/api/workspace/all" demo_pub) as [(a & Ha & Hv) _];
    [vm_compute; reflexivity|]. injection Ha as <-. exact Hv.
Defined.

Instance gu_Peers : PublicPeers := {| templates_file := []; fulfill_reply _ _ := Some (Ok tt) |}.
Instance gu_Env : GuardEnv := {| common_verify _ := None |}.
Instance gu_Mail : AuthMail := {| register_reply _ := None; verify_reply _ _ := None |}.
Definition link_token : string :=
  jwt_sign (SvcToken "workspace-api" "gateway-api" "access" (DAccess (AccessReq "a" "alice" "Alice" None "r1"))) SERVICE_SECRET.
Lemma internal_routes_guarded_witness :
  ∃ t payload, Some link_token = Some t ∧ jwt_verify t SERVICE_SECRET = Some payload ∧
    tk_aud payload ∈ allowedaud ∧ tk_iss payload ∈ allowedIss.
Proof.
  destruct (internal_routes_guarded (AccessFulfill "approve" (Some link_token)) demo_pub
    (handle_public (AccessFulfill "approve" (Some link_token)) demo_pub).2
    (handle_public (AccessFulfill "approve" (Some link_token)) demo_pub).1
    (surjective_pairing _)) as [Hw|Ht]; [|exact Ht].
  apply (f_equal (λ x, length (w_out x))) in Hw. vm_compute in Hw. discriminate Hw.
Defined.
End guard_example.
