(* ===== verification/ProxyProps.v ===== *)
(** A request through the gateway, from the client's token to the handler of
    a service and back. *)
From S2P Require Import Prelude JS Messages Keys Interfaces Validation Codec Identity Tokens Socket Fixtures Proxy Public.
From Stdlib Require Import Lia.

Section endpoint.
Context {C F U : Type} `{!Cache C, !Cuckoo F, !UserStore U}.
Context `{!Auth, !Users, !Minimatch, !Backends}.
Abbreviation W := (world C (PubState F U)).
Local Open Scope mon_scope.

(** The route of [ProxyController] with its guard: a guard that answers false
    is a 403. *)
Definition proxy_endpoint (serviceName : string) (path : list string) (queries : json) (req : Request) :
    M W (option jval) :=
  activated <- authGuard (oget "authorization" (rq_headers req)) (rq_path req) ;;
  let '(user, pass) := activated in
  if negb pass then throw (HttpException 403 "Forbidden resource")
  else match proxyRequest serviceName path queries req user with
       | Ok data => ret data
       | Throw e => throw e
       end.

(** What the client gets: the data, where [null] is an empty body; the answer
    of the filter; or the 500 of the framework for an exception that the
    filter does not catch. *)
Inductive ClientAnswer :=
| Data (status : Z) (body : option jval)
| Refused (status : Z) (body : ErrorBody)
| InternalServerError.
Definition body_sent (data : option jval) : option jval := match data with Some JNull => None | _ => data end.
Definition client_answer (url : string) (r : res (option jval)) : ClientAnswer :=
  match r with
  | Ok data => Data 200 (body_sent data)
  | Throw e => match http_exception_filter e url with Some (s, body) => Refused s body | None => InternalServerError end
  end.

(** *** A service behind the gateway

    [handler] is a route of the service: what it does with a request, for the
    user of the header.  When the service responds, a value is answered with
    a status of success, an [HttpException] with its status and message, any
    other exception with the 500 of the framework. *)
Definition serves (handler : User → HttpRequest → res (option jval)) : Prop :=
  ∀ q v u reply, UserHeader (oget "x-auth-user" (hq_headers q)) = Ok (Some v) → as_user v = Some u →
    http_reply q = Some reply →
    match handler u q with
    | Ok data => ∃ status, reply = (status, data) ∧ 200 ≤ status ≤ 299 ∧ (status = 204 → data = None)
    | Throw (HttpException s m) =>
        (s < 200 ∨ 299 < s) ∧ ∃ body, reply = (s, Some body) ∧ prop "message" body = Some (JStr m)
    | Throw _ => ∃ body, reply = (500, Some body) ∧ prop "message" body = Some (JStr "Internal server error")
    end.

(** The answer of a handler, as its caller sees it. *)
Definition seen (r : res (option jval)) : res (option jval) :=
  match r with
  | Ok data => Ok data
  | Throw (HttpException s m) => Throw (HttpException s m)
  | Throw _ => Throw (HttpException 500 "Internal server error")
  end.

(** No request is made, or it has no response. *)
Definition unanswered (q : HttpRequest) : bool :=
  fetch_refused q || match http_reply q with None => true | Some _ => false end.

Lemma sendRequest_seen handler serviceName path req user queries :
  let q := forwarded serviceName path req user queries in
  serves handler →
  sendRequest serviceName path req user queries = if unanswered q then Throw TypeError else seen (handler user q).
Proof.
  intros q Hs. unfold sendRequest, unanswered. fold q. destruct (fetch_refused q); [done|]. simpl.
  destruct (http_reply q) as [reply|] eqn:Hr; [|done].
  specialize (Hs q (user_json user) user reply (header_roundtrip user) (as_user_json user) Hr).
  destruct (handler user q) as [data|e].
  - destruct Hs as (status & -> & Hin & H204).
    replace ((status <? 200) || (299 <? status)) with false by lia. destruct (Z.eqb_spec status 204); [|done].
    by rewrite H204.
  - assert (∀ m body, prop "message" body = Some (JStr m) → error_message (Some body) = m) as Hm.
    { intros m body Hb. unfold error_message, jmember_opt. simpl. by rewrite Hb. }
    destruct e as [s m| | | |]; try (destruct Hs as (body & -> & Hb); by rewrite (Hm _ _ Hb)).
    destruct Hs as (Hin & body & -> & Hb). replace ((s <? 200) || (299 <? s)) with true by lia. by rewrite (Hm _ _ Hb).
Qed.

Lemma authGuard_result authorization path (w : W) r w' :
  authGuard authorization path w = (r, w') →
  match r with
  | Ok (user, _) => ∃ a, authorization = Some a ∧ validate_token (bearer a) = Some user
  | Throw e => ∃ m, e = HttpException 401 m
  end.
Proof.
  unfold authGuard. destruct authorization as [a|]; simpl; [|intros [= <- _]; by eexists].
  destruct (truthy a); [|intros [= <- _]; by eexists].
  destruct (validate_token (bearer a)) as [u|] eqn:Hv; [|intros [= <- _]; by eexists].
  case_bool_decide; [intros [= <- _]; by exists a|]. unfold bind, cache_profile, gets.
  destruct (profile_in _ _); [intros [= <- _]; by exists a|].
  destruct (users_by_uid _); intros [= <- _]; by exists a.
Qed.

(** C15: the proxy is transparent and cannot be talked into another identity.
    For a route that is forwarded over HTTP, whatever the headers, the query
    and the body of the client, either the guard refuses the request, with a
    401 or a 403, or it is forwarded with its method and its body for the
    user of the request's token, that user exactly, as the service reads it
    from the header.  When the service responds, the client gets the answer
    of the service's handler for that user: its data, or the status and the
    message it threw.  When there is no response, or when the request is a
    GET with a body, which cannot be sent, the client gets a 500. *)
Theorem proxy_transparent handler serviceName path queries req translation w r w' :
  serves handler →
  find_translation serviceName (join "/" path) (rq_method req) = Some translation → tr_target translation = HTTP →
  proxy_endpoint serviceName path queries req w = (r, w') →
  (∃ s m, s ∈ [401; 403] ∧ client_answer (rq_url req) r = Refused s (MkErrorBody s (rq_url req) m)) ∨
  (∃ a user, oget "authorization" (rq_headers req) = Some a ∧ validate_token (bearer a) = Some user ∧
     let q := forwarded serviceName (join "/" path) req user queries in
     hq_method q = rq_method req ∧
     UserHeader (oget "x-auth-user" (hq_headers q)) = Ok (Some (user_json user)) ∧
     (∀ b, rq_body req = Some b → jtruthy b = true → jwf b → hq_body q ≫= parse = Some b) ∧
     client_answer (rq_url req) r =
       if unanswered q then InternalServerError
       else match handler user q with
            | Ok data => Data 200 (body_sent data)
            | Throw (HttpException s m) => Refused s (MkErrorBody s (rq_url req) m)
            | Throw _ => Refused 500 (MkErrorBody 500 (rq_url req) "Internal server error")
            end).
Proof.
  intros Hs Ht Htr. unfold proxy_endpoint, bind.
  destruct (authGuard _ _ w) as [[[user pass]|e] w1] eqn:Hg.
  - destruct (authGuard_result _ _ _ _ _ Hg) as (a & Ha & Hv).
    destruct pass; [|intros [= <- _]; left; exists 403; eexists; (split; [set_solver|done])].
    simpl. intros Hrun. right. exists a, user.
    split_and!; [done..|apply header_roundtrip| |].
    + intros b Hb Htb Hwf. unfold sent_body. rewrite Hb. simpl. rewrite Htb. simpl. by apply json_roundtrip.
    + assert (r = proxyRequest serviceName path queries req user) as ->.
      { by destruct (proxyRequest _ _ _ _ _) as [|e]; injection Hrun as <- _. }
      unfold proxyRequest. rewrite Ht, bool_decide_true by done. rewrite (sendRequest_seen handler) by done.
      destruct (unanswered _); [done|]. by destruct (handler _ _) as [|[]].
  - destruct (authGuard_result _ _ _ _ _ Hg) as (m & ->). intros [= <- _]. left. exists 401. eexists.
    split; [set_solver|done].
Qed.
End endpoint.

(** A service that answers with the user's id. *)
Section endpoint_example.
Definition ep_handler (u : User) (q : HttpRequest) : res (option jval) :=
  if decide (hq_method q = "GET") then Ok (Some (JStr (u_uid u))) else Throw (HttpException 404 "WORKSPACE_NOT_FOUND").
Definition ep_error (m : string) : jval := JObj [("message", JStr m)].
Instance ep_Minimatch : Minimatch := {| minimatch s p := bool_decide (s = p) |}.
Instance ep_Backends : Backends := {|
  http_reply q :=
    match UserHeader (oget "x-auth-user" (hq_headers q)) with
    | Ok (Some v) => match as_user v with
                     | Some u => Some (match ep_handler u q with
                                       | Ok data => (200, data)
                                       | Throw (HttpException s m) => (s, Some (ep_error m))
                                       | Throw _ => (500, Some (ep_error "Internal server error"))
                                       end)
                     | None => None
                     end
    | _ => None
    end;
  rpc_reply _ _ _ _ := RpcTimeout; url_params _ := "" |}.
Instance ep_Auth : Auth := {| validate_token t := if decide (t = "good") then Some (MkUser "olga" (Some "Olga") None None None None None) else None |}.
Instance ep_Users : Users := {| users_by_uid uid := [MkUser uid None None None None None None] |}.

Definition ep_world : world (gmap string (cval * option Z)) (PubState (gset string) (gmap string User)) :=
  World ∅ [] 0 0 (MkPub ∅ ∅).
(** The client's own [x-auth-user] is of no use. *)
Definition ep_request (body : option jval) : Request :=
  MkReq "GET" "/api/workspace/all" "/api/workspace/all?x=1"
    [("authorization", "Bearer good"); ("x-auth-user", "e30=")] body.

Lemma ep_serves : serves ep_handler.
Proof.
  intros q v u reply Hv Hu. unfold http_reply, ep_Backends. rewrite Hv, Hu. intros [= <-]. unfold ep_handler.
  destruct (decide (hq_method q = "GET")).
  - exists 200. split; [reflexivity|]. split; [lia|]. intros ?. lia.
  - split; [lia|]. eexists. split; reflexivity.
Qed.

(** The same request with a nested body is not sent. *)
Lemma proxy_transparent_witness :
  client_answer "/api/workspace/all?x=1"
    (proxy_endpoint "workspace" ["all"] [("x", JStr "1")] (ep_request None) ep_world).1 = Data 200 (Some (JStr "olga")) ∧
  client_answer "/api/workspace/all?x=1" (proxy_endpoint "workspace" ["all"] [("x", JStr "1")]
    (ep_request (Some (JObj [("members", JArr [JStr "mark"])]))) ep_world).1 = InternalServerError.
Proof.
  split; [set (req := ep_request None)|set (req := ep_request (Some (JObj [("members", JArr [JStr "mark"])])))];
    (destruct (proxy_endpoint "workspace" ["all"] [("x", JStr "1")] req ep_world) as [r w'] eqn:Hrun;
     destruct (proxy_transparent ep_handler "workspace" ["all"] [("x", JStr "1")] req to_http ep_world r w') as
       [(s & m & _ & Hm)|(a & user & Ha & Hv & _ & _ & _ & Hr)];
     [exact ep_serves|reflexivity|reflexivity|exact Hrun
     |exfalso; change r with ((r, w').1) in Hm; rewrite <- Hrun in Hm; vm_compute in Hm; discriminate Hm
     |simpl in Ha; injection Ha as <-; vm_compute in Hv; injection Hv as <-; exact Hr]).
Defined.
End endpoint_example.
