(* ===== verification/Notification.v ===== *)
(** The notification service ([notification/src/app.service.ts] and
    [app.controller.ts]): notifications are stored per user in Firestore and
    pushed to every open session. *)
From S2P Require Import Prelude JS Dates Messages Keys Interfaces.
From Stdlib Require Import Lia.

(** The collection [notifications/<uid>/messages]: documents by user and
    notification id. *)
Class NtfnStore (T : Type) := {
  nt_kv :: KV T (string * string) UserNotificationPayload;
  nt_all : string → T → list UserNotificationPayload;
}.
Class NtfnStoreLaws (T : Type) `{!NtfnStore T} : Prop := {
  nt_kv_laws :: KVLaws T (string * string) UserNotificationPayload;
  nt_all_spec uid t n : n ∈ nt_all uid t ↔ ∃ id, kv_get (uid, id) t = Some n;
}.

(** [new Date(s)] on a string that [toISOString] did not write is up to the
    engine; [None] is an invalid date. *)
Class DateEngine := { parse_other : string → option Z }.
Definition new_Date `{!DateEngine} (createdOn : CreatedOn) : option Z :=
  match createdOn with
  | RawDate s => match iso_instant s with Some t => Some t | None => parse_other s end
  | Timestamp _ => None
  end.
Definition ntfn_created (c : CreatedOn) (n : UserNotificationPayload) : UserNotificationPayload :=
  Ntfn (n_type n) (n_id n) c (n_data n).

Section notification.
Context {C T : Type} `{!Cache C, !NtfnStore T} {Dt : DateEngine}.
Abbreviation W := (world C T).
Local Open Scope mon_scope.

(** One [socket.send] of pattern [notification] per open session. *)
Definition push_sessions (uid : string) (msg : OutMsg) : M W unit :=
  presence <- cache_presence uid ;;
  match presence with
  | None => ret tt
  | Some p =>
      forM (λ sessionId, emit (Redis "socket.send" (Some (meta_us uid sessionId))
              (SocketSend uid sessionId "notification" msg))) (okeys p)
  end.

(** The date is stored as such, and read back as a [Timestamp]; Firestore
    refuses an invalid one. *)
Definition pushNotification (uid : string) (n : UserNotificationPayload) : M W unit :=
  match new_Date (n_createdOn n) with
  | None => throw (PlainError "Value for argument seconds is not a valid integer")
  | Some t =>
      put_loc (kv_set (uid, n_id n) (ntfn_created (Timestamp t) n)) ;;;
      push_sessions uid (NtfnNew n)
  end.

Definition getAllNotifications (uid : string) : M W (list UserNotificationPayload) :=
  gets (λ w, nt_all uid (w_loc w)).

Definition pushAllPendingNotifications (uid : string) : M W unit :=
  pendingNtfns <- getAllNotifications uid ;;
  push_sessions uid (NtfnPending pendingNtfns).

Definition handleReadNotification (uid ntfnId : string) (ignorePersistent systemRead : bool) : M W unit :=
  doc <- gets (λ w, kv_get (uid, ntfnId) (w_loc w)) ;;
  match doc with
  | Some ntfn =>
      if negb ignorePersistent || negb (isNotificationPersistent ntfn)
      then put_loc (kv_del (uid, ntfnId)) else ret tt
  | None => ret tt
  end ;;;
  if systemRead
  then push_sessions uid (NtfnDirective (Ntfn notification_delete ntfnId (RawDate "0") NoData))
  else ret tt.

Definition handleReadAllNotifications (uid : string) (ntfnIds : list string) : M W unit :=
  forM (λ ntfnId, put_loc (kv_del (uid, ntfnId))) ntfnIds.

(** [app.controller.ts] *)
Inductive ntfn_request :=
| NotificationSend (uid : string) (n : UserNotificationPayload)   (* RMQ notification.send *)
| NotificationReadMsg (uid notificationId : string)               (* RMQ notification.read *)
| UserOnline (uid : string)                                       (* Redis user.online *)
| ReadNotification (user : User) (id : string)                    (* POST read *)
| ReadAllNotifications (user : User) (ids : list string).         (* POST readall *)

Definition handle_ntfn (r : ntfn_request) : M W unit :=
  match r with
  | NotificationSend uid n => pushNotification uid n
  | NotificationReadMsg uid id => handleReadNotification uid id false true
  | UserOnline uid => pushAllPendingNotifications uid
  | ReadNotification user id => handleReadNotification (u_uid user) id true false
  | ReadAllNotifications user ids => handleReadAllNotifications (u_uid user) ids
  end.

(** ** Properties *)
Context `{!NtfnStoreLaws T}.
Implicit Types w : W.

(** The messages of [push_sessions]. *)
Definition session_msgs (c : C) (uid : string) (msg : OutMsg) : list effect :=
  match presence_in c uid with
  | None => []
  | Some p => (λ sid, Redis "socket.send" (Some (meta_us uid sid)) (SocketSend uid sid "notification" msg))
                <$> okeys p
  end.

Lemma push_sessions_run uid msg w :
  push_sessions uid msg w = (Ok tt, add_outs (session_msgs (w_cache w) uid msg) w).
Proof.
  unfold push_sessions, session_msgs. mstep by done.
  destruct (presence_in _ _) as [p|]; [|by rewrite add_outs_nil].
  rewrite (forM_emits _ (λ sid, [Redis "socket.send" (Some (meta_us uid sid))
    (SocketSend uid sid "notification" msg)])) by done.
  f_equal. f_equal. induction (okeys p) as [|k l IH]; [done|]. cbn. by f_equal.
Qed.


(** a user's own reading never removes a persistent notification (an
    invitation, a granted access code), one by one: a persistent one stays,
    any other is deleted.  But [readall] does remove it, whatever its type. *)
Theorem read_persistent uid n u w :
  u_uid u = uid → kv_get (uid, n_id n) (w_loc w) = Some n →
  kv_get (uid, n_id n) (w_loc (handle_ntfn (ReadNotification u (n_id n)) w).2) =
    (if isNotificationPersistent n then Some n else None) ∧
  ∀ ids, n_id n ∈ ids →
    kv_get (uid, n_id n) (w_loc (handle_ntfn (ReadAllNotifications u ids) w).2) = None.
Proof.
  intros Hu Hn. split.
  - cbn [handle_ntfn]. unfold handleReadNotification. mstep by done. rewrite Hu, Hn. simpl.
    destruct (isNotificationPersistent n); simpl; [by rewrite Hn|by rewrite kv_get_del_eq].
  - intros ids Hin. cbn [handle_ntfn]. unfold handleReadAllNotifications. rewrite Hu.
    assert (∀ l w, (n_id n ∈ l ∨ kv_get (uid, n_id n) (w_loc w) = None) →
      kv_get (uid, n_id n) (w_loc (forM (λ i, put_loc (kv_del (uid, i))) l w).2) = None) as Hloop.
    { induction l as [|i l IH]; intros w0 Hor; simpl.
      - destruct Hor as [?%elem_of_nil|]; done.
      - rewrite (bind_ok _ _ w0 tt (set_loc (kv_del (uid, i)) w0)) by done. apply IH.
        destruct (decide (i = n_id n)) as [->|Hne]; [right; simpl; apply kv_get_del_eq|].
        destruct Hor as [Hor|Hor].
        + left. apply elem_of_cons in Hor as [?|?]; [congruence|done].
        + right. simpl. rewrite kv_get_del_ne by congruence. done. }
    apply Hloop. by left.
Qed.
End notification.

(** ** Examples *)
#[global] Instance gmap_NtfnStore : NtfnStore (gmap (string * string) UserNotificationPayload) := {|
  nt_all uid t := (List.filter (λ x, bool_decide (x.1.1 = uid)) (map_to_list t)).*2;
|}.
#[global] Instance gmap_NtfnStoreLaws : NtfnStoreLaws (gmap (string * string) UserNotificationPayload).
Proof.
  split; [apply _|]. intros uid t n. simpl. rewrite list_elem_of_fmap. split.
  - intros ([[u id] n'] & -> & Hin). apply elem_of_lfilter in Hin as [Hin Hu].
    apply elem_of_map_to_list in Hin. apply bool_decide_eq_true in Hu. simpl in *. subst. eauto.
  - intros (id & Hg). exists ((uid, id), n). split; [done|]. apply elem_of_lfilter.
    rewrite elem_of_map_to_list, bool_decide_eq_true. done.
Qed.

#[global] Instance strict_DateEngine : DateEngine := {| parse_other _ := None |}.

Definition demo_ntfn : UserNotificationPayload :=
  Ntfn workspace_invite "n1" (IsoOf 0) (WorkspaceInvite "olga" "ws-1" "token").
Definition demo_ntfn_world : world (gmap string (cval * option Z)) (gmap (string * string) UserNotificationPayload) :=
  World ∅ [] 0 0 {[("mark", "n1") := demo_ntfn]}.

(** The user has two sessions and no notification. *)
Definition online_world : world (gmap string (cval * option Z)) (gmap (string * string) UserNotificationPayload) :=
  World {[CACHEKEY_PRESENCE "mark" :=
    (CPresence [("s1", Session active "sock1" "gw-1" None); ("s2", Session active "sock2" "gw-1" None)], None)]} [] 0 0 ∅.


Lemma read_persistent_witness :
  kv_get ("mark", "n1") (w_loc (handle_ntfn (ReadNotification
    (MkUser "mark" None None None None None None) "n1") demo_ntfn_world).2) = Some demo_ntfn.
Proof.
  destruct (read_persistent "mark" demo_ntfn (MkUser "mark" None None None None None None) demo_ntfn_world)
    as [H _]; [reflexivity|reflexivity|exact H].
Defined.
