(* ===== verification/UserSvc.v ===== *)
(** The user service ([user/src]): registration, update and deletion of
    profiles ([profile.service.ts]), lookup with confidential fields hidden
    ([search.service.ts]), and the routes of its two controllers. *)
From S2P Require Import Prelude JS Dates Messages Keys Interfaces Validation Tokens Public.
From Stdlib Require Import Lia.

(** [+s] on a decimal integer literal, [None] for [NaN]. *)
Fixpoint all_digits (s : string) : bool :=
  match s with
  | EmptyString => true
  | String a s' => match digit_val 10 a with Some _ => all_digits s' | None => false end
  end.
Definition Number (s : string) : option Z :=
  if bool_decide (s = "") then Some 0 else if all_digits s then digits 10 None s else None.

(** ** What the service calls *)

(** Firebase authentication: whether the account has sign-in providers;
    [None] when there is no such account. *)
Class AuthAdmin := { auth_getUser : string → option bool }.

(** Typesense: the parameters of a search and its answer. *)
Record SearchParams := MkSearch {
  sp_q : string; sp_query_by : list string; sp_exclude_fields : list string;
  sp_filter_by : string; sp_infix : list string; sp_per_page : Z; sp_page : Z;
}.
Record SearchHit := Hit { hit_document : User; hit_highlights : option (list (string * string)) }.
Record SearchResponse := SearchRes { sr_hits : option (list SearchHit); sr_page : Z }.
Class Typesense := { ts_search : SearchParams → SearchResponse }.

Record CreateUserDTO := CreateUser {
  cu_name : option string; cu_username : option string; cu_picture : option string;
}.
(** The body of an update: [Partial<User>]. *)
Record UserPatch := Patch {
  pt_uid : option string; pt_name : option string; pt_username : option string;
  pt_email : option string; pt_picture : option string; pt_expireAt : option string;
}.
Record UserSearchHits := UserHit { uh_doc : User; uh_highlights : list (string * string) }.

(** *** Fields of a profile *)
Definition drop_email (p : User) : User :=
  MkUser (u_uid p) (u_name p) (u_username p) None (u_picture p) (u_issuer p) (u_expireAt p).
Definition drop_issuer (p : User) : User :=
  MkUser (u_uid p) (u_name p) (u_username p) (u_email p) (u_picture p) None (u_expireAt p).

(** [{ ...p, ...patch }] with the fields of the patch that are set. *)
Definition or_old (new old : option string) : option string :=
  match if_truthy new with Some s => Some s | None => old end.
Definition apply_patch (p : User) (x : UserPatch) : User :=
  MkUser (u_uid p) (or_old (pt_name x) (u_name p)) (or_old (pt_username x) (u_username p))
    (or_old (pt_email x) (u_email p)) (or_old (pt_picture x) (u_picture p))
    (u_issuer p) (u_expireAt p).

(** Firestore refuses a document with an undefined field; [expireAt] is left
    out by the converter when it is not set. *)
Definition storable (p : User) : bool :=
  bool_decide (is_Some (u_name p)) && bool_decide (is_Some (u_username p)) &&
  bool_decide (is_Some (u_email p)) && bool_decide (is_Some (u_picture p)) &&
  bool_decide (is_Some (u_issuer p)).

(** [userConverter]: an empty [expireAt] is not stored. *)
Definition toFirestore (p : User) : User :=
  MkUser (u_uid p) (u_name p) (u_username p) (u_email p) (u_picture p) (u_issuer p)
    (if_truthy (u_expireAt p)).

(** The cache key of [getUsers], which is not [CACHEKEY_USER_PROFILE]. *)
Definition CACHEKEY_USERS (uid : string) : string := "users:" +:+ uid.

Section user.
Context {C U : Type} `{!Cache C, !UserStore U}.
Context `{!Env, !AuthAdmin, !Typesense}.
Abbreviation W := (world C U).
Local Open Scope mon_scope.

(** ** profile.service.ts *)
Definition validateCreateUser (data : CreateUserDTO) : option string :=
  match if_truthy (cu_name data), if_truthy (cu_username data) with
  | Some name, Some username =>
      if negb (rmatch nameRegex name) then Some "INVALID_USER_NAME"
      else if negb (rmatch usernameRegex username) then Some "INVALID_USER_USERNAME"
      else None
  | _, _ => Some "USER_DETAILS_MISSING"
  end.

(** [s && !re.test(s)] *)
Definition ill_formed (re : regex) (s : option string) : bool :=
  match if_truthy s with Some s => negb (rmatch re s) | None => false end.

Definition validateUpdateUser (uid : string) (user : UserPatch) : option string :=
  if ill_formed nameRegex (pt_name user) then Some "INVALID_USER_NAME"
  else if ill_formed usernameRegex (pt_username user) then Some "INVALID_USER_USERNAME"
  else if ill_formed emailRegex (pt_email user) then Some "INVALID_EMAIL"
  else if bool_decide (pt_uid user ≠ Some uid) then Some "INVALID_USER_IDENTITY"
  else if otruthy (pt_expireAt user) then Some "UPDATE_USER_FORBIDDEN"
  else None.

(** [collection('users').withConverter(..).doc(id).set(p)] *)
Definition users_set (id : string) (p : User) : M W unit :=
  if storable p then put_loc (kv_set id (toFirestore p))
  else throw (PlainError "Cannot use undefined as a Firestore value").

Definition guest_days : option Z := Number (default "2" (env "GUEST_ACCOUNT_EXPIRY_DAYS")).

(** [user] is what the header [x-auth-user] holds; [None] without one. *)
Definition createUser (user : option User) (data : CreateUserDTO) : M W unit :=
  match validateCreateUser data with
  | Some err => throw (HttpException 400 err)
  | None =>
  match user with
  | None => throw TypeError
  | Some user =>
      docs <- gets (λ w, us_where (u_uid user) (w_loc w)) ;;
      if Z.of_nat (length docs) <=? 0 then
        match auth_getUser (u_uid user) with
        | None => throw (PlainError "auth/user-not-found")
        | Some hasProviders =>
            t <- now ;;
            expireAt <- (if hasProviders then ret (u_expireAt user)
                         else match guest_days with
                              | Some d => ret (Some (toISOString (t + d * 24 * 60 * 60 * 1000)))
                              | None => throw (PlainError "RangeError: Invalid time value")
                              end) ;;
            users_set (default "" (cu_username data))
              (MkUser (u_uid user) (cu_name data) (cu_username data) (u_email user)
                 (Some (default "" (cu_picture data))) (u_issuer user) expireAt) ;;;
            cache_set (CACHEKEY_USER_PROFILE (u_uid user)) (CProfile user) None
        end
      else throw (HttpException 400 "USER_ALREADY_REGISTERED")
  end
  end.

Definition deleteUser (user : option User) : M W unit :=
  match user with
  | None => throw TypeError
  | Some user =>
      docs <- gets (λ w, us_where (u_uid user) (w_loc w)) ;;
      match docs with
      | [] => throw (HttpException 404 "USER_NOT_FOUND")
      | p :: _ =>
          match if_truthy (u_username p) with
          | None => throw (PlainError "documentPath is not a valid resource path")
          | Some username => put_loc (kv_del username)
          end
      end
  end.

(** [doc(id).update(fields)]: fails when the document does not exist. *)
Definition users_update (id : option string) (x : UserPatch) : M W unit :=
  match if_truthy id with
  | None => throw (PlainError "documentPath is not a valid resource path")
  | Some id =>
      doc <- gets (λ w, kv_get id (w_loc w)) ;;
      match doc with
      | None => throw (PlainError "NOT_FOUND")
      | Some p => put_loc (kv_set id (apply_patch p x))
      end
  end.

Definition patch_empty (x : UserPatch) : bool :=
  negb (otruthy (pt_name x) || otruthy (pt_username x) || otruthy (pt_email x) || otruthy (pt_picture x)).

Definition updateUser (uid : string) (user : UserPatch) : M W unit :=
  match validateUpdateUser uid user with
  | Some err => throw (HttpException 400 err)
  | None =>
      if patch_empty user then ret tt else
      docs <- gets (λ w, us_where uid (w_loc w)) ;;
      match docs with
      | [] => throw (HttpException 404 "USER_NOT_FOUND")
      | oldUser :: _ =>
          match if_truthy (pt_username user) with
          | Some username =>
              if bool_decide (Some username ≠ u_username oldUser)
              then users_set username (apply_patch oldUser user)
              else users_update (u_username oldUser) user
          | None => users_update (u_username oldUser) user
          end
      end
  end.

(** ** search.service.ts *)
Definition hideConfidentialFields (p : User) (uid : string) : User :=
  if bool_decide (u_uid p ≠ uid) then drop_email p else p.

Definition getProfile (uid actorUid : string) : M W User :=
  profile <- cache_profile uid ;;
  match profile with
  | Some p => ret (hideConfidentialFields p actorUid)
  | None =>
      docs <- gets (λ w, us_where uid (w_loc w)) ;;
      match docs with
      | [] => throw (HttpException 404 "USER_NOT_FOUND")
      | p :: _ =>
          cache_set (CACHEKEY_USER_PROFILE uid) (CProfile p) None ;;;
          ret (hideConfidentialFields p actorUid)
      end
  end.

Definition users_in (c : C) (uid : string) : option User :=
  match kv_get (CACHEKEY_USERS uid) c with Some (CProfile u, _) => Some u | _ => None end.

Definition fetchUserFromDB (uid : string) : M W (option User) :=
  docs <- gets (λ w, us_where uid (w_loc w)) ;;
  match docs with
  | [] => ret None
  | p :: _ => cache_set (CACHEKEY_USERS uid) (CProfile p) None ;;; ret (Some p)
  end.

Definition getUsers (ids : list string) (uid : string) : M W (list (option User)) :=
  cached <- mapM (λ id, gets (λ w, users_in (w_cache w) id)) ids ;;
  users <- mapM (λ '(id, c), match c with Some p => ret (Some p) | None => fetchUserFromDB id end)
             (zip ids cached) ;;
  ret (List.map (option_map (λ p, hideConfidentialFields (drop_issuer p) uid)) users).

(** [page] is what [Number(page)] gives; [None] is [NaN]. *)
Definition searchUsers (uid query : string) (page : option Z) : M W (list UserSearchHits * Z) :=
  let res := ts_search (MkSearch query ["name"; "username"] ["email"] ("uid:!=" +:+ uid)
               ["always"; "always"] 5
               (match page with Some p => if p =? 0 then 1 else p | None => 1 end)) in
  match sr_hits res with
  | None => ret ([], sr_page res)
  | Some hits =>
      data <- mapM (λ h, match hit_highlights h with
                         | Some hl => ret (UserHit (hit_document h) hl)
                         | None => throw TypeError
                         end) hits ;;
      ret (data, sr_page res)
  end.

(** ** The routes *)
Inductive user_request :=
| Register (user : option User) (data : CreateUserDTO)
| DeleteAccount (user : option User)
| UpdateProfile (user : option User) (patch : UserPatch)
| SearchUsers (user : option User) (q : string) (page : option Z)
| Profile (user : option User)
| AllUsers (user : option User) (ids : list string)
| OneUser (user : option User) (uid : string)
| ProfileMessage (uid : string) (actorUid : option string).   (* NATS user.profile *)

Definition with_user {A} (user : option User) (k : User → M W A) : M W A :=
  match user with None => throw TypeError | Some u => k u end.

Definition handle_user (r : user_request) : M W unit :=
  match r with
  | Register user data => createUser user data
  | DeleteAccount user => deleteUser user
  | UpdateProfile user patch => with_user user (λ u, updateUser (u_uid u) patch)
  | SearchUsers user q page => with_user user (λ u, searchUsers (u_uid u) q page ;;; ret tt)
  | Profile user => with_user user (λ u, getProfile (u_uid u) (u_uid u) ;;; ret tt)
  | AllUsers user ids => with_user user (λ u, getUsers ids (u_uid u) ;;; ret tt)
  | OneUser user uid => with_user user (λ u, getProfile uid (u_uid u) ;;; ret tt)
  | ProfileMessage uid actor => getProfile uid (default "" actor) ;;; ret tt
  end.
End user.

(** ** Properties *)
Section user_props.
Context {C U : Type} `{!Cache C, !CacheLaws C, !UserStore U, !UserStoreLaws U}.
Context `{!Env, !AuthAdmin, !Typesense}.
Abbreviation W := (world C U).
Implicit Types w : W.

(** Every document is named by the username it holds. *)
Definition users_wf (t : U) : Prop := ∀ id p, kv_get id t = Some p → u_username p = Some id.
(** A cached profile is filed under its own uid. *)
Definition cache_keyed (c : C) : Prop :=
  (∀ uid p, profile_in c uid = Some p → u_uid p = uid) ∧
  (∀ uid p, users_in c uid = Some p → u_uid p = uid).
Definition user_inv (w : W) : Prop := users_wf (w_loc w) ∧ cache_keyed (w_cache w).

Lemma us_where_uid uid t p l : us_where uid t = p :: l → u_uid p = uid.
Proof.
  intros Hw. assert (p ∈ us_where uid t) as Hin by (rewrite Hw; left).
  apply us_where_spec in Hin as (id & _ & Hu). done.
Qed.

Lemma users_wf_set id p t : users_wf t → u_username p = Some id → users_wf (kv_set id p t).
Proof.
  intros Hwf Hp id' p'. rewrite kv_get_set. case_decide; [|by apply Hwf]. intros ?; simplify_eq. done.
Qed.
Lemma users_wf_del id t : users_wf t → users_wf (kv_del id t).
Proof. intros Hwf id' p'. rewrite kv_get_del. case_decide; [done|by apply Hwf]. Qed.

Lemma keyed_set_profile uid p t c :
  u_uid p = uid → cache_keyed c → cache_keyed (kv_set (CACHEKEY_USER_PROFILE uid) (CProfile p, t) c).
Proof.
  intros Hp [Hcp Hcu]. split; intros v q; unfold profile_in, users_in.
  - rewrite kv_get_set. case_decide as Hk; [|apply Hcp].
    unfold CACHEKEY_USER_PROFILE in Hk. intros ?; simplify_eq. done.
  - rewrite kv_get_set_ne by done. apply Hcu.
Qed.
Lemma keyed_set_users uid p t c :
  u_uid p = uid → cache_keyed c → cache_keyed (kv_set (CACHEKEY_USERS uid) (CProfile p, t) c).
Proof.
  intros Hp [Hcp Hcu]. split; intros v q; unfold profile_in, users_in.
  - rewrite kv_get_set_ne by done. apply Hcp.
  - rewrite kv_get_set. case_decide as Hk; [|apply Hcu].
    unfold CACHEKEY_USERS in Hk. intros ?; simplify_eq. done.
Qed.

Lemma inv_put_loc f : (∀ t, users_wf t → users_wf (f t)) → preserves user_inv (put_loc (C:=C) f).
Proof. intros Hf w [? ?]. split; [by apply Hf|done]. Qed.
Lemma inv_set_profile uid p :
  u_uid p = uid → preserves user_inv (cache_set (X:=U) (CACHEKEY_USER_PROFILE uid) (CProfile p) None).
Proof. intros Hp w [? ?]. split; [done|by apply keyed_set_profile]. Qed.
Lemma inv_set_users uid p :
  u_uid p = uid → preserves user_inv (cache_set (X:=U) (CACHEKEY_USERS uid) (CProfile p) None).
Proof. intros Hp w [? ?]. split; [done|by apply keyed_set_users]. Qed.

Lemma inv_users_set id p : u_username p = Some id → preserves user_inv (users_set (C:=C) (U:=U) id p).
Proof.
  intros Hp. unfold users_set. pres. apply inv_put_loc. intros t Ht. by apply users_wf_set.
Qed.

Lemma validateCreateUser_ok data :
  validateCreateUser data = None →
  ∃ name username, cu_name data = Some name ∧ cu_username data = Some username ∧
    rmatch nameRegex name = true ∧ rmatch usernameRegex username = true.
Proof.
  unfold validateCreateUser, if_truthy. destruct (cu_name data) as [n|]; [|done].
  destruct (cu_username data) as [v|]; [|by destruct (truthy n)].
  destruct (truthy n); [|done]. destruct (truthy v); [|done].
  destruct (rmatch nameRegex n) eqn:Hn; [|done]. destruct (rmatch usernameRegex v) eqn:Hv; [|done]. eauto 6.
Qed.

Lemma inv_createUser user data : preserves user_inv (createUser user data).
Proof.
  unfold createUser. destruct (validateCreateUser data) eqn:Hv; [pres|].
  apply validateCreateUser_ok in Hv as (n & v & Hn & Hu & _ & _).
  destruct user as [u|]; [|pres]. apply preserves_bind; [pres|intros docs].
  destruct (_ <=? _); [|pres]. destruct (auth_getUser _) as [hp|]; [|pres].
  apply preserves_bind; [pres|intros t]. apply preserves_bind; [pres|intros ex].
  apply preserves_bind; [|intros _; by apply inv_set_profile].
  apply inv_users_set. simpl. by rewrite Hu.
Qed.

Lemma inv_deleteUser user : preserves user_inv (deleteUser (C:=C) (U:=U) user).
Proof. unfold deleteUser. pres. apply inv_put_loc. intros. by apply users_wf_del. Qed.

(** The patch leaves the username alone, or sets it to what it was. *)
Lemma inv_users_update id x :
  (if_truthy (pt_username x) = None ∨ if_truthy (pt_username x) = id) →
  preserves user_inv (users_update (C:=C) (U:=U) id x).
Proof.
  intros Hx w [Hwf Hc]. unfold users_update. destruct (if_truthy id) as [i|] eqn:Hi; [|by split].
  assert (id = Some i) as ->.
  { unfold if_truthy in Hi. destruct id as [s|]; [|done]. by destruct (truthy s). }
  unfold bind, gets. destruct (kv_get i (w_loc w)) as [p|] eqn:Hp; [|by split].
  split; [|done]. simpl. apply users_wf_set; [done|]. simpl. unfold or_old.
  apply Hwf in Hp. destruct Hx as [->| ->]; done.
Qed.

Lemma inv_updateUser uid x : preserves user_inv (updateUser (C:=C) (U:=U) uid x).
Proof.
  unfold updateUser. destruct (validateUpdateUser uid x); [pres|]. destruct (patch_empty x); [pres|].
  apply preserves_bind; [pres|intros [|old l]]; [pres|].
  destruct (if_truthy (pt_username x)) as [v|] eqn:Hv; [|apply inv_users_update; by left].
  case_bool_decide as Hd.
  - apply inv_users_set. simpl. unfold or_old. by rewrite Hv.
  - apply inv_users_update. right. by rewrite Hv.
Qed.

Lemma inv_getProfile uid a : preserves user_inv (getProfile (C:=C) (U:=U) uid a).
Proof.
  unfold getProfile. apply preserves_bind; [pres|intros [p|]]; [pres|].
  intros w Hw. unfold bind at 1, gets. destruct (us_where uid (w_loc w)) as [|p l] eqn:Hd; [done|].
  apply us_where_uid in Hd. revert w Hw. change (preserves user_inv
    (bind (cache_set (CACHEKEY_USER_PROFILE uid) (CProfile p) None) (λ _, ret (hideConfidentialFields p a)))).
  apply preserves_bind; [by apply inv_set_profile|intros; pres].
Qed.

Lemma inv_fetchUserFromDB uid : preserves user_inv (fetchUserFromDB (C:=C) (U:=U) uid).
Proof.
  intros w Hw. unfold fetchUserFromDB, bind at 1, gets.
  destruct (us_where uid (w_loc w)) as [|p l] eqn:Hd; [done|]. apply us_where_uid in Hd.
  by apply (inv_set_users uid p Hd).
Qed.

Lemma inv_getUsers ids uid : preserves user_inv (getUsers (C:=C) (U:=U) ids uid).
Proof.
  unfold getUsers. apply preserves_bind; [pres|intros cached].
  apply preserves_bind; [|intros; pres]. apply preserves_mapM. intros [id [p|]] _; [pres|apply inv_fetchUserFromDB].
Qed.

Lemma inv_handle_user r : preserves user_inv (handle_user r).
Proof.
  destruct r; cbn [handle_user]; try (destruct user; cbn [with_user]; [|pres]);
    try (apply preserves_bind; [|intros ?; apply preserves_ret]);
    eauto using inv_createUser, inv_deleteUser, inv_updateUser, inv_getProfile, inv_getUsers.
  unfold searchUsers. pres.
Qed.

(** C34: whatever requests the user service handles, in whatever order and
    with whatever outcome, every stored profile stays in the document named
    by the username the profile holds, and every cached profile stays under
    the key of the uid it holds.  (This says nothing about who may have a
    name: a registration under a taken username replaces that document, see
    [createUser_spec].) *)
Theorem user_service_integrity rs w :
  user_inv w → user_inv (foldl (λ w r, (handle_user r w).2) w rs).
Proof. revert w. induction rs as [|r rs IH]; intros w Hw; simpl; [done|]. apply IH. by apply inv_handle_user. Qed.

(** *** Lookup *)

(** The profile [getUsers] finds for an id: the cached one, or the stored. *)
Definition known_user (w : W) (id : string) : option User :=
  match users_in (w_cache w) id with Some p => Some p | None => head (us_where id (w_loc w)) end.

Lemma fetchUserFromDB_run id w :
  ∃ w', fetchUserFromDB id w = (Ok (head (us_where id (w_loc w))), w') ∧ w_loc w' = w_loc w.
Proof.
  unfold fetchUserFromDB. mstep by done. destruct (us_where id (w_loc w)) as [|p l]; [by eexists|].
  mstep by done. by eexists.
Qed.

Lemma getUsers_fetches w0 ids w :
  w_loc w = w_loc w0 →
  ∃ w', mapM (λ '(id, c), match c with Some p => ret (Some p) | None => fetchUserFromDB id end)
          (zip ids ((λ id, users_in (w_cache w0) id) <$> ids)) w = (Ok (known_user w0 <$> ids), w') ∧ w_loc w' = w_loc w0.
Proof.
  revert w. induction ids as [|id ids IH]; intros w Hw; simpl; [by eexists|].
  unfold known_user at 1. destruct (users_in (w_cache w0) id) as [p|].
  - mstep by done. destruct (IH w Hw) as (w' & Hr & Hl'). mstep by exact Hr. by eexists.
  - destruct (fetchUserFromDB_run id w) as (w1 & Hf & Hl). mstep by exact Hf.
    rewrite Hw in Hl |- *. destruct (IH w1 Hl) as (w' & Hr & Hl'). mstep by exact Hr. by eexists.
Qed.

Lemma getUsers_run ids uid w :
  ∃ w', getUsers ids uid w =
    (Ok ((λ id, option_map (λ p, hideConfidentialFields (drop_issuer p) uid) (known_user w id)) <$> ids), w') ∧
    w_loc w' = w_loc w.
Proof.
  unfold getUsers.
  rewrite (bind_ok _ _ w ((λ id, users_in (w_cache w) id) <$> ids) w)
    by (by apply (mapM_reads _ (λ id w, users_in (w_cache w) id))).
  destruct (getUsers_fetches w ids w eq_refl) as (w' & Hr & Hl). mstep by exact Hr. exists w'.
  split; [|done]. unfold ret. f_equal. f_equal. change (@List.map) with (fun A B => @fmap list _ A B). cbv beta.
  by rewrite <- list_fmap_compose.
Qed.

(** The profile [getProfile] finds: it has a cache of its own. *)
Definition known_profile (w : W) (uid : string) : option User :=
  match profile_in (w_cache w) uid with Some p => Some p | None => head (us_where uid (w_loc w)) end.

Lemma known_user_uid w id p : cache_keyed (w_cache w) → known_user w id = Some p → u_uid p = id.
Proof.
  intros [_ Hcu]. unfold known_user. destruct (users_in _ _) eqn:Hu.
  - intros ?; simplify_eq. by apply Hcu.
  - destruct (us_where id (w_loc w)) as [|q l] eqn:Hw; [done|]. intros ?; simplify_eq/=. by eapply us_where_uid.
Qed.

Lemma known_profile_uid w uid p : cache_keyed (w_cache w) → known_profile w uid = Some p → u_uid p = uid.
Proof.
  intros [Hcp _]. unfold known_profile. destruct (profile_in _ _) eqn:Hu.
  - intros ?; simplify_eq. by apply Hcp.
  - destruct (us_where uid (w_loc w)) as [|q l] eqn:Hw; [done|]. intros ?; simplify_eq/=. by eapply us_where_uid.
Qed.

(** A profile as a user is to see it: every field, but the e-mail address
    only in one's own. *)
Definition shown (actor : string) (p : User) : User :=
  MkUser (u_uid p) (u_name p) (u_username p) (if decide (u_uid p = actor) then u_email p else None)
    (u_picture p) (u_issuer p) (u_expireAt p).
(** In lists, nobody's issuer either. *)
Definition listed (actor : string) (p : User) : User :=
  MkUser (u_uid p) (u_name p) (u_username p) (if decide (u_uid p = actor) then u_email p else None)
    (u_picture p) None (u_expireAt p).

Lemma hide_shown p actor : hideConfidentialFields p actor = shown actor p.
Proof.
  unfold hideConfidentialFields, shown. case_decide as Hd.
  - rewrite bool_decide_false by auto. by destruct p.
  - by rewrite bool_decide_true.
Qed.

Lemma getProfile_run uid actor w :
  ∃ w', getProfile uid actor w =
      (match known_profile w uid with
       | Some p => Ok (shown actor p)
       | None => Throw (HttpException 404 "USER_NOT_FOUND")
       end, w') ∧
    w_loc w' = w_loc w ∧ profile_in (w_cache w') uid = known_profile w uid.
Proof.
  unfold getProfile, known_profile. mstep by done. destruct (profile_in (w_cache w) uid) as [p|] eqn:Hp.
  { exists w. by rewrite hide_shown. }
  mstep by done. destruct (us_where uid (w_loc w)) as [|p l]; simpl; [by exists w|].
  mstep by done. eexists. rewrite hide_shown. split; [done|]. split; [done|].
  unfold profile_in. simpl. by rewrite kv_get_set_eq.
Qed.

(** C35: lookup of profiles.  [getProfile] answers with the cached profile of
    the user asked for, or else with the stored one, which is then cached:
    every field of it to that user, and every field but the e-mail address to
    anyone else; and with 404 when there is none.  [getUsers] always answers,
    one entry per id in the order asked, each the cached or stored profile of
    that id with every field but its issuer and, unless it is the caller's
    own, its e-mail address; an unknown id gives an empty entry.  Neither
    changes what is stored, and the profiles are those of the users asked
    for. *)
Theorem profile_confidential w actor :
  cache_keyed (w_cache w) →
  (∀ uid, ∃ w', getProfile uid actor w =
       (match known_profile w uid with
        | Some p => Ok (shown actor p)
        | None => Throw (HttpException 404 "USER_NOT_FOUND")
        end, w') ∧
     w_loc w' = w_loc w ∧ profile_in (w_cache w') uid = known_profile w uid) ∧
  (∀ ids, ∃ w', getUsers ids actor w = (Ok ((λ id, option_map (listed actor) (known_user w id)) <$> ids), w') ∧
     w_loc w' = w_loc w) ∧
  (∀ uid p, known_profile w uid = Some p ∨ known_user w uid = Some p → u_uid p = uid).
Proof.
  intros Hk. split_and!.
  - intros uid. apply getProfile_run.
  - intros ids. destruct (getUsers_run ids actor w) as (w' & Hr & Hl). exists w'. split; [|done]. rewrite Hr.
    f_equal. f_equal. apply list_fmap_ext. intros i id _. destruct (known_user w id) as [p|]; [|done]. simpl.
    by rewrite hide_shown.
  - intros uid p [Hp|Hp]; [by apply (known_profile_uid w)|by apply (known_user_uid w)].
Qed.

(** *** Registration and renaming *)

(** When a registration expires: guests (no sign-in provider) do, the others
    keep what their token says. *)
Definition expiry (user : User) (hasProviders : bool) (days t : Z) : option string :=
  if hasProviders then u_expireAt user else Some (toISOString (t + days * 24 * 60 * 60 * 1000)).

(** The profile a registration stores. *)
Definition registered (user : User) (data : CreateUserDTO) (expireAt : option string) : User :=
  MkUser (u_uid user) (cu_name data) (cu_username data) (u_email user)
    (Some (default "" (cu_picture data))) (u_issuer user) (if_truthy expireAt).

Lemma createUser_run user data hp days username w :
  validateCreateUser data = None → cu_username data = Some username →
  us_where (u_uid user) (w_loc w) = [] → auth_getUser (u_uid user) = Some hp →
  guest_days = Some days → is_Some (u_email user) → is_Some (u_issuer user) →
  ∃ w', createUser (Some user) data w = (Ok tt, w') ∧
    w_loc w' = kv_set username (registered user data (expiry user hp days (w_now w))) (w_loc w) ∧
    profile_in (w_cache w') (u_uid user) = Some user.
Proof.
  intros Hv Hu Hw Ha Hd He Hi. unfold createUser. rewrite Hv. mstep by done. rewrite Hw. cbn [length].
  change (Z.of_nat 0 <=? 0) with true. cbv iota. rewrite Ha. mstep by done.
  destruct (validateCreateUser_ok data Hv) as (n & ? & Hn & Hu' & _ & _).
  rewrite (bind_ok _ _ w (expiry user hp days (w_now w)) w)
    by (unfold expiry; rewrite Hd; by destruct hp).
  unfold users_set, storable. simpl. rewrite Hu, Hn. cbn [is_Some].
  rewrite !bool_decide_true by eauto. simpl. mstep by done.
  eexists. split; [done|]. split.
  - simpl. unfold registered, toFirestore. simpl. by rewrite Hu, Hn.
  - unfold profile_in. simpl. by rewrite kv_get_set_eq.
Qed.

Lemma us_where_nil uid t : (∀ id p, kv_get id t = Some p → u_uid p ≠ uid) → us_where uid t = [].
Proof.
  intros Hn. destruct (us_where uid t) as [|p l] eqn:Hw; [done|].
  assert (p ∈ us_where uid t) as Hin by (rewrite Hw; left).
  apply us_where_spec in Hin as (id & Hg & Hu). by destruct (Hn id p).
Qed.
Lemma us_where_cons uid id p t : kv_get id t = Some p → u_uid p = uid → us_where uid t ≠ [].
Proof.
  intros Hg Hu Hn. assert (p ∈ us_where uid t) as Hin by (apply us_where_spec; eauto).
  rewrite Hn in Hin. by apply elem_of_nil in Hin.
Qed.

(** registration.  A user with an account and no profile who registers
    with valid details gets the document of that username, with the name,
    username and picture asked for and the identity of the token; guests'
    profiles expire after the configured number of days; a second
    registration is refused; no other document changes.  But nobody checks
    that the username is free: a user who held only that document has no
    profile any more. *)
Theorem createUser_spec user data hp days username w :
  validateCreateUser data = None → cu_username data = Some username →
  us_where (u_uid user) (w_loc w) = [] → auth_getUser (u_uid user) = Some hp →
  guest_days = Some days → is_Some (u_email user) → is_Some (u_issuer user) →
  ∃ w', createUser (Some user) data w = (Ok tt, w') ∧
    kv_get username (w_loc w') = Some (registered user data (expiry user hp days (w_now w))) ∧
    (∀ id, id ≠ username → kv_get id (w_loc w') = kv_get id (w_loc w)) ∧
    (∀ data', validateCreateUser data' = None →
       createUser (Some user) data' w' = (Throw (HttpException 400 "USER_ALREADY_REGISTERED"), w')) ∧
    (∀ victim, kv_get username (w_loc w) = Some victim →
       (∀ id p, kv_get id (w_loc w) = Some p → u_uid p = u_uid victim → id = username) →
       us_where (u_uid victim) (w_loc w') = []).
Proof.
  intros Hv Hu Hw Ha Hd He Hi.
  destruct (createUser_run user data hp days username w Hv Hu Hw Ha Hd He Hi) as (w' & Hrun & Hl & _).
  assert (kv_get username (w_loc w') = Some (registered user data (expiry user hp days (w_now w)))) as Hget.
  { by rewrite Hl, kv_get_set_eq. }
  exists w'. split; [done|]. split; [done|]. split; [|split].
  - intros id Hid. by rewrite Hl, kv_get_set_ne.
  - intros data' Hv'. unfold createUser. rewrite Hv'. mstep by done.
    pose proof (us_where_cons (u_uid user) _ _ _ Hget eq_refl) as Hne.
    destruct (us_where (u_uid user) (w_loc w')) as [|q l]; done.
  - intros victim Hvic Hone. apply us_where_nil. intros id p. rewrite Hl, kv_get_set.
    case_decide as Hid.
    + intros [= <-]. simpl. intros Heq. apply (us_where_cons (u_uid user) _ _ _ Hvic); auto.
    + intros Hg Heq. apply Hid. by eapply Hone.
Qed.

Lemma if_truthy_ne s : s ≠ "" → if_truthy (Some s) = Some s.
Proof. intros. unfold if_truthy, truthy. by rewrite bool_decide_true. Qed.

Lemma storable_patch p x : storable p = true → storable (apply_patch p x) = true.
Proof.
  unfold storable. rewrite !andb_true_iff, !bool_decide_eq_true.
  unfold apply_patch, or_old. simpl. intros ((((?&?)&?)&?)&?).
  split_and!; try done; by case_match.
Qed.

Lemma rename_run uid patch new p w :
  validateUpdateUser uid patch = None → pt_username patch = Some new → new ≠ "" →
  us_where uid (w_loc w) = [p] → u_username p ≠ Some new → storable p = true →
  updateUser uid patch w = (Ok tt, set_loc (kv_set new (toFirestore (apply_patch p patch))) w).
Proof.
  intros Hv Hn Hne Hw Hpu Hst. unfold updateUser. rewrite Hv.
  assert (patch_empty patch = false) as ->.
  { unfold patch_empty, otruthy. rewrite Hn. unfold truthy. rewrite (bool_decide_true (new ≠ "")) by done.
    by rewrite orb_true_r. }
  mstep by done. rewrite Hw, Hn, if_truthy_ne by done. rewrite bool_decide_true by congruence.
  unfold users_set. by rewrite storable_patch.
Qed.

(** Deleting an account removes one of the user's documents. *)
Lemma deleteUser_run user w :
  users_wf (w_loc w) → us_where (u_uid user) (w_loc w) ≠ [] →
  kv_get "" (w_loc w) = None →
  ∃ id, deleteUser (Some user) w = (Ok tt, set_loc (kv_del id) w) ∧
    ∃ p, kv_get id (w_loc w) = Some p ∧ u_uid p = u_uid user.
Proof.
  intros Hwf Hne He. unfold deleteUser.
  destruct (us_where (u_uid user) (w_loc w)) as [|p l] eqn:Hw; [done|].
  assert (p ∈ us_where (u_uid user) (w_loc w)) as Hin by (rewrite Hw; left).
  apply us_where_spec in Hin as (id & Hg & Hu). exists id. split; [|eauto].
  mstep by done. rewrite Hw, (Hwf _ _ Hg), if_truthy_ne; [done|]. intros ->. congruence.
Qed.

(** a change of username copies the profile to the document of the new
    name and leaves the old document as it was, so the user has two; deleting
    the account then removes one of them only, and the other still answers
    for the user's uid. *)
Theorem rename_leaves_old uid patch old new p w u' :
  validateUpdateUser uid patch = None → pt_username patch = Some new → new ≠ "" → new ≠ old →
  us_where uid (w_loc w) = [p] → u_username p = Some old → storable p = true →
  users_wf (w_loc w) → kv_get "" (w_loc w) = None → u_uid u' = uid →
  ∃ w', updateUser uid patch w = (Ok tt, w') ∧
    kv_get old (w_loc w') = Some p ∧
    kv_get new (w_loc w') = Some (toFirestore (apply_patch p patch)) ∧
    ∃ w'', deleteUser (Some u') w' = (Ok tt, w'') ∧ us_where uid (w_loc w'') ≠ [].
Proof.
  intros Hv Hn Hne Hno Hw Hpu Hst Hwf He <-.
  assert (kv_get old (w_loc w) = Some p ∧ u_uid p = u_uid u') as [Hold Huid].
  { assert (p ∈ us_where (u_uid u') (w_loc w)) as Hin by (rewrite Hw; left).
    apply us_where_spec in Hin as (id & Hg & Hu). pose proof (Hwf _ _ Hg). by simplify_eq. }
  set (q := toFirestore (apply_patch p patch)). set (w' := set_loc (kv_set new q) w).
  assert (kv_get old (w_loc w') = Some p) as Ho by (simpl; rewrite kv_get_set_ne; auto).
  assert (kv_get new (w_loc w') = Some q) as Hq by apply kv_get_set_eq.
  exists w'. split; [apply rename_run; congruence|]. split; [done|]. split; [done|].
  destruct (deleteUser_run u' w') as (id & Hdel & r & Hr & Hru).
  - apply users_wf_set; [done|]. simpl. unfold or_old. by rewrite Hn, if_truthy_ne.
  - by apply (us_where_cons _ old p).
  - simpl. by rewrite kv_get_set_ne.
  - exists (set_loc (kv_del id) w'). split; [done|].
    destruct (decide (id = old)) as [->|Hid].
    + apply (us_where_cons _ new q); [|done]. cbn [w_loc set_loc]. by rewrite kv_get_del_ne.
    + apply (us_where_cons _ old p); [|done]. cbn [w_loc set_loc]. rewrite kv_get_del_ne by done. done.
Qed.
End user_props.

(** ** Examples *)
Section user_examples.
Instance ux_Env : Env := {| env _ := None |}.
Instance ux_Auth : AuthAdmin := {| auth_getUser _ := Some false |}.
Instance ux_Ts : Typesense := {| ts_search _ := SearchRes None 1 |}.

Definition alice : User :=
  MkUser "a" (Some "Alice A") (Some "alice") (Some "a@x.org") (Some "") (Some "firebase") None.
Definition mallory : User := MkUser "m" None None (Some "m@x.org") None (Some "firebase") None.
Definition demo_users : world (gmap string (cval * option Z)) (gmap string User) :=
  World ∅ [] 0 0 {["alice" := alice]}.

Lemma demo_users_inv : user_inv demo_users.
Proof.
  split.
  - intros id p. simpl. rewrite lookup_singleton. case_decide; [|done]. by intros [= <-]; subst.
  - by split.
Qed.

Definition takeover_dto : CreateUserDTO := CreateUser (Some "Mallory") (Some "alice") None.

Lemma user_service_integrity_witness :
  user_inv (foldl (λ w r, (handle_user r w).2) demo_users
    [Register (Some mallory) takeover_dto; OneUser (Some mallory) "a"; DeleteAccount (Some alice)]).
Proof. apply user_service_integrity. exact demo_users_inv. Defined.

Lemma profile_confidential_witness :
  (∃ w', getProfile "a" "m" demo_users =
     (Ok (MkUser "a" (Some "Alice A") (Some "alice") None (Some "") (Some "firebase") None), w')) ∧
  (∃ w', getUsers ["a"; "nobody"] "a" demo_users =
     (Ok [Some (MkUser "a" (Some "Alice A") (Some "alice") (Some "a@x.org") (Some "") None None); None], w')).
Proof.
  split.
  - destruct (profile_confidential demo_users "m") as [H _]; [apply demo_users_inv|].
    destruct (H "a") as (w' & Hr & _). exists w'. exact Hr.
  - destruct (profile_confidential demo_users "a") as (_ & H & _); [apply demo_users_inv|].
    destruct (H ["a"; "nobody"]) as (w' & Hr & _). exists w'. exact Hr.
Defined.

Lemma createUser_spec_witness :
  ∃ w', createUser (Some mallory) takeover_dto demo_users = (Ok tt, w') ∧ us_where "a" (w_loc w') = [].
Proof.
  destruct (createUser_spec mallory takeover_dto false 2 "alice" demo_users)
    as (w' & Hr & _ & _ & _ & Hv);
    [vm_compute; reflexivity|reflexivity|vm_compute; reflexivity|reflexivity|vm_compute; reflexivity
    |by eexists|by eexists|].
  exists w'. split; [exact Hr|]. apply (Hv alice); [reflexivity|].
  intros id p. simpl. rewrite lookup_singleton. by case_decide.
Defined.

Lemma rename_leaves_old_witness :
  ∃ w', updateUser "a" (Patch (Some "a") None (Some "bobby") None None None) demo_users = (Ok tt, w') ∧
    kv_get "alice" (w_loc w') = Some alice.
Proof.
  destruct (rename_leaves_old "a" (Patch (Some "a") None (Some "bobby") None None None) "alice" "bobby"
    alice demo_users alice) as (w' & Hr & Ho & _);
    [vm_compute; reflexivity|reflexivity|done|done|vm_compute; reflexivity|reflexivity
    |vm_compute; reflexivity|apply demo_users_inv|reflexivity|reflexivity|].
  exists w'. split; [exact Hr|exact Ho].
Defined.
End user_examples.
