(* ===== verification/EnvState.v ===== *)
(** The environment service ([env/src]): the state an instance keeps (open
    documents, file-system events, terminals), and what it assumes of Yjs, of
    the agent inside a workspace's container, and of SHA-256. *)
From S2P Require Import Prelude JS Messages Keys Interfaces Presence.
From Stdlib Require Import Lia.

(** ** Yjs and its protocols

    [Y] is a document with the text [monaco], [A] its awareness.  An
    operation that changes them fires an event, whose argument is the second
    component: [None] when nothing changed.  Buffers are strings. *)
Record AwarenessUpdate := AwUpdate { aw_added : list Z; aw_updated : list Z; aw_removed : list Z }.

(** A received buffer: the type read first, then the rest. *)
Inductive YMessage := SYNC (body : string) | AWARENESS (body : string) | YUnknown.

Class Yjs (Y A : Type) := {
  y_new : Y;
  a_new : A;
  y_text : Y → string;                                   (* getText('monaco').toJSON() *)
  y_insert0 : string → Y → Y * option string;            (* insert(0, s) *)
  y_replace : string → Y → Y * option string;            (* delete all, insert, in a transaction *)
  y_decode : string → option YMessage;
  y_read : string → Y → option (Y * option string * option string); (* readSyncMessage: document, update, reply *)
  y_enc_update : string → string;
  y_enc_step1 : Y → string;
  a_apply : string → A → option (A * option AwarenessUpdate);
  a_remove : list Z → A → A * option AwarenessUpdate;
  a_clients : A → list Z;
  a_encode : A → list Z → string;
}.
Class YjsLaws (Y A : Type) `{!Yjs Y A} : Prop := {
  y_text_insert s : y_text (y_insert0 s y_new).1 = s;
  y_text_replace s y : y_text (y_replace s y).1 = s;
}.

(** ** The agent in a workspace's container

    [F] is the files of all containers.  [None]: the request failed. *)
Class Agent (F : Type) := {
  ag_read : string → string → F → option string;         (* uuid, path *)
  ag_write : string → string → string → F → option F;    (* uuid, path, content *)
  ag_stat : string → string → F → option StatDTO;
  ag_hash : string → string → F → option string;
  ag_dir : string → string → F → option (list FSOpenDTO);
  ag_ready : string → F → bool;
  ag_affine : string → string → F → bool;                (* uuid, instance *)
  ag_command : string → string → string → F → option (bool * F); (* uuid, command, context: ok? *)
}.

(** SHA-256 in hexadecimal. *)
Class Sha256 := { sha256 : string → string }.
(** [crypto.randomInt(0, n)], by the number of values drawn so far. *)
Class RandomInt := { random_int : nat → nat → nat }.
Class RandomIntLaws `{!RandomInt} : Prop := { random_int_lt k n : (0 < n)%nat → (random_int k n < n)%nat }.

Class AgentLaws (F : Type) `{!Agent F, !Sha256} : Prop := {
  ag_read_write u p s f f' : ag_write u p s f = Some f' → ag_read u p f' = Some s;
  ag_hash_read u p f : ag_hash u p f = sha256 <$> ag_read u p f;
}.

(** ** Objects of an instance *)

(** [WSSharedDoc]; [users]: uid => the awareness clients it controls. *)
Record Doc (Y A : Type) := MkDoc {
  d_ino : Z; d_path : string; d_uuid : string;
  d_y : Y; d_awareness : A;
  d_users : list (string * list Z);
  d_isDisplaced : bool; d_isConflicting : bool; d_conflictResolver : string;
}.
Arguments MkDoc {Y A}.
Arguments d_ino {Y A}.
Arguments d_path {Y A}.
Arguments d_uuid {Y A}.
Arguments d_y {Y A}.
Arguments d_awareness {Y A}.
Arguments d_users {Y A}.
Arguments d_isDisplaced {Y A}.
Arguments d_isConflicting {Y A}.
Arguments d_conflictResolver {Y A}.

(** A watched path: when its last event came, how many came in a row, and
    when the cooldown ends. *)
Record PathState := MkPath { p_lastEvent : Z; p_count : Z; p_bursting : bool; p_cooldown : option Z }.
(** A workspace's events; [v_process]: when the debounced [process] runs. *)
Record WatchState := MkWatch { v_batch : list FSEvent; v_paths : gmap string PathState; v_process : option Z }.

(** An SSH connection: the [ssh2] client, the session that asked for it, and
    its shells. *)
Record SSHConn := MkConn { cn_conn : nat; cn_sessionId : string; cn_sessions : list string }.

(** Documents are objects shared by the registry, by their own event
    handlers and by a pending flush, so the registry holds references.
    [es_flush]: when the debounced flush of a document runs. *)
Record EnvState (Y A F : Type) := MkEnv {
  es_id : string;
  es_docs : gmap string (gmap Z nat);
  es_heap : list (Doc Y A);
  es_flush : gmap nat Z;
  es_paths : gmap string WatchState;
  es_conns : gmap string (gmap string SSHConn);
  es_files : F;
}.
Arguments MkEnv {Y A F}.
Arguments es_id {Y A F}.
Arguments es_docs {Y A F}.
Arguments es_heap {Y A F}.
Arguments es_flush {Y A F}.
Arguments es_paths {Y A F}.
Arguments es_conns {Y A F}.
Arguments es_files {Y A F}.

Section setters.
Context {Y A F : Type}.
Implicit Types (d : Doc Y A) (s : EnvState Y A F).

Definition doc_set_users (us : list (string * list Z)) d : Doc Y A :=
  MkDoc (d_ino d) (d_path d) (d_uuid d) (d_y d) (d_awareness d) us (d_isDisplaced d)
    (d_isConflicting d) (d_conflictResolver d).
Definition doc_set_y (y : Y) d : Doc Y A :=
  MkDoc (d_ino d) (d_path d) (d_uuid d) y (d_awareness d) (d_users d) (d_isDisplaced d)
    (d_isConflicting d) (d_conflictResolver d).
Definition doc_set_awareness (a : A) d : Doc Y A :=
  MkDoc (d_ino d) (d_path d) (d_uuid d) (d_y d) a (d_users d) (d_isDisplaced d)
    (d_isConflicting d) (d_conflictResolver d).
Definition doc_set_displaced d : Doc Y A :=
  MkDoc (d_ino d) (d_path d) (d_uuid d) (d_y d) (d_awareness d) (d_users d) true
    (d_isConflicting d) (d_conflictResolver d).
Definition doc_set_conflict (c : bool) (r : string) d : Doc Y A :=
  MkDoc (d_ino d) (d_path d) (d_uuid d) (d_y d) (d_awareness d) (d_users d) (d_isDisplaced d) c r.

Definition es_set_docs (m : gmap string (gmap Z nat)) s : EnvState Y A F :=
  MkEnv (es_id s) m (es_heap s) (es_flush s) (es_paths s) (es_conns s) (es_files s).
Definition es_set_heap (h : list (Doc Y A)) s : EnvState Y A F :=
  MkEnv (es_id s) (es_docs s) h (es_flush s) (es_paths s) (es_conns s) (es_files s).
Definition es_set_flush (m : gmap nat Z) s : EnvState Y A F :=
  MkEnv (es_id s) (es_docs s) (es_heap s) m (es_paths s) (es_conns s) (es_files s).
Definition es_set_paths (m : gmap string WatchState) s : EnvState Y A F :=
  MkEnv (es_id s) (es_docs s) (es_heap s) (es_flush s) m (es_conns s) (es_files s).
Definition es_set_conns (m : gmap string (gmap string SSHConn)) s : EnvState Y A F :=
  MkEnv (es_id s) (es_docs s) (es_heap s) (es_flush s) (es_paths s) m (es_files s).
Definition es_set_files (f : F) s : EnvState Y A F :=
  MkEnv (es_id s) (es_docs s) (es_heap s) (es_flush s) (es_paths s) (es_conns s) f.

(** [this.docs.get(uuid)?.get(ino)] *)
Definition doc_ref s (uuid : string) (ino : Z) : option nat := es_docs s !! uuid ≫= (.!! ino).
End setters.

(** ** Primitives *)
Section env_primitives.
Context {C Y A F : Type} `{!Cache C}.
Abbreviation W := (world C (EnvState Y A F)).
Local Open Scope mon_scope.

Definition getInstanceId : M W string := gets (λ w, es_id (w_loc w)).

(** The object behind a reference; references are never dangling. *)
Definition get_doc (ref : nat) : M W (Doc Y A) :=
  λ w, match es_heap (w_loc w) !! ref with Some d => (Ok d, w) | None => (Throw TypeError, w) end.
Definition upd_doc (ref : nat) (f : Doc Y A → Doc Y A) : M W unit :=
  put_loc (λ s, es_set_heap (alter f ref (es_heap s)) s).
Definition new_doc (d : Doc Y A) : M W nat :=
  s <- get_loc ;;
  put_loc (λ s, es_set_heap (es_heap s ++ [d]) s) ;;;
  ret (length (es_heap s)).

(** [getSessionId]: the session through which a user is attached. *)
Definition getSessionId (uid uuid : string) : M W (option string) :=
  presence <- cache_presence uid ;;
  ret (attached_session uuid presence).

Definition socket_send (uid sessionId pattern : string) (msg : OutMsg) : M W unit :=
  emit (Redis "socket.send" (Some (meta_us uid sessionId)) (SocketSend uid sessionId pattern msg)).
Definition socket_broadcast (uids sessionIds : list string) (pattern : string) (msg : OutMsg) : M W unit :=
  emit (Redis "socket.broadcast" None (SocketBroadcast uids sessionIds pattern msg)).

(** A reply to the request with this correlation id, if it has one. *)
Definition respond (uid sessionId : string) (correlationId : option string) (msg : OutMsg) : M W unit :=
  match if_truthy correlationId with
  | Some cid => socket_send uid sessionId cid msg
  | None => ret tt
  end.
End env_primitives.
