(* ===== verification/EnvSync.v ===== *)
(** Shared documents of the environment service: [core/sync.service.ts] and
    [utils/shareddoc.ts].  A document is opened by users, edited through Yjs
    messages, written back to its file by a debounced flush, and closed when
    its last user leaves. *)
From S2P Require Import Prelude JS Messages Keys Interfaces Presence EnvState.
From Stdlib Require Import Lia.

Section sync.
Context {C Y A F : Type} `{!Cache C, !Yjs Y A, !Agent F, !Sha256}.
Abbreviation W := (world C (EnvState Y A F)).
Local Open Scope mon_scope.

(** ** Messages to the users of a document *)

Definition with_session (x : string * option string) : option (string * string) :=
  match if_truthy x.2 with Some sid => Some (x.1, sid) | None => None end.

(** The users attached to the workspace, with their sessions. *)
Definition active_sessions (uids : list string) (uuid : string) : M W (list (string * string)) :=
  sessionIds <- mapM (λ uid, getSessionId uid uuid) uids ;;
  ret (omap with_session (zip uids sessionIds)).

Definition broadcast_active (uids : list string) (uuid : string) (msg : OutMsg) : M W unit :=
  match uids with
  | [] => ret tt
  | _ =>
      l <- active_sessions uids uuid ;;
      socket_broadcast (List.map fst l) (List.map snd l) "fs" msg
  end.

Definition send (uid uuid : string) (ino : Z) (buf : string) (sessionId : option string) : M W unit :=
  sid <- match if_truthy sessionId with Some s => ret (Some s) | None => getSessionId uid uuid end ;;
  match if_truthy sid with
  | None => ret tt
  | Some sid => socket_send uid sid "fs" (FSSyncOut uuid ino buf)
  end.

Definition broadcast (ref : nat) (buf : string) : M W unit :=
  doc <- get_doc ref ;;
  broadcast_active (okeys (d_users doc)) (d_uuid doc) (FSSyncOut (d_uuid doc) (d_ino doc) buf).

Definition sendFileMovedOrDeleted (uids : list string) (uuid : string) (ino : Z) : M W unit :=
  broadcast_active uids uuid (FSDisplaced uuid ino).
Definition sendConflictResolved (uuid : string) (uids : list string) (ino : Z) : M W unit :=
  broadcast_active uids uuid (FSResolved uuid ino).
Definition sendFSLoss (uid sessionId : string) (ino : Z) : M W unit :=
  socket_send uid sessionId "fs" (FSLost ino).

Definition sendConflict (ref : nat) : M W unit :=
  doc <- get_doc ref ;;
  l <- active_sessions (okeys (d_users doc)) (d_uuid doc) ;;
  forM (λ '(uid, sid), socket_send uid sid "fs" (FSConflict (d_uuid doc) (d_ino doc) (d_conflictResolver doc))) l.

(** ** Events of a document ([WSSharedDoc]) *)

(** [_flush]: debounced by five seconds. *)
Definition debounceTime : Z := 5000.
Definition schedule_flush (ref : nat) : M W unit :=
  t <- now ;;
  put_loc (λ s, es_set_flush (<[ref := t + debounceTime]> (es_flush s)) s).

Definition updateHandler (ref : nat) (update : string) : M W unit :=
  broadcast ref (y_enc_update update) ;;;
  schedule_flush ref.

Definition isResolverRemoved (resolver : string) (initialUids updatedUids : list string) : bool :=
  truthy resolver && includes resolver initialUids && negb (includes resolver updatedUids).

Definition z_add (l : list Z) (x : Z) : list Z := if bool_decide (x ∈ l) then l else l ++ [x].
Definition z_del (l : list Z) (x : Z) : list Z := List.filter (λ y, negb (Z.eqb y x)) l.

(** The clients a user controls, after an awareness change of its own. *)
Definition track_clients (u : AwarenessUpdate) (uid : option string) (users : list (string * list Z)) :
    list (string * list Z) :=
  match uid with
  | None => users
  | Some uid =>
      match oget uid users with
      | None => users
      | Some ids => oset uid (foldl z_del (foldl z_add ids (aw_added u)) (aw_removed u)) users
      end
  end.

Definition awarenessChangeHandler (ref : nat) (u : AwarenessUpdate) (uid : option string) : M W unit :=
  doc <- get_doc ref ;;
  let initialUids := okeys (d_users doc) in
  upd_doc ref (doc_set_users (track_clients u uid (d_users doc))) ;;;
  doc <- get_doc ref ;;
  broadcast ref (a_encode (d_awareness doc) (aw_added u ++ aw_updated u ++ aw_removed u)) ;;;
  let updatedUids := okeys (d_users doc) in
  if d_isConflicting doc && negb (bool_decide (aw_removed u = [])) &&
     isResolverRemoved (d_conflictResolver doc) initialUids updatedUids
  then sendConflict ref else ret tt.

Definition computeHash (doc : Doc Y A) : string := sha256 (y_text (d_y doc)).

(** Runs the handler of an event, if it fired. *)
Definition fire {E} (h : E → M W unit) (e : option E) : M W unit :=
  match e with Some e => h e | None => ret tt end.

(** ** Files *)
Definition loadFileContent (ref : nat) (replace : bool) : M W bool :=
  doc <- get_doc ref ;;
  s <- get_loc ;;
  match ag_read (d_uuid doc) (d_path doc) (es_files s) with
  | None => ret false
  | Some content =>
      let '(y, upd) := if replace then y_replace content (d_y doc) else y_insert0 content (d_y doc) in
      upd_doc ref (doc_set_y y) ;;;
      fire (updateHandler ref) upd ;;;
      ret true
  end.

Definition setFileContent (ref : nat) (content : string) : M W unit :=
  doc <- get_doc ref ;;
  emit (Http "POST" ("http://workspace-" +:+ d_uuid doc +:+ "/api/write?path=" +:+ d_path doc)) ;;;
  s <- get_loc ;;
  match ag_write (d_uuid doc) (d_path doc) content (es_files s) with
  | Some f => put_loc (es_set_files f)
  | None => ret tt
  end.

Definition updateCache (uuid : string) (ino : Z) (add : bool) : M W unit :=
  wCache <- cache_workspace uuid ;;
  match wCache with
  | None => ret tt
  | Some x =>
      id <- getInstanceId ;;
      cache_set (CACHEKEY_WORKSPACE uuid)
        (CWorkspace (ws_with_docs (if add then <[ino := id]> (c_docs x) else delete ino (c_docs x)) x)) None
  end.

(** ** Opening and closing *)
Definition register_doc (uuid : string) (ino : Z) (ref : nat) (s : EnvState Y A F) : EnvState Y A F :=
  es_set_docs (<[uuid := <[ino := ref]> (default ∅ (es_docs s !! uuid))]> (es_docs s)) s.

(** [this.docs.set(uuid, new Map())] when there is no map yet. *)
Definition ensure_docs (uuid : string) (s : EnvState Y A F) : EnvState Y A F :=
  es_set_docs (<[uuid := default ∅ (es_docs s !! uuid)]> (es_docs s)) s.
(** After a failed load: [if (this.docs.get(uuid)?.size === 1) this.docs.delete(uuid)]. *)
Definition drop_if_single (uuid : string) (s : EnvState Y A F) : EnvState Y A F :=
  match es_docs s !! uuid with
  | Some m => if bool_decide (size m = 1%nat) then es_set_docs (delete uuid (es_docs s)) s else s
  | None => s
  end.

(** The document of an inode: the registered one, or a new one loaded from
    the file; [None] when the file cannot be read. *)
Definition find_or_load (uuid path : string) (ino : Z) : M W (option nat) :=
  s <- get_loc ;;
  put_loc (ensure_docs uuid) ;;;
  match doc_ref s uuid ino with
  | Some ref => ret (Some ref)
  | None =>
      ref <- new_doc (MkDoc ino path uuid y_new a_new [] false false "") ;;
      success <- loadFileContent ref false ;;
      if negb success then
        put_loc (drop_if_single uuid) ;;;
        ret None
      else put_loc (register_doc uuid ino ref) ;;; ret (Some ref)
  end.

(** The other instance that holds the document, if one does. *)
Definition elsewhere (id : string) (holder : option string) : option string :=
  match if_truthy holder with
  | Some env => if bool_decide (id ≠ env) then Some env else None
  | None => None
  end.

Definition openFile (uid sessionId uuid path : string) (stat : StatDTO) (correlationId : option string) : M W unit :=
  workspace <- cache_workspace uuid ;;
  match workspace with
  | None => respond uid sessionId correlationId (RespError "FATAL_ERR_NO_WORKSPACE")
  | Some workspace =>
      id <- getInstanceId ;;
      match elsewhere id (c_docs workspace !! st_ino stat) with
      | Some env =>
          emit (Redis ("env." +:+ env +:+ ".openfile") (Some (meta_us uid sessionId))
            (InterEnvFSOpen uuid path stat correlationId))
      | None =>
          try_catch
            (ref <- find_or_load uuid path (st_ino stat) ;;
             match ref with
             | None => respond uid sessionId correlationId (RespError "FS_ERR_READ_FILE")
             | Some ref =>
                 upd_doc ref (λ d, doc_set_users (oset uid [] (d_users d)) d) ;;;
                 updateCache uuid (st_ino stat) true ;;;
                 doc <- get_doc ref ;;
                 respond uid sessionId correlationId
                   (RespFile (d_isConflicting doc) (d_conflictResolver doc))
             end)
            (λ _, respond uid sessionId correlationId (RespError "FS_ERR_FETCH_FILE"))
      end
  end.

(** Drops a closed document from the registry. *)
Definition unregister_doc (uuid : string) (ino : Z) (s : EnvState Y A F) : EnvState Y A F :=
  match es_docs s !! uuid with
  | Some m => es_set_docs (<[uuid := delete ino m]> (es_docs s)) s
  | None => s
  end.
Definition drop_if_empty (uuid : string) (s : EnvState Y A F) : EnvState Y A F :=
  match es_docs s !! uuid with
  | Some m => if bool_decide (m = ∅) then es_set_docs (delete uuid (es_docs s)) s else s
  | None => s
  end.

Definition closeFile (uid sessionId uuid : string) (ino : Z) : M W unit :=
  workspace <- cache_workspace uuid ;;
  match workspace with
  | None => ret tt
  | Some workspace =>
      id <- getInstanceId ;;
      match elsewhere id (c_docs workspace !! ino) with
      | Some env =>
          emit (Redis ("env." +:+ env +:+ ".closefile") (Some (meta_us uid sessionId))
            (InterEnvFSClose uuid ino))
      | None =>
          s <- get_loc ;;
          match doc_ref s uuid ino with
          | None => ret tt
          | Some ref =>
              doc <- get_doc ref ;;
              match oget uid (d_users doc) with
              | None => ret tt
              | Some controlledIds =>
                  let '(a, change) := a_remove controlledIds (d_awareness doc) in
                  upd_doc ref (λ d, doc_set_awareness a (doc_set_users (odel uid (d_users d)) d)) ;;;
                  fire (λ u, awarenessChangeHandler ref u None) change ;;;
                  doc <- get_doc ref ;;
                  match d_users doc with
                  | _ :: _ => ret tt
                  | [] =>
                      put_loc (unregister_doc uuid ino) ;;;
                      updateCache uuid ino false ;;;
                      put_loc (drop_if_empty uuid)
                  end
              end
          end
      end
  end.

(** ** Messages of the users *)
Definition handleSync (uid sessionId uuid : string) (ino : Z) (buf : string) : M W unit :=
  s <- get_loc ;;
  match doc_ref s uuid ino with
  | None => ret tt
  | Some ref =>
      doc <- get_doc ref ;;
      match y_decode buf with
      | None | Some YUnknown => ret tt
      | Some (SYNC body) =>
          match y_read body (d_y doc) with
          | None => ret tt
          | Some (y, upd, rep) =>
              upd_doc ref (doc_set_y y) ;;;
              fire (updateHandler ref) upd ;;;
              match rep with
              | Some r => send uid uuid ino r (Some sessionId)
              | None => ret tt
              end
          end
      | Some (AWARENESS body) =>
          match a_apply body (d_awareness doc) with
          | None => ret tt
          | Some (a, change) =>
              upd_doc ref (doc_set_awareness a) ;;;
              fire (λ u, awarenessChangeHandler ref u (Some uid)) change
          end
      end
  end.

(** The debounced write of a document to its file. *)
Definition flush (ref : nat) : M W unit :=
  doc <- get_doc ref ;;
  if d_isDisplaced doc || d_isConflicting doc then ret tt else
  s <- get_loc ;;
  let ok := match ag_stat (d_uuid doc) (d_path doc) (es_files s) with
            | Some stat => negb (st_isDir stat)
            | None => false
            end in
  if negb ok then
    upd_doc ref doc_set_displaced ;;;
    sendFileMovedOrDeleted (okeys (d_users doc)) (d_uuid doc) (d_ino doc)
  else setFileContent ref (y_text (d_y doc)).

(** The timer of a document fires. *)
Definition flush_timer (ref : nat) : M W unit :=
  s <- get_loc ;;
  t <- now ;;
  match es_flush s !! ref with
  | Some due =>
      if due <=? t
      then put_loc (λ s, es_set_flush (delete ref (es_flush s)) s) ;;; flush ref
      else ret tt
  | None => ret tt
  end.

Definition handleOpenAck (uid sessionId uuid : string) (ino : Z) : M W unit :=
  s <- get_loc ;;
  match doc_ref s uuid ino with
  | None => ret tt
  | Some ref =>
      doc <- get_doc ref ;;
      send uid (d_uuid doc) ino (y_enc_step1 (d_y doc)) None ;;;
      match a_clients (d_awareness doc) with
      | [] => ret tt
      | l => send uid (d_uuid doc) ino (a_encode (d_awareness doc) l) (Some sessionId)
      end
  end.

Definition handleConflictResolve (uid sessionId uuid : string) (ino : Z) (decision : ConflictDecision) : M W unit :=
  s <- get_loc ;;
  match doc_ref s uuid ino with
  | None => sendFSLoss uid sessionId ino
  | Some ref =>
      doc <- get_doc ref ;;
      match decision with
      | keep => setFileContent ref (y_text (d_y doc))
      | reload => loadFileContent ref true ;;; ret tt
      end ;;;
      upd_doc ref (doc_set_conflict false "") ;;;
      doc <- get_doc ref ;;
      sendConflictResolved uuid (okeys (d_users doc)) ino
  end.

(** The operations of the service, as other parts call them. *)
Inductive sync_op :=
| OpOpen (uid sessionId uuid path : string) (stat : StatDTO) (correlationId : option string)
| OpClose (uid sessionId uuid : string) (ino : Z)
| OpSync (uid sessionId uuid : string) (ino : Z) (buf : string)
| OpAck (uid sessionId uuid : string) (ino : Z)
| OpResolve (uid sessionId uuid : string) (ino : Z) (decision : ConflictDecision)
| OpTimer (ref : nat).

Definition sync_step (o : sync_op) : M W unit :=
  match o with
  | OpOpen uid sid uuid path stat cid => openFile uid sid uuid path stat cid
  | OpClose uid sid uuid ino => closeFile uid sid uuid ino
  | OpSync uid sid uuid ino buf => handleSync uid sid uuid ino buf
  | OpAck uid sid uuid ino => handleOpenAck uid sid uuid ino
  | OpResolve uid sid uuid ino decision => handleConflictResolve uid sid uuid ino decision
  | OpTimer ref => flush_timer ref
  end.
End sync.
