(* ===== verification/EnvSyncProps.v ===== *)
(** Shared documents: the registry's invariant and progress of every
    handler, edits reach the file, conflicts, and the life of a document. *)
From S2P Require Import Prelude JS Messages Keys Interfaces Presence EnvState EnvSync.
From Stdlib Require Import Lia.

Section sync_props.
Context {C Y A F : Type} `{!Cache C, !CacheLaws C, !Yjs Y A, !Agent F, !Sha256}.
Abbreviation W := (world C (EnvState Y A F)).
Implicit Types (w : W) (s : EnvState Y A F) (d : Doc Y A).

(** ** Operations that only send *)
Definition quiet {B} (m : M W B) (w : W) (b : B) : Prop := ∃ es, m w = (Ok b, add_outs es w).

Lemma quiet_bind {B D} (m : M W B) (k : B → M W D) w b r :
  quiet m w b → (∀ es, quiet (k b) (add_outs es w) r) → quiet (bind m k) w r.
Proof.
  intros [es He] Hk. destruct (Hk es) as [es' He']. exists (es ++ es').
  rewrite (bind_ok _ _ _ _ _ He), He'. by rewrite add_outs_add_outs.
Qed.
Lemma quiet_ret {B} (b : B) w : quiet (ret b) w b.
Proof. exists []. by rewrite add_outs_nil. Qed.
Lemma quiet_emit e w : quiet (emit e) w tt.
Proof. by exists [e]. Qed.
Lemma quiet_gets {B} (f : W → B) w : quiet (gets f) w (f w).
Proof. exists []. by rewrite add_outs_nil. Qed.
Lemma quiet_forM {B} (f : B → M W unit) l w : (∀ x w, quiet (f x) w tt) → quiet (forM f l) w tt.
Proof.
  intros Hf. revert w. induction l as [|x l IH]; intros w; simpl; [apply quiet_ret|].
  eapply quiet_bind; [apply Hf|intros; apply IH].
Qed.

(** What [active_sessions] answers. *)
Definition sessions_in (c : C) (uuid : string) (uids : list string) : list (string * string) :=
  omap with_session
    (zip uids ((λ uid, attached_session uuid (presence_in c uid)) <$> uids)).

Lemma active_sessions_run uids uuid w :
  active_sessions uids uuid w = (Ok (sessions_in (w_cache w) uuid uids), w).
Proof.
  unfold active_sessions.
  rewrite (bind_ok _ _ w ((λ uid, attached_session uuid (presence_in (w_cache w) uid)) <$> uids) w); [done|].
  by apply (mapM_reads _ (λ uid w, attached_session uuid (presence_in (w_cache w) uid))).
Qed.

Lemma broadcast_active_run uids uuid msg w :
  broadcast_active uids uuid msg w =
  (Ok tt, add_outs (match uids with
     | [] => []
     | _ => [Redis "socket.broadcast" None (SocketBroadcast (sessions_in (w_cache w) uuid uids).*1
               (sessions_in (w_cache w) uuid uids).*2 "fs" msg)]
     end) w).
Proof.
  destruct uids as [|u l]; [by rewrite add_outs_nil|]. unfold broadcast_active.
  by rewrite (bind_ok _ _ _ _ _ (active_sessions_run _ _ _)).
Qed.
Lemma quiet_broadcast_active uids uuid msg w : quiet (broadcast_active uids uuid msg) w tt.
Proof. eexists. apply broadcast_active_run. Qed.

Lemma quiet_send uid uuid ino buf sid w : quiet (send uid uuid ino buf sid) w tt.
Proof.
  unfold send. destruct (if_truthy sid) as [s|].
  - eapply quiet_bind; [apply quiet_ret|]. intros es.
    destruct (if_truthy (Some s)); [apply quiet_emit|apply quiet_ret].
  - eapply (quiet_bind _ _ _ (attached_session uuid (presence_in (w_cache w) uid)));
      [exists []; by rewrite add_outs_nil|].
    intros es. destruct (if_truthy _); [apply quiet_emit|apply quiet_ret].
Qed.

Lemma get_doc_run ref d w : es_heap (w_loc w) !! ref = Some d → get_doc ref w = (Ok d, w).
Proof. unfold get_doc. by intros ->. Qed.

Lemma quiet_broadcast ref d buf w :
  es_heap (w_loc w) !! ref = Some d → quiet (broadcast ref buf) w tt.
Proof.
  intros Hd. unfold broadcast.
  eapply (quiet_bind _ _ _ d); [exists []; rewrite add_outs_nil; by apply get_doc_run|].
  intros. apply quiet_broadcast_active.
Qed.

Lemma quiet_sendConflict ref d w :
  es_heap (w_loc w) !! ref = Some d → quiet (sendConflict ref) w tt.
Proof.
  intros Hd. unfold sendConflict.
  eapply (quiet_bind _ _ _ d); [exists []; rewrite add_outs_nil; by apply get_doc_run|].
  intros es. eapply (quiet_bind _ _ _ (sessions_in (w_cache w) (d_uuid d) (okeys (d_users d)))).
  - exists []. rewrite add_outs_nil. by rewrite active_sessions_run.
  - intros es'. apply quiet_forM. intros [uid sid] w'. apply quiet_emit.
Qed.

(** ** Runs of the event handlers *)
Definition set_flush (ref : nat) (due : Z) s : EnvState Y A F :=
  es_set_flush (<[ref := due]> (es_flush s)) s.
Definition alter_doc (f : Doc Y A → Doc Y A) (ref : nat) s : EnvState Y A F :=
  es_set_heap (alter f ref (es_heap s)) s.

(** The state after a document's update event. *)
Definition flushed_at (upd : option string) (ref : nat) (t : Z) s : EnvState Y A F :=
  match upd with Some _ => set_flush ref (t + debounceTime) s | None => s end.

Lemma fire_update_run ref d upd w :
  es_heap (w_loc w) !! ref = Some d →
  ∃ es, fire (updateHandler ref) upd w = (Ok tt, add_outs es (set_loc (flushed_at upd ref (w_now w)) w)).
Proof.
  intros Hd. destruct upd as [u|]; simpl; [|exists []; rewrite add_outs_nil; by destruct w].
  unfold updateHandler. destruct (quiet_broadcast ref d (y_enc_update u) w Hd) as [es He].
  exists es. by rewrite (bind_ok _ _ _ _ _ He).
Qed.

Lemma awareness_run ref d u uid w :
  es_heap (w_loc w) !! ref = Some d →
  ∃ es, awarenessChangeHandler ref u uid w =
    (Ok tt, add_outs es (set_loc (alter_doc (doc_set_users (track_clients u uid (d_users d))) ref) w)).
Proof.
  intros Hd. unfold awarenessChangeHandler. rewrite (bind_ok _ _ _ _ _ (get_doc_run ref d w Hd)).
  cbv zeta. mstep by done.
  set (w1 := set_loc _ w).
  assert (es_heap (w_loc w1) !! ref = Some (doc_set_users (track_clients u uid (d_users d)) d)) as Hd1.
  { simpl. by rewrite list_lookup_alter_eq, Hd. }
  rewrite (bind_ok _ _ _ _ _ (get_doc_run ref _ w1 Hd1)).
  match goal with |- context [broadcast ref ?b] => destruct (quiet_broadcast ref _ b w1 Hd1) as [es He] end.
  rewrite (bind_ok _ _ _ _ _ He). destruct (_ && _); [|by exists es].
  destruct (quiet_sendConflict ref _ (add_outs es w1) Hd1) as [es' He']. exists (es ++ es').
  by rewrite He', add_outs_add_outs.
Qed.

(** ** The registry's invariant

    Every registered reference is to a document of that workspace and inode
    which some user has open; a pending flush is of an existing document. *)
Definition refs_ok s : Prop :=
  (∀ u i r, doc_ref s u i = Some r → ∃ d, es_heap s !! r = Some d ∧ d_uuid d = u ∧ d_ino d = i) ∧
  (∀ r t, es_flush s !! r = Some t → is_Some (es_heap s !! r)).
Definition used (except : option nat) s : Prop :=
  ∀ u i r d, doc_ref s u i = Some r → Some r ≠ except → es_heap s !! r = Some d → d_users d ≠ [].
Definition env_ok s : Prop := refs_ok s ∧ used None s.

Lemma refs_ok_alter f ref s :
  (∀ d, d_uuid (f d) = d_uuid d ∧ d_ino (f d) = d_ino d) → refs_ok s → refs_ok (alter_doc f ref s).
Proof.
  intros Hf [Hr Hfl]. split.
  - intros u i r Hd. destruct (Hr u i r Hd) as (d & Hh & Hu & Hi). simpl.
    rewrite list_lookup_alter. case_decide as Heq; [|eauto]. subst.
    rewrite Hh. simpl. exists (f d). destruct (Hf d) as [-> ->]. done.
  - intros r t Ht. destruct (Hfl r t Ht) as [d Hd]. simpl. rewrite list_lookup_alter.
    case_decide; [subst; rewrite Hd; by eexists|by eexists].
Qed.
Lemma refs_ok_flush ref t s : is_Some (es_heap s !! ref) → refs_ok s → refs_ok (set_flush ref t s).
Proof.
  intros Hs [Hr Hfl]. split; [exact Hr|]. intros r t'. simpl. rewrite lookup_insert.
  case_decide; [by subst|apply Hfl].
Qed.
Lemma refs_ok_flushed upd ref t s :
  is_Some (es_heap s !! ref) → refs_ok s → refs_ok (flushed_at upd ref t s).
Proof. destruct upd; simpl; [apply refs_ok_flush|done]. Qed.
(** Fewer references, the same objects. *)
Lemma refs_ok_sub s s' :
  es_heap s' = es_heap s → (∀ r t, es_flush s' !! r = Some t → is_Some (es_flush s !! r)) →
  (∀ u i r, doc_ref s' u i = Some r → doc_ref s u i = Some r) → refs_ok s → refs_ok s'.
Proof.
  intros Hh Hf Hd [Hr Hfl]. split; rewrite Hh; [eauto|].
  intros r t Ht. destruct (Hf r t Ht) as [t' Ht']. by eapply Hfl.
Qed.
Lemma refs_ok_new d s : refs_ok s → refs_ok (es_set_heap (es_heap s ++ [d]) s).
Proof.
  intros [Hr Hfl]. split; simpl.
  - intros u i r Hd. destruct (Hr u i r Hd) as (d' & Hh & Hu). exists d'.
    split; [by apply lookup_app_l_Some|done].
  - intros r t Ht. destruct (Hfl r t Ht) as [d' Hd]. exists d'. by apply lookup_app_l_Some.
Qed.

Lemma doc_ref_register uuid ino ref s u i :
  doc_ref (register_doc uuid ino ref s) u i = if decide (u = uuid ∧ i = ino) then Some ref else doc_ref s u i.
Proof.
  unfold doc_ref, register_doc. simpl. rewrite lookup_insert. destruct (decide (uuid = u)) as [->|Hu].
  - simpl. rewrite lookup_insert. destruct (decide (ino = i)) as [->|Hi].
    + by rewrite decide_True.
    + rewrite decide_False by naive_solver. destruct (es_docs s !! u); simpl; [done|apply lookup_empty].
  - by rewrite decide_False by naive_solver.
Qed.
Lemma refs_ok_register uuid ino ref d s :
  es_heap s !! ref = Some d → d_uuid d = uuid → d_ino d = ino → refs_ok s → refs_ok (register_doc uuid ino ref s).
Proof.
  intros Hh Hu Hi [Hr Hfl]. split; [|exact Hfl]. intros u i r. rewrite doc_ref_register.
  case_decide as Hd; [|apply Hr]. intros [= <-]. destruct Hd as [-> ->]. by exists d.
Qed.

Lemma doc_ref_unregister uuid ino s u i :
  doc_ref (unregister_doc uuid ino s) u i = if decide (u = uuid ∧ i = ino) then None else doc_ref s u i.
Proof.
  unfold doc_ref, unregister_doc. destruct (es_docs s !! uuid) as [m|] eqn:Hm; simpl.
  - rewrite lookup_insert. destruct (decide (uuid = u)) as [->|Hu].
    + simpl. rewrite lookup_delete, Hm. simpl. destruct (decide (ino = i)) as [->|Hi].
      * by rewrite decide_True.
      * by rewrite decide_False by naive_solver.
    + by rewrite decide_False by naive_solver.
  - case_decide as Hd; [|done]. destruct Hd as [-> _]. by rewrite Hm.
Qed.
Lemma doc_ref_drop_if_empty uuid s u i : doc_ref (drop_if_empty uuid s) u i = doc_ref s u i.
Proof.
  unfold doc_ref, drop_if_empty. destruct (es_docs s !! uuid) as [m|] eqn:Hm; [|done].
  case_bool_decide as He; [|done]. simpl. rewrite lookup_delete. case_decide as Hd; [|done].
  subst. rewrite Hm. simpl. by rewrite lookup_empty.
Qed.

Lemma track_clients_keys u uid us : okeys (track_clients u uid us) = okeys us.
Proof.
  unfold track_clients. destruct uid as [k|]; [|done]. destruct (oget k us) eqn:Hk; [|done].
  rewrite okeys_oset. rewrite decide_True; [done|]. apply oget_keys. by rewrite Hk.
Qed.
Lemma track_clients_nonempty u uid us : us ≠ [] → track_clients u uid us ≠ [].
Proof.
  intros Hus Hn. apply Hus. pose proof (track_clients_keys u uid us) as Hk. rewrite Hn in Hk.
  by destruct us.
Qed.
Lemma oset_nonempty {V} k (v : V) o : oset k v o ≠ [].
Proof. destruct o as [|[k' v'] o]; simpl; [done|]. by case_decide. Qed.

Lemma used_alter e f ref s :
  (∀ d, d_users d ≠ [] → d_users (f d) ≠ []) → used e s → used e (alter_doc f ref s).
Proof.
  intros Hf Hu u i r d Hd He. simpl. rewrite list_lookup_alter. case_decide; [|by eapply Hu].
  subst. destruct (es_heap s !! r) as [d0|] eqn:Hh; [|done]. intros [= <-]. apply Hf. by eapply Hu.
Qed.
Lemma used_sub e s s' :
  es_heap s' = es_heap s → (∀ u i r, doc_ref s' u i = Some r → doc_ref s u i = Some r) → used e s → used e s'.
Proof. intros Hh Hd Hu u i r d. rewrite Hh. eauto. Qed.

Lemma env_ok_alter f ref s :
  (∀ d, d_uuid (f d) = d_uuid d ∧ d_ino (f d) = d_ino d) →
  (∀ d, d_users d ≠ [] → d_users (f d) ≠ []) → env_ok s → env_ok (alter_doc f ref s).
Proof. intros ? ? [? ?]. split; [by apply refs_ok_alter|by apply used_alter]. Qed.
Lemma env_ok_flushed upd ref t s :
  is_Some (es_heap s !! ref) → env_ok s → env_ok (flushed_at upd ref t s).
Proof. intros Hs [Hr Hu]. split; [by apply refs_ok_flushed|]. by destruct upd. Qed.
Lemma env_ok_sub s s' :
  es_heap s' = es_heap s → (∀ r t, es_flush s' !! r = Some t → is_Some (es_flush s !! r)) →
  (∀ u i r, doc_ref s' u i = Some r → doc_ref s u i = Some r) → env_ok s → env_ok s'.
Proof. intros ? ? ? [? ?]. split; [by eapply refs_ok_sub|by eapply used_sub]. Qed.

Lemma env_ok_doc s u i r : env_ok s → doc_ref s u i = Some r → ∃ d, es_heap s !! r = Some d ∧ d_uuid d = u ∧ d_ino d = i ∧ d_users d ≠ [].
Proof.
  intros [[Hr _] Hu] Hd. destruct (Hr u i r Hd) as (d & Hh & ? & ?). exists d. split_and!; try done.
  by apply (Hu u i r d).
Qed.

(** ** Runs of the file operations *)
Definition cache_docs (uuid : string) (ino : Z) (add : bool) (id : string) (c : C) : C :=
  match workspace_in c uuid with
  | Some x => kv_set (CACHEKEY_WORKSPACE uuid)
      (CWorkspace (ws_with_docs (if add then <[ino := id]> (c_docs x) else delete ino (c_docs x)) x), None) c
  | None => c
  end.

Lemma updateCache_run uuid ino add w :
  updateCache uuid ino add w = (Ok tt, set_cache (cache_docs uuid ino add (es_id (w_loc w))) w).
Proof.
  unfold updateCache, cache_docs. mstep by done. destruct (workspace_in _ _) as [x|] eqn:Hx.
  - mstep by done. unfold cache_set, modify, set_cache. by rewrite Hx.
  - unfold ret, set_cache. rewrite Hx. by destruct w.
Qed.

Definition written uuid path content (f : F) : F := default f (ag_write uuid path content f).

Lemma setFileContent_run ref d content w :
  es_heap (w_loc w) !! ref = Some d →
  ∃ es, setFileContent ref content w =
    (Ok tt, add_outs es (set_loc (λ s, es_set_files (written (d_uuid d) (d_path d) content (es_files s)) s) w)).
Proof.
  intros Hd. unfold setFileContent. rewrite (bind_ok _ _ _ _ _ (get_doc_run ref d w Hd)).
  mstep by done. mstep by done. simpl.
  exists [Http "POST" ("http://workspace-" +:+ d_uuid d +:+ "/api/write?path=" +:+ d_path d)].
  unfold add_outs, set_loc, written. simpl. destruct (ag_write _ _ _ _) as [f|]; simpl; [done|].
  by destruct w as [? ? ? ? []].
Qed.

Definition loaded (replace : bool) (content : string) (y : Y) : Y * option string :=
  if replace then y_replace content y else y_insert0 content y.

Lemma loadFileContent_run ref d replace content w :
  es_heap (w_loc w) !! ref = Some d → ag_read (d_uuid d) (d_path d) (es_files (w_loc w)) = Some content →
  ∃ es, loadFileContent ref replace w =
    (Ok true, add_outs es (set_loc (λ s, flushed_at (loaded replace content (d_y d)).2 ref (w_now w)
       (alter_doc (doc_set_y (loaded replace content (d_y d)).1) ref s)) w)).
Proof.
  intros Hd Hr. unfold loadFileContent. rewrite (bind_ok _ _ _ _ _ (get_doc_run ref d w Hd)).
  mstep by done. rewrite Hr. unfold loaded. destruct (if replace then _ else _) as [y upd]. simpl.
  mstep by done. set (w1 := set_loc _ w).
  assert (es_heap (w_loc w1) !! ref = Some (doc_set_y y d)) as Hd1.
  { simpl. by rewrite list_lookup_alter_eq, Hd. }
  destruct (fire_update_run ref _ upd w1 Hd1) as [es He]. exists es.
  rewrite (bind_ok _ _ _ _ _ He). done.
Qed.
Lemma loadFileContent_fail ref d replace w :
  es_heap (w_loc w) !! ref = Some d → ag_read (d_uuid d) (d_path d) (es_files (w_loc w)) = None →
  loadFileContent ref replace w = (Ok false, w).
Proof.
  intros Hd Hr. unfold loadFileContent. rewrite (bind_ok _ _ _ _ _ (get_doc_run ref d w Hd)).
  mstep by done. by rewrite Hr.
Qed.

Lemma env_ok_files f s : env_ok s → env_ok (es_set_files f s).
Proof. by apply env_ok_sub. Qed.
Lemma heap_some_alter f ref r s : is_Some (es_heap s !! r) → is_Some (es_heap (alter_doc f ref s) !! r).
Proof. intros [d Hd]. simpl. rewrite list_lookup_alter. case_decide; [subst; rewrite Hd|]; by eexists. Qed.

(** Answering a request only sends. *)
Lemma quiet_respond uid sid cid msg w : quiet (respond uid sid cid msg) w tt.
Proof. unfold respond. destruct (if_truthy cid); [apply quiet_emit|apply quiet_ret]. Qed.

(** ** Every handler returns, and keeps the invariant *)
Definition safe (m : M W unit) : Prop :=
  ∀ w, env_ok (w_loc w) → ∃ w', m w = (Ok tt, w') ∧ env_ok (w_loc w').

Lemma quiet_safe m : (∀ w, quiet m w tt) → safe m.
Proof. intros Hm w Hw. destruct (Hm w) as [es ->]. by eexists. Qed.

Lemma safe_handleSync uid sid uuid ino buf : safe (handleSync uid sid uuid ino buf).
Proof.
  intros w Hok. unfold handleSync. mstep by done.
  destruct (doc_ref (w_loc w) uuid ino) as [ref|] eqn:Href; [|by exists w].
  destruct (env_ok_doc _ _ _ _ Hok Href) as (d & Hd & Hdu & Hdi & Hus).
  rewrite (bind_ok _ _ _ _ _ (get_doc_run ref d w Hd)).
  destruct (y_decode buf) as [[body|body|]|]; [| |by exists w|by exists w].
  - destruct (y_read body (d_y d)) as [[[y upd] rep]|]; [|by exists w].
    mstep by done. set (w1 := set_loc _ w).
    assert (es_heap (w_loc w1) !! ref = Some (doc_set_y y d)) as Hd1.
    { simpl. by rewrite list_lookup_alter_eq, Hd. }
    destruct (fire_update_run ref _ upd w1 Hd1) as [es He]. rewrite (bind_ok _ _ _ _ _ He).
    set (w2 := add_outs es _).
    assert (env_ok (w_loc w2)) as Hok2.
    { apply env_ok_flushed; [by eexists|]. by apply env_ok_alter. }
    destruct rep as [r|]; [|by exists w2]. destruct (quiet_send uid uuid ino r (Some sid) w2) as [es' ->].
    by eexists.
  - destruct (a_apply body (d_awareness d)) as [[a change]|]; [|by exists w].
    mstep by done. set (w1 := set_loc _ w).
    assert (env_ok (w_loc w1)) as Hok1 by (by apply env_ok_alter).
    destruct change as [u|]; simpl; [|by exists w1].
    assert (es_heap (w_loc w1) !! ref = Some (doc_set_awareness a d)) as Hd1.
    { simpl. by rewrite list_lookup_alter_eq, Hd. }
    destruct (awareness_run ref _ u (Some uid) w1 Hd1) as [es ->]. eexists. split; [done|].
    apply env_ok_alter; [done| |done]. intros d' _. by apply track_clients_nonempty.
Qed.

Lemma safe_handleOpenAck uid sid uuid ino : safe (handleOpenAck uid sid uuid ino).
Proof.
  intros w Hok. unfold handleOpenAck. mstep by done.
  destruct (doc_ref (w_loc w) uuid ino) as [ref|] eqn:Href; [|by exists w].
  destruct (env_ok_doc _ _ _ _ Hok Href) as (d & Hd & _).
  rewrite (bind_ok _ _ _ _ _ (get_doc_run ref d w Hd)).
  destruct (quiet_send uid (d_uuid d) ino (y_enc_step1 (d_y d)) None w) as [es He].
  rewrite (bind_ok _ _ _ _ _ He). destruct (a_clients _) as [|a l]; [by eexists|].
  destruct (quiet_send uid (d_uuid d) ino (a_encode (d_awareness d) (a :: l)) (Some sid) (add_outs es w)) as [es' ->].
  by eexists.
Qed.

(** The state after a flush. *)
Definition flush_state (ref : nat) d s : EnvState Y A F :=
  if d_isDisplaced d || d_isConflicting d then s
  else match ag_stat (d_uuid d) (d_path d) (es_files s) with
       | Some stat => if st_isDir stat then alter_doc doc_set_displaced ref s
                      else es_set_files (written (d_uuid d) (d_path d) (y_text (d_y d)) (es_files s)) s
       | None => alter_doc doc_set_displaced ref s
       end.

Lemma flush_run ref d w :
  es_heap (w_loc w) !! ref = Some d →
  ∃ es, flush ref w = (Ok tt, add_outs es (set_loc (flush_state ref d) w)).
Proof.
  intros Hd. unfold flush, flush_state. rewrite (bind_ok _ _ _ _ _ (get_doc_run ref d w Hd)).
  destruct (d_isDisplaced d || d_isConflicting d) eqn:Hb.
  { exists []. rewrite add_outs_nil. by destruct w. }
  mstep by done. cbv zeta.
  assert (∃ es, bind (upd_doc ref doc_set_displaced)
      (λ _, sendFileMovedOrDeleted (okeys (d_users d)) (d_uuid d) (d_ino d)) w =
      (Ok tt, add_outs es (set_loc (alter_doc doc_set_displaced ref) w))) as Hdis.
  { mstep by done. destruct (quiet_broadcast_active (okeys (d_users d)) (d_uuid d) (FSDisplaced (d_uuid d) (d_ino d))
      (set_loc (alter_doc doc_set_displaced ref) w)) as [es He]. exists es. exact He. }
  unfold set_loc in *. destruct (ag_stat _ _ _) as [st|]; simpl; [|exact Hdis].
  destruct (st_isDir st); simpl; [exact Hdis|].
  apply (setFileContent_run ref d (y_text (d_y d)) w Hd).
Qed.

Lemma env_ok_flush_state ref d s : env_ok s → env_ok (flush_state ref d s).
Proof.
  intros Hok. unfold flush_state. destruct (_ || _); [done|].
  destruct (ag_stat _ _ _) as [st|]; [destruct (st_isDir st)|];
    try (by apply env_ok_alter); by apply env_ok_files.
Qed.

Lemma safe_flush_timer ref : safe (flush_timer ref).
Proof.
  intros w Hok. unfold flush_timer. mstep by done. mstep by done.
  destruct (es_flush (w_loc w) !! ref) as [due|] eqn:Hf; [|by exists w].
  destruct (due <=? w_now w); [|by exists w]. mstep by done. set (w1 := set_loc _ w).
  destruct Hok as [Hro Hus]. destruct (proj2 Hro ref due Hf) as [d Hd].
  destruct (flush_run ref d w1 Hd) as [es ->]. eexists. split; [done|]. apply env_ok_flush_state.
  apply (env_ok_sub (w_loc w)); [done| |done|by split].
  intros r t. simpl. rewrite lookup_delete. case_decide; [done|]. by intros ->; eexists.
Qed.

Lemma safe_handleConflictResolve uid sid uuid ino decision :
  safe (handleConflictResolve uid sid uuid ino decision).
Proof.
  intros w Hok. unfold handleConflictResolve. mstep by done.
  destruct (doc_ref (w_loc w) uuid ino) as [ref|] eqn:Href.
  2:{ destruct (quiet_emit (Redis "socket.send" (Some (meta_us uid sid)) (SocketSend uid sid "fs" (FSLost ino))) w)
        as [es He]. eexists. by split; [exact He|]. }
  destruct (env_ok_doc _ _ _ _ Hok Href) as (d & Hd & _).
  rewrite (bind_ok _ _ _ _ _ (get_doc_run ref d w Hd)).
  assert (∃ w1 d1, (match decision with
      | keep => setFileContent ref (y_text (d_y d))
      | reload => bind (loadFileContent ref true) (λ _, ret tt)
      end) w = (Ok tt, w1) ∧ env_ok (w_loc w1) ∧ es_heap (w_loc w1) !! ref = Some d1)
    as (w1 & d1 & Hr & Hok1 & Hd1).
  { destruct decision.
    - destruct (setFileContent_run ref d (y_text (d_y d)) w Hd) as [es He]. eexists _, d.
      split; [exact He|]. split; [by apply env_ok_files|done].
    - destruct (ag_read (d_uuid d) (d_path d) (es_files (w_loc w))) as [c|] eqn:Hrd.
      + destruct (loadFileContent_run ref d true c w Hd Hrd) as [es He].
        eexists _, (doc_set_y (loaded true c (d_y d)).1 d). rewrite (bind_ok _ _ _ _ _ He).
        split; [done|]. simpl. split.
        * apply env_ok_flushed; [apply heap_some_alter; by eexists|by apply env_ok_alter].
        * destruct (y_replace c (d_y d)).2; simpl; by rewrite list_lookup_alter_eq, Hd.
      + exists w, d. rewrite (bind_ok _ _ _ _ _ (loadFileContent_fail ref d true w Hd Hrd)). done. }
  rewrite (bind_ok _ _ _ _ _ Hr). mstep by done. set (w2 := set_loc _ w1).
  assert (es_heap (w_loc w2) !! ref = Some (doc_set_conflict false "" d1)) as Hd2.
  { simpl. by rewrite list_lookup_alter_eq, Hd1. }
  rewrite (bind_ok _ _ _ _ _ (get_doc_run ref _ w2 Hd2)).
  match goal with |- context [sendConflictResolved ?a ?b ?c] =>
    destruct (quiet_broadcast_active b a (FSResolved a c) w2) as [es He] end.
  eexists. split; [exact He|]. by apply env_ok_alter.
Qed.

(** *** Closing *)
Definition leave (uid : string) (a : A) d : Doc Y A :=
  doc_set_awareness a (doc_set_users (odel uid (d_users d)) d).

(** The state after a user has closed a document. *)
Definition closed (uid uuid : string) (ino : Z) (ref : nat) d s : EnvState Y A F :=
  let s1 := alter_doc (leave uid (a_remove (default [] (oget uid (d_users d))) (d_awareness d)).1) ref s in
  match odel uid (d_users d) with
  | [] => drop_if_empty uuid (unregister_doc uuid ino s1)
  | _ => s1
  end.

Definition close_cache (uid uuid : string) (ino : Z) d (id : string) (c : C) : C :=
  match odel uid (d_users d) with [] => cache_docs uuid ino false id c | _ => c end.

Lemma alter_doc_same f ref d s : es_heap s !! ref = Some d → f d = d → alter_doc f ref s = s.
Proof.
  intros Hd Hf. unfold alter_doc, es_set_heap. destruct s as [i docs heap fl ps cn fs]. simpl in *. f_equal.
  apply list_eq. intros j. rewrite list_lookup_alter. case_decide; [|done]. subst. rewrite Hd. simpl. by rewrite Hf.
Qed.

Lemma closeFile_run uid sid uuid ino ref d ids x w :
  workspace_in (w_cache w) uuid = Some x → elsewhere (es_id (w_loc w)) (c_docs x !! ino) = None →
  doc_ref (w_loc w) uuid ino = Some ref → es_heap (w_loc w) !! ref = Some d →
  oget uid (d_users d) = Some ids →
  ∃ es, closeFile uid sid uuid ino w =
    (Ok tt, add_outs es (set_cache (close_cache uid uuid ino d (es_id (w_loc w)))
      (set_loc (closed uid uuid ino ref d) w))).
Proof.
  intros Hx Hel Href Hd Hids. unfold closeFile, closed, close_cache. mstep by done. rewrite Hx. mstep by done. rewrite Hel.
  mstep by done. rewrite Href. rewrite (bind_ok _ _ _ _ _ (get_doc_run ref d w Hd)). rewrite Hids. simpl.
  destruct (a_remove ids (d_awareness d)) as [a change]. simpl. mstep by done.
  set (w1 := set_loc _ w).
  assert (es_heap (w_loc w1) !! ref = Some (leave uid a d)) as Hd1.
  { simpl. by rewrite list_lookup_alter_eq, Hd. }
  assert (∃ es, fire (λ u, awarenessChangeHandler ref u None) change w1 = (Ok tt, add_outs es w1)) as [es He].
  { destruct change as [u|]; simpl; [|exists []; by rewrite add_outs_nil].
    destruct (awareness_run ref _ u None w1 Hd1) as [es He]. exists es. rewrite He. f_equal. f_equal.
    unfold set_loc. destruct w1 as [? ? ? ? s1]. simpl in *. f_equal.
    apply (alter_doc_same _ _ _ _ Hd1). by destruct d. }
  rewrite (bind_ok _ _ _ _ _ He).
  rewrite (bind_ok _ _ _ _ _ (get_doc_run ref _ (add_outs es w1) Hd1)). simpl.
  destruct (odel uid (d_users d)) as [|p l].
  - mstep by done. rewrite (bind_ok _ _ _ _ _ (updateCache_run _ _ _ _)). exists es.
    unfold put_loc, modify, set_cache, set_loc, add_outs, unregister_doc. simpl.
    by destruct (es_docs (w_loc w) !! uuid).
  - exists es. by destruct w.
Qed.

Lemma env_ok_closed uid uuid ino ref d s :
  env_ok s → doc_ref s uuid ino = Some ref → es_heap s !! ref = Some d → env_ok (closed uid uuid ino ref d s).
Proof.
  intros [Hro Hus] Href Hd. unfold closed.
  set (f := leave uid _). assert (refs_ok (alter_doc f ref s)) as Hro1 by (by apply refs_ok_alter).
  assert (∀ r, used (Some r) s) as Hus' by (intros r u i r' d' Hr' _; by eapply Hus).
  destruct (odel uid (d_users d)) as [|p l] eqn:Hl.
  - assert (∀ u i r, doc_ref (drop_if_empty uuid (unregister_doc uuid ino (alter_doc f ref s))) u i = Some r →
      doc_ref s u i = Some r ∧ r ≠ ref) as Hsub.
    { intros u i r. rewrite doc_ref_drop_if_empty, doc_ref_unregister. case_decide as Hne; [done|].
      intros Hr. split; [exact Hr|]. intros ->. apply Hne.
      destruct (proj1 Hro u i ref Hr) as (d1 & Hd1 & <- & <-).
      destruct (proj1 Hro uuid ino ref Href) as (d2 & Hd2 & <- & <-). by simplify_eq. }
    assert (es_heap (drop_if_empty uuid (unregister_doc uuid ino (alter_doc f ref s))) = es_heap (alter_doc f ref s)
      ∧ es_flush (drop_if_empty uuid (unregister_doc uuid ino (alter_doc f ref s))) = es_flush s) as [Hh Hfl].
    { unfold drop_if_empty, unregister_doc. repeat case_match; done. }
    split.
    + apply (refs_ok_sub (alter_doc f ref s)); [done|rewrite Hfl; by eexists| |done].
      intros u i r Hr. by apply Hsub in Hr as [? _].
    + intros u i r d' Hr _. rewrite Hh. apply Hsub in Hr as [Hr Hne]. simpl.
      rewrite list_lookup_alter_ne by done. by eapply Hus.
  - split; [done|]. intros u i r d' Hr _. simpl. rewrite list_lookup_alter. case_decide; [|by eapply Hus].
    subst. rewrite Hd. simpl. intros [= <-]. simpl. by rewrite Hl.
Qed.

Lemma closeFile_cases uid sid uuid ino w :
  env_ok (w_loc w) →
  (∃ es, closeFile uid sid uuid ino w = (Ok tt, add_outs es w)) ∨
  ∃ es f ref d, closeFile uid sid uuid ino w =
      (Ok tt, add_outs es (set_cache f (set_loc (closed uid uuid ino ref d) w))) ∧
    doc_ref (w_loc w) uuid ino = Some ref ∧ es_heap (w_loc w) !! ref = Some d.
Proof.
  intros Hok. destruct (workspace_in (w_cache w) uuid) as [x|] eqn:Hx.
  2:{ left. exists []. rewrite add_outs_nil. unfold closeFile. mstep by done. by rewrite Hx. }
  destruct (elsewhere (es_id (w_loc w)) (c_docs x !! ino)) as [env|] eqn:Hel.
  { left. unfold closeFile. mstep by done. rewrite Hx. mstep by done. rewrite Hel. by eexists [_]. }
  destruct (doc_ref (w_loc w) uuid ino) as [ref|] eqn:Href.
  2:{ left. exists []. rewrite add_outs_nil. unfold closeFile. mstep by done. rewrite Hx. mstep by done.
      rewrite Hel. mstep by done. by rewrite Href. }
  destruct (env_ok_doc _ _ _ _ Hok Href) as (d & Hd & _).
  destruct (oget uid (d_users d)) as [ids|] eqn:Hids.
  - right. destruct (closeFile_run uid sid uuid ino ref d ids x w Hx Hel Href Hd Hids) as (es & Hr).
    by eexists _, _, ref, d.
  - left. exists []. rewrite add_outs_nil. unfold closeFile. mstep by done. rewrite Hx. mstep by done.
    rewrite Hel. mstep by done. rewrite Href, (bind_ok _ _ _ _ _ (get_doc_run ref d w Hd)). by rewrite Hids.
Qed.

Lemma safe_closeFile uid sid uuid ino : safe (closeFile uid sid uuid ino).
Proof.
  intros w Hok. destruct (closeFile_cases uid sid uuid ino w Hok) as [[es ->]|(es & f & ref & d & -> & Href & Hd)];
    [by eexists|]. eexists. split; [done|]. by apply env_ok_closed.
Qed.

(** *** Opening *)
Lemma doc_ref_ensure uuid s u i : doc_ref (ensure_docs uuid s) u i = doc_ref s u i.
Proof.
  unfold doc_ref, ensure_docs. simpl. rewrite lookup_insert. case_decide as Hd; [|done]. subst.
  destruct (es_docs s !! u); simpl; [done|]. apply lookup_empty.
Qed.

Definition fresh_doc (uuid path : string) (ino : Z) : Doc Y A := MkDoc ino path uuid y_new a_new [] false false "".
Definition with_fresh (uuid path : string) (ino : Z) s : EnvState Y A F :=
  es_set_heap (es_heap s ++ [fresh_doc uuid path ino]) (ensure_docs uuid s).

(** The state after a document was created and loaded. *)
Definition opened (uuid path : string) (ino : Z) (content : string) (t : Z) s : EnvState Y A F :=
  let ref := length (es_heap s) in
  register_doc uuid ino ref
    (flushed_at (y_insert0 content y_new).2 ref t
      (alter_doc (doc_set_y (y_insert0 content y_new).1) ref (with_fresh uuid path ino s))).

Lemma fresh_lookup uuid path ino s :
  es_heap (with_fresh uuid path ino s) !! length (es_heap s) = Some (fresh_doc uuid path ino).
Proof. simpl. by rewrite lookup_app_r, Nat.sub_diag by lia. Qed.

Lemma find_or_load_hit uuid path ino ref w :
  doc_ref (w_loc w) uuid ino = Some ref →
  find_or_load uuid path ino w = (Ok (Some ref), set_loc (ensure_docs uuid) w).
Proof. intros Hr. unfold find_or_load. mstep by done. mstep by done. by rewrite Hr. Qed.

Lemma find_or_load_fail uuid path ino w :
  doc_ref (w_loc w) uuid ino = None → ag_read uuid path (es_files (w_loc w)) = None →
  find_or_load uuid path ino w =
    (Ok None, set_loc (λ s, drop_if_single uuid (with_fresh uuid path ino s)) w).
Proof.
  intros Hr Hf. unfold find_or_load. mstep by done. mstep by done. rewrite Hr. mstep by done.
  erewrite bind_ok.
  2:{ eapply loadFileContent_fail; [apply (fresh_lookup uuid path ino (w_loc w))|exact Hf]. }
  done.
Qed.

Lemma find_or_load_new uuid path ino content w :
  doc_ref (w_loc w) uuid ino = None → ag_read uuid path (es_files (w_loc w)) = Some content →
  ∃ es, find_or_load uuid path ino w =
    (Ok (Some (length (es_heap (w_loc w)))), add_outs es (set_loc (opened uuid path ino content (w_now w)) w)).
Proof.
  intros Hr Hf. unfold find_or_load. mstep by done. mstep by done. rewrite Hr. mstep by done.
  match goal with |- context [loadFileContent ?r false] =>
    match goal with |- context [bind (loadFileContent r false) _ ?w1] =>
      destruct (loadFileContent_run r (fresh_doc uuid path ino) false content w1) as [es He];
        [apply (fresh_lookup uuid path ino (w_loc w))|exact Hf|] end end.
  exists es. rewrite (bind_ok _ _ _ _ _ He). done.
Qed.

Definition join (uid : string) d : Doc Y A := doc_set_users (oset uid [] (d_users d)) d.

(** What [openFile] does once it has the document. *)
Lemma open_tail_run uid sid uuid ino cid ref d w :
  es_heap (w_loc w) !! ref = Some d →
  ∃ es, bind (upd_doc ref (λ d, doc_set_users (oset uid [] (d_users d)) d)) (λ _,
      bind (updateCache uuid ino true) (λ _, bind (get_doc ref) (λ doc,
        respond uid sid cid (RespFile (d_isConflicting doc) (d_conflictResolver doc))))) w =
    (Ok tt, add_outs es (set_cache (cache_docs uuid ino true (es_id (w_loc w))) (set_loc (alter_doc (join uid) ref) w))) ∧
    (∀ c, cid = Some c → c ≠ "" → es = [Redis "socket.send" (Some (meta_us uid sid))
       (SocketSend uid sid c (RespFile (d_isConflicting d) (d_conflictResolver d)))]).
Proof.
  intros Hd. mstep by done. set (w1 := set_loc _ w).
  rewrite (bind_ok _ _ _ _ _ (updateCache_run uuid ino true w1)).
  set (w2 := set_cache _ w1).
  assert (es_heap (w_loc w2) !! ref = Some (join uid d)) as Hd1.
  { simpl. by rewrite list_lookup_alter_eq, Hd. }
  rewrite (bind_ok _ _ _ _ _ (get_doc_run ref _ _ Hd1)). unfold respond.
  destruct (if_truthy cid) as [c|] eqn:Hc.
  - eexists. split; [reflexivity|]. intros c' -> Hne. unfold if_truthy, truthy in Hc.
    rewrite bool_decide_true in Hc by done. by injection Hc as ->.
  - exists []. rewrite add_outs_nil. split; [done|]. intros c' -> Hne. unfold if_truthy, truthy in Hc.
    by rewrite bool_decide_true in Hc.
Qed.

(** Joining the only document that may be without users. *)
Lemma env_ok_join uid ref s : refs_ok s → used (Some ref) s → env_ok (alter_doc (join uid) ref s).
Proof.
  intros Hro Hus. split; [by apply refs_ok_alter|]. intros u i r d Hr _. simpl. rewrite list_lookup_alter.
  case_decide as Hd.
  - subst. destruct (es_heap s !! r); [|done]. intros [= <-]. apply oset_nonempty.
  - intros Hh. apply (Hus u i r); try done. congruence.
Qed.

Lemma refs_ok_ensure uuid s : refs_ok s → refs_ok (ensure_docs uuid s).
Proof.
  apply refs_ok_sub; [done|by eexists|]. intros u i r. by rewrite doc_ref_ensure.
Qed.
Lemma used_ensure e uuid s : used e s → used e (ensure_docs uuid s).
Proof. apply used_sub; [done|]. intros u i r. by rewrite doc_ref_ensure. Qed.

Lemma opened_ok uuid path ino content t s :
  env_ok s → refs_ok (opened uuid path ino content t s) ∧ used (Some (length (es_heap s))) (opened uuid path ino content t s).
Proof.
  intros [Hro Hus]. unfold opened. set (ref := length (es_heap s)). set (f := doc_set_y _).
  assert (es_heap (alter_doc f ref (with_fresh uuid path ino s)) !! ref = Some (f (fresh_doc uuid path ino))) as Hh.
  { change (alter f ref (es_heap (with_fresh uuid path ino s)) !! ref = Some (f (fresh_doc uuid path ino))).
    rewrite list_lookup_alter_eq. unfold ref. by rewrite fresh_lookup. }
  split.
  - eapply (refs_ok_register _ _ _ (f (fresh_doc uuid path ino))); [|done|done|].
    + destruct (y_insert0 content y_new).2; exact Hh.
    + apply refs_ok_flushed; [by eexists|]. apply refs_ok_alter; [done|].
      by apply (refs_ok_new _ (ensure_docs uuid s)), refs_ok_ensure.
  - intros u i r d. rewrite doc_ref_register. case_decide as Hd; [by intros [= <-]|].
    intros Hr Hne. assert (doc_ref s u i = Some r) as Hr'.
    { rewrite <- Hr. unfold flushed_at. destruct (y_insert0 content y_new).2; symmetry; apply doc_ref_ensure. }
    destruct (proj1 Hro u i r Hr') as (d0 & Hd0 & _).
    intros Hhd. assert (Some d = Some d0) as [= ->]; [|by eapply Hus].
    rewrite <- Hhd, <- Hd0. destruct (y_insert0 content y_new).2; simpl;
      rewrite list_lookup_alter_ne by congruence; rewrite lookup_app_l; [done|by eapply lookup_lt_Some|done|by eapply lookup_lt_Some].
Qed.

Lemma fail_ok uuid path ino s : env_ok s → env_ok (drop_if_single uuid (with_fresh uuid path ino s)).
Proof.
  intros [Hro Hus]. assert (env_ok (with_fresh uuid path ino s)) as Hok.
  { split; [by apply (refs_ok_new _ (ensure_docs uuid s)), refs_ok_ensure|].
    intros u i r d Hr _. assert (doc_ref s u i = Some r) as Hr' by (rewrite <- Hr; symmetry; apply doc_ref_ensure).
    destruct (proj1 Hro u i r Hr') as (d0 & Hd0 & _). simpl.
    rewrite lookup_app_l by (by eapply lookup_lt_Some). by eapply Hus. }
  unfold drop_if_single. destruct (es_docs _ !! uuid) as [m|] eqn:Hm; [|done]. case_bool_decide; [|done].
  apply (env_ok_sub (with_fresh uuid path ino s)); [done|by eexists| |done].
  intros u i r. unfold doc_ref. simpl. rewrite lookup_delete. by case_decide.
Qed.

(** [openFile] when the document is not held by another instance. *)
Lemma openFile_local uid sid uuid path stat cid x w :
  workspace_in (w_cache w) uuid = Some x → elsewhere (es_id (w_loc w)) (c_docs x !! st_ino stat) = None →
  openFile uid sid uuid path stat cid w =
  try_catch (bind (find_or_load uuid path (st_ino stat)) (λ ref,
    match ref with
    | None => respond uid sid cid (RespError "FS_ERR_READ_FILE")
    | Some ref =>
        bind (upd_doc ref (λ d, doc_set_users (oset uid [] (d_users d)) d)) (λ _,
        bind (updateCache uuid (st_ino stat) true) (λ _, bind (get_doc ref) (λ doc,
          respond uid sid cid (RespFile (d_isConflicting doc) (d_conflictResolver doc)))))
    end)) (λ _, respond uid sid cid (RespError "FS_ERR_FETCH_FILE")) w.
Proof.
  intros Hx Hel. unfold openFile. mstep by done. rewrite Hx. mstep by done. by rewrite Hel.
Qed.

Lemma try_ok {B} (m : M W B) h w b w' : m w = (Ok b, w') → try_catch m h w = (Ok b, w').
Proof. unfold try_catch. by intros ->. Qed.

Lemma openFile_hit uid sid uuid path stat cid x ref d w :
  workspace_in (w_cache w) uuid = Some x → elsewhere (es_id (w_loc w)) (c_docs x !! st_ino stat) = None →
  doc_ref (w_loc w) uuid (st_ino stat) = Some ref → es_heap (w_loc w) !! ref = Some d →
  ∃ es, openFile uid sid uuid path stat cid w =
    (Ok tt, add_outs es (set_cache (cache_docs uuid (st_ino stat) true (es_id (w_loc w)))
      (set_loc (λ s, alter_doc (join uid) ref (ensure_docs uuid s)) w))).
Proof.
  intros Hx Hel Hr Hd. rewrite (openFile_local _ _ _ _ _ _ x) by done.
  destruct (open_tail_run uid sid uuid (st_ino stat) cid ref d (set_loc (ensure_docs uuid) w) Hd)
    as (es & Ht & _).
  exists es. apply try_ok. by rewrite (bind_ok _ _ _ _ _ (find_or_load_hit _ _ _ _ _ Hr)).
Qed.

Lemma openFile_new uid sid uuid path stat cid x content w :
  workspace_in (w_cache w) uuid = Some x → elsewhere (es_id (w_loc w)) (c_docs x !! st_ino stat) = None →
  doc_ref (w_loc w) uuid (st_ino stat) = None → ag_read uuid path (es_files (w_loc w)) = Some content →
  ∃ es, openFile uid sid uuid path stat cid w =
    (Ok tt, add_outs es (set_cache (cache_docs uuid (st_ino stat) true (es_id (w_loc w)))
      (set_loc (λ s, alter_doc (join uid) (length (es_heap s))
       (opened uuid path (st_ino stat) content (w_now w) s)) w))).
Proof.
  intros Hx Hel Hr Hf. rewrite (openFile_local _ _ _ _ _ _ x) by done.
  destruct (find_or_load_new uuid path (st_ino stat) content w Hr Hf) as [es He].
  set (w1 := add_outs es _) in He.
  assert (∃ d, es_heap (w_loc w1) !! length (es_heap (w_loc w)) = Some d) as [d Hd].
  { subst w1. cbn [w_loc add_outs set_loc]. unfold opened.
    destruct (y_insert0 content y_new).2; cbn [flushed_at register_doc set_flush es_set_docs es_set_flush es_heap alter_doc es_set_heap];
      rewrite list_lookup_alter_eq; change (es_heap (w_loc w) ++ [fresh_doc uuid path (st_ino stat)]) with
        (es_heap (with_fresh uuid path (st_ino stat) (w_loc w))); rewrite fresh_lookup; by eexists. }
  destruct (open_tail_run uid sid uuid (st_ino stat) cid _ d w1 Hd) as (es' & Ht & _).
  exists (es ++ es'). apply try_ok. rewrite (bind_ok _ _ _ _ _ He). cbv beta iota. rewrite Ht.
  subst w1. f_equal. unfold add_outs, set_cache, set_loc. simpl. rewrite app_assoc. f_equal.
  unfold opened. by destruct (y_insert0 content y_new).2.
Qed.

Lemma openFile_fail uid sid uuid path stat cid x w :
  workspace_in (w_cache w) uuid = Some x → elsewhere (es_id (w_loc w)) (c_docs x !! st_ino stat) = None →
  doc_ref (w_loc w) uuid (st_ino stat) = None → ag_read uuid path (es_files (w_loc w)) = None →
  ∃ es, openFile uid sid uuid path stat cid w =
    (Ok tt, add_outs es (set_loc (λ s, drop_if_single uuid (with_fresh uuid path (st_ino stat) s)) w)).
Proof.
  intros Hx Hel Hr Hf. rewrite (openFile_local _ _ _ _ _ _ x) by done.
  destruct (quiet_respond uid sid cid (RespError "FS_ERR_READ_FILE")
    (set_loc (λ s, drop_if_single uuid (with_fresh uuid path (st_ino stat) s)) w)) as [es He].
  exists es. apply try_ok. by rewrite (bind_ok _ _ _ _ _ (find_or_load_fail _ _ _ _ Hr Hf)).
Qed.

Lemma safe_openFile uid sid uuid path stat cid : safe (openFile uid sid uuid path stat cid).
Proof.
  intros w Hok. destruct (workspace_in (w_cache w) uuid) as [x|] eqn:Hx.
  2:{ unfold openFile. rewrite (bind_ok _ _ w None w) by (unfold cache_workspace, gets; by rewrite Hx).
      by apply (quiet_safe _ (quiet_respond uid sid cid _)). }
  destruct (elsewhere (es_id (w_loc w)) (c_docs x !! st_ino stat)) as [env|] eqn:Hel.
  { unfold openFile. mstep by done. rewrite Hx. mstep by done. rewrite Hel. by eexists. }
  destruct (doc_ref (w_loc w) uuid (st_ino stat)) as [ref|] eqn:Hr.
  - destruct (env_ok_doc _ _ _ _ Hok Hr) as (d & Hd & _).
    destruct (openFile_hit uid sid uuid path stat cid x ref d w Hx Hel Hr Hd) as (es & ->).
    eexists. split; [done|]. destruct Hok as [Hro Hus]. apply env_ok_join; [by apply refs_ok_ensure|].
    apply used_ensure. intros u i r d' Hr' _. by eapply Hus.
  - destruct (ag_read uuid path (es_files (w_loc w))) as [content|] eqn:Hf.
    + destruct (openFile_new uid sid uuid path stat cid x content w Hx Hel Hr Hf) as (es & ->).
      eexists. split; [done|]. destruct (opened_ok uuid path (st_ino stat) content (w_now w) (w_loc w) Hok).
      by apply env_ok_join.
    + destruct (openFile_fail uid sid uuid path stat cid x w Hx Hel Hr Hf) as (es & ->).
      eexists. split; [done|]. by apply fail_ok.
Qed.

Lemma safe_sync_step o : safe (sync_step o).
Proof.
  destruct o; cbn [sync_step]; eauto using safe_openFile, safe_closeFile, safe_handleSync,
    safe_handleOpenAck, safe_handleConflictResolve, safe_flush_timer.
Qed.

(** C20: The registry of shared documents is kept consistent.  Whatever clients
    open, close, edit, acknowledge or resolve, and whenever timers fire, each
    operation returns without an error, and afterwards every registered
    document is the one of its workspace and inode, has at least one user,
    and every pending flush is of an existing document. *)
Theorem sync_registry_ok (ops : list sync_op) w :
  env_ok (w_loc w) →
  ∃ w', forM sync_step ops w = (Ok tt, w') ∧ env_ok (w_loc w').
Proof.
  revert w. induction ops as [|o ops IH]; intros w Hok; simpl; [by exists w|].
  destruct (safe_sync_step o w Hok) as (w1 & Hr & Hok1). rewrite (bind_ok _ _ _ _ _ Hr). by apply IH.
Qed.
End sync_props.
