(* ===== verification/EnvDocs.v ===== *)
(** The life of a shared document, from the file and back: opening and
    closing, edits that reach the file, conflicts with other writers, and
    what a failed open does to the others. *)
From S2P Require Import Prelude JS Messages Keys Interfaces Presence EnvState EnvSync EnvSyncProps.
From Stdlib Require Import Lia.

Section docs.
Context {C Y A F : Type} `{!Cache C, !CacheLaws C, !Yjs Y A, !YjsLaws Y A, !Agent F, !Sha256, !AgentLaws F}.
Abbreviation W := (world C (EnvState Y A F)).
Implicit Types (w : W) (s : EnvState Y A F) (d : Doc Y A).

Definition at_time (t : Z) w : W := World (w_cache w) (w_out w) (w_rng w) t (w_loc w).

(** ** Edits reach the file *)

(** A document with this text waits to be written. *)
Definition pending (ref : nat) (uuid path text : string) (due : Z) (files : F) s : Prop :=
  es_flush s !! ref = Some due ∧ es_files s = files ∧
  ∃ d, es_heap s !! ref = Some d ∧ d_uuid d = uuid ∧ d_path d = path ∧ y_text (d_y d) = text ∧
    d_isDisplaced d = false ∧ d_isConflicting d = false.

Lemma pending_closed ref uuid path text due files uid u i r d s :
  pending ref uuid path text due files s → pending ref uuid path text due files (closed uid u i r d s).
Proof.
  intros (Hf & Hfs & d0 & Hd0 & Hrest).
  assert (∀ a, pending ref uuid path text due files (alter_doc (leave uid a) r s)) as Halt.
  { intros a. split; [done|]. split; [done|]. simpl. rewrite list_lookup_alter. case_decide; [|by exists d0].
    subst. rewrite Hd0. by eexists. }
  unfold closed. destruct (odel uid (d_users d)); [|apply Halt].
  specialize (Halt (a_remove (default [] (oget uid (d_users d))) (d_awareness d)).1).
  unfold drop_if_empty, unregister_doc. repeat case_match; exact Halt.
Qed.

Lemma pending_closes ref uuid path text due files u i leavers w :
  env_ok (w_loc w) → pending ref uuid path text due files (w_loc w) →
  ∃ w', forM (λ '(uid, sid), closeFile uid sid u i) leavers w = (Ok tt, w') ∧
    env_ok (w_loc w') ∧ pending ref uuid path text due files (w_loc w').
Proof.
  revert w. induction leavers as [|[uid sid] l IH]; intros w Hok Hp; simpl; [by exists w|].
  destruct (closeFile_cases uid sid u i w Hok) as [[es Hr]|(es & f & r & d & Hr & Href & Hd)];
    rewrite (bind_ok _ _ _ _ _ Hr); apply IH; try done.
  - by apply env_ok_closed.
  - by apply pending_closed.
Qed.

Lemma flush_writes ref uuid path text due files f stat t w :
  pending ref uuid path text due files (w_loc w) → due ≤ t →
  ag_stat uuid path files = Some stat → st_isDir stat = false → ag_write uuid path text files = Some f →
  ∃ w', flush_timer ref (at_time t w) = (Ok tt, w') ∧ es_files (w_loc w') = f ∧
    es_flush (w_loc w') = delete ref (es_flush (w_loc w)).
Proof.
  intros (Hf & Hfs & d & Hd & Hu & Hp & Ht & Hdis & Hcon) Hdue Hst Hdir Hw.
  unfold flush_timer. mstep by done. mstep by done. cbn [at_time w_loc w_now]. rewrite Hf.
  rewrite (proj2 (Z.leb_le due t) Hdue). mstep by done. set (w1 := set_loc _ _).
  destruct (flush_run ref d w1 Hd) as [es ->]. eexists. split; [done|].
  simpl. unfold flush_state. rewrite Hdis, Hcon, Hu, Hp. simpl. rewrite Hfs, Hst, Hdir. simpl.
  unfold written. by rewrite Ht, Hw.
Qed.

(** C21: An edit reaches the file.  A client's update to an open document is
    applied at once; whoever closes the document afterwards, all of its users
    included, once five seconds have passed the timer writes the document's
    text to its file, provided the path still names a file and the write is
    accepted, and the document was neither displaced nor in conflict. *)
Theorem edit_reaches_file uid sid uuid ino buf body y upd rep ref d w :
  env_ok (w_loc w) → doc_ref (w_loc w) uuid ino = Some ref → es_heap (w_loc w) !! ref = Some d →
  d_isDisplaced d = false → d_isConflicting d = false →
  y_decode buf = Some (SYNC body) → y_read body (d_y d) = Some (y, Some upd, rep) →
  ∃ w1, handleSync uid sid uuid ino buf w = (Ok tt, w1) ∧
    ∀ leavers, ∃ w2, forM (λ '(u, s), closeFile u s uuid ino) leavers w1 = (Ok tt, w2) ∧
      ∀ t stat f, w_now w + debounceTime ≤ t →
        ag_stat uuid (d_path d) (es_files (w_loc w)) = Some stat → st_isDir stat = false →
        ag_write uuid (d_path d) (y_text y) (es_files (w_loc w)) = Some f →
        ∃ w3, flush_timer ref (at_time t w2) = (Ok tt, w3) ∧
          ag_read uuid (d_path d) (es_files (w_loc w3)) = Some (y_text y).
Proof.
  intros Hok Href Hd Hdis Hcon Hdec Hread.
  destruct (safe_handleSync uid sid uuid ino buf w Hok) as (w1 & Hrun & Hok1). exists w1. split; [done|].
  assert (pending ref uuid (d_path d) (y_text y) (w_now w + debounceTime) (es_files (w_loc w)) (w_loc w1)) as Hp.
  { revert Hrun. unfold handleSync. mstep by done. rewrite Href, (bind_ok _ _ _ _ _ (get_doc_run ref d w Hd)).
    rewrite Hdec, Hread. mstep by done. set (wa := set_loc _ w).
    assert (es_heap (w_loc wa) !! ref = Some (doc_set_y y d)) as Hda.
    { simpl. by rewrite list_lookup_alter_eq, Hd. }
    destruct (fire_update_run ref _ (Some upd) wa Hda) as [es He]. rewrite (bind_ok _ _ _ _ _ He).
    assert (d_uuid d = uuid) as Hu by (destruct (env_ok_doc _ _ _ _ Hok Href) as (? & ? & ? & _); congruence).
    set (wb := add_outs es _).
    assert (pending ref uuid (d_path d) (y_text y) (w_now w + debounceTime) (es_files (w_loc w)) (w_loc wb)) as Hpb.
    { split; [simpl; by rewrite lookup_insert_eq|]. split; [done|]. by exists (doc_set_y y d). }
    destruct rep as [r|]; [|by intros [= <-]].
    destruct (quiet_send uid uuid ino r (Some sid) wb) as [es' ->]. by intros [= <-]. }
  intros leavers. destruct (pending_closes _ _ _ _ _ _ uuid ino leavers w1 Hok1 Hp) as (w2 & Hc & _ & Hp2).
  exists w2. split; [done|]. intros t stat f Ht Hst Hdir Hwr.
  destruct (flush_writes _ _ _ _ _ _ f stat t w2 Hp2 Ht Hst Hdir Hwr) as (w3 & Hfl & Hfiles & _).
  exists w3. split; [done|]. rewrite Hfiles. by eapply ag_read_write.
Qed.

(** ** Conflicts *)

(** The document is no longer in conflict, and its users were told last. *)
Definition settled (ref : nat) (uuid : string) (ino : Z) (text : string) w : Prop :=
  ∃ d, es_heap (w_loc w) !! ref = Some d ∧ d_isConflicting d = false ∧ d_conflictResolver d = "" ∧
    y_text (d_y d) = text ∧
    last (w_out w) = Some (Redis "socket.broadcast" None
      (SocketBroadcast (sessions_in (w_cache w) uuid (okeys (d_users d))).*1
         (sessions_in (w_cache w) uuid (okeys (d_users d))).*2 "fs" (FSResolved uuid ino))).

Lemma resolve_run uid sid uuid ino decision ref d d1 w w1 :
  doc_ref (w_loc w) uuid ino = Some ref → es_heap (w_loc w) !! ref = Some d →
  (match decision with
   | keep => setFileContent ref (y_text (d_y d))
   | reload => bind (loadFileContent ref true) (λ _, ret tt)
   end) w = (Ok tt, w1) →
  es_heap (w_loc w1) !! ref = Some d1 → d_users d1 ≠ [] →
  ∃ w', handleConflictResolve uid sid uuid ino decision w = (Ok tt, w') ∧
    es_files (w_loc w') = es_files (w_loc w1) ∧ settled ref uuid ino (y_text (d_y d1)) w'.
Proof.
  intros Href Hd Hr Hd1 Hus. unfold handleConflictResolve. mstep by done.
  rewrite Href, (bind_ok _ _ _ _ _ (get_doc_run ref d w Hd)), (bind_ok _ _ _ _ _ Hr). mstep by done.
  set (w2 := set_loc _ w1).
  assert (es_heap (w_loc w2) !! ref = Some (doc_set_conflict false "" d1)) as Hd2.
  { simpl. by rewrite list_lookup_alter_eq, Hd1. }
  rewrite (bind_ok _ _ _ _ _ (get_doc_run ref _ w2 Hd2)). unfold sendConflictResolved.
  rewrite broadcast_active_run. eexists. split; [done|]. split; [done|].
  exists (doc_set_conflict false "" d1). split_and!; try done. simpl.
  destruct (d_users d1) as [|[u ids] l]; [done|]. simpl. by rewrite last_snoc.
Qed.

(** What a decision makes of the document's text and of the files: a write
    that is refused and a file that cannot be read change nothing. *)
Definition decided (decision : ConflictDecision) (uuid path text : string) (files : F) : string * F :=
  match decision with
  | keep => (text, default files (ag_write uuid path text files))
  | reload => (default text (ag_read uuid path files), files)
  end.
(** Whether the write or the read that a decision needs succeeds. *)
Definition carried_out (decision : ConflictDecision) (uuid path text : string) (files : F) : Prop :=
  match decision with
  | keep => is_Some (ag_write uuid path text files)
  | reload => is_Some (ag_read uuid path files)
  end.

Lemma decided_agree decision uuid path text files :
  carried_out decision uuid path text files →
  ag_read uuid path (decided decision uuid path text files).2 = Some (decided decision uuid path text files).1.
Proof.
  destruct decision; intros [r Hr]; simpl; rewrite Hr; [|done]. simpl. by eapply ag_read_write.
Qed.

(** C27: Conflicts.  While a document is in conflict with its file, its own
    timer leaves every file as it is.  The decision [keep] writes the
    document's text to the file, the decision [reload] replaces the
    document's text by the file's; nothing else of the files changes.  If the
    write or the read succeeds the two then agree; if it fails they are left
    as they were.  In both cases the conflict is over, and the document's
    users are told so. *)
Theorem conflict_resolution uid sid uuid ino ref d decision w :
  env_ok (w_loc w) → doc_ref (w_loc w) uuid ino = Some ref → es_heap (w_loc w) !! ref = Some d →
  d_isConflicting d = true →
  (∀ t, ∃ w', flush_timer ref (at_time t w) = (Ok tt, w') ∧ es_files (w_loc w') = es_files (w_loc w)) ∧
  let after := decided decision uuid (d_path d) (y_text (d_y d)) (es_files (w_loc w)) in
  (∃ w', handleConflictResolve uid sid uuid ino decision w = (Ok tt, w') ∧
     es_files (w_loc w') = after.2 ∧ settled ref uuid ino after.1 w') ∧
  (carried_out decision uuid (d_path d) (y_text (d_y d)) (es_files (w_loc w)) →
     ag_read uuid (d_path d) after.2 = Some after.1).
Proof.
  intros Hok Href Hd Hcon.
  destruct (env_ok_doc _ _ _ _ Hok Href) as (d' & Hd' & Hu & Hi & Hus).
  rewrite Hd in Hd'. injection Hd' as <-. cbv zeta. split_and!; [| |apply decided_agree].
  - intros t. unfold flush_timer. mstep by done. mstep by done. cbn [at_time w_loc w_now].
    destruct (es_flush (w_loc w) !! ref) as [due|]; [|by eexists].
    destruct (due <=? t); [|by eexists]. mstep by done. set (w1 := set_loc _ _).
    destruct (flush_run ref d w1 Hd) as [es ->]. eexists. split; [done|]. simpl. unfold flush_state.
    by rewrite Hcon, orb_true_r.
  - destruct decision; simpl.
    + destruct (setFileContent_run ref d (y_text (d_y d)) w Hd) as [es He].
      destruct (resolve_run uid sid uuid ino keep ref d d w _ Href Hd He Hd Hus) as (w' & Hr & Hfs & Hset).
      exists w'. split; [done|]. split; [|done]. rewrite Hfs. simpl. unfold written. by rewrite Hu.
    + rewrite <- Hu. destruct (ag_read (d_uuid d) (d_path d) (es_files (w_loc w))) as [content|] eqn:Hf; rewrite Hu.
      * destruct (loadFileContent_run ref d true content w Hd Hf) as [es He].
        set (w1 := add_outs es _) in He. set (d1 := doc_set_y (y_replace content (d_y d)).1 d).
        assert (es_heap (w_loc w1) !! ref = Some d1) as Hd1.
        { subst w1 d1. simpl. destruct (y_replace content (d_y d)).2; simpl; by rewrite list_lookup_alter_eq, Hd. }
        destruct (resolve_run uid sid uuid ino reload ref d d1 w w1 Href Hd) as (w' & Hr & Hfs & Hset);
          [by rewrite (bind_ok _ _ _ _ _ He)|done|done|].
        exists w'. split; [done|]. split; [|simpl; by rewrite <- (y_text_replace content (d_y d))].
        rewrite Hfs. subst w1. simpl. by destruct (y_replace content (d_y d)).2.
      * pose proof (loadFileContent_fail ref d true w Hd Hf) as He.
        destruct (resolve_run uid sid uuid ino reload ref d d w w Href Hd) as (w' & Hr & Hfs & Hset);
          [by rewrite (bind_ok _ _ _ _ _ He)|done|done|]. by exists w'.
Qed.

(** ** Opening and closing *)

Lemma opened_facts uuid path ino content t s :
  let s' := opened uuid path ino content t s in
  es_heap s' !! length (es_heap s) = Some (doc_set_y (y_insert0 content y_new).1 (fresh_doc uuid path ino)) ∧
  es_id s' = es_id s ∧ es_files s' = es_files s ∧
  es_flush s' = (match (y_insert0 content y_new).2 with
                 | Some _ => <[length (es_heap s) := t + debounceTime]> (es_flush s)
                 | None => es_flush s
                 end) ∧
  ∀ u i, doc_ref s' u i = if decide (u = uuid ∧ i = ino) then Some (length (es_heap s)) else doc_ref s u i.
Proof.
  cbv zeta. unfold opened. set (f := doc_set_y _).
  assert (alter f (length (es_heap s)) (es_heap (with_fresh uuid path ino s)) !! length (es_heap s) =
    Some (f (fresh_doc uuid path ino))) as Hh.
  { rewrite list_lookup_alter_eq. by rewrite fresh_lookup. }
  split_and!.
  - destruct (y_insert0 content y_new).2; exact Hh.
  - by destruct (y_insert0 content y_new).2.
  - by destruct (y_insert0 content y_new).2.
  - by destruct (y_insert0 content y_new).2.
  - intros u i. rewrite doc_ref_register. case_decide; [done|].
    destruct (y_insert0 content y_new).2; apply doc_ref_ensure.
Qed.

(** The last user leaves. *)
Lemma closed_facts uid uuid ino ref d s :
  odel uid (d_users d) = [] →
  es_files (closed uid uuid ino ref d s) = es_files s ∧ es_flush (closed uid uuid ino ref d s) = es_flush s ∧
  ∀ u i, doc_ref (closed uid uuid ino ref d s) u i = if decide (u = uuid ∧ i = ino) then None else doc_ref s u i.
Proof.
  intros Hl. unfold closed. rewrite Hl. split_and!.
  - unfold drop_if_empty, unregister_doc. repeat case_match; done.
  - unfold drop_if_empty, unregister_doc. repeat case_match; done.
  - intros u i. rewrite doc_ref_drop_if_empty, doc_ref_unregister. done.
Qed.

Lemma cache_docs_in uuid ino add id x (c : C) :
  workspace_in c uuid = Some x →
  workspace_in (cache_docs uuid ino add id c) uuid =
    Some (ws_with_docs (if add then <[ino := id]> (c_docs x) else delete ino (c_docs x)) x).
Proof. intros Hx. unfold cache_docs. rewrite Hx. apply workspace_in_set_eq. Qed.

(** C29: Opening a file nobody has open, then closing it.  After the open the
    document holds the file's content, belongs to the user, and the
    workspace's cache entry names this instance for it; after the close the
    document is gone, the cache entry is what it was, every other document is
    still registered, and no file has changed yet.  One thing stays: when the
    content made an update of the document, as every text but the empty one
    does, a write of the document is due five seconds after the open, and the
    close does not cancel it.  Whatever was written to the file by then, if
    the path still names a file and the write is accepted, the file is given
    back the content that was read at the open. *)
Theorem open_close_roundtrip uid sid uuid path stat cid x content w :
  workspace_in (w_cache w) uuid = Some x → c_docs x !! st_ino stat = None →
  doc_ref (w_loc w) uuid (st_ino stat) = None → ag_read uuid path (es_files (w_loc w)) = Some content →
  ∃ w1 w2 ref d, openFile uid sid uuid path stat cid w = (Ok tt, w1) ∧
    doc_ref (w_loc w1) uuid (st_ino stat) = Some ref ∧ es_heap (w_loc w1) !! ref = Some d ∧
    y_text (d_y d) = content ∧ d_users d = [(uid, [])] ∧
    workspace_in (w_cache w1) uuid = Some (ws_with_docs (<[st_ino stat := es_id (w_loc w)]> (c_docs x)) x) ∧
    closeFile uid sid uuid (st_ino stat) w1 = (Ok tt, w2) ∧
    doc_ref (w_loc w2) uuid (st_ino stat) = None ∧ workspace_in (w_cache w2) uuid = Some x ∧
    (∀ u i, (u, i) ≠ (uuid, st_ino stat) → doc_ref (w_loc w2) u i = doc_ref (w_loc w) u i) ∧
    es_files (w_loc w2) = es_files (w_loc w) ∧
    es_flush (w_loc w2) = (match (y_insert0 content y_new).2 with
                           | Some _ => <[ref := w_now w + debounceTime]> (es_flush (w_loc w))
                           | None => es_flush (w_loc w)
                           end) ∧
    (∀ files t stat' f, (y_insert0 content y_new).2 ≠ None → w_now w + debounceTime ≤ t →
       ag_stat uuid path files = Some stat' → st_isDir stat' = false → ag_write uuid path content files = Some f →
       ∃ w3, flush_timer ref (at_time t (set_loc (es_set_files files) w2)) = (Ok tt, w3) ∧
         ag_read uuid path (es_files (w_loc w3)) = Some content).
Proof.
  intros Hx Hdocs Hr Hf. remember (st_ino stat) as ino eqn:Hino.
  destruct (openFile_new uid sid uuid path stat cid x content w Hx) as [es Ho]; [by rewrite <- Hino, Hdocs|by rewrite <- Hino|done|].
  rewrite <- Hino in Ho. set (w1 := add_outs es _) in Ho. set (ref := length (es_heap (w_loc w))) in *.
  set (d := join uid (doc_set_y (y_insert0 content y_new).1 (fresh_doc uuid path ino))).
  destruct (opened_facts uuid path ino content (w_now w) (w_loc w)) as (Hh & Hid & Hfs & Hfl & Href).
  assert (doc_ref (w_loc w1) uuid ino = Some ref) as Href1.
  { transitivity (doc_ref (opened uuid path ino content (w_now w) (w_loc w)) uuid ino); [done|].
    rewrite Href. by rewrite decide_True. }
  assert (es_heap (w_loc w1) !! ref = Some d) as Hd.
  { transitivity (alter (join uid) ref (es_heap (opened uuid path ino content (w_now w) (w_loc w))) !! ref); [done|].
    rewrite list_lookup_alter_eq. unfold ref. by rewrite Hh. }
  assert (es_id (w_loc w1) = es_id (w_loc w)) as Hid1 by exact Hid.
  pose proof (cache_docs_in uuid ino true (es_id (w_loc w)) x (w_cache w) Hx) as Hx1.
  destruct (closeFile_run uid sid uuid ino ref d [] _ w1 Hx1) as [es2 Hc]; [|done|done|by simpl; rewrite decide_True|].
  { rewrite Hid1. simpl. rewrite lookup_insert_eq. unfold elsewhere. destruct (if_truthy _) as [e|] eqn:He; [|done].
    unfold if_truthy in He. destruct (truthy _); [|done]. injection He as <-. by rewrite bool_decide_false by auto. }
  assert (odel uid (d_users d) = []) as Hodel by (simpl; by rewrite decide_True).
  destruct (closed_facts uid uuid ino ref d (w_loc w1) Hodel) as (Hcf & Hcl & Hcr).
  eexists w1, _, ref, d. split; [exact Ho|]. split; [done|]. split; [done|]. split; [apply y_text_insert|].
  split; [done|]. split; [exact Hx1|]. split; [exact Hc|]. cbn [w_loc w_cache add_outs set_cache set_loc].
  rewrite Hcr, decide_True by done. split; [done|]. split_and!.
  - unfold close_cache. rewrite Hodel, Hid1. rewrite (cache_docs_in _ _ _ _ _ _ Hx1). simpl.
    unfold ws_with_docs. simpl. rewrite delete_insert_id by done. by destruct x.
  - intros u i Hne. rewrite Hcr, decide_False by naive_solver.
    transitivity (doc_ref (opened uuid path ino content (w_now w) (w_loc w)) u i); [done|].
    rewrite Href. by rewrite decide_False by naive_solver.
  - rewrite Hcf. exact Hfs.
  - rewrite Hcl. exact Hfl.
  - intros files t stat' f Hupd Ht Hst Hdir Hwr. destruct (y_insert0 content y_new).2 as [upd|] eqn:Hu; [|done].
    assert (pending ref uuid path content (w_now w + debounceTime) (es_files (w_loc w)) (w_loc w1)) as Hp.
    { split; [etrans; [apply (f_equal (lookup ref) Hfl)|apply lookup_insert_eq]|]. split; [exact Hfs|].
      exists d. split_and!; try done. apply y_text_insert. }
    apply (pending_closed _ _ _ _ _ _ uid uuid ino ref d) in Hp as (Hpf & _ & Hpd).
    destruct (flush_writes ref uuid path content (w_now w + debounceTime) files f stat' t (set_loc (es_set_files files)
      (add_outs es2 (set_cache (close_cache uid uuid ino d (es_id (w_loc w1))) (set_loc (closed uid uuid ino ref d) w1)))))
      as (w3 & Hr3 & Hf3 & _); [by split_and!|done..|].
    exists w3. split; [exact Hr3|]. rewrite Hf3. by eapply ag_read_write.
Qed.

(** A failed open loses another document.  When a user opens a file that
    cannot be read while exactly one other document of the workspace is open,
    the registry drops that document: its users are not told, the cache still
    sends their messages to this instance, but every edit they make from then
    on is ignored. *)
Theorem open_failure_drops_other uid sid uuid path stat cid x other ref w :
  workspace_in (w_cache w) uuid = Some x → elsewhere (es_id (w_loc w)) (c_docs x !! st_ino stat) = None →
  es_docs (w_loc w) !! uuid = Some {[other := ref]} → other ≠ st_ino stat →
  ag_read uuid path (es_files (w_loc w)) = None →
  ∃ w', openFile uid sid uuid path stat cid w = (Ok tt, w') ∧
    doc_ref (w_loc w) uuid other = Some ref ∧ doc_ref (w_loc w') uuid other = None ∧
    w_cache w' = w_cache w ∧
    (∀ u sess buf, handleSync u sess uuid other buf w' = (Ok tt, w')).
Proof.
  intros Hx Hel Hm Hne Hf.
  assert (doc_ref (w_loc w) uuid (st_ino stat) = None) as Hr.
  { unfold doc_ref. rewrite Hm. simpl. by rewrite lookup_singleton_ne. }
  destruct (openFile_fail uid sid uuid path stat cid x w Hx Hel Hr Hf) as [es Ho].
  eexists. split; [exact Ho|].
  assert (∀ s', es_docs s' = es_docs (w_loc w) → doc_ref (drop_if_single uuid (with_fresh uuid path (st_ino stat) s')) uuid other = None) as Hgone.
  { intros s' Hs'. unfold drop_if_single, doc_ref. simpl. rewrite lookup_insert_eq, Hs', Hm. simpl.
    rewrite bool_decide_true by apply map_size_singleton. simpl. by rewrite lookup_delete_eq. }
  split; [unfold doc_ref; rewrite Hm; simpl; apply lookup_singleton_eq|]. split; [by apply Hgone|]. split; [done|].
  intros u sess buf. unfold handleSync. mstep by done. cbn [w_loc add_outs set_loc]. by rewrite Hgone.
Qed.
End docs.

(** ** Examples: documents whose updates are whole texts, files in a map *)
#[global] Instance text_Yjs : Yjs string (list Z) := {|
  y_new := ""; a_new := []; y_text y := y;
  y_insert0 s y := (s +:+ y, if bool_decide (s = "") then None else Some s);
  y_replace s _ := (s, Some s);
  y_decode b := Some (SYNC b);
  y_read b _ := Some (b, Some b, None);
  y_enc_update u := u; y_enc_step1 y := y;
  a_apply _ a := Some (a, None);
  a_remove l a := (List.filter (λ i, negb (bool_decide (i ∈ l))) a, None);
  a_clients a := a; a_encode _ _ := "";
|}.
#[global] Instance text_YjsLaws : YjsLaws string (list Z).
Proof. split; [|done]. intros s. apply append_nil_r. Qed.

#[global] Instance plain_Sha256 : Sha256 := {| sha256 s := s |}.
#[global] Instance map_Agent : Agent (gmap (string * string) string) := {|
  ag_read u p f := f !! (u, p);
  ag_write u p s f := Some (<[(u, p) := s]> f);
  ag_stat u p f := (λ _, Stat p 0 false 7) <$> f !! (u, p);
  ag_hash u p f := sha256 <$> f !! (u, p);
  ag_dir _ _ _ := Some [];
  ag_ready _ _ := true; ag_affine _ _ _ := true; ag_command _ _ _ f := Some (true, f);
|}.
#[global] Instance map_AgentLaws : AgentLaws (gmap (string * string) string).
Proof. split; [|done]. intros u p s f f' [= <-]. simpl. apply lookup_insert_eq. Qed.

Abbreviation DemoEnv := (EnvState string (list Z) (gmap (string * string) string)).
Definition demo_doc : Doc string (list Z) :=
  MkDoc 5 "/workspace/a" "ws-1" "old" [] [("olga", [])] false false "".
Definition demo_conflict : Doc string (list Z) :=
  MkDoc 5 "/workspace/a" "ws-1" "mine" [] [("olga", [])] false true "olga".
(** Its file was removed. *)
Definition demo_lost : Doc string (list Z) :=
  MkDoc 5 "/workspace/gone" "ws-1" "mine" [] [("olga", [])] false true "olga".
Definition demo_env_of (d : Doc string (list Z)) : DemoEnv :=
  MkEnv "env-1" {["ws-1" := {[5 := 0%nat]}]} [d] ∅ ∅ ∅ {[("ws-1", "/workspace/a") := "theirs"]}.
Definition demo_ews : CachedWorkspace := CWs active "env-1" [] {[5 := "env-1"]} ∅.
Definition demo_env_world (d : Doc string (list Z)) : world (gmap string (cval * option Z)) DemoEnv :=
  World {[CACHEKEY_WORKSPACE "ws-1" := (CWorkspace demo_ews, None)]} [] 0 1000 (demo_env_of d).

Lemma demo_env_ok d :
  d_uuid d = "ws-1" → d_ino d = 5 → d_users d ≠ [] → env_ok (demo_env_of d).
Proof.
  intros Hu Hi Hus.
  assert (∀ u i r, doc_ref (demo_env_of d) u i = Some r → u = "ws-1" ∧ i = 5 ∧ r = 0%nat) as Href.
  { intros u i r. unfold doc_ref. simpl. rewrite lookup_singleton. case_decide; [|done]. simpl.
    rewrite lookup_singleton. case_decide; [|done]. by intros [= <-]. }
  split; [split|].
  - intros u i r Hr. apply Href in Hr as (-> & -> & ->). by exists d.
  - intros r t Hr. simpl in Hr. by rewrite lookup_empty in Hr.
  - intros u i r d' Hr _. apply Href in Hr as (-> & -> & ->). by intros [= <-].
Qed.

Lemma sync_registry_ok_witness :
  ∃ w', forM sync_step [OpSync "olga" "s1" "ws-1" 5 "new"; OpClose "olga" "s1" "ws-1" 5; OpTimer 0]
    (demo_env_world demo_doc) = (Ok tt, w') ∧ env_ok (w_loc w').
Proof. apply sync_registry_ok. by apply demo_env_ok. Defined.

Lemma edit_reaches_file_witness :
  ∃ w1 w2 w3, handleSync "olga" "s1" "ws-1" 5 "new" (demo_env_world demo_doc) = (Ok tt, w1) ∧
    forM (λ '(u, s), closeFile u s "ws-1" 5) [("olga", "s1")] w1 = (Ok tt, w2) ∧
    flush_timer 0 (at_time 6000 w2) = (Ok tt, w3) ∧
    ag_read "ws-1" "/workspace/a" (es_files (w_loc w3)) = Some "new".
Proof.
  destruct (edit_reaches_file "olga" "s1" "ws-1" 5 "new" "new" "new" "new" None 0 demo_doc (demo_env_world demo_doc))
    as (w1 & H1 & Hrest); try reflexivity; [by apply demo_env_ok|].
  destruct (Hrest [("olga", "s1")]) as (w2 & H2 & Hflush).
  destruct (Hflush 6000 (Stat "/workspace/a" 0 false 7) {[("ws-1", "/workspace/a") := "new"]})
    as (w3 & H3 & Hread); [done|reflexivity|reflexivity|reflexivity|].
  exists w1, w2, w3. done.
Defined.

Lemma conflict_resolution_witness :
  (∃ w', handleConflictResolve "olga" "s1" "ws-1" 5 keep (demo_env_world demo_conflict) = (Ok tt, w') ∧
    ag_read "ws-1" "/workspace/a" (es_files (w_loc w')) = Some "mine") ∧
  (∃ w', handleConflictResolve "olga" "s1" "ws-1" 5 reload (demo_env_world demo_lost) = (Ok tt, w') ∧
    es_files (w_loc w') = {[("ws-1", "/workspace/a") := "theirs"]} ∧ settled 0 "ws-1" 5 "mine" w').
Proof.
  split.
  - destruct (conflict_resolution "olga" "s1" "ws-1" 5 0 demo_conflict keep (demo_env_world demo_conflict))
      as (_ & (w' & Hr & Hf & _) & Hag); try reflexivity; [by apply demo_env_ok|].
    exists w'. split; [exact Hr|]. rewrite Hf. apply Hag. by eexists.
  - destruct (conflict_resolution "olga" "s1" "ws-1" 5 0 demo_lost reload (demo_env_world demo_lost))
      as (_ & (w' & Hr & Hf & Hs) & _); try reflexivity; [by apply demo_env_ok|].
    exists w'. split; [exact Hr|]. split; [exact Hf|exact Hs].
Defined.

(** Somebody writes to the file after it was closed. *)
Definition demo_overwritten : gmap (string * string) string := {[("ws-1", "/workspace/a") := "newer"]}.
Lemma open_close_roundtrip_witness :
  ∃ w1, openFile "olga" "s1" "ws-1" "/workspace/a" (Stat "a" 0 false 9) None (demo_env_world demo_doc) = (Ok tt, w1) ∧
    ∃ w2 ref w3, closeFile "olga" "s1" "ws-1" 9 w1 = (Ok tt, w2) ∧ workspace_in (w_cache w2) "ws-1" = Some demo_ews ∧
      flush_timer ref (at_time 6000 (set_loc (es_set_files demo_overwritten) w2)) = (Ok tt, w3) ∧
      ag_read "ws-1" "/workspace/a" (es_files (w_loc w3)) = Some "theirs".
Proof.
  destruct (open_close_roundtrip "olga" "s1" "ws-1" "/workspace/a" (Stat "a" 0 false 9) None demo_ews "theirs"
    (demo_env_world demo_doc)) as (w1 & w2 & ref & d & Ho & _ & _ & _ & _ & _ & Hc & _ & Hx & _ & _ & _ & Hfl); try reflexivity.
  destruct (Hfl demo_overwritten 6000 (Stat "/workspace/a" 0 false 7)
    {[("ws-1", "/workspace/a") := "theirs"]}) as (w3 & Hw & Hrd); [done|by vm_compute|reflexivity..|].
  exists w1. split; [exact Ho|]. exists w2, ref, w3. done.
Defined.

Lemma open_failure_drops_other_witness :
  ∃ w', openFile "mark" "s2" "ws-1" "/workspace/missing" (Stat "missing" 0 false 9) None (demo_env_world demo_doc) = (Ok tt, w') ∧
    handleSync "olga" "s1" "ws-1" 5 "lost" w' = (Ok tt, w').
Proof.
  destruct (open_failure_drops_other "mark" "s2" "ws-1" "/workspace/missing" (Stat "missing" 0 false 9) None demo_ews 5 0
    (demo_env_world demo_doc)) as (w' & Ho & _ & _ & _ & Hs); try reflexivity; [done|].
  exists w'. split; [exact Ho|apply Hs].
Defined.
