(* ===== verification/EnvFS.v ===== *)
(** Directories and file-system events of the environment service:
    [core/fs.service.ts].  A workspace's cache entry lists who watches which
    directory; the container reports events, which are counted per path,
    batched, checked against open documents and sent to the watchers. *)
From S2P Require Import Prelude JS Messages Keys Interfaces Presence EnvState EnvSync.
From Stdlib Require Import Lia.

(** The hash of a document held by another instance ([doc.hash] over Redis).
    That instance answers nothing when it does not have the document, and the
    caller then waits for ever: the rest of the handler does not run. *)
Class DocHash := { remote_hash : string → string → Z → option string }.

Section fs.
Context {C Y A F : Type} `{!Cache C, !Yjs Y A, !Agent F, !Sha256, !RandomInt, !DocHash}.
Abbreviation W := (world C (EnvState Y A F)).
Local Open Scope mon_scope.

Definition BURST_THRESHOLD : Z := 50.
Definition BURST_INTERVAL : Z := 200.
Definition COOLDOWN : Z := 500.
Definition fs_debounceTime : Z := 250.

Definition set_watch (uuid : string) (v : WatchState) : M W unit :=
  put_loc (λ s, es_set_paths (<[uuid := v]> (es_paths s)) s).

Definition setWorkspace (wsUuid : string) : M W unit := set_watch wsUuid (MkWatch [] ∅ None).

(** ** Watched directories *)
Definition watch_remove (wsUuid path : string) : M W unit :=
  emit (Redis ("workspace." +:+ wsUuid +:+ ".watch.remove") None (WatchPath path)).

Definition updateCache (uid wsUuid path : string) (add : bool) : M W unit :=
  workspace <- cache_workspace wsUuid ;;
  match workspace with
  | None => ret tt
  | Some x =>
      dirs <- (if add then
                 ret (oset path (js_set (default [] (oget path (c_dirs x)) ++ [uid])) (c_dirs x))
               else match oget path (c_dirs x) with
                    | Some watchers =>
                        if includes uid watchers then
                          match splice_indexOf uid watchers with
                          | [] => watch_remove wsUuid path ;;; ret (odel path (c_dirs x))
                          | l => ret (oset path l (c_dirs x))
                          end
                        else ret (c_dirs x)
                    | None => ret (c_dirs x)
                    end) ;;
      cache_set (CACHEKEY_WORKSPACE wsUuid) (CWorkspace (ws_with_dirs dirs x)) None
  end.

Definition openDir (uid sessionId uuid path : string) (correlationId : option string) : M W unit :=
  emit (Redis ("workspace." +:+ uuid +:+ ".watch.add") None (WatchPath path)) ;;;
  s <- get_loc ;;
  match ag_dir uuid path (es_files s) with
  | Some entries =>
      respond uid sessionId correlationId (RespEntries entries (default "" correlationId)) ;;;
      updateCache uid uuid path true
  | None => respond uid sessionId correlationId (RespError "FS_ERR_FETCH_DIRECTORY")
  end.

Definition closeDir (uid wsUuid path : string) : M W unit := updateCache uid wsUuid path false.

(** Removes a user from several directories of a workspace object; throws
    when a path is not there. *)
Fixpoint closeDirs (uid wsUuid : string) (paths : list string) (x : CachedWorkspace) : M W CachedWorkspace :=
  match paths with
  | [] => ret x
  | path :: paths =>
      match oget path (c_dirs x) with
      | None => throw TypeError
      | Some watchers =>
          x <- match splice_indexOf uid watchers with
               | [] => watch_remove wsUuid path ;;; ret (ws_with_dirs (odel path (c_dirs x)) x)
               | l => ret (ws_with_dirs (oset path l (c_dirs x)) x)
               end ;;
          closeDirs uid wsUuid paths x
      end
  end.

(** ** Who to tell *)
Definition getWatchingUsersFromUid (uuid : string) (uids : list string) : M W (list (string * string)) :=
  active_sessions uids uuid.

(** [wCache.dirs[path]] is not checked. *)
Definition getWatchingUsersFromPath (uuid path : string) : M W (list (string * string)) :=
  cache <- cache_workspace uuid ;;
  match cache with
  | None => ret []
  | Some x =>
      match oget path (c_dirs x) with
      | None => throw TypeError
      | Some uids => active_sessions uids uuid
      end
  end.

Inductive signal_action := block | resume.
Definition signal_msg (a : signal_action) (path : string) : OutMsg :=
  match a with block => FSBlock path | resume => FSResume path end.

Definition signal (uuid path : string) (action : signal_action) : M W unit :=
  l <- getWatchingUsersFromPath uuid path ;;
  forM (λ '(uid, sid), socket_send uid sid "fs" (signal_msg action path)) l.

Definition sendBatch (uid sessionId : string) (events : list FSEvent) : M W unit :=
  socket_send uid sessionId "fs" (FSBatch events).

Definition fs_sendConflict (uuid : string) (ino : Z) (uids : list string) (resolverUid : string) : M W unit :=
  l <- active_sessions uids uuid ;;
  forM (λ '(uid, sid), socket_send uid sid "fs" (FSConflict uuid ino resolverUid)) l.

(** ** Events *)

(** The count of a path after an event. *)
Definition count_event (t : Z) (st : PathState) : PathState :=
  MkPath t ((if BURST_INTERVAL <? t - p_lastEvent st then 0 else p_count st) + 1) (p_bursting st) (p_cooldown st).
Definition path_burst (st : PathState) : PathState := MkPath (p_lastEvent st) (p_count st) true (p_cooldown st).
Definition path_cool (due : Z) (st : PathState) : PathState :=
  MkPath (p_lastEvent st) (p_count st) (p_bursting st) (Some due).

Definition set_path (uuid path : string) (st : PathState) : M W unit :=
  put_loc (λ s, es_set_paths (alter (λ v, MkWatch (v_batch v) (<[path := st]> (v_paths v)) (v_process v)) uuid (es_paths s)) s).
(** [wState.batch.push(event); wState.process(uuid)] *)
Definition push_event (uuid : string) (event : FSEvent) (due : Z) : M W unit :=
  put_loc (λ s, es_set_paths (alter (λ v, MkWatch (v_batch v ++ [event]) (v_paths v) (Some due)) uuid (es_paths s)) s).

Definition handleWatchEvent (uuid : string) (event : FSEvent) : M W unit :=
  s <- get_loc ;;
  match es_paths s !! uuid with
  | None => ret tt
  | Some wState =>
      let path := fe_watchedPath event in
      let state := count_event (fe_timestamp event) (default (MkPath 0 0 false None) (v_paths wState !! path)) in
      set_path uuid path state ;;;
      state <- (if negb (p_bursting state) && (BURST_THRESHOLD <? p_count state)
                then set_path uuid path (path_burst state) ;;;
                     signal uuid path block ;;;
                     ret (path_burst state)
                else ret state) ;;
      t <- now ;;
      if p_bursting state then set_path uuid path (path_cool (t + COOLDOWN) state)
      else push_event uuid event (t + fs_debounceTime)
  end.

(** The cooldown of a path ends. *)
Definition cooldown_timer (uuid path : string) : M W unit :=
  s <- get_loc ;;
  t <- now ;;
  match (es_paths s !! uuid) ≫= (λ v, v_paths v !! path) with
  | Some st =>
      match p_cooldown st with
      | Some due =>
          if due <=? t then
            set_path uuid path (MkPath (p_lastEvent st) (p_count st) false None) ;;;
            signal uuid path resume
          else ret tt
      | None => ret tt
      end
  | None => ret tt
  end.

Definition getFileHash (uuid path : string) : M W string :=
  s <- get_loc ;;
  ret (default "" (ag_hash uuid path (es_files s))).

Definition getDocHash (uuid : string) (ino : option Z) (wCache : CachedWorkspace) : M W (option string) :=
  match ino ≫= (λ i, if_truthy (c_docs wCache !! i)), ino with
  | Some envInstanceId, Some ino =>
      id <- getInstanceId ;;
      if bool_decide (id = envInstanceId) then
        s <- get_loc ;;
        match doc_ref s uuid ino with
        | None => ret None
        | Some ref => doc <- get_doc ref ;; ret (Some (computeHash doc))
        end
      else match remote_hash envInstanceId uuid ino with
           | Some h => ret (Some h)
           | None => throw (PlainError "no reply")
           end
  | _, _ => ret None
  end.

(** [pickOne(list)]: [randomInt] refuses an empty range. *)
Definition pickOne (l : list string) : M W string :=
  λ w, match l !! random_int (w_rng w) (length l) with
       | Some x => (Ok x, tick_rng w)
       | None => (Throw (PlainError "ERR_OUT_OF_RANGE"), w)
       end.

(** A document differs from its file. *)
Definition mark_conflict (ref : nat) : M W unit :=
  doc <- get_doc ref ;;
  upd_doc ref (doc_set_conflict true (d_conflictResolver doc)) ;;;
  resolver <- pickOne (okeys (d_users doc)) ;;
  upd_doc ref (doc_set_conflict true resolver) ;;;
  fs_sendConflict (d_uuid doc) (d_ino doc) (okeys (d_users doc)) resolver.

(** Whether the event is passed on to the watchers. *)
Definition check_event (uuid : string) (wCache : CachedWorkspace) (event : FSEvent) : M W bool :=
  match fe_type event, fe_action event with
  | fs_file, fs_write =>
      docHash <- getDocHash uuid (fe_ino event) wCache ;;
      match if_truthy docHash with
      | None => ret false
      | Some docHash =>
          fileHash <- getFileHash uuid (fe_path event) ;;
          if bool_decide (fileHash = docHash) then ret false else
          s <- get_loc ;;
          match fe_ino event ≫= doc_ref s uuid with
          | Some ref => mark_conflict ref
          | None => ret tt
          end ;;;
          ret true
      end
  | _, _ => ret true
  end.

Definition normalise (event : FSEvent) : FSEvent :=
  if bool_decide (fe_watchedPath event = "/workspace")
  then FsEv "/workspace/" (fe_path event) (fe_oldPath event) (fe_ino event) (fe_action event)
         (fe_timestamp event) (fe_type event)
  else event.

(** [batches[uid].push(event)] for each watcher. *)
Definition add_to_batches (event : FSEvent) (uids : list string) (batches : list (string * list FSEvent)) :
    list (string * list FSEvent) :=
  foldl (λ b uid, oset uid (default [] (oget uid b) ++ [event]) b) batches uids.

Fixpoint collect (uuid : string) (wCache : CachedWorkspace) (events : list FSEvent)
    (batches : list (string * list FSEvent)) : M W (list (string * list FSEvent)) :=
  match events with
  | [] => ret batches
  | event :: events =>
      pass <- check_event uuid wCache event ;;
      if pass then
        let event := normalise event in
        collect uuid wCache events
          (add_to_batches event (default [] (oget (fe_watchedPath event) (c_dirs wCache))) batches)
      else collect uuid wCache events batches
  end.

Definition sync (uuid : string) (batch : list FSEvent) : M W unit :=
  wCache <- cache_workspace uuid ;;
  match wCache with
  | None => ret tt
  | Some wCache =>
      batches <- collect uuid wCache batch [] ;;
      l <- getWatchingUsersFromUid uuid (okeys batches) ;;
      forM (λ '(uid, sid), sendBatch uid sid (default [] (oget uid batches))) l
  end.

(** [wState.batch = []] *)
Definition clear_batch (uuid : string) : M W unit :=
  put_loc (λ s, es_set_paths (alter (λ v, MkWatch [] (v_paths v) (v_process v)) uuid (es_paths s)) s).

Definition _process (uuid : string) : M W unit :=
  s <- get_loc ;;
  match es_paths s !! uuid with
  | None => ret tt
  | Some wState => sync uuid (v_batch wState) ;;; clear_batch uuid
  end.

(** The debounced [process] of a workspace runs. *)
Definition process_timer (uuid : string) : M W unit :=
  s <- get_loc ;;
  t <- now ;;
  match es_paths s !! uuid ≫= v_process with
  | Some due =>
      if due <=? t then
        put_loc (λ s, es_set_paths (alter (λ v, MkWatch (v_batch v) (v_paths v) None) uuid (es_paths s)) s) ;;;
        _process uuid
      else ret tt
  | None => ret tt
  end.
End fs.
