(* ===== verification/EnvFSProps.v ===== *)
(** Directories and events: who watches what, delivery of events to the
    watchers, detection of conflicts, bursts, and an event that is lost. *)
From S2P Require Import Prelude JS Messages Keys Interfaces Presence EnvState EnvSync EnvSyncProps EnvDocs EnvFS.
From Stdlib Require Import Lia.

Section fs_props.
Context {C Y A F : Type} `{!Cache C, !CacheLaws C, !Yjs Y A, !Agent F, !Sha256, !RandomInt, !RandomIntLaws, !DocHash}.
Abbreviation W := (world C (EnvState Y A F)).
Implicit Types (w : W) (s : EnvState Y A F) (d : Doc Y A) (x : CachedWorkspace).

(** ** Watchers of a directory *)
Definition dirs_ok (dirs : list (string * list string)) : Prop :=
  owf dirs ∧ ∀ p l, oget p dirs = Some l → l ≠ [] ∧ NoDup l.
Definition watches (dirs : list (string * list string)) (p u : string) : Prop :=
  ∃ l, oget p dirs = Some l ∧ u ∈ l.

Lemma dirs_ok_oset p l dirs : dirs_ok dirs → l ≠ [] → NoDup l → dirs_ok (oset p l dirs).
Proof.
  intros [Hwf Hd] Hl Hnd. split; [by apply oset_owf|]. intros p' l'.
  destruct (decide (p' = p)) as [->|Hne]; [rewrite oget_oset_eq; by intros [= <-]|].
  rewrite oget_oset_ne by done. apply Hd.
Qed.
Lemma dirs_ok_odel p dirs : dirs_ok dirs → dirs_ok (odel p dirs).
Proof.
  intros [Hwf Hd]. split; [by apply odel_owf|]. intros p' l'.
  destruct (decide (p' = p)) as [->|Hne]; [by rewrite oget_odel_eq|].
  rewrite oget_odel_ne by done. apply Hd.
Qed.
Lemma watches_oset p l dirs p' u :
  watches (oset p l dirs) p' u ↔ if decide (p' = p) then u ∈ l else watches dirs p' u.
Proof.
  unfold watches. case_decide as Hp.
  - subst. rewrite oget_oset_eq. naive_solver.
  - by rewrite oget_oset_ne.
Qed.
Lemma watches_odel p dirs p' u : watches (odel p dirs) p' u ↔ p' ≠ p ∧ watches dirs p' u.
Proof.
  unfold watches. destruct (decide (p' = p)) as [->|Hne].
  - rewrite oget_odel_eq. naive_solver.
  - rewrite oget_odel_ne by done. naive_solver.
Qed.

Lemma splice_in u l : NoDup l → u ∈ l →
  NoDup (splice_indexOf u l) ∧ ∀ v, v ∈ splice_indexOf u l ↔ v ∈ l ∧ v ≠ u.
Proof.
  intros Hnd Hu. unfold splice_indexOf. rewrite (proj2 (includes_spec u l) Hu).
  destruct (remove_first_NoDup u l Hnd) as [? Hno]. split; [done|]. intros v.
  destruct (decide (v = u)) as [->|Hne]; [naive_solver|]. rewrite elem_of_remove_first by done. naive_solver.
Qed.

(** Who watches after an open or a close. *)
Definition watch_change (add : bool) (path uid : string) (dirs dirs' : list (string * list string)) : Prop :=
  dirs_ok dirs' ∧
  ∀ p u, watches dirs' p u ↔ if decide (p = path ∧ u = uid) then add = true else watches dirs p u.

(** The directories after [updateCache], and whether the container is told. *)
Definition dirs_after (add : bool) (path uid : string) (dirs : list (string * list string)) :
    list (string * list string) * bool :=
  if add then (oset path (js_set (default [] (oget path dirs) ++ [uid])) dirs, false)
  else match oget path dirs with
       | Some l => if includes uid l
                   then match splice_indexOf uid l with [] => (odel path dirs, true) | l' => (oset path l' dirs, false) end
                   else (dirs, false)
       | None => (dirs, false)
       end.
Definition remove_msgs (uuid path : string) (told : bool) : list effect :=
  if told then [Redis ("workspace." +:+ uuid +:+ ".watch.remove") None (WatchPath path)] else [].

Lemma updateCache_dirs uid uuid path add x w :
  workspace_in (w_cache w) uuid = Some x →
  updateCache uid uuid path add w = (Ok tt, add_outs (remove_msgs uuid path (dirs_after add path uid (c_dirs x)).2)
    (set_cache (kv_set (CACHEKEY_WORKSPACE uuid)
      (CWorkspace (ws_with_dirs (dirs_after add path uid (c_dirs x)).1 x), None)) w)).
Proof.
  intros Hx. unfold updateCache, dirs_after. mstep by done. rewrite Hx.
  assert (∀ v, add_outs [] (set_cache v w) = set_cache v w) as Hnil by (intros; apply add_outs_nil).
  destruct add; [mstep by done; simpl; by rewrite Hnil|].
  destruct (oget path (c_dirs x)) as [l|]; [|mstep by done; simpl; by rewrite Hnil].
  destruct (includes uid l); [|mstep by done; simpl; by rewrite Hnil].
  destruct (splice_indexOf uid l); mstep by done; simpl; [done|by rewrite Hnil].
Qed.

Lemma open_change path uid dirs : dirs_ok dirs → watch_change true path uid dirs (dirs_after true path uid dirs).1.
Proof.
  intros Hok. set (l := default [] (oget path dirs)). split.
  - apply dirs_ok_oset; [done| |apply js_set_NoDup]. intros Hn.
    assert (uid ∈ js_set (l ++ [uid])) as Hin by (apply elem_of_js_set; set_solver).
    fold l in Hn. rewrite Hn in Hin. by apply elem_of_nil in Hin.
  - intros p u. simpl. fold l. rewrite watches_oset.
    destruct (decide (p = path)) as [->|Hp]; [|by rewrite decide_False by naive_solver].
    rewrite elem_of_js_set, elem_of_app, list_elem_of_singleton. subst l. unfold watches.
    case_decide as Hd; [naive_solver|]. destruct (oget path dirs) as [l|]; simpl; [naive_solver|].
    rewrite elem_of_nil. naive_solver.
Qed.

Lemma unchanged_change path uid dirs :
  dirs_ok dirs → ¬ watches dirs path uid → watch_change false path uid dirs dirs.
Proof. intros Hok Hno. split; [done|]. intros p u. case_decide as Hd; [destruct Hd; subst|]; naive_solver. Qed.

Lemma close_change path uid dirs : dirs_ok dirs → watch_change false path uid dirs (dirs_after false path uid dirs).1.
Proof.
  intros Hok. unfold dirs_after. destruct (oget path dirs) as [l|] eqn:Hl.
  2:{ change (watch_change false path uid dirs dirs). apply unchanged_change; [done|]. intros (l' & Hl' & _). congruence. }
  destruct (includes uid l) eqn:Hin.
  2:{ change (watch_change false path uid dirs dirs). apply unchanged_change; [done|]. intros (l' & Hl' & Hu). simplify_eq. apply includes_spec in Hu. congruence. }
  apply includes_spec in Hin. destruct (proj2 Hok path l Hl) as [_ Hnd].
  destruct (splice_in uid l Hnd Hin) as [Hnd' Hel]. destruct (splice_indexOf uid l) as [|v l'] eqn:Hsp; simpl.
  - split; [by apply dirs_ok_odel|]. intros p u. rewrite watches_odel. case_decide as Hd; [naive_solver|].
    split; [naive_solver|]. intros Hw. split; [|done]. intros ->. destruct Hw as (l0 & Hl0 & Hu). simplify_eq.
    assert (u ∈ @nil string) as Habs by (apply Hel; naive_solver). by apply elem_of_nil in Habs.
  - split; [by apply dirs_ok_oset|]. intros p u. rewrite watches_oset.
    destruct (decide (p = path)) as [->|Hp]; [|by rewrite decide_False by naive_solver].
    rewrite Hel. unfold watches. rewrite Hl. case_decide as Hd; naive_solver.
Qed.

Lemma dirs_after_told add path uid dirs :
  if (dirs_after add path uid dirs).2
  then is_Some (oget path dirs) ∧ oget path (dirs_after add path uid dirs).1 = None
  else is_Some (oget path dirs) → is_Some (oget path (dirs_after add path uid dirs).1).
Proof.
  unfold dirs_after. destruct add; simpl; [rewrite oget_oset_eq; by eexists|].
  destruct (oget path dirs) as [l|] eqn:Hl; [|simpl; by rewrite Hl].
  destruct (includes uid l); [|simpl; by rewrite Hl].
  destruct (splice_indexOf uid l); simpl; [rewrite oget_odel_eq; by split; [eexists|]|].
  rewrite oget_oset_eq. by eexists.
Qed.

(** The list of watchers is a reference count.  Opening a directory makes the
    user one of its watchers, closing it removes just that user; nobody
    appears twice, no directory without watchers is kept, nothing else of the
    workspace's entry changes; and the container is told to stop watching
    exactly when the last watcher has left. *)
Theorem watch_refcount uid uuid path add x w :
  workspace_in (w_cache w) uuid = Some x → dirs_ok (c_dirs x) →
  ∃ w' dirs es, updateCache uid uuid path add w = (Ok tt, w') ∧
    workspace_in (w_cache w') uuid = Some (ws_with_dirs dirs x) ∧
    watch_change add path uid (c_dirs x) dirs ∧
    w_out w' = w_out w ++ es ∧
    ((is_Some (oget path (c_dirs x)) ∧ oget path dirs = None ∧
        es = [Redis ("workspace." +:+ uuid +:+ ".watch.remove") None (WatchPath path)]) ∨
     ((is_Some (oget path (c_dirs x)) → is_Some (oget path dirs)) ∧ es = [])).
Proof.
  intros Hx Hok. rewrite (updateCache_dirs uid uuid path add x w Hx). eexists _, _, _.
  split; [done|]. split; [apply workspace_in_set_eq|].
  split; [destruct add; [by apply open_change|by apply close_change]|]. split; [done|].
  pose proof (dirs_after_told add path uid (c_dirs x)) as Ht. destruct ((dirs_after add path uid (c_dirs x)).2).
  - left. by destruct Ht.
  - right. done.
Qed.

(** ** Documents and events *)

(** Two states whose documents differ at most in their conflict flags. *)
Definition same_doc d d' : Prop :=
  d_y d' = d_y d ∧ d_users d' = d_users d ∧ d_uuid d' = d_uuid d ∧ d_ino d' = d_ino d.
Definition same_docs s s' : Prop :=
  es_id s' = es_id s ∧ es_docs s' = es_docs s ∧ es_files s' = es_files s ∧ es_paths s' = es_paths s ∧
  ∀ r, option_relation same_doc (λ _, False) (λ _, False) (es_heap s !! r) (es_heap s' !! r).

Lemma same_docs_refl s : same_docs s s.
Proof. split_and!; try done. intros r. by destruct (es_heap s !! r). Qed.
Lemma same_docs_trans s1 s2 s3 : same_docs s1 s2 → same_docs s2 s3 → same_docs s1 s3.
Proof.
  intros (?&?&?&?&H12) (?&?&?&?&H23). split_and!; try congruence. intros r. specialize (H12 r). specialize (H23 r).
  destruct (es_heap s1 !! r), (es_heap s2 !! r), (es_heap s3 !! r); simpl in *; try done.
  destruct H12 as (?&?&?&?), H23 as (?&?&?&?). split_and!; congruence.
Qed.
Lemma same_docs_conflict c r ref s : same_docs s (alter_doc (doc_set_conflict c r) ref s).
Proof.
  split_and!; try done. intros r'. simpl. rewrite list_lookup_alter.
  case_decide; [subst|]; by destruct (es_heap s !! r').
Qed.

Lemma alter_doc_alter f g h ref s :
  (∀ d, g (f d) = h d) → alter_doc g ref (alter_doc f ref s) = alter_doc h ref s.
Proof.
  intros Hgf. unfold alter_doc, es_set_heap. simpl. f_equal. apply list_eq. intros j.
  rewrite (list_lookup_alter g), (list_lookup_alter h). destruct (decide (ref = j)) as [->|Hne].
  - rewrite list_lookup_alter_eq. destruct (es_heap s !! j); simpl; [by rewrite Hgf|done].
  - by rewrite list_lookup_alter_ne.
Qed.

(** A notice of conflict to one user. *)
Definition conflict_msg (e : effect) : Prop :=
  ∃ uid sid u i r, e = Redis "socket.send" (Some (meta_us uid sid)) (SocketSend uid sid "fs" (FSConflict u i r)).

Lemma pickOne_run l w : l ≠ [] → ∃ y, pickOne l w = (Ok y, tick_rng w) ∧ y ∈ l.
Proof.
  intros Hl. unfold pickOne.
  destruct (lookup_lt_is_Some_2 l (random_int (w_rng w) (length l))) as [y Hy].
  - apply random_int_lt. destruct l; [done|simpl; lia].
  - exists y. rewrite Hy. split; [done|]. by eapply list_elem_of_lookup_2.
Qed.

Definition conflict_msgs (c : C) d (resolver : string) : list effect :=
  (λ '(u, sid), Redis "socket.send" (Some (meta_us u sid))
     (SocketSend u sid "fs" (FSConflict (d_uuid d) (d_ino d) resolver)))
    <$> sessions_in c (d_uuid d) (okeys (d_users d)).

Lemma conflict_msgs_ok c d r : Forall conflict_msg (conflict_msgs c d r).
Proof.
  apply Forall_fmap, Forall_forall. intros [u sid] _. by exists u, sid, (d_uuid d), (d_ino d), r.
Qed.

Lemma concat_singletons {B D} (f : B → D) l : concat ((λ y, [f y]) <$> l) = f <$> l.
Proof. induction l as [|y l IH]; simpl; [done|]. by f_equal. Qed.

Lemma mark_conflict_run ref d w :
  es_heap (w_loc w) !! ref = Some d → d_users d ≠ [] →
  ∃ resolver, resolver ∈ okeys (d_users d) ∧
    mark_conflict ref w = (Ok tt, add_outs (conflict_msgs (w_cache w) d resolver)
      (tick_rng (set_loc (alter_doc (doc_set_conflict true resolver) ref) w))).
Proof.
  intros Hd Hus. unfold mark_conflict. rewrite (bind_ok _ _ _ _ _ (get_doc_run ref d w Hd)). mstep by done.
  set (w1 := set_loc _ w).
  destruct (pickOne_run (okeys (d_users d)) w1) as (y & Hp & Hy); [by destruct (d_users d)|].
  rewrite (bind_ok _ _ _ _ _ Hp). mstep by done. unfold fs_sendConflict.
  rewrite (bind_ok _ _ _ _ _ (active_sessions_run _ _ _)).
  exists y. split; [done|].
  rewrite (forM_emits _ (λ z : string * string, [(λ '(u, sid), Redis "socket.send" (Some (meta_us u sid))
      (SocketSend u sid "fs" (FSConflict (d_uuid d) (d_ino d) y))) z])) by (intros [? ?] ?; done).
  rewrite concat_singletons. f_equal. f_equal. unfold tick_rng, set_loc. simpl. f_equal.
  by apply alter_doc_alter.
Qed.

(** The hash [getDocHash] finds; [None] when no answer comes. *)
Definition doc_hash s (uuid : string) (ino : option Z) x : option (option string) :=
  match ino ≫= (λ i, if_truthy (c_docs x !! i)), ino with
  | Some env, Some i =>
      if bool_decide (es_id s = env)
      then Some (match doc_ref s uuid i with Some r => computeHash <$> es_heap s !! r | None => None end)
      else match remote_hash env uuid i with Some h => Some (Some h) | None => None end
  | _, _ => Some None
  end.

(** Whether an event is passed on: a write only when the document is open
    somewhere and differs from the file. *)
Definition verdict s (uuid : string) x (ev : FSEvent) : option bool :=
  match fe_type ev, fe_action ev with
  | fs_file, fs_write =>
      match doc_hash s uuid (fe_ino ev) x with
      | None => None
      | Some h =>
          match if_truthy h with
          | None => Some false
          | Some h => Some (negb (bool_decide (default "" (ag_hash uuid (fe_path ev) (es_files s)) = h)))
          end
      end
  | _, _ => Some true
  end.

Lemma verdict_same s s' uuid x ev : same_docs s s' → verdict s' uuid x ev = verdict s uuid x ev.
Proof.
  intros (Hid & Hdocs & Hf & _ & Hh). unfold verdict.
  assert (doc_hash s' uuid (fe_ino ev) x = doc_hash s uuid (fe_ino ev) x) as ->; [|by rewrite Hf].
  unfold doc_hash. destruct (fe_ino ev ≫= _), (fe_ino ev) as [i|]; try done.
  rewrite Hid. case_bool_decide; [|done]. unfold doc_ref. rewrite Hdocs.
  destruct (es_docs s !! uuid ≫= _) as [r|]; [|done]. specialize (Hh r). f_equal.
  destruct (es_heap s !! r), (es_heap s' !! r); simpl in *; try done.
  destruct Hh as (Hy & _). unfold computeHash. by rewrite Hy.
Qed.

Lemma getDocHash_run uuid ino x h w :
  env_ok (w_loc w) → doc_hash (w_loc w) uuid ino x = Some h → getDocHash uuid ino x w = (Ok h, w).
Proof.
  intros Hok. unfold getDocHash, doc_hash. destruct (ino ≫= _) as [env|]; [|destruct ino; by intros [= <-]].
  destruct ino as [i|]; [|by intros [= <-]]. mstep by done.
  case_bool_decide as Hid; [|destruct (remote_hash env uuid i); [by intros [= <-]|done]].
  intros [= <-]. mstep by done. destruct (doc_ref (w_loc w) uuid i) as [r|] eqn:Hr; [|done].
  destruct (env_ok_doc _ _ _ _ Hok Hr) as (d & Hd & _).
  rewrite (bind_ok _ _ _ _ _ (get_doc_run r d w Hd)). by rewrite Hd.
Qed.

Lemma check_event_run uuid x ev b w :
  env_ok (w_loc w) → verdict (w_loc w) uuid x ev = Some b →
  ∃ w' es, check_event uuid x ev w = (Ok b, w') ∧ w_cache w' = w_cache w ∧ w_out w' = w_out w ++ es ∧
    Forall conflict_msg es ∧ same_docs (w_loc w) (w_loc w') ∧ env_ok (w_loc w').
Proof.
  intros Hok Hv. unfold check_event. unfold verdict in Hv.
  assert (∀ b', Some true = Some b → b' = b → ∃ w' es, ret (S:=W) true w = (Ok b', w') ∧ w_cache w' = w_cache w ∧
    w_out w' = w_out w ++ es ∧ Forall conflict_msg es ∧ same_docs (w_loc w) (w_loc w') ∧ env_ok (w_loc w')) as Hstay.
  { intros b' [= <-] ->. exists w, []. rewrite app_nil_r. split_and!; try done. apply same_docs_refl. }
  destruct (fe_type ev), (fe_action ev); try (by apply Hstay). clear Hstay.
  destruct (doc_hash (w_loc w) uuid (fe_ino ev) x) as [h|] eqn:Hh; [|done].
  rewrite (bind_ok _ _ _ _ _ (getDocHash_run _ _ _ _ _ Hok Hh)).
  assert (∀ b', b' = b → ∃ w' es, ret (S:=W) b' w = (Ok b, w') ∧ w_cache w' = w_cache w ∧
    w_out w' = w_out w ++ es ∧ Forall conflict_msg es ∧ same_docs (w_loc w) (w_loc w') ∧ env_ok (w_loc w')) as Hstay.
  { intros b' ->. exists w, []. rewrite app_nil_r. split_and!; try done. apply same_docs_refl. }
  destruct (if_truthy h) as [h'|]; [|apply Hstay; congruence].
  mstep by done. case_bool_decide as Heq; [apply Hstay; simpl in Hv; congruence|]. simpl in Hv. injection Hv as <-.
  mstep by done. destruct (fe_ino ev ≫= doc_ref (w_loc w) uuid) as [ref|] eqn:Href.
  2:{ mstep by done. by apply Hstay. }
  destruct (fe_ino ev) as [i|]; [|done]. simpl in Href.
  destruct (env_ok_doc _ _ _ _ Hok Href) as (d & Hd & _ & _ & Hus).
  destruct (mark_conflict_run ref d w Hd Hus) as (y & Hy & Hr). rewrite (bind_ok _ _ _ _ _ Hr).
  eexists _, _. split_and!; try done; [apply conflict_msgs_ok|apply same_docs_conflict|by apply env_ok_alter].
Qed.

(** No answer comes, and nothing after the request runs. *)
Lemma check_event_stuck uuid x ev w :
  env_ok (w_loc w) → verdict (w_loc w) uuid x ev = None → check_event uuid x ev w = (Throw (PlainError "no reply"), w).
Proof.
  intros Hok. unfold verdict, check_event. destruct (fe_type ev), (fe_action ev); try done.
  destruct (doc_hash (w_loc w) uuid (fe_ino ev) x) as [h|] eqn:Hh; [by destruct (if_truthy h)|]. intros _.
  unfold doc_hash in Hh. unfold getDocHash. destruct (fe_ino ev ≫= _) as [env|]; [|by destruct (fe_ino ev)].
  destruct (fe_ino ev) as [i|]; [|done]. rewrite bind_assoc. mstep by done. case_bool_decide; [done|].
  by destruct (remote_hash env uuid i).
Qed.

(** *** Delivery *)
Definition watchers_of x (ev : FSEvent) : list string := default [] (oget (fe_watchedPath ev) (c_dirs x)).

(** The events a user is to receive, in order. *)
Definition events_for x (u : string) (passed : list FSEvent) : list FSEvent :=
  List.filter (λ ev, includes u (watchers_of x ev)) (normalise <$> passed).

Definition batches_of x (passed : list FSEvent) (b : list (string * list FSEvent)) : list (string * list FSEvent) :=
  foldl (λ b ev, add_to_batches (normalise ev) (watchers_of x (normalise ev)) b) b passed.

Lemma add_to_batches_get ev uids b u :
  NoDup uids →
  oget u (add_to_batches ev uids b) =
    if includes u uids then Some (default [] (oget u b) ++ [ev]) else oget u b.
Proof.
  unfold add_to_batches. revert b. induction uids as [|v uids IH]; intros b Hnd; simpl; [done|].
  apply NoDup_cons in Hnd as [Hv Hnd]. rewrite IH by done. unfold includes.
  destruct (decide (u = v)) as [->|Hne].
  - rewrite bool_decide_false by done. rewrite bool_decide_true by (by left). by rewrite oget_oset_eq.
  - rewrite oget_oset_ne by done. assert (u ∈ v :: uids ↔ u ∈ uids) as Hiff by set_solver.
    by rewrite (bool_decide_ext _ _ Hiff).
Qed.

Lemma batches_of_get x passed b u :
  dirs_ok (c_dirs x) →
  default [] (oget u (batches_of x passed b)) = default [] (oget u b) ++ events_for x u passed ∧
  (is_Some (oget u (batches_of x passed b)) ↔ is_Some (oget u b) ∨ events_for x u passed ≠ []).
Proof.
  intros Hok. revert b. induction passed as [|ev passed IH]; intros b; simpl.
  { rewrite app_nil_r. unfold events_for. simpl. naive_solver. }
  assert (NoDup (watchers_of x (normalise ev))) as Hnd.
  { unfold watchers_of. destruct (oget _ _) as [l|] eqn:Hl; [by eapply (proj2 Hok)|constructor]. }
  destruct (IH (add_to_batches (normalise ev) (watchers_of x (normalise ev)) b)) as [H1' H2'].
  unfold batches_of in H1', H2' |- *. rewrite H1', H2'. rewrite add_to_batches_get by done.
  unfold events_for. simpl. destruct (includes u (watchers_of x (normalise ev))); simpl.
  - rewrite <- app_assoc. split; [done|]. naive_solver.
  - done.
Qed.

Lemma okeys_batches_NoDup x passed b : NoDup (okeys b) → NoDup (okeys (batches_of x passed b)).
Proof.
  revert b. induction passed as [|ev passed IH]; intros b Hb; simpl; [done|]. apply IH.
  unfold add_to_batches. generalize (watchers_of x (normalise ev)) as l. intros l. revert b Hb.
  induction l as [|v l IHl]; intros b Hb; simpl; [done|]. apply IHl. by apply (oset_owf v _ b).
Qed.

(** The events of a batch that are passed on. *)
Definition passing s (uuid : string) x (batch : list FSEvent) : list FSEvent :=
  List.filter (λ ev, bool_decide (verdict s uuid x ev = Some true)) batch.

(** Whether every hash that the events of a batch need is answered. *)
Definition answered s (uuid : string) x (batch : list FSEvent) : Prop :=
  Forall (λ ev, verdict s uuid x ev ≠ None) batch.
#[local] Instance answered_dec s uuid x batch : Decision (answered s uuid x batch).
Proof. unfold answered. solve_decision. Defined.

Lemma collect_run uuid x batch b w :
  env_ok (w_loc w) →
  ∃ w' es, collect uuid x batch b w =
      (if decide (answered (w_loc w) uuid x batch)
       then Ok (batches_of x (passing (w_loc w) uuid x batch) b) else Throw (PlainError "no reply"), w') ∧
    w_cache w' = w_cache w ∧ w_out w' = w_out w ++ es ∧ Forall conflict_msg es ∧ env_ok (w_loc w') ∧
    same_docs (w_loc w) (w_loc w').
Proof.
  revert b w. induction batch as [|ev batch IH]; intros b w Hok; cbn [collect].
  { exists w, []. rewrite app_nil_r, decide_True by constructor. split_and!; try done. apply same_docs_refl. }
  destruct (verdict (w_loc w) uuid x ev) as [v|] eqn:Hev.
  2:{ rewrite decide_False by (intros [? _]%Forall_cons; done). exists w, [].
      rewrite app_nil_r, (bind_throw _ _ _ _ _ (check_event_stuck _ _ _ _ Hok Hev)). split_and!; try done. apply same_docs_refl. }
  destruct (check_event_run uuid x ev v w Hok Hev) as (w1 & es1 & Hr1 & Hc1 & Ho1 & Hes1 & Hs1 & Hok1).
  rewrite (bind_ok _ _ _ _ _ Hr1).
  assert (∀ ev', verdict (w_loc w1) uuid x ev' = verdict (w_loc w) uuid x ev') as Hsame
    by (intros; by apply verdict_same).
  assert (passing (w_loc w1) uuid x batch = passing (w_loc w) uuid x batch) as Hpass.
  { unfold passing. clear -Hsame. induction batch as [|e l IHl]; simpl; [done|]. by rewrite Hsame, IHl. }
  assert (answered (w_loc w1) uuid x batch ↔ answered (w_loc w) uuid x (ev :: batch)) as Hans.
  { unfold answered. rewrite Forall_cons, Hev. setoid_rewrite Hsame. naive_solver. }
  assert (∀ b', ∃ w' es, collect uuid x batch b' w1 =
      (if decide (answered (w_loc w) uuid x (ev :: batch))
       then Ok (batches_of x (passing (w_loc w) uuid x batch) b') else Throw (PlainError "no reply"), w') ∧
      w_cache w' = w_cache w ∧ w_out w' = w_out w ++ es ∧ Forall conflict_msg es ∧ env_ok (w_loc w') ∧
      same_docs (w_loc w) (w_loc w')) as Hrest.
  { intros b'. destruct (IH b' w1 Hok1) as (w' & es & Hr & Hc & Ho & Hes & Hok' & Hs).
    rewrite Hpass, (decide_ext _ _ _ _ Hans) in Hr. exists w', (es1 ++ es). rewrite Ho, Ho1, app_assoc.
    split_and!; try done; [congruence|by apply Forall_app|by eapply same_docs_trans]. }
  unfold passing at 1. cbn [List.filter]. rewrite Hev.
  destruct v; [rewrite bool_decide_true by done|rewrite bool_decide_false by congruence]; apply Hrest.
Qed.

Definition batch_msg (u sid : string) (events : list FSEvent) : effect :=
  Redis "socket.send" (Some (meta_us u sid)) (SocketSend u sid "fs" (FSBatch events)).

(** C25: Events reach their watchers, unless an instance does not answer.  A
    batch is sent, after any notices of conflict, as one message per user who
    watches a directory of some event and is attached to the workspace: it
    carries, in order, exactly the events of the directories that user
    watches, without the writes of files whose document is not open or
    already has the file's content.  This is so when every question for the
    hash of a document that another instance holds is answered; if one is
    not, no event of the batch is sent to anyone.  The documents keep their
    text and users either way. *)
Theorem sync_delivers uuid x batch w :
  env_ok (w_loc w) → workspace_in (w_cache w) uuid = Some x → dirs_ok (c_dirs x) →
  ∃ r w' es, sync uuid batch w = (r, w') ∧ Forall conflict_msg es ∧
    same_docs (w_loc w) (w_loc w') ∧ env_ok (w_loc w') ∧
    if decide (answered (w_loc w) uuid x batch) then
      r = Ok tt ∧ ∃ users, NoDup users ∧
        (∀ u, u ∈ users ↔ events_for x u (passing (w_loc w) uuid x batch) ≠ []) ∧
        w_out w' = w_out w ++ es ++
          ((λ '(u, sid), batch_msg u sid (events_for x u (passing (w_loc w) uuid x batch)))
             <$> sessions_in (w_cache w) uuid users)
    else r = Throw (PlainError "no reply") ∧ w_out w' = w_out w ++ es.
Proof.
  intros Hok Hx Hd. unfold sync. mstep by done. rewrite Hx.
  destruct (collect_run uuid x batch [] w Hok) as (w1 & es & Hr & Hc & Ho & Hes & Hok1 & Hs).
  case_decide as Ha.
  2:{ exists (Throw (PlainError "no reply")), w1, es. by rewrite (bind_throw _ _ _ _ _ Hr). }
  rewrite (bind_ok _ _ _ _ _ Hr). set (passed := passing (w_loc w) uuid x batch) in *.
  unfold getWatchingUsersFromUid. rewrite (bind_ok _ _ _ _ _ (active_sessions_run _ _ _)).
  set (users := okeys (batches_of x passed [])).
  eexists (Ok tt), _, es. split.
  { apply (forM_emits _ (λ z : string * string,
      [(λ '(u, sid), batch_msg u sid (default [] (oget u (batches_of x passed [])))) z])).
    by intros [u sid] w0. }
  split_and!; try done. exists users. split_and!.
  - apply okeys_batches_NoDup. constructor.
  - intros u. unfold users. rewrite <- oget_keys. destruct (batches_of_get x passed [] u Hd) as [_ ->].
    simpl. split; [intros [[? ?]|?]; done|by right].
  - simpl. rewrite Ho, Hc, <- app_assoc. f_equal. f_equal.
    rewrite concat_singletons. apply list_fmap_ext. intros i [u sid] _. f_equal.
    by destruct (batches_of_get x passed [] u Hd) as [-> _].
Qed.

(** *** Conflicts *)

(** C28: conflicts are detected by comparing the hashes of contents.  When the
    container reports that a file open in this instance was written, and the
    file can be read, the event is dropped without effect if the file and the
    document have the same hash; if not, the document is marked as
    conflicting, one of its users is chosen to resolve it, each user of it
    who is attached to the workspace is told so and who it is, and the event
    is passed on.  (A hash is never the empty string.) *)
Theorem conflict_detected `{!AgentLaws F} uuid x ev ino ref d content w :
  env_ok (w_loc w) → fe_type ev = fs_file → fe_action ev = fs_write → fe_ino ev = Some ino →
  c_docs x !! ino = Some (es_id (w_loc w)) → es_id (w_loc w) ≠ "" →
  doc_ref (w_loc w) uuid ino = Some ref → es_heap (w_loc w) !! ref = Some d →
  ag_read uuid (fe_path ev) (es_files (w_loc w)) = Some content → sha256 (y_text (d_y d)) ≠ "" →
  (sha256 content = sha256 (y_text (d_y d)) → check_event uuid x ev w = (Ok false, w)) ∧
  (sha256 content ≠ sha256 (y_text (d_y d)) →
     ∃ w' resolver, check_event uuid x ev w = (Ok true, w') ∧ resolver ∈ okeys (d_users d) ∧
       es_heap (w_loc w') !! ref = Some (doc_set_conflict true resolver d) ∧
       w_out w' = w_out w ++ ((λ '(u, sid), Redis "socket.send" (Some (meta_us u sid))
         (SocketSend u sid "fs" (FSConflict uuid ino resolver))) <$> sessions_in (w_cache w) uuid (okeys (d_users d)))).
Proof.
  intros Hok Hty Hac Hin Hdocs Hid Href Hd Hrd Hsha.
  assert (doc_hash (w_loc w) uuid (fe_ino ev) x = Some (Some (sha256 (y_text (d_y d))))) as Hh.
  { unfold doc_hash. rewrite Hin. simpl. rewrite Hdocs. unfold if_truthy, truthy.
    rewrite bool_decide_true by done. rewrite bool_decide_true by done. by rewrite Href, Hd. }
  unfold check_event. rewrite Hty, Hac, (bind_ok _ _ _ _ _ (getDocHash_run _ _ _ _ _ Hok Hh)).
  assert (if_truthy (Some (sha256 (y_text (d_y d)))) = Some (sha256 (y_text (d_y d)))) as ->.
  { unfold if_truthy, truthy. by rewrite bool_decide_true. }
  split; intros Heq; (mstep by done); rewrite ag_hash_read, Hrd; simpl.
  - by rewrite bool_decide_true.
  - rewrite bool_decide_false by done. mstep by done. rewrite Hin. simpl. rewrite Href.
    destruct (env_ok_doc _ _ _ _ Hok Href) as (d' & Hd' & Hu & Hi & Hus). rewrite Hd in Hd'. injection Hd' as <-.
    destruct (mark_conflict_run ref d w Hd Hus) as (y & Hy & Hr). rewrite (bind_ok _ _ _ _ _ Hr).
    eexists _, y. split; [done|]. split; [done|]. split; [simpl; by rewrite list_lookup_alter_eq, Hd|].
    simpl. unfold conflict_msgs. by rewrite Hu, Hi.
Qed.

(** ** Bursts of events *)
Lemma quiet_signal uuid path x uids a w :
  workspace_in (w_cache w) uuid = Some x → oget path (c_dirs x) = Some uids →
  quiet (signal uuid path a) w tt.
Proof.
  intros Hx Hp. unfold signal.
  eapply (quiet_bind _ _ _ (sessions_in (w_cache w) uuid uids)).
  - exists []. rewrite add_outs_nil. unfold getWatchingUsersFromPath. mstep by done.
    rewrite Hx, Hp. apply active_sessions_run.
  - intros es. apply quiet_forM. intros [u sid] w'. apply quiet_emit.
Qed.

(** The count of a path, and its bursting flag, are in step. *)
Definition in_step (st : PathState) : Prop := p_bursting st = (BURST_THRESHOLD <? p_count st).

(** What an instance knows of a path. *)
Definition path_at s (uuid path : string) (v : WatchState) (st : PathState) : Prop :=
  es_paths s !! uuid = Some v ∧ v_paths v !! path = Some st.

(** The count of a path that a new event adds to. *)
Definition counted (t : Z) (st : PathState) : Z :=
  if BURST_INTERVAL <? t - p_lastEvent st then 0 else p_count st.

Lemma watch_event_run uuid ev x uids v st n w :
  workspace_in (w_cache w) uuid = Some x → oget (fe_watchedPath ev) (c_dirs x) = Some uids →
  es_paths (w_loc w) !! uuid = Some v → default (MkPath 0 0 false None) (v_paths v !! fe_watchedPath ev) = st →
  counted (fe_timestamp ev) st = n → p_bursting st = (BURST_THRESHOLD <? n) → 0 ≤ n →
  ∃ w' v' st', handleWatchEvent uuid ev w = (Ok tt, w') ∧ w_cache w' = w_cache w ∧
    path_at (w_loc w') uuid (fe_watchedPath ev) v' st' ∧ in_step st' ∧
    p_count st' = n + 1 ∧ p_lastEvent st' = fe_timestamp ev ∧
    v_batch v' = v_batch v ++ (if n <? BURST_THRESHOLD then [ev] else []).
Proof.
  intros Hx Hp Hv Hst Hcn Hin Hpos. unfold handleWatchEvent. mstep by done. rewrite Hv, Hst. cbv zeta.
  set (st1 := count_event (fe_timestamp ev) st).
  assert (p_count st1 = n + 1) as Hc1 by (by rewrite <- Hcn).
  assert (p_bursting st1 = p_bursting st ∧ p_lastEvent st1 = fe_timestamp ev) as [Hb1 Hl1] by done. clearbody st1.
  mstep by done. set (w1 := set_loc _ w). unfold in_step, BURST_THRESHOLD in *. rewrite Hin in Hb1.
  destruct (Z.ltb_spec 50 n) as [Hlt|Hle]; rewrite Hb1; cbn [negb andb].
  - mstep by done. mstep by done. rewrite Hb1.
    eexists _, _, (path_cool _ st1). split; [done|]. split; [done|]. split.
    + split; [simpl; rewrite !lookup_alter_eq, Hv; simpl; reflexivity|]. simpl. apply lookup_insert_eq.
    + simpl. rewrite Hb1, Hc1. split_and!; try done; [symmetry; apply Z.ltb_lt; lia|].
      rewrite (proj2 (Z.ltb_ge _ _)) by lia. by rewrite app_nil_r.
  - destruct (Z.ltb_spec 50 (p_count st1)) as [Hlt1|Hle1].
    + rewrite bind_assoc. mstep by done. set (w2 := set_loc _ w1).
      destruct (quiet_signal uuid (fe_watchedPath ev) x uids block w2 Hx Hp) as [es Hs].
      rewrite bind_assoc, (bind_ok _ _ _ _ _ Hs). mstep by done. mstep by done. cbn [path_burst p_bursting].
      eexists _, _, (path_cool _ (path_burst st1)). split; [done|]. split; [done|]. split.
      * split; [simpl; rewrite !lookup_alter_eq, Hv; simpl; reflexivity|]. simpl. apply lookup_insert_eq.
      * simpl. split_and!; try done; [symmetry; apply Z.ltb_lt; lia|].
        rewrite (proj2 (Z.ltb_ge _ _)) by lia. by rewrite app_nil_r.
    + mstep by done. mstep by done. rewrite Hb1.
      eexists _, _, st1. split; [done|]. split; [done|]. split.
      * split; [simpl; rewrite !lookup_alter_eq, Hv; simpl; reflexivity|]. simpl. apply lookup_insert_eq.
      * simpl. rewrite Hb1, Hc1 in *. split_and!; try done; [symmetry; apply Z.ltb_ge; lia|].
        rewrite (proj2 (Z.ltb_lt _ _)) by lia. done.
Qed.

(** Each event follows the previous one within the burst interval. *)
Fixpoint rapid (last : Z) (evs : list FSEvent) : Prop :=
  match evs with
  | [] => True
  | ev :: evs => fe_timestamp ev - last ≤ BURST_INTERVAL ∧ rapid (fe_timestamp ev) evs
  end.

Lemma burst_run uuid path x uids ev evs v st n w :
  workspace_in (w_cache w) uuid = Some x → oget path (c_dirs x) = Some uids →
  es_paths (w_loc w) !! uuid = Some v → default (MkPath 0 0 false None) (v_paths v !! path) = st →
  counted (fe_timestamp ev) st = n → p_bursting st = (BURST_THRESHOLD <? n) → 0 ≤ n →
  Forall (λ ev, fe_watchedPath ev = path) (ev :: evs) → rapid (fe_timestamp ev) evs →
  ∃ w' v' st', forM (handleWatchEvent uuid) (ev :: evs) w = (Ok tt, w') ∧
    path_at (w_loc w') uuid path v' st' ∧ p_count st' = n + Z.of_nat (length (ev :: evs)) ∧ in_step st' ∧
    v_batch v' = v_batch v ++ take (Z.to_nat (BURST_THRESHOLD - n)) (ev :: evs).
Proof.
  intros Hx Hp. revert ev v st n w Hx. induction evs as [|ev' evs IH]; intros ev v st n w Hx Hv Hst Hcn Hin Hpos Hall Hr;
    apply Forall_cons in Hall as [Hpath Hall]; subst path;
    destruct (watch_event_run uuid ev x uids v st n w) as (w1 & v1 & st1 & Hrun & Hc1 & Hat1 & Hin1 & Hcnt & Hlast & Hb1);
    try done; cbn [forM]; rewrite (bind_ok _ _ _ _ _ Hrun).
  - exists w1, v1, st1. split_and!; try done. rewrite Hb1. f_equal. unfold BURST_THRESHOLD.
    destruct (Z.ltb_spec n 50).
    { replace (Z.to_nat (50 - n)) with (S (Z.to_nat (49 - n))) by lia. by rewrite firstn_cons, take_nil. }
    by replace (Z.to_nat (50 - n)) with 0%nat by lia.
  - destruct Hr as [Hgap Hr]. destruct Hat1 as [Hv1 Hst1].
    cbn [forM] in IH. destruct (IH ev' v1 st1 (n + 1) w1) as (w' & v' & st' & Hrun' & Hat' & Hcnt' & Hin' & Hb');
      [by rewrite Hc1|done|by rewrite Hst1| |by rewrite <- Hcnt|lia|done|done|].
    { unfold counted. rewrite Hlast. by rewrite (proj2 (Z.ltb_ge _ _) Hgap). }
    exists w', v', st'. split_and!; try done; [cbn [length] in *; lia|]. rewrite Hb', Hb1, <- app_assoc. f_equal.
    unfold BURST_THRESHOLD. destruct (Z.ltb_spec n 50) as [Hlt|Hge].
    + by replace (Z.to_nat (50 - n)) with (S (Z.to_nat (50 - (n + 1)))) by lia.
    + replace (Z.to_nat (50 - n)) with 0%nat by lia. by replace (Z.to_nat (50 - (n + 1))) with 0%nat by lia.
Qed.

(** No event of the path was counted in the last 200 ms, and it is not cut
    off; how many events came before does not matter. *)
Definition quiet_path (t : Z) (st : option PathState) : Prop :=
  match st with
  | None => True
  | Some st => p_bursting st = false ∧ BURST_INTERVAL < t - p_lastEvent st
  end.

(** C26: Bursts are cut off, and only bursts.  Of a burst of events on a
    watched path that was quiet before (never seen, or not cut off and
    without an event in the last 200 ms, however many came earlier), the
    first fifty are queued for the watchers and the rest are dropped: however
    long the burst, the queue grows by at most fifty; and the path counts as
    bursting exactly when there were more. *)
Theorem burst_capped uuid path x uids ev evs v w :
  workspace_in (w_cache w) uuid = Some x → oget path (c_dirs x) = Some uids →
  es_paths (w_loc w) !! uuid = Some v → quiet_path (fe_timestamp ev) (v_paths v !! path) →
  Forall (λ e, fe_watchedPath e = path) (ev :: evs) → rapid (fe_timestamp ev) evs →
  ∃ w' v' st', forM (handleWatchEvent uuid) (ev :: evs) w = (Ok tt, w') ∧
    es_paths (w_loc w') !! uuid = Some v' ∧ v_paths v' !! path = Some st' ∧
    v_batch v' = v_batch v ++ take 50 (ev :: evs) ∧
    p_bursting st' = bool_decide (50 < length (ev :: evs))%nat.
Proof.
  intros Hx Hp Hv Hst Hall Hr.
  destruct (burst_run uuid path x uids ev evs v (default (MkPath 0 0 false None) (v_paths v !! path)) 0 w)
    as (w' & v' & st' & Hrun & [Hv' Hst'] & Hcnt & Hin & Hb); try done.
  { unfold counted. destruct (v_paths v !! path) as [st|]; simpl in *; [|by destruct (_ <? _)].
    destruct Hst as [_ Hlt]. by rewrite (proj2 (Z.ltb_lt _ _) Hlt). }
  { destruct (v_paths v !! path) as [st|]; [by destruct Hst|done]. }
  exists w', v', st'. split_and!; [done..|]. rewrite Hin, Hcnt. unfold BURST_THRESHOLD. case_bool_decide.
  - apply Z.ltb_lt. lia.
  - apply Z.ltb_ge. lia.
Qed.

(** ** An event lost between two steps *)

(** [_process] with another event handled at its last await, after the batch
    was gone through and before it is cleared. *)
Definition process_interleaved (uuid : string) (ev : FSEvent) : M W unit :=
  bind get_loc (λ s,
    match es_paths s !! uuid with
    | None => ret tt
    | Some wState => bind (sync uuid (v_batch wState)) (λ _, bind (handleWatchEvent uuid ev) (λ _, clear_batch uuid))
    end).

(** An event that arrives while a batch is being sent can be lost.  If it is
    handled between the end of the batch and the statement that clears it,
    nothing is sent for it and it is not in the queue afterwards either. *)
Theorem late_event_lost uuid ev x v w w1 :
  workspace_in (w_cache w) uuid = Some x → es_paths (w_loc w) !! uuid = Some v →
  sync uuid (v_batch v) w = (Ok tt, w1) → es_paths (w_loc w1) !! uuid = Some v →
  v_paths v !! fe_watchedPath ev = None →
  ∃ w' v', process_interleaved uuid ev w = (Ok tt, w') ∧ w_out w' = w_out w1 ∧
    es_paths (w_loc w') !! uuid = Some v' ∧ v_batch v' = [].
Proof.
  intros Hx Hv Hs Hv1 Hpath. unfold process_interleaved. mstep by done. rewrite Hv, (bind_ok _ _ _ _ _ Hs).
  unfold handleWatchEvent. rewrite bind_assoc. mstep by done. rewrite Hv1, Hpath. cbv zeta. simpl default.
  set (st := count_event _ _).
  assert (p_bursting st = false ∧ p_count st = 1) as [Hb Hc].
  { split; [done|]. unfold st, count_event. simpl. by destruct (_ <? _). }
  rewrite bind_assoc. mstep by done. rewrite Hb, Hc. cbn [negb andb]. change (BURST_THRESHOLD <? 1) with false. cbv iota.
  rewrite bind_assoc. mstep by done. rewrite bind_assoc. mstep by done. rewrite Hb. mstep by done.
  eexists _, _. split; [done|]. split; [done|].
  split; [simpl; rewrite !lookup_alter_eq, Hv1; simpl; reflexivity|reflexivity].
Qed.
End fs_props.

(** ** Examples: [olga] watches [/workspace/d], where the open document of
    [EnvDocs] and its file differ *)
#[global] Instance first_RandomInt : RandomInt := {| random_int _ _ := 0%nat |}.
#[global] Instance first_RandomIntLaws : RandomIntLaws.
Proof. by split. Qed.
#[global] Instance silent_DocHash : DocHash := {| remote_hash _ _ _ := None |}.

Definition watched_ews : CachedWorkspace := ws_with_dirs [("/workspace/d", ["olga"])] demo_ews.
Definition watched_world : world (gmap string (cval * option Z)) DemoEnv :=
  World {[CACHEKEY_WORKSPACE "ws-1" := (CWorkspace watched_ews, None);
          CACHEKEY_PRESENCE "olga" := (CPresence [("s1", Session active "sock" "gw-1" (Some "ws-1"))], None)]} [] 0 1000
    (es_set_paths {["ws-1" := MkWatch [] ∅ None]} (demo_env_of demo_doc)).
Definition write_at (t : Z) : FSEvent := FsEv "/workspace/d" "/workspace/a" None (Some 5) fs_write t fs_file.

Lemma watched_dirs_ok : dirs_ok (c_dirs watched_ews).
Proof.
  split; [apply NoDup_singleton|]. intros p l. simpl. case_decide; [|done]. intros [= <-].
  split; [done|apply NoDup_singleton].
Qed.
Lemma watched_env_ok : env_ok (w_loc watched_world).
Proof. by apply (demo_env_ok demo_doc). Qed.


Lemma watch_refcount_witness :
  ∃ w' dirs, updateCache "olga" "ws-1" "/workspace/d" false watched_world = (Ok tt, w') ∧
    workspace_in (w_cache w') "ws-1" = Some (ws_with_dirs dirs watched_ews) ∧
    ¬ watches dirs "/workspace/d" "olga".
Proof.
  destruct (watch_refcount "olga" "ws-1" "/workspace/d" false watched_ews watched_world)
    as (w' & dirs & es & Hr & Hx & [_ Hw] & _); [reflexivity|apply watched_dirs_ok|].
  exists w', dirs. split; [exact Hr|]. split; [exact Hx|]. rewrite Hw. by rewrite decide_True.
Defined.

(** The write of a file that is open in an instance that does not answer. *)
Definition remote_ews : CachedWorkspace := ws_with_docs {[7 := "env-2"]} watched_ews.
Definition remote_write : FSEvent := FsEv "/workspace/d" "/workspace/b" None (Some 7) fs_write 10 fs_file.
Definition remote_world : world (gmap string (cval * option Z)) DemoEnv :=
  set_cache (kv_set (CACHEKEY_WORKSPACE "ws-1") (CWorkspace remote_ews, None)) watched_world.

Lemma sync_delivers_witness :
  (∃ w' es users, sync "ws-1" [write_at 10] watched_world = (Ok tt, w') ∧
    events_for watched_ews "olga" [write_at 10] = [write_at 10] ∧ "olga" ∈ users ∧
    w_out w' = es ++ ((λ '(u, sid), batch_msg u sid (events_for watched_ews u [write_at 10]))
                        <$> sessions_in (w_cache watched_world) "ws-1" users)) ∧
  (∃ w' es, sync "ws-1" [write_at 10; remote_write] remote_world = (Throw (PlainError "no reply"), w') ∧
    Forall conflict_msg es ∧ w_out w' = es).
Proof.
  split.
  - destruct (sync_delivers "ws-1" watched_ews [write_at 10] watched_world)
      as (r & w' & es & Hr & _ & _ & _ & Hb); [apply watched_env_ok|reflexivity|apply watched_dirs_ok|].
    rewrite decide_True in Hb by (constructor; [by vm_compute|constructor]). destruct Hb as (-> & users & _ & Hu & Ho).
    exists w', es, users. split; [exact Hr|]. split; [reflexivity|]. split; [apply Hu; by vm_compute|exact Ho].
  - destruct (sync_delivers "ws-1" remote_ews [write_at 10; remote_write] remote_world)
      as (r & w' & es & Hr & Hes & _ & _ & Hb); [apply watched_env_ok|reflexivity|apply watched_dirs_ok|].
    rewrite decide_False in Hb.
    2:{ intros [_ [Hv _]%Forall_cons]%Forall_cons. apply Hv. vm_compute. reflexivity. }
    destruct Hb as [-> Ho]. exists w', es. split; [exact Hr|]. split; [exact Hes|exact Ho].
Defined.

Lemma conflict_detected_witness :
  ∃ w' resolver, check_event "ws-1" watched_ews (write_at 10) watched_world = (Ok true, w') ∧ resolver ∈ ["olga"] ∧
    w_out w' = [Redis "socket.send" (Some (meta_us "olga" "s1"))
                  (SocketSend "olga" "s1" "fs" (FSConflict "ws-1" 5 resolver))].
Proof.
  destruct (conflict_detected "ws-1" watched_ews (write_at 10) 5 0 demo_doc "theirs" watched_world)
    as [_ Hc]; try reflexivity; [apply watched_env_ok|done|done|].
  destruct Hc as (w' & resolver & Hr & Hres & _ & Ho); [done|]. exists w', resolver. split; [exact Hr|]. by split.
Defined.

(** Forty events came long before. *)
Definition busy_watch : WatchState := MkWatch [] {["/workspace/d" := MkPath 10 40 false None]} None.
Definition busy_world : world (gmap string (cval * option Z)) DemoEnv :=
  set_loc (es_set_paths {["ws-1" := busy_watch]}) watched_world.
Lemma burst_capped_witness :
  ∃ w' v' st', forM (handleWatchEvent "ws-1") (write_at 500 :: replicate 59 (write_at 510)) busy_world = (Ok tt, w') ∧
    es_paths (w_loc w') !! "ws-1" = Some v' ∧ v_paths v' !! "/workspace/d" = Some st' ∧
    length (v_batch v') = 50%nat ∧ p_bursting st' = true.
Proof.
  destruct (burst_capped "ws-1" "/workspace/d" watched_ews ["olga"] (write_at 500) (replicate 59 (write_at 510))
    busy_watch busy_world) as (w' & v' & st' & Hr & Hv & Hp & Hb & Hf); try reflexivity.
  { split; [reflexivity|]. vm_compute. reflexivity. }
  { repeat constructor. }
  { vm_compute. repeat split; discriminate. }
  exists w', v', st'. split; [exact Hr|]. split; [exact Hv|]. split; [exact Hp|].
  split; [rewrite Hb; vm_compute; reflexivity|rewrite Hf; vm_compute; reflexivity].
Defined.

Lemma late_event_lost_witness :
  ∃ w' v', process_interleaved "ws-1" (write_at 10) watched_world = (Ok tt, w') ∧ w_out w' = [] ∧
    es_paths (w_loc w') !! "ws-1" = Some v' ∧ v_batch v' = [].
Proof.
  exact (late_event_lost "ws-1" (write_at 10) watched_ews (MkWatch [] ∅ None) watched_world watched_world
    eq_refl eq_refl eq_refl eq_refl eq_refl).
Defined.
