(* ===== verification/EnvPaths.v ===== *)
(** Paths of file events: [cleanPaths] and [commonParent] of
    [core/fs.service.ts], with the parts of Node's POSIX [path] they use. *)
From S2P Require Import Prelude JS Messages Keys.
From Stdlib Require Import Lia.

Definition slash : ascii := "/"%char.

(** [l.join('/')] *)
Fixpoint join_with (l : list string) : string :=
  match l with
  | [] => ""
  | [s] => s
  | s :: l => s +:+ String slash (join_with l)
  end.

(** Node's [normalizeString] on the segments of a path, the accumulator in
    reverse: empty segments and [.] go, [..] takes the segment before it;
    [above]: a relative path keeps the [..] that have nothing to take. *)
Fixpoint normal_segs (above : bool) (acc segs : list string) : list string :=
  match segs with
  | [] => rev acc
  | s :: segs =>
      if bool_decide (s = "") || bool_decide (s = ".") then normal_segs above acc segs
      else if bool_decide (s = "..") then
        match acc with
        | t :: acc' =>
            if bool_decide (t = "..") then normal_segs above (if above then s :: acc else acc) segs
            else normal_segs above acc' segs
        | [] => normal_segs above (if above then [s] else []) segs
        end
      else normal_segs above (s :: acc) segs
  end.

Definition is_absolute (p : string) : bool :=
  match p with String c _ => bool_decide (c = slash) | EmptyString => false end.

(** [process.cwd()], an absolute path. *)
Class Cwd := { cwd : string }.

Section paths.
Context `{!Cwd}.

(** The segments of [path.resolve(p)]. *)
Definition resolved (p : string) : list string :=
  normal_segs false [] (if is_absolute p then split_on slash p else split_on slash cwd ++ split_on slash p).
Definition resolve (p : string) : string := String slash (join_with (resolved p)).

Definition normalize (p : string) : string :=
  if bool_decide (p = "") then "." else
  let body := join_with (normal_segs (negb (is_absolute p)) [] (split_on slash p)) in
  let trailing := ends_with slash p in
  if bool_decide (body = "") then (if is_absolute p then "/" else if trailing then "./" else ".")
  else (if is_absolute p then "/" else "") +:+ body +:+ (if trailing then "/" else "").
Definition join (l : list string) : string :=
  match List.filter truthy l with [] => "." | l => normalize (join_with l) end.

(** The loop of [commonParent] from an index on. *)
Fixpoint common_from (i : nat) (first : list string) (splitPaths : list (list string)) : list string :=
  match first with
  | [] => []
  | segment :: first =>
      if forallb (λ parts, bool_decide (parts !! i = Some segment)) splitPaths
      then segment :: common_from (S i) first splitPaths else []
  end.

(** [None]: the TypeError of an empty list. *)
Definition commonParent (paths : list string) : option string :=
  let splitPaths := (λ p, split_on slash (resolve p)) <$> paths in
  match splitPaths with
  | [] => None
  | first :: _ => Some ("/" +:+ join (common_from 0 first splitPaths))
  end.

(** ** [cleanPaths] *)
Fixpoint strip (pat s : string) : option string :=
  match pat, s with
  | EmptyString, _ => Some s
  | String a pat, String b s => if decide (a = b) then strip pat s else None
  | String _ _, EmptyString => None
  end.
(** [s.replace(pat, '')]: the first occurrence. *)
Fixpoint replace_first (pat s : string) : string :=
  match strip pat s with
  | Some r => r
  | None => match s with EmptyString => EmptyString | String a s => String a (replace_first pat s) end
  end.
Definition clean_path (p : string) : string :=
  let p := replace_first "/workspace" p in if bool_decide (p = "") then "/" else p.
Definition cleanPaths (event : FSEvent) : FSEvent :=
  FsEv (clean_path (fe_watchedPath event)) (clean_path (fe_path event))
    (match if_truthy (fe_oldPath event) with Some p => Some (clean_path p) | None => fe_oldPath event end)
    (fe_ino event) (fe_action event) (fe_timestamp event) (fe_type event).

(** ** Properties *)
Definition normal_seg (s : string) : Prop := s ≠ "" ∧ s ≠ "." ∧ s ≠ ".." ∧ has_char slash s = false.

Lemma split_on_segs c s x : x ∈ split_on c s → has_char c x = false.
Proof.
  revert x. induction s as [|a s IH]; intros x; simpl; [by intros ->%list_elem_of_singleton|].
  case_decide as Ha.
  - intros [->|Hx]%elem_of_cons; [done|by apply IH].
  - destruct (split_on c s) as [|h t]; intros Hx.
    + apply list_elem_of_singleton in Hx as ->. simpl. by rewrite decide_False.
    + apply elem_of_cons in Hx as [->|Hx]; [simpl; rewrite decide_False by done; apply IH; by left|apply IH; by right].
Qed.

Lemma normal_segs_normal acc segs :
  Forall normal_seg acc → Forall (λ s, has_char slash s = false) segs → Forall normal_seg (normal_segs false acc segs).
Proof.
  revert acc. induction segs as [|s segs IH]; intros acc Ha Hs; simpl; [by apply Forall_rev|].
  inversion_clear Hs as [|? ? Hc Hs']. repeat case_bool_decide; simpl; try (by apply IH).
  - destruct acc as [|t acc]; [by apply IH|]. inversion_clear Ha. case_bool_decide; apply IH; by try constructor.
  - apply IH; [|done]. by constructor.
Qed.

Lemma resolved_normal p : Forall normal_seg (resolved p).
Proof.
  apply normal_segs_normal; [constructor|]. apply Forall_forall. intros s.
  destruct (is_absolute p); [apply split_on_segs|]. intros [Hs|Hs]%elem_of_app; by eapply split_on_segs.
Qed.

(** Normal segments are kept, and come back from the joined path. *)
Lemma normal_segs_id above acc segs : Forall normal_seg segs → normal_segs above acc segs = rev acc ++ segs.
Proof.
  revert acc. induction segs as [|s segs IH]; intros acc Hs; simpl; [by rewrite app_nil_r|].
  inversion_clear Hs as [|? ? Hn Hs']. destruct Hn as (H1 & H2 & H3 & _).
  rewrite (bool_decide_false _ H1), (bool_decide_false _ H2), (bool_decide_false _ H3). simpl.
  rewrite IH by done. simpl. by rewrite <- app_assoc.
Qed.
Lemma split_join l : l ≠ [] → Forall normal_seg l → split_on slash (join_with l) = l.
Proof.
  induction l as [|s l IH]; intros Hl Hs; [done|]. inversion_clear Hs as [|? ? Hn Hs']. destruct Hn as (_ & _ & _ & Hc).
  destruct l as [|t l]; simpl; [by apply split_on_nochar|]. rewrite split_on_app by done. f_equal. by apply IH.
Qed.
Lemma join_head l : l ≠ [] → Forall normal_seg l → join_with l ≠ "" ∧ is_absolute (join_with l) = false.
Proof.
  destruct l as [|s l]; [done|]. intros _ Hs. inversion_clear Hs as [|? ? Hn Hs']. destruct Hn as (Hne & _ & _ & Hc).
  destruct s as [|c s]; [done|]. simpl in Hc. case_decide as Hd; [done|].
  destruct l; unfold String.app; simpl; (split; [done|]); by apply bool_decide_false.
Qed.
Lemma ends_with_app c a s : s ≠ "" → ends_with c (a +:+ s) = ends_with c s.
Proof.
  intros Hs. induction a as [|x a IH]; [done|]. change (String x a +:+ s) with (String x (a +:+ s)). cbn [ends_with].
  destruct (a +:+ s) eqn:He; [destruct a; by simplify_eq/=|exact IH].
Qed.
Lemma ends_with_nochar c s : has_char c s = false → ends_with c s = false.
Proof.
  induction s as [|a s IH]; simpl; [done|]. case_decide; [done|]. intros Hc. destruct s; [by apply bool_decide_false|by apply IH].
Qed.
Lemma join_end l : l ≠ [] → Forall normal_seg l → ends_with slash (join_with l) = false.
Proof.
  induction l as [|s l IH]; intros Hl Hs; [done|]. inversion_clear Hs as [|? ? Hn Hs']. destruct Hn as (_ & _ & _ & Hc).
  destruct l as [|t l]; [by apply ends_with_nochar|]. change (join_with (s :: t :: l)) with (s +:+ String slash (join_with (t :: l))). rewrite ends_with_app by done.
  specialize (IH ltac:(done) Hs'). destruct (join_head (t :: l) ltac:(done) Hs') as [Hne _].
  destruct (join_with (t :: l)) as [|c r] eqn:Hj; [done|]. exact IH.
Qed.

Lemma normalize_join l : l ≠ [] → Forall normal_seg l → normalize (join_with l) = join_with l.
Proof.
  intros Hl Hs. destruct (join_head l Hl Hs) as [Hne Habs]. unfold normalize. rewrite bool_decide_false, Habs by done.
  cbn [negb]. rewrite split_join, normal_segs_id by done. cbn [rev app]. rewrite bool_decide_false, join_end by done.
  cbv beta zeta iota. rewrite append_nil_r. done.
Qed.
Lemma join_normal l : l ≠ [] → Forall normal_seg l → join ("" :: l) = join_with l.
Proof.
  intros Hl Hs. unfold join. change (List.filter truthy ("" :: l)) with (List.filter truthy l).
  assert (List.filter truthy l = l) as ->.
  { clear Hl. induction Hs as [|s l Hn _ IH]; [done|]. destruct Hn as [Hne _]. simpl. unfold truthy at 1.
    by rewrite bool_decide_true, IH. }
  destruct l as [|s l]; [done|]. by apply normalize_join.
Qed.

(** What the loop collects. *)
Lemma common_from_spec i first l :
  let r := common_from i first l in
  r `prefix_of` first ∧
  (∀ j s, r !! j = Some s → ∀ parts, parts ∈ l → parts !! (i + j)%nat = Some s) ∧
  (∀ j s, first !! j = Some s → (∀ k, (k ≤ j)%nat → ∀ parts, parts ∈ l → parts !! (i + k)%nat = first !! k) → r !! j = Some s).
Proof.
  revert i. induction first as [|s first IH]; intros i; simpl.
  { split; [by exists []|]. split; by intros ? ?. }
  destruct (forallb _ l) eqn:Hall.
  - destruct (IH (S i)) as ((k & Hk) & Hin & Hmax). split; [exists k; simpl; by rewrite <- Hk|]. split.
    + intros [|j] x; simpl.
      * intros [= <-] parts Hp. rewrite Nat.add_0_r. rewrite forallb_forall in Hall.
        apply list_elem_of_In in Hp. by apply Hall, bool_decide_eq_true in Hp.
      * intros Hx parts Hp. rewrite <- plus_n_Sm. by apply (Hin j x Hx).
    + intros [|j] x; simpl; [done|]. intros Hx Hle. apply Hmax; [done|]. intros k' Hk' parts Hp.
      specialize (Hle (S k') ltac:(lia) parts Hp). by rewrite <- plus_n_Sm in Hle.
  - split; [by exists (s :: first)|]. split; [done|]. intros j x Hx Hle. exfalso.
    apply not_true_iff_false in Hall. apply Hall, forallb_forall. intros parts Hp. apply list_elem_of_In in Hp.
    apply bool_decide_eq_true. specialize (Hle 0%nat ltac:(lia) parts Hp). by rewrite Nat.add_0_r in Hle.
Qed.

Lemma split_resolve p : split_on slash (resolve p) = "" :: (match resolved p with [] => [""] | l => l end).
Proof.
  unfold resolve. change (String slash (join_with (resolved p))) with ("" +:+ String slash (join_with (resolved p))).
  rewrite split_on_app by done. f_equal. destruct (resolved p) as [|s l] eqn:Hr; [done|].
  rewrite <- Hr. apply split_join; [by rewrite Hr|apply resolved_normal].
Qed.

(** The deepest directory above all resolved paths. *)
Definition deepest (paths : list string) (l : list string) : Prop :=
  (∀ p, p ∈ paths → l `prefix_of` resolved p) ∧
  (∀ l', (∀ p, p ∈ paths → l' `prefix_of` resolved p) → l' `prefix_of` l).

Lemma prefix_by_lookup {B} (l k : list B) : (∀ j x, l !! j = Some x → k !! j = Some x) → l `prefix_of` k.
Proof.
  revert k. induction l as [|x l IH]; intros k Hlk; [by exists k|].
  pose proof (Hlk 0%nat x eq_refl) as H0. destruct k as [|y k]; simplify_eq/=.
  apply prefix_cons, IH. intros j z Hj. exact (Hlk (S j) z Hj).
Qed.

(** The segments after the root's empty one. *)
Definition below_root (p : string) : list string := match resolved p with [] => [""] | l => l end.
Lemma below_root_nil p : resolved p = [] → below_root p = [""].
Proof. unfold below_root. by intros ->. Qed.
Lemma below_root_ne p : resolved p ≠ [] → below_root p = resolved p.
Proof. unfold below_root. by destruct (resolved p). Qed.

Lemma common_run p0 ps :
  let l := common_from 1 (below_root p0) ((λ p, split_on slash (resolve p)) <$> p0 :: ps) in
  commonParent (p0 :: ps) = Some ("/" +:+ join ("" :: l)).
Proof.
  unfold commonParent. cbn [fmap list_fmap]. rewrite !split_resolve. fold (below_root p0). cbn [common_from].
  set (b := forallb _ _). assert (b = true) as ->; [|done].
  apply forallb_forall. intros parts [<-|Hin]; [done|]. apply list_elem_of_In, list_elem_of_fmap in Hin as (p & -> & _).
  by rewrite split_resolve.
Qed.

Lemma common_elem p0 ps j s p :
  common_from 1 (below_root p0) ((λ p, split_on slash (resolve p)) <$> p0 :: ps) !! j = Some s →
  p ∈ p0 :: ps → below_root p !! j = Some s.
Proof.
  intros Hj Hp. destruct (common_from_spec 1 (below_root p0) ((λ p, split_on slash (resolve p)) <$> p0 :: ps)) as (_ & Hin & _).
  specialize (Hin j s Hj (split_on slash (resolve p))). rewrite split_resolve in Hin. apply Hin.
  apply list_elem_of_fmap. exists p. by rewrite split_resolve.
Qed.

(** The common parent of some paths is the deepest directory above all of
    them, unless that is the root, which comes out as [/.]. *)
Lemma commonParent_deepest p0 ps :
  ∃ l, deepest (p0 :: ps) l ∧
    commonParent (p0 :: ps) = Some (match l with [] => "/." | _ => String slash (join_with l) end).
Proof.
  rewrite common_run. cbv zeta. set (l := common_from 1 _ _).
  assert (∀ j s p, l !! j = Some s → p ∈ p0 :: ps → below_root p !! j = Some s) as Hl by (intros; by eapply common_elem).
  destruct (decide (Exists (λ p, resolved p = []) (p0 :: ps))) as [Hex|Hall].
  - apply Exists_exists in Hex as (p & Hp & Hr). exists []. split.
    + split; [intros; by apply prefix_nil|]. intros l' Hl'. specialize (Hl' p Hp). by rewrite Hr in Hl'.
    + assert (List.filter truthy l = []) as Hf.
      { assert (Forall (λ s, s = "") l) as Hs.
        { apply Forall_lookup. intros j s Hj. specialize (Hl j s p Hj Hp). rewrite below_root_nil in Hl by done.
          destruct j; [by injection Hl|done]. }
        clear Hl. induction Hs as [|s l' -> _ IH]; [done|exact IH]. }
      unfold join. change (List.filter truthy ("" :: l)) with (List.filter truthy l). by rewrite Hf.
  - assert (∀ p, p ∈ p0 :: ps → below_root p = resolved p) as Hb.
    { intros p Hp. apply below_root_ne. intros Hr. apply Hall, Exists_exists. eauto. }
    assert (deepest (p0 :: ps) l) as Hd.
    { split.
      - intros p Hp. rewrite <- Hb by done. apply prefix_by_lookup. intros j s Hj. by apply Hl.
      - intros l' Hl'. apply prefix_by_lookup. intros j s Hj.
        destruct (common_from_spec 1 (below_root p0) ((λ p, split_on slash (resolve p)) <$> p0 :: ps)) as (_ & _ & Hmax).
        apply Hmax; [rewrite Hb by left; by eapply prefix_lookup_Some, Hl'; [|left]|].
        intros k Hk parts (p & -> & Hp)%list_elem_of_fmap. rewrite split_resolve.
        change (below_root p !! k = below_root p0 !! k).
        assert (is_Some (l' !! k)) as [y Hy] by (apply lookup_lt_is_Some_2; apply lookup_lt_Some in Hj; lia).
        rewrite (Hb p), (Hb p0) by (done || left).
        rewrite (prefix_lookup_Some _ _ _ _ Hy (Hl' p Hp)), (prefix_lookup_Some _ _ _ _ Hy (Hl' p0 ltac:(left))). done. }
    exists l. split; [done|]. destruct l as [|s l'] eqn:Hle; [done|]. rewrite join_normal; [done..|].
    destruct Hd as [Hd _]. destruct (Hd p0 ltac:(left)) as [k Hk]. pose proof (resolved_normal p0) as Hn.
    rewrite Hk in Hn. by apply Forall_app in Hn as [Hn _].
Qed.
End paths.

Lemma strip_app pat s : strip pat (pat +:+ s) = Some s.
Proof.
  induction pat as [|a pat IH]; [done|]. change (String a pat +:+ s) with (String a (pat +:+ s)). simpl. by rewrite decide_True.
Qed.
(** A path below the root loses the root, and the root itself becomes [/]. *)
Lemma clean_path_below p : clean_path ("/workspace" +:+ p) = if bool_decide (p = "") then "/" else p.
Proof.
  unfold clean_path. assert (replace_first "/workspace" ("/workspace" +:+ p) = p) as ->; [|done].
  change ("/workspace" +:+ p) with (String "/"%char ("workspace" +:+ p)). cbn [replace_first].
  change (String "/"%char ("workspace" +:+ p)) with ("/workspace" +:+ p). by rewrite strip_app.
Qed.

Example common_dir :
  commonParent (H := {| cwd := "/app" |}) ["/workspace/a/x"; "/workspace/a/b/../y"] = Some "/workspace/a".
Proof. vm_compute. reflexivity. Qed.
Example common_root : commonParent (H := {| cwd := "/app" |}) ["/a"; "/b"] = Some "/.".
Proof. vm_compute. reflexivity. Qed.
