(* ===== verification/EnvSSH.v ===== *)
(** Terminals: [core/sshproxy.service.ts].  An instance keeps one SSH
    connection per user and workspace, with a shell per terminal; the
    workspace's cache entry says which instance serves a session's terminals,
    and the gateway routes by it. *)
From S2P Require Import Prelude JS Messages Keys Interfaces Presence EnvState.
From Stdlib Require Import Lia.

(** The [ssh2] package: whether it can read a private key. *)
Class SshKeys := { key_parses : string → bool }.

Section ssh.
Context {C Y A F : Type} `{!Cache C, !Env, !Random} {Keys : SshKeys}.
Abbreviation W := (world C (EnvState Y A F)).
Local Open Scope mon_scope.

(** [this.conns[uid]?.[uuid]] *)
Definition conn_of (s : EnvState Y A F) (uid uuid : string) : option SSHConn := es_conns s !! uid ≫= (.!! uuid).
Definition set_conn (uid uuid : string) (c : SSHConn) : M W unit :=
  put_loc (λ s, es_set_conns (alter (<[uuid := c]>) uid (es_conns s)) s).

(** Messages to the client carry no [meta] here. *)
Definition ssh_send (uid sessionId : string) (msg : OutMsg) : M W unit :=
  emit (Redis "socket.send" None (SocketSend uid sessionId "ssh" msg)).

(** [new SSHClient()] *)
Definition new_client : M W nat := λ w, (Ok (w_rng w), tick_rng w).

(** ** Requests *)
Definition on_k8s_dev : bool :=
  bool_decide (env "NODE_ENV" = Some "development") && otruthy (env "HIDE_ENV_ON_K8s").

(** [conn.connect] throws at once when it cannot read the key. *)
Definition handleNewSSHConnection (uid sessionId uuid privateKey : string) : M W unit :=
  conn <- new_client ;;
  if negb (key_parses privateKey) then throw (PlainError "Cannot parse privateKey") else
  emit (Ssh conn (if on_k8s_dev then SshConnect "host.docker.internal" 2222 "devuser" privateKey
                  else SshConnect ("workspace-" +:+ uuid) 22 "devuser" privateKey)).

Definition handleNewSSHSession (uid uuid : string) : M W unit :=
  s <- get_loc ;;
  match conn_of s uid uuid with
  | Some c => emit (Ssh (cn_conn c) (SshShell "xterm"))
  | None => throw TypeError
  end.

Definition handleSSHConnection (uid sessionId uuid privateKey : string) : M W unit :=
  s <- get_loc ;;
  match es_conns s !! uid with
  | None => put_loc (λ s, es_set_conns (<[uid := ∅]> (es_conns s)) s)
  | Some _ => ret tt
  end ;;;
  match conn_of s uid uuid with
  | None => handleNewSSHConnection uid sessionId uuid privateKey
  | Some _ => handleNewSSHSession uid uuid
  end.

(** [add]: the user to open a shell for. *)
Definition updateConnCache (sessionId wsUuid : string) (add : option string) : M W unit :=
  workspace <- cache_workspace wsUuid ;;
  match workspace with
  | None => ret tt
  | Some x =>
      id <- getInstanceId ;;
      let sshs := match add with
                  | Some _ => <[sessionId := id]> (c_sshs x)
                  | None => delete sessionId (c_sshs x)
                  end in
      cache_set (CACHEKEY_WORKSPACE wsUuid) (CWorkspace (ws_with_sshs sshs x)) None ;;;
      match add with Some uid => handleNewSSHSession uid wsUuid | None => ret tt end
  end.

(** When there is no connection but the user has, or had, one to some
    workspace, the property [sessions] of [undefined] is read. *)
Definition handleSSHClose (uid sessionId uuid sshSessionId : string) : M W unit :=
  s <- get_loc ;;
  let conn := conn_of s uid uuid in
  if bool_decide (sshSessionId = "#all") then
    match conn with
    | Some c =>
        forM (λ sid, emit (Ssh (cn_conn c) (SshCloseShell sid))) (cn_sessions c) ;;;
        emit (Ssh (cn_conn c) SshEnd)
    | None => ret tt
    end ;;;
    updateConnCache sessionId uuid None
  else
    match conn with
    | Some c => if includes sshSessionId (cn_sessions c)
                then emit (Ssh (cn_conn c) (SshCloseShell sshSessionId)) else ret tt
    | None => ret tt
    end ;;;
    match es_conns s !! uid, conn with
    | None, _ => updateConnCache sessionId uuid None
    | Some _, None => throw TypeError
    | Some _, Some c =>
        match cn_sessions c with [] => updateConnCache sessionId uuid None | _ => ret tt end
    end.

Definition handleSSHData (uid uuid sshSessionId input : string) : M W unit :=
  s <- get_loc ;;
  match es_conns s !! uid with
  | None => ret tt
  | Some conns =>
      match conns !! uuid with
      | None => throw TypeError
      | Some c => if includes sshSessionId (cn_sessions c)
                  then emit (Ssh (cn_conn c) (SshWrite sshSessionId input)) else ret tt
      end
  end.

(** ** Events of the connection and of its shells *)
Definition conn_ready (conn : nat) (uid sessionId uuid : string) : M W unit :=
  s <- get_loc ;;
  match es_conns s !! uid with
  | None => throw TypeError
  | Some _ =>
      set_conn uid uuid (MkConn conn sessionId []) ;;;
      updateConnCache sessionId uuid (Some uid)
  end.
Definition conn_error (uid sessionId : string) : M W unit :=
  ssh_send uid sessionId (SSHError "SSH connection failed").
Definition conn_close (uid sessionId uuid : string) : M W unit :=
  put_loc (λ s, es_set_conns (alter (delete uuid) uid (es_conns s)) s) ;;;
  updateConnCache sessionId uuid None.

(** The callback of [conn.shell]. *)
Definition shell_started (ok : bool) (uid sessionId uuid clientId : string) : M W unit :=
  if ok then
    sshSessionId <- randomUUID ;;
    s <- get_loc ;;
    match conn_of s uid uuid with
    | None => throw TypeError
    | Some c =>
        set_conn uid uuid (MkConn (cn_conn c) (cn_sessionId c) (cn_sessions c ++ [sshSessionId])) ;;;
        ssh_send uid sessionId (SSHOpen sshSessionId clientId)
    end
  else
    ssh_send uid sessionId (SSHError "Failed to start shell") ;;;
    handleSSHClose uid sessionId uuid "".
Definition shell_data (uid sessionId sshSessionId data : string) : M W unit :=
  ssh_send uid sessionId (SSHOutput sshSessionId data).
Definition shell_closed (uid sessionId sshSessionId : string) : M W unit :=
  ssh_send uid sessionId (SSHClosed sshSessionId None).

(** One step of the terminals of an instance. *)
Inductive ssh_op :=
| SRequest (uid sessionId uuid privateKey : string)
| SInput (uid uuid sshSessionId input : string)
| SClose (uid sessionId uuid sshSessionId : string)
| SReady (conn : nat) (uid sessionId uuid : string)
| SError (uid sessionId : string)
| SConnClose (uid sessionId uuid : string)
| SShell (ok : bool) (uid sessionId uuid clientId : string)
| SOutput (uid sessionId sshSessionId data : string)
| SShellClosed (uid sessionId sshSessionId : string).

Definition ssh_step (o : ssh_op) : M W unit :=
  match o with
  | SRequest u sid x k => handleSSHConnection u sid x k
  | SInput u x sh i => handleSSHData u x sh i
  | SClose u sid x sh => handleSSHClose u sid x sh
  | SReady c u sid x => conn_ready c u sid x
  | SError u sid => conn_error u sid
  | SConnClose u sid x => conn_close u sid x
  | SShell ok u sid x cl => shell_started ok u sid x cl
  | SOutput u sid sh d => shell_data u sid sh d
  | SShellClosed u sid sh => shell_closed u sid sh
  end.
End ssh.
