(* ===== verification/EnvSSHProps.v ===== *)
(** Terminals: the life of a connection, the terminal of a second session,
    and closed shells that are kept. *)
From S2P Require Import Prelude JS Messages Keys Interfaces Fixtures GwMembership Presence Socket EnvState EnvSync EnvSyncProps EnvDocs EnvSSH.
From Stdlib Require Import Lia.

Section ssh_props.
Context {C Y A F : Type} `{!Cache C, !CacheLaws C, !Env, !Random} {Keys : SshKeys}.
Abbreviation W := (world C (EnvState Y A F)).
Implicit Types (w : W) (x : CachedWorkspace) (c : SSHConn).

Lemma conn_of_insert (s : EnvState Y A F) uid uuid c conns :
  es_conns s !! uid = Some conns →
  conn_of (es_set_conns (alter (<[uuid := c]>) uid (es_conns s)) s) uid uuid = Some c.
Proof. intros Hc. unfold conn_of. simpl. rewrite lookup_alter_eq, Hc. simpl. apply lookup_insert_eq. Qed.
Lemma conn_of_delete (s : EnvState Y A F) uid uuid :
  conn_of (es_set_conns (alter (delete uuid) uid (es_conns s)) s) uid uuid = None.
Proof.
  unfold conn_of. simpl. rewrite lookup_alter_eq. destruct (es_conns s !! uid); simpl; [|done]. apply lookup_delete_eq.
Qed.
Lemma conn_of_user (s : EnvState Y A F) uid uuid c : conn_of s uid uuid = Some c → ∃ conns, es_conns s !! uid = Some conns.
Proof. unfold conn_of. destruct (es_conns s !! uid); [eauto|done]. Qed.

Lemma handleNewSSHSession_run uid uuid c w :
  conn_of (w_loc w) uid uuid = Some c →
  handleNewSSHSession uid uuid w = (Ok tt, add_out (Ssh (cn_conn c) (SshShell "xterm")) w).
Proof. intros Hc. unfold handleNewSSHSession. mstep by done. by rewrite Hc. Qed.

(** The cache entry after a registration or its removal. *)
Definition registered (sid id : string) x : CachedWorkspace := ws_with_sshs (<[sid := id]> (c_sshs x)) x.
Definition unregistered (sid : string) x : CachedWorkspace := ws_with_sshs (delete sid (c_sshs x)) x.
Definition cache_ws (uuid : string) x w : W :=
  set_cache (kv_set (CACHEKEY_WORKSPACE uuid) (CWorkspace x, None)) w.

Lemma updateConnCache_remove sid uuid x w :
  workspace_in (w_cache w) uuid = Some x →
  updateConnCache sid uuid None w = (Ok tt, cache_ws uuid (unregistered sid x) w).
Proof. intros Hx. unfold updateConnCache. mstep by done. rewrite Hx. mstep by done. mstep by done. done. Qed.
Lemma updateConnCache_add sid uid uuid x c w :
  workspace_in (w_cache w) uuid = Some x → conn_of (w_loc w) uid uuid = Some c →
  updateConnCache sid uuid (Some uid) w =
    (Ok tt, add_out (Ssh (cn_conn c) (SshShell "xterm")) (cache_ws uuid (registered sid (es_id (w_loc w)) x) w)).
Proof.
  intros Hx Hc. unfold updateConnCache. mstep by done. rewrite Hx. mstep by done. mstep by done.
  by apply handleNewSSHSession_run.
Qed.

Lemma shell_started_run uid sid uuid client c w :
  conn_of (w_loc w) uid uuid = Some c →
  ∃ w', shell_started true uid sid uuid client w = (Ok tt, w') ∧ w_cache w' = w_cache w ∧
    conn_of (w_loc w') uid uuid = Some (MkConn (cn_conn c) (cn_sessionId c) (cn_sessions c ++ [uuid_of (w_rng w)])) ∧
    w_loc w' = es_set_conns (alter (<[uuid := MkConn (cn_conn c) (cn_sessionId c) (cn_sessions c ++ [uuid_of (w_rng w)])]>) uid
      (es_conns (w_loc w))) (w_loc w) ∧
    w_out w' = w_out w ++ [Redis "socket.send" None (SocketSend uid sid "ssh" (SSHOpen (uuid_of (w_rng w)) client))].
Proof.
  intros Hc. destruct (conn_of_user _ _ _ _ Hc) as [conns Hu]. unfold shell_started. mstep by done. mstep by done.
  change (w_loc (tick_rng w)) with (w_loc w). rewrite Hc. mstep by done. eexists. split; [done|]. split; [done|].
  split; [by apply (conn_of_insert _ _ _ _ conns)|]. done.
Qed.

(** The connections of an instance once a user has asked for a terminal. *)
Definition with_user (uid : string) (conns : gmap string (gmap string SSHConn)) : gmap string (gmap string SSHConn) :=
  <[uid := default ∅ (conns !! uid)]> conns.

Lemma handleSSHConnection_first uid sid uuid key w :
  conn_of (w_loc w) uid uuid = None → on_k8s_dev = false →
  handleSSHConnection uid sid uuid key w =
    let w' := tick_rng (set_loc (λ s, es_set_conns (with_user uid (es_conns s)) s) w) in
    if key_parses key then (Ok tt, add_out (Ssh (w_rng w) (SshConnect ("workspace-" +:+ uuid) 22 "devuser" key)) w')
    else (Throw (PlainError "Cannot parse privateKey"), w').
Proof.
  intros Hc Hdev. unfold handleSSHConnection. mstep by done. rewrite Hc. unfold handleNewSSHConnection. rewrite Hdev.
  destruct (es_conns (w_loc w) !! uid) as [conns|] eqn:Hu; mstep by done; mstep by done.
  - assert (set_loc (λ s, es_set_conns (with_user uid (es_conns s)) s) w = w) as ->.
    { unfold set_loc, with_user. rewrite Hu, insert_id by done. by destruct w as [? ? ? ? []]. }
    by destruct (key_parses key).
  - assert (set_loc (λ s, es_set_conns (with_user uid (es_conns s)) s) w =
      set_loc (λ s, es_set_conns (<[uid := ∅]> (es_conns s)) s) w) as ->.
    { unfold set_loc, with_user. by rewrite Hu. }
    by destruct (key_parses key).
Qed.

(** A connection that is opened, changed and closed leaves the others. *)
Lemma reopened_conns uid uuid (conns : gmap string (gmap string SSHConn)) c c' :
  (conns !! uid ≫= (.!! uuid)) = None →
  alter (delete uuid) uid (alter (<[uuid := c']>) uid (alter (<[uuid := c]>) uid (with_user uid conns))) = with_user uid conns.
Proof.
  intros Hc. unfold with_user. rewrite !alter_insert_eq. f_equal. rewrite insert_insert_eq, delete_insert_id; [done|].
  destruct (conns !! uid); [done|apply lookup_empty].
Qed.

Lemma handleSSHData_run uid uuid c sh input w :
  conn_of (w_loc w) uid uuid = Some c → includes sh (cn_sessions c) = true →
  handleSSHData uid uuid sh input w = (Ok tt, add_out (Ssh (cn_conn c) (SshWrite sh input)) w).
Proof.
  intros Hc Hin. unfold handleSSHData. mstep by done. unfold conn_of in Hc.
  destruct (es_conns (w_loc w) !! uid) as [conns|]; [|done]. simpl in Hc. by rewrite Hc, Hin.
Qed.

(** C30: The life of a terminal.  A first request whose key can be read
    connects to the workspace's container; once connected, the session is
    registered in the cache with this instance and a shell is asked for; once
    the shell is there the client is told its id, and input with that id is
    written to that shell of that connection.  When the connection closes,
    the cache entry of the workspace is what it was, and so is the state of
    the instance, but that it now has a record of the user's connections:
    input that comes late then throws.  A request whose key cannot be read
    throws, and leaves that record only. *)
Theorem terminal_lifecycle uid sid uuid key client x conn w :
  workspace_in (w_cache w) uuid = Some x → conn_of (w_loc w) uid uuid = None →
  c_sshs x !! sid = None → on_k8s_dev = false →
  let sh := uuid_of (S (w_rng w)) in
  let known := es_set_conns (with_user uid (es_conns (w_loc w))) (w_loc w) in
  if key_parses key then
    ∃ w1 w2 w3, handleSSHConnection uid sid uuid key w = (Ok tt, w1) ∧
      w_out w1 = w_out w ++ [Ssh (w_rng w) (SshConnect ("workspace-" +:+ uuid) 22 "devuser" key)] ∧
      w_cache w1 = w_cache w ∧
      conn_ready conn uid sid uuid w1 = (Ok tt, w2) ∧
      workspace_in (w_cache w2) uuid = Some (registered sid (es_id (w_loc w)) x) ∧
      w_out w2 = w_out w1 ++ [Ssh conn (SshShell "xterm")] ∧
      shell_started true uid sid uuid client w2 = (Ok tt, w3) ∧
      w_out w3 = w_out w2 ++ [Redis "socket.send" None (SocketSend uid sid "ssh" (SSHOpen sh client))] ∧
      (∀ input, handleSSHData uid uuid sh input w3 = (Ok tt, add_out (Ssh conn (SshWrite sh input)) w3)) ∧
      ∃ w4, conn_close uid sid uuid w3 = (Ok tt, w4) ∧
        w_loc w4 = known ∧ workspace_in (w_cache w4) uuid = Some x ∧ w_out w4 = w_out w3 ∧
        ∀ input, handleSSHData uid uuid sh input w4 = (Throw TypeError, w4)
  else ∃ w1, handleSSHConnection uid sid uuid key w = (Throw (PlainError "Cannot parse privateKey"), w1) ∧
    w_loc w1 = known ∧ w_cache w1 = w_cache w ∧ w_out w1 = w_out w.
Proof.
  intros Hx Hc Hs Hdev sh known. pose proof (handleSSHConnection_first uid sid uuid key w Hc Hdev) as H1. cbv zeta in H1.
  destruct (key_parses key); [|by eexists]. set (w1 := add_out _ _) in H1.
  assert (es_conns (w_loc w1) !! uid = Some (default ∅ (es_conns (w_loc w) !! uid))) as Hu1 by apply lookup_insert_eq.
  set (c1 := MkConn conn sid []).
  set (w1' := set_loc (λ s, es_set_conns (alter (<[uuid := c1]>) uid (es_conns s)) s) w1).
  assert (conn_of (w_loc w1') uid uuid = Some c1) as Hcn by by eapply conn_of_insert.
  assert (conn_ready conn uid sid uuid w1 =
    (Ok tt, add_out (Ssh conn (SshShell "xterm")) (cache_ws uuid (registered sid (es_id (w_loc w)) x) w1'))) as H2.
  { unfold conn_ready. mstep by done. rewrite Hu1. mstep by done. fold c1 w1'.
    by erewrite (updateConnCache_add sid uid uuid x); [|done|exact Hcn]. }
  set (w2 := add_out _ _) in H2.
  destruct (shell_started_run uid sid uuid client c1 w2 Hcn) as (w3 & H3 & Hc3 & Hcn3 & Hl3 & Ho3).
  change (w_rng w2) with (S (w_rng w)) in *. fold sh in Hcn3, Hl3, Ho3.
  assert (workspace_in (w_cache w2) uuid = Some (registered sid (es_id (w_loc w)) x)) as Hx2 by apply workspace_in_set_eq.
  exists w1, w2, w3. do 8 (split; [done|]). split.
  { intros input. by apply (handleSSHData_run _ _ _ _ _ _ Hcn3), (proj2 (includes_spec sh [sh])), list_elem_of_singleton. }
  unfold conn_close. mstep by done.
  rewrite (updateConnCache_remove sid uuid (registered sid (es_id (w_loc w)) x)) by (simpl; by rewrite Hc3).
  eexists. split; [done|].
  assert (∀ wz : W, w_loc wz = known → ∀ input, handleSSHData uid uuid sh input wz = (Throw TypeError, wz)) as Hlate.
  { intros wz Hz input. unfold handleSSHData. mstep by done. rewrite Hz. unfold known, with_user. simpl.
    rewrite lookup_insert_eq. unfold conn_of in Hc. by destruct (es_conns (w_loc w) !! uid) as [m|]; simpl in *; [rewrite Hc|]. }
  assert (alter (delete uuid) uid (es_conns (w_loc w3)) = with_user uid (es_conns (w_loc w))) as Hback.
  { rewrite Hl3. by apply reopened_conns. }
  split; [|split; [|split; [done|]]].
  - simpl. rewrite Hback, Hl3. done.
  - simpl. rewrite workspace_in_set_eq. f_equal.
    unfold unregistered, registered, ws_with_sshs. simpl. rewrite delete_insert_id by done. by destruct x.
  - apply Hlate. simpl. rewrite Hback, Hl3. done.
Qed.

(** The terminal of a second session is mute.  While a user's connection,
    opened by another of the user's sessions, is there, a terminal request
    from a new session is granted (the client is given a shell) but the new
    session is not registered; the gateway then finds no instance for its
    input, tells the client that all its terminals are closed, and nothing
    reaches the shell. *)
Theorem second_session_mute `{!MembershipRpc, !Auth, !Redlock, !Health, !Users} uid sid uuid key client x c w :
  workspace_in (w_cache w) uuid = Some x → conn_of (w_loc w) uid uuid = Some c → c_sshs x !! sid = None →
  let sh := uuid_of (w_rng w) in
  ∃ w1 w2, handleSSHConnection uid sid uuid key w = (Ok tt, w1) ∧
    shell_started true uid sid uuid client w1 = (Ok tt, w2) ∧ w_cache w2 = w_cache w ∧
    w_out w2 = w_out w ++ [Ssh (cn_conn c) (SshShell "xterm");
                           Redis "socket.send" None (SocketSend uid sid "ssh" (SSHOpen sh client))] ∧
    ∀ (g : world C Gateway) socketId input cid v,
      w_cache g = w_cache w2 → cached_answer (w_cache g) uid uuid = Some v → mtruthy v = true →
      env_healthy "undefined" = false →
      ∃ g', handleEnvMessage socketId uid sid (SSHData uuid sh input) cid g = (Ok tt, g') ∧
        w_out g' = w_out g ++ [ToSocket socketId "ssh" (SSHClosed sh (Some true))].
Proof.
  intros Hx Hc Hs sh. destruct (conn_of_user _ _ _ _ Hc) as [conns Hu].
  set (w1 := add_out (Ssh (cn_conn c) (SshShell "xterm")) w).
  assert (handleSSHConnection uid sid uuid key w = (Ok tt, w1)) as Hreq.
  { unfold handleSSHConnection. mstep by done. rewrite Hu, Hc. mstep by done. by apply handleNewSSHSession_run. }
  destruct (shell_started_run uid sid uuid client c w1 Hc) as (w2 & Hsh2 & Hc2 & _ & _ & Ho2).
  exists w1, w2. do 3 (split; [done|]). split; [rewrite Ho2; simpl; by rewrite <- app_assoc|].
  intros g socketId input cid v Hg Hm Hv Hun. rewrite Hc2 in Hg. change (w_cache w1) with (w_cache w) in Hg.
  unfold handleEnvMessage. mstep by done. cbn [env_uuid]. rewrite Hg, Hx.
  mstep by (rewrite checkMembership_run, Hm; done). rewrite Hv. cbn [negb env_action env_instance].
  rewrite bool_decide_true by (unfold stickyActions; set_solver). cbv zeta. rewrite Hs. change (default "undefined" None) with "undefined". rewrite Hun.
  cbn [negb]. unfold handleSSHSLoss. mstep by done. by eexists.
Qed.

(** What closing one shell does: the shell is closed, the client told. *)
Definition close_trace uid sid c (sh : string) : list effect :=
  [Ssh (cn_conn c) (SshCloseShell sh); Redis "socket.send" None (SocketSend uid sid "ssh" (SSHClosed sh None))].

(** Closed shells are kept.  Closing shells one by one, the last one
    included, closes them and tells the client, and that is all: none is
    removed from the connection, so the session stays registered and the
    connection is never given up. *)
Theorem closed_shells_kept uid sid uuid c shells w :
  conn_of (w_loc w) uid uuid = Some c → (∀ sh, sh ∈ shells → sh ∈ cn_sessions c ∧ sh ≠ "#all") →
  forM (λ sh, bind (handleSSHClose uid sid uuid sh) (λ _, shell_closed uid sid sh)) shells w =
    (Ok tt, add_outs (concat (close_trace uid sid c <$> shells)) w).
Proof.
  intros Hc. revert w Hc. induction shells as [|sh l IH]; intros w Hc Hin; [simpl; by rewrite add_outs_nil|].
  destruct (conn_of_user _ _ _ _ Hc) as [conns Hu]. destruct (Hin sh) as [Hsh Hall]; [set_solver|].
  assert (bind (handleSSHClose uid sid uuid sh) (λ _, shell_closed uid sid sh) w =
    (Ok tt, add_outs (close_trace uid sid c sh) w)) as Hone.
  { unfold handleSSHClose. rewrite bind_assoc. mstep by done. cbv zeta. rewrite bool_decide_false by done.
    rewrite Hc, Hu, (proj2 (includes_spec sh _) Hsh). rewrite bind_assoc. mstep by done.
    destruct (cn_sessions c) as [|h tl] eqn:Hs; [by apply elem_of_nil in Hsh|]. mstep by done.
    unfold shell_closed, ssh_send, emit, modify, add_out, add_outs. simpl. by rewrite <- app_assoc. }
  cbn [forM]. rewrite (bind_ok _ _ _ _ _ Hone), IH, add_outs_add_outs; [done|done|set_solver].
Qed.
End ssh_props.

(** ** Examples *)
Section ssh_examples.
Instance st_Env : Env := {| env _ := None |}.
Instance st_Rpc : MembershipRpc := {| rpc_check u _ := if decide (u = "olga") then Ok (MInfo "img" false) else Throw (RpcException 403 "") |}.
Instance st_Auth : Auth := {| validate_token _ := None |}.
Instance st_Lock : Redlock := {| lock_free _ _ := true; lock_kept _ _ := true |}.
Instance st_Health : Health := {| env_healthy i := bool_decide (i = "env-1") |}.
Instance st_Users : Users := {| users_by_uid _ := [] |}.

Definition term_world (conns : gmap string (gmap string SSHConn)) : world (gmap string (cval * option Z)) DemoEnv :=
  World (<[CACHEKEY_MEMBERSHIP "olga" := (CMembership [("ws-1", MBool true)], None)]>
         {[CACHEKEY_WORKSPACE "ws-1" := (CWorkspace demo_ews, None)]}) [] 0 1000
    (es_set_conns conns (demo_env_of demo_doc)).
Definition olga_conn : SSHConn := MkConn 7 "s1" ["t1"; "t2"].

Instance st_Keys : SshKeys := {| key_parses k := bool_decide (k = "key") |}.

Lemma terminal_lifecycle_witness :
  (∃ w1 w2 w3 w4, handleSSHConnection "olga" "s1" "ws-1" "key" (term_world ∅) = (Ok tt, w1) ∧
    conn_ready 0 "olga" "s1" "ws-1" w1 = (Ok tt, w2) ∧
    shell_started true "olga" "s1" "ws-1" "tab" w2 = (Ok tt, w3) ∧
    handleSSHData "olga" "ws-1" (uuid_of 1) "ls" w3 = (Ok tt, add_out (Ssh 0 (SshWrite (uuid_of 1) "ls")) w3) ∧
    conn_close "olga" "s1" "ws-1" w3 = (Ok tt, w4) ∧ workspace_in (w_cache w4) "ws-1" = Some demo_ews) ∧
  (∃ w1, handleSSHConnection "olga" "s1" "ws-1" "junk" (term_world ∅) = (Throw (PlainError "Cannot parse privateKey"), w1) ∧
    w_out w1 = []).
Proof.
  split.
  - destruct (terminal_lifecycle "olga" "s1" "ws-1" "key" "tab" demo_ews 0 (term_world ∅))
      as (w1 & w2 & w3 & Hr & _ & _ & Hc & _ & _ & Hs & _ & Hd & w4 & Hcl & _ & Hx & _); [reflexivity..|].
    exists w1, w2, w3, w4. split; [exact Hr|]. split; [exact Hc|]. split; [exact Hs|]. split; [exact (Hd "ls")|].
    split; [exact Hcl|exact Hx].
  - destruct (terminal_lifecycle "olga" "s1" "ws-1" "junk" "tab" demo_ews 0 (term_world ∅))
      as (w1 & Hr & _ & _ & Ho); [reflexivity..|]. exists w1. split; [exact Hr|exact Ho].
Defined.

Lemma second_session_mute_witness :
  ∃ w1 w2, handleSSHConnection "olga" "s2" "ws-1" "key" (term_world {["olga" := {["ws-1" := olga_conn]}]}) = (Ok tt, w1) ∧
    shell_started true "olga" "s2" "ws-1" "tab" w1 = (Ok tt, w2) ∧
    ∃ g', handleEnvMessage "sock" "olga" "s2" (SSHData "ws-1" (uuid_of 0) "ls") None
      (World (w_cache w2) [] 0 1000 (MkGateway "gw-1" true [])) = (Ok tt, g') ∧
      w_out g' = [ToSocket "sock" "ssh" (SSHClosed (uuid_of 0) (Some true))].
Proof.
  destruct (second_session_mute "olga" "s2" "ws-1" "key" "tab" demo_ews olga_conn
    (term_world {["olga" := {["ws-1" := olga_conn]}]})) as (w1 & w2 & Hr & Hs & Hca & _ & Hg); [reflexivity..|].
  exists w1, w2. split; [exact Hr|]. split; [exact Hs|].
  apply (Hg (World (w_cache w2) [] 0 1000 (MkGateway "gw-1" true [])) "sock" "ls" None (MBool true)); try reflexivity.
  cbn [w_cache]. rewrite Hca. reflexivity.
Defined.

Lemma closed_shells_kept_witness :
  forM (λ sh, bind (handleSSHClose "olga" "s1" "ws-1" sh) (λ _, shell_closed "olga" "s1" sh)) ["t1"; "t2"]
    (term_world {["olga" := {["ws-1" := olga_conn]}]}) =
  (Ok tt, add_outs (close_trace "olga" "s1" olga_conn "t1" ++ close_trace "olga" "s1" olga_conn "t2")
    (term_world {["olga" := {["ws-1" := olga_conn]}]})).
Proof.
  apply (closed_shells_kept "olga" "s1" "ws-1" olga_conn ["t1"; "t2"]); [reflexivity|].
  intros sh Hsh. split; [done|]. intros ->.
  apply elem_of_cons in Hsh as [?|Hsh]; [done|]. by apply list_elem_of_singleton in Hsh.
Defined.
End ssh_examples.
