(* ===== verification/EnvWs.v ===== *)
(** Opening and closing workspaces, and the dispatch of messages:
    [core/workspace.service.ts] and [core/core.controller.ts]. *)
From S2P Require Import Prelude JS Messages Keys Interfaces GwMembership Presence Socket EnvState EnvSync EnvFS EnvSSH.
From Stdlib Require Import Lia.

(** [POST http://provisioner/api/provision]: [None] when it fails, else
    whether the client has to wait for the container. *)
Class Provisioner := { provision : MemberVal → string → string → string → option bool }.

Section env_ws.
Context {C Y A F : Type} `{!Cache C, !Yjs Y A, !Agent F, !Sha256, !RandomInt, !DocHash,
  !Env, !Random, !MembershipRpc, !Redlock, !Provisioner} {Keys : SshKeys}.
Abbreviation W := (world C (EnvState Y A F)).
Local Open Scope mon_scope.

Definition root : string := "/workspace".
Definition stickyActions : list string :=
  ["fs.sync"; "ssh.data"; "ssh.close"; "workspace.watch"; "doc.hash"; "fs.open.ack"; "fs.conflict.resolve"; "ws.run"].
Definition wsActivityTimeout : Z := nan_or (env_parseInt "WORKSPACE_ACTIVITY_TIMEOUT") 3600000.

Definition acquireLock (uuid : string) : M W (option string) :=
  let key := "locks:workspace:" +:+ uuid in
  t <- now ;;
  if lock_free key t then emit (LockAcquired key) ;;; ret (Some key) else ret None.
Definition release (lock : string) : M W unit :=
  emit (LockReleased lock) ;;;
  t <- now ;;
  if lock_kept lock t then ret tt else throw (PlainError "ExecutionError").

(** [null] when the workspace service refuses or fails. *)
Definition isAMember (uid wsUuid : string) : M W (option MemberVal) :=
  ret (match rpc_check uid wsUuid with Ok v => if mtruthy v then Some v else None | Throw _ => None end).

(** ** Opening a workspace *)
Definition session_at (wsUuid : option string) (x : CachedSession) : CachedSession :=
  Session (s_state x) (s_socketId x) (s_gatewayId x) wsUuid.

(** The body of the loop over [Object.entries(presence)]; the objects of the
    presence are changed in place. *)
Fixpoint detach_all (uid uuid : string) (entries : CachedPresence) : M W CachedPresence :=
  match entries with
  | [] => ret []
  | (sessionId, session) :: entries =>
      session <- (if bool_decide (s_wsUuid session = Some uuid)
                  then cache_del (CACHEKEY_PRESENCE_WORKSPACE uid sessionId uuid) ;;; ret (session_at None session)
                  else ret session) ;;
      rest <- detach_all uid uuid entries ;;
      ret ((sessionId, session) :: rest)
  end.

(** The directories a user watches. *)
Definition dirs_of (uid : string) (x : CachedWorkspace) : list string :=
  fst <$> List.filter (λ '(_, uids), includes uid uids) (c_dirs x).

Definition invalidatePreviousSessions (uid uuid : string) : M W unit :=
  presence <- cache_presence uid ;;
  match presence with
  | None => ret tt
  | Some presence =>
      presence <- detach_all uid uuid presence ;;
      cache_set (CACHEKEY_PRESENCE uid) (CPresence presence) None ;;;
      workspace <- cache_workspace uuid ;;
      match workspace with
      | None => ret tt
      | Some x =>
          x <- closeDirs uid uuid (dirs_of uid x) x ;;
          cache_set (CACHEKEY_WORKSPACE uuid) (CWorkspace x) None
      end
  end.

Definition ws_with_fs (id : string) (x : CachedWorkspace) : CachedWorkspace :=
  CWs (c_state x) id (c_dirs x) (c_docs x) (c_sshs x).

(** Binds the workspace to this instance unless someone is in it. *)
Definition bind_workspace (uuid : string) : M W unit :=
  workspace <- cache_workspace uuid ;;
  id <- getInstanceId ;;
  let '(x, dirty) := match workspace with
                     | None => (CWs active id [] ∅ ∅, true)
                     | Some x => (x, false)
                     end in
  let '(x, dirty) := match c_dirs x with [] => (ws_with_fs id x, true) | _ => (x, dirty) end in
  if dirty then
    emit (Http "GET" ("http://workspace-" +:+ uuid +:+ "/api/affine?envId=" +:+ id)) ;;;
    s <- get_loc ;;
    if ag_affine uuid id (es_files s) then
      setWorkspace uuid ;;;
      cache_set (CACHEKEY_WORKSPACE uuid) (CWorkspace x) None
    else throw (PlainError "UNKNOWN")
  else ret tt.

Definition attach_session (uid sessionId uuid : string) : M W unit :=
  presence <- cache_presence uid ;;
  match presence with
  | Some presence =>
      match oget sessionId presence with
      | Some session =>
          cache_set (CACHEKEY_PRESENCE uid) (CPresence (oset sessionId (session_at (Some uuid) session) presence)) None
      | None => throw TypeError
      end
  | None => ret tt
  end ;;;
  cache_set (CACHEKEY_PRESENCE_WORKSPACE uid sessionId uuid) (CFlag 1) (Some 20000).

Definition handleEnvReady (uid uuid sessionId : string) : M W unit :=
  s <- get_loc ;;
  emit (Http "GET" ("http://workspace-" +:+ uuid +:+ "/ready")) ;;;
  if ag_ready uuid (es_files s) then
    lock <- acquireLock uuid ;;
    match lock with
    | None => throw (PlainError "UNKNOWN")
    | Some lock =>
        try_finally
          (try_catch (invalidatePreviousSessions uid uuid ;;; bind_workspace uuid)
             (λ _, throw (RpcException 500 "UNKNOWN")))
          (release lock) ;;;
        attach_session uid sessionId uuid
    end
  else throw (RpcException 503 "WORKSPACE_UNREACHABLE").

(** Answers whether the client has to wait. *)
Definition handleEnvOpen (uid uuid : string) (sessionId : option string) : M W bool :=
  match if_truthy sessionId with
  | None => throw (RpcException 400 "WORKSPACE_OPEN_INVALID_REQUEST")
  | Some sessionId =>
      workspace <- isAMember uid uuid ;;
      match workspace with
      | None => throw (RpcException 401 "NO_WORKSPACE_MEMBERSHIP")
      | Some workspace =>
          emit (Http "POST" "http://provisioner/api/provision") ;;;
          match provision workspace uuid sessionId uid with
          | None => throw (RpcException 500 "WORKSPACE_OPEN_FAILED")
          | Some true => ret true
          | Some false => handleEnvReady uid uuid sessionId ;;; ret false
          end
      end
  end.

(** ** Closing a workspace *)
Definition close_locked (uid uuid : string) : M W unit :=
  presence <- cache_presence uid ;;
  match presence with
  | None => ret tt
  | Some presence =>
      match ofind (λ session, bool_decide (s_wsUuid session = Some uuid)) presence with
      | None => ret tt
      | Some (sessionId, session) =>
          if negb (truthy sessionId) then ret tt else
          cache_set (CACHEKEY_PRESENCE uid) (CPresence (oset sessionId (session_at None session) presence)) None ;;;
          cache_del (CACHEKEY_PRESENCE_WORKSPACE uid sessionId uuid) ;;;
          workspace <- cache_workspace uuid ;;
          match workspace with
          | None => ret tt
          | Some x =>
              handleSSHClose uid sessionId uuid "#all" ;;;
              forM (closeDir uid uuid) (List.filter truthy (dirs_of uid x)) ;;;
              workspace <- cache_workspace uuid ;;
              match workspace with
              | None => ret tt
              | Some x =>
                  match c_dirs x with
                  | [] =>
                      cache_set (CACHEKEY_WORKSPACE uuid) (CWorkspace (ws_with_state inactive x)) None ;;;
                      cache_set (CACHEKEY_PRESENCE_WORKSPACE uid sessionId uuid) (CFlag 0) (Some wsActivityTimeout)
                  | _ => ret tt
                  end
              end
          end
      end
  end.

Definition handleEnvClose (uid uuid : string) : M W unit :=
  isMember <- isAMember uid uuid ;;
  match isMember with
  | None => ret tt
  | Some _ =>
      lock <- acquireLock uuid ;;
      match lock with
      | None => ret tt
      | Some lock => try_finally (close_locked uid uuid) (release lock)
      end
  end.

(** ** Files and directories *)
Definition getStat (wsUuid path : string) : M W StatDTO :=
  s <- get_loc ;;
  match ag_stat wsUuid path (es_files s) with
  | None => throw (PlainError "Not found")
  | Some stat => ret stat
  end.

Definition handleOpen (uid sessionId uuid path : string) (correlationId : option string) : M W unit :=
  let path := root +:+ path in
  try_catch
    (stat <- getStat uuid path ;;
     if st_isDir stat then openDir uid sessionId uuid path correlationId
     else openFile uid sessionId uuid path stat correlationId)
    (λ _, respond uid sessionId correlationId (RespError "UNKNOWN")).

Definition handleClose (uid sessionId uuid path : string) (ino : option Z) : M W unit :=
  let path := root +:+ path in
  try_catch
    (match ino with
     | Some ino => if bool_decide (ino = 0) then closeDir uid uuid path else closeFile uid sessionId uuid ino
     | None => closeDir uid uuid path
     end)
    (λ _, ret tt).

(** A request that fails altogether is not answered. *)
Definition runCommand (uid sessionId uuid command ctx : string) (correlationId : option string) : M W unit :=
  s <- get_loc ;;
  match ag_command uuid command ctx (es_files s) with
  | None => throw (PlainError "fetch failed")
  | Some (ok, f) =>
      put_loc (es_set_files f) ;;;
      respond uid sessionId correlationId (if ok then RespSuccess else RespError "UNKNOWN")
  end.

(** ** Dispatch *)
Definition handleEnvMessage (uid sessionId : string) (msg : InSocketMessage) : M W unit :=
  match im_payload msg with
  | InEnv p =>
      if bool_decide (env_action p ∈ stickyActions) then ret tt else
      match p with
      | SSHRequest uuid privateKey _ => handleSSHConnection uid sessionId uuid privateKey
      | FSOpen uuid path => handleOpen uid sessionId uuid path (im_correlationId msg)
      | FSClose uuid path ino => handleClose uid sessionId uuid path ino
      | _ => ret tt
      end
  | InPing _ => ret tt
  end.

(** What arrives on the channel of an instance. *)
Inductive StickyMsg :=
| StEnv (p : EnvPayload)
| StWatch (uuid : string) (event : FSEvent)
| StDocHash (uuid : string) (ino : Z).
Definition sticky_action (m : StickyMsg) : string :=
  match m with
  | StEnv p => env_action p
  | StWatch _ _ => "workspace.watch"
  | StDocHash _ _ => "doc.hash"
  end.

(** The reply, when it is truthy: a hash, or an object ([None]).  The promise
    of [ssh.close] is not awaited, so it is the reply, and its failure is
    nobody's. *)
Definition handleStickyEnvMessage (uid sessionId : string) (msg : StickyMsg) (correlationId : option string) :
    M W (option (option string)) :=
  if negb (bool_decide (sticky_action msg ∈ stickyActions)) then ret None else
  match msg with
  | StWatch uuid event => handleWatchEvent uuid event ;;; ret None
  | StDocHash uuid ino =>
      s <- get_loc ;;
      match doc_ref s uuid ino with
      | None => ret None
      | Some ref => doc <- get_doc ref ;; ret (Some <$> if_truthy (Some (computeHash doc)))
      end
  | StEnv p =>
      match p with
      | SSHData uuid sshSessionId input => handleSSHData uid uuid sshSessionId input ;;; ret None
      | SSHClose uuid sshSessionId => settle (handleSSHClose uid sessionId uuid sshSessionId) ;;; ret (Some None)
      | FSSyncIn uuid ino buf => handleSync uid sessionId uuid ino buf ;;; ret None
      | FSOpenAck uuid ino => handleOpenAck uid sessionId uuid ino ;;; ret None
      | FSConflictResolve uuid ino decision => handleConflictResolve uid sessionId uuid ino decision ;;; ret None
      | WSRun uuid command ctx => runCommand uid sessionId uuid command ctx correlationId ;;; ret None
      | _ => ret None
      end
  end.

(** ** The controller *)

(** [env.<id>] *)
Definition on_env_channel (meta : option Meta) (msg : StickyMsg) (correlationId : option string) : M W unit :=
  let '(uid, sessionId) := match msg with
                           | StEnv _ => (meta ≫= m_uid, meta ≫= m_sessionId)
                           | _ => (Some "#", Some "#")
                           end in
  match if_truthy uid, if_truthy sessionId with
  | Some uid, Some sessionId =>
      try_catch
        (value <- handleStickyEnvMessage uid sessionId msg correlationId ;;
         match value with
         | Some data => id <- getInstanceId ;; emit (Redis ("env." +:+ id +:+ ".reply") None (EnvReply data))
         | None => ret tt
         end)
        (λ _, ret tt)
  | _, _ => ret tt
  end.

(** [env.<id>.health], [env.<id>.openfile] and [env.<id>.closefile] *)
Definition on_health : M W unit :=
  id <- getInstanceId ;; emit (Redis ("env." +:+ id +:+ ".health.reply") None (EnvReply None)).
Definition on_openfile (meta : option Meta) (uuid path : string) (stat : StatDTO) (correlationId : option string) : M W unit :=
  match meta with
  | None => throw TypeError
  | Some m => openFile (default "undefined" (m_uid m)) (default "undefined" (m_sessionId m)) uuid path stat correlationId
  end.
Definition on_closefile (meta : option Meta) (uuid : string) (ino : Z) : M W unit :=
  match meta with
  | None => throw TypeError
  | Some m => closeFile (default "undefined" (m_uid m)) (default "undefined" (m_sessionId m)) uuid ino
  end.

(** [env.internal], action [affinity]: a container has become ready. *)
Definition handleEnvInternalMessage (uid uuid sessionId : option string) : M W unit :=
  match if_truthy uuid, if_truthy uid, if_truthy sessionId with
  | Some uuid, Some uid, Some sessionId =>
      handleEnvReady uid uuid sessionId ;;;
      emit (Redis "socket.send" (Some (meta_us uid sessionId))
        (SocketSend uid sessionId "provision" (ProvisionReady "Ready")))
  | _, _, _ => ret tt
  end.

Inductive EnvRequest :=
| ReqOpen (uuid : string) (sessionId : option string)
| ReqClose (uuid : string)
| ReqSocket (msg : InSocketMessage).
Inductive EnvAnswer := AnsWait (wait : bool) | AnsOk (ok : bool) | AnsNone.

(** [new RpcException({ statusCode: error.statusCode || 400, message })] *)
Definition as_rpc (e : exn) : exn :=
  match e with
  | RpcException s m => RpcException (if bool_decide (s = 0) then 400 else s) m
  | HttpException _ m | PlainError m => RpcException 400 m
  | TypeError => RpcException 400 "TypeError"
  | OutOfFuel => OutOfFuel
  end.

(** [env.msg] *)
Definition on_env_msg (meta : option Meta) (req : EnvRequest) : M W EnvAnswer :=
  let uid := if_truthy (meta ≫= m_uid) in
  match req with
  | ReqOpen uuid sessionId =>
      match uid with
      | None => throw (RpcException 400 "WORKSPACE_OPEN_INVALID_REQUEST")
      | Some uid =>
          try_catch (wait <- handleEnvOpen uid uuid sessionId ;; ret (AnsWait wait)) (λ e, throw (as_rpc e))
      end
  | ReqClose uuid =>
      match uid with
      | None => ret (AnsOk false)
      | Some uid => handleEnvClose uid uuid ;;; ret (AnsOk true)
      end
  | ReqSocket msg =>
      match uid, if_truthy (meta ≫= m_sessionId) with
      | Some uid, Some sessionId => handleEnvMessage uid sessionId msg ;;; ret AnsNone
      | _, _ => ret AnsNone
      end
  end.
End env_ws.
