(* ===== verification/EnvWsProps.v ===== *)
(** Entering and leaving a workspace: what the handlers of [EnvWs] do to the
    cache, and the lock around them. *)
From S2P Require Import Prelude JS Messages Keys Interfaces Fixtures GwMembership Presence PresenceProps Socket SocketProps EnvState EnvSync EnvSyncProps EnvDocs EnvFS EnvFSProps EnvSSH EnvSSHProps EnvWs.
From Stdlib Require Import Lia.

Section ws_props.
Context {C Y A F : Type} `{!Cache C, !CacheLaws C, !Yjs Y A, !Agent F, !Sha256, !RandomInt, !RandomIntLaws, !DocHash,
  !Env, !Random, !MembershipRpc, !Redlock, !Provisioner} {Keys : SshKeys}.
Abbreviation W := (world C (EnvState Y A F)).
Implicit Types (w : W) (x : CachedWorkspace).

(** ** Leaving directories *)
Definition leave_dirs (uid : string) (paths : list string) (dirs : list (string * list string)) : list (string * list string) :=
  foldl (λ d p, (dirs_after false p uid d).1) dirs paths.
Definition leave_msgs (uid uuid : string) : list string → list (string * list string) → list effect :=
  fix go paths dirs := match paths with
    | [] => []
    | p :: paths => remove_msgs uuid p (dirs_after false p uid dirs).2 ++ go paths (dirs_after false p uid dirs).1
    end.

Lemma leave_dirs_watches uid paths dirs :
  dirs_ok dirs →
  dirs_ok (leave_dirs uid paths dirs) ∧
  ∀ p u, watches (leave_dirs uid paths dirs) p u ↔ watches dirs p u ∧ ¬ (u = uid ∧ p ∈ paths).
Proof.
  unfold leave_dirs. revert dirs. induction paths as [|q paths IH]; intros dirs Hok; simpl.
  { split; [done|]. intros p u. rewrite elem_of_nil. naive_solver. }
  destruct (close_change q uid dirs Hok) as [Hok1 Hw1]. destruct (IH _ Hok1) as [Hok' Hw']. split; [done|].
  intros p u. rewrite Hw', Hw1, elem_of_cons. case_decide; naive_solver.
Qed.

Lemma ws_with_dirs_twice d d' x : ws_with_dirs d' (ws_with_dirs d x) = ws_with_dirs d' x.
Proof. done. Qed.
Lemma ws_with_dirs_id x : ws_with_dirs (c_dirs x) x = x.
Proof. by destruct x. Qed.

Lemma elem_of_dirs_of uid x p : dirs_ok (c_dirs x) → p ∈ dirs_of uid x ↔ watches (c_dirs x) p uid.
Proof.
  intros [Hwf _]. unfold dirs_of, watches. rewrite list_elem_of_fmap. split.
  - intros ([p' l] & -> & Hin). apply list_elem_of_In, filter_In in Hin as [Hin Hu]. exists l.
    split; [by apply elem_oget; [|apply list_elem_of_In]|]. by apply includes_spec.
  - intros (l & Hl & Hu). exists (p, l). split; [done|]. apply list_elem_of_In, filter_In.
    split; [by apply list_elem_of_In, oget_elem|]. by apply includes_spec.
Qed.
Lemma NoDup_dirs_of uid x : dirs_ok (c_dirs x) → NoDup (dirs_of uid x).
Proof.
  intros [Hwf _]. unfold dirs_of, owf, okeys in *. induction (c_dirs x) as [|[p l] d IH]; simpl; [constructor|].
  apply NoDup_cons in Hwf as [Hn Hd]. destruct (includes uid l); simpl; [|by apply IH]. apply NoDup_cons. split; [|by apply IH].
  intros Hin. apply Hn. apply list_elem_of_fmap in Hin as ([q m] & Hq & Hin). simpl in Hq. subst.
  apply list_elem_of_In, filter_In in Hin as [Hin _]. apply list_elem_of_fmap. exists (q, m). by rewrite list_elem_of_In.
Qed.

Lemma closeDirs_run uid uuid paths x w :
  dirs_ok (c_dirs x) → NoDup paths → (∀ p, p ∈ paths → watches (c_dirs x) p uid) →
  closeDirs uid uuid paths x w =
    (Ok (ws_with_dirs (leave_dirs uid paths (c_dirs x)) x), add_outs (leave_msgs uid uuid paths (c_dirs x)) w).
Proof.
  revert x w. induction paths as [|p paths IH]; intros x w Hok Hnd Hw.
  { simpl. unfold ret. by rewrite add_outs_nil, ws_with_dirs_id. }
  apply NoDup_cons in Hnd as [Hp Hnd]. destruct (Hw p) as (l & Hl & Hu); [set_solver|].
  destruct (close_change p uid (c_dirs x) Hok) as [Hok1 Hw1].
  assert (∀ q, q ∈ paths → watches (dirs_after false p uid (c_dirs x)).1 q uid) as Hrest.
  { intros q Hq. rewrite Hw1, decide_False; [apply Hw; set_solver|]. intros [-> _]. done. }
  specialize (IH (ws_with_dirs (dirs_after false p uid (c_dirs x)).1 x)
    (add_outs (remove_msgs uuid p (dirs_after false p uid (c_dirs x)).2) w) Hok1 Hnd Hrest).
  cbn [closeDirs leave_msgs]. rewrite Hl. unfold leave_dirs in *. cbn [foldl].
  rewrite <- add_outs_add_outs. etransitivity; [|exact IH]. clear IH.
  unfold dirs_after. rewrite Hl, (proj2 (includes_spec uid l) Hu).
  destruct (splice_indexOf uid l); [mstep by done; done|]. mstep by done. simpl. by rewrite add_outs_nil.
Qed.

Lemma closeDir_loop uid uuid paths x w :
  workspace_in (w_cache w) uuid = Some x →
  ∃ w', forM (closeDir uid uuid) paths w = (Ok tt, w') ∧ w_loc w' = w_loc w ∧
    w_out w' = w_out w ++ leave_msgs uid uuid paths (c_dirs x) ∧ w_now w' = w_now w ∧
    workspace_in (w_cache w') uuid = Some (ws_with_dirs (leave_dirs uid paths (c_dirs x)) x) ∧
    ∀ k, k ≠ CACHEKEY_WORKSPACE uuid → kv_get k (w_cache w') = kv_get k (w_cache w).
Proof.
  revert x w. induction paths as [|p paths IH]; intros x w Hx.
  { exists w. simpl. rewrite app_nil_r, ws_with_dirs_id. done. }
  cbn [forM]. unfold closeDir at 1. mstep by (apply updateCache_dirs; exact Hx).
  destruct (IH (ws_with_dirs (dirs_after false p uid (c_dirs x)).1 x) (add_outs
    (remove_msgs uuid p (dirs_after false p uid (c_dirs x)).2) (set_cache (kv_set (CACHEKEY_WORKSPACE uuid)
      (CWorkspace (ws_with_dirs (dirs_after false p uid (c_dirs x)).1 x), None)) w)))
    as (w' & Hr & Hl & Ho & Hn & Hx' & Hk); [apply workspace_in_set_eq|].
  exists w'. split; [exact Hr|]. split; [done|]. split; [rewrite Ho; simpl; by rewrite <- app_assoc|].
  split; [done|]. split; [exact Hx'|]. intros k Hne. rewrite Hk by done. simpl. by rewrite kv_get_set_ne.
Qed.

(** ** Entering a workspace *)

(** A presence none of whose sessions is attached to the workspace. *)
Definition detached (uuid : string) (p : CachedPresence) : CachedPresence :=
  prod_map id (λ s, if bool_decide (s_wsUuid s = Some uuid) then session_at None s else s) <$> p.
(** A workspace a user has left. *)
Definition left_by (uid : string) x : CachedWorkspace :=
  ws_with_dirs (leave_dirs uid (dirs_of uid x) (c_dirs x)) x.
(** The keys that entering and leaving may write. *)
Definition own_key (uid uuid k : string) : Prop :=
  k = CACHEKEY_PRESENCE uid ∨ k = CACHEKEY_WORKSPACE uuid ∨ ∃ sid, k = CACHEKEY_PRESENCE_WORKSPACE uid sid uuid.
Definition framed (uid uuid : string) (c c' : C) : Prop :=
  ∀ k, ¬ own_key uid uuid k → kv_get k c' = kv_get k c.

Lemma framed_refl uid uuid c : framed uid uuid c c.
Proof. by intros k. Qed.
Lemma framed_trans uid uuid c1 c2 c3 : framed uid uuid c1 c2 → framed uid uuid c2 c3 → framed uid uuid c1 c3.
Proof. intros H12 H23 k Hk. by rewrite H23, H12. Qed.
Lemma framed_set uid uuid k v c : own_key uid uuid k → framed uid uuid c (kv_set k v c).
Proof. intros Hk k' Hk'. rewrite kv_get_set_ne; [done|]. by intros ->. Qed.
Lemma framed_del uid uuid k c : own_key uid uuid k → framed uid uuid c (kv_del k c).
Proof. intros Hk k' Hk'. rewrite kv_get_del_ne; [done|]. by intros ->. Qed.

Lemma left_by_watches uid x :
  dirs_ok (c_dirs x) →
  dirs_ok (c_dirs (left_by uid x)) ∧
  ∀ p u, watches (c_dirs (left_by uid x)) p u ↔ watches (c_dirs x) p u ∧ u ≠ uid.
Proof.
  intros Hok. destruct (leave_dirs_watches uid (dirs_of uid x) (c_dirs x) Hok) as [Hok' Hw].
  split; [done|]. intros p u. simpl. rewrite Hw, elem_of_dirs_of by done. naive_solver.
Qed.

Lemma detach_all_run uid uuid p w :
  ∃ w', detach_all uid uuid p w = (Ok (detached uuid p), w') ∧ w_loc w' = w_loc w ∧ w_out w' = w_out w ∧
    w_now w' = w_now w ∧ ∀ k, (∀ sid, k ≠ CACHEKEY_PRESENCE_WORKSPACE uid sid uuid) → kv_get k (w_cache w') = kv_get k (w_cache w).
Proof.
  revert w. induction p as [|[sid s] p IH]; intros w; [by exists w|].
  cbn [detach_all detached fmap list_fmap]. unfold prod_map at 1. simpl. case_bool_decide.
  - rewrite bind_assoc. mstep by done. mstep by done. set (w1 := set_cache _ w).
    destruct (IH w1) as (w' & Hr & Hl & Ho & Hn & Hk). mstep by exact Hr. exists w'. split_and!; try done.
    intros k Hne. rewrite Hk by done. simpl. by rewrite kv_get_del_ne.
  - mstep by done. destruct (IH w) as (w' & Hr & Hl & Ho & Hn & Hk). mstep by exact Hr. exists w'. done.
Qed.

Lemma invalidate_run uid uuid p w :
  colon_free uid → presence_in (w_cache w) uid = Some p →
  (∀ x, workspace_in (w_cache w) uuid = Some x → dirs_ok (c_dirs x)) →
  ∃ w' es, invalidatePreviousSessions uid uuid w = (Ok tt, w') ∧ w_loc w' = w_loc w ∧ w_out w' = w_out w ++ es ∧
    w_now w' = w_now w ∧ presence_in (w_cache w') uid = Some (detached uuid p) ∧
    workspace_in (w_cache w') uuid = left_by uid <$> workspace_in (w_cache w) uuid ∧
    framed uid uuid (w_cache w) (w_cache w').
Proof.
  intros Hcf Hp Hok. unfold invalidatePreviousSessions. mstep by done. rewrite Hp.
  destruct (detach_all_run uid uuid p w) as (w1 & Hr1 & Hl1 & Ho1 & Hn1 & Hk1). mstep by exact Hr1. mstep by done.
  set (w2 := set_cache _ w1).
  assert (workspace_in (w_cache w2) uuid = workspace_in (w_cache w) uuid) as Hx2.
  { simpl. rewrite workspace_in_set_ne by key_neq. unfold workspace_in. rewrite Hk1; [done|]. intros sid. key_neq. }
  assert (framed uid uuid (w_cache w) (w_cache w2)) as Hf2.
  { eapply (framed_trans _ _ _ (w_cache w1)); [|apply framed_set; by left].
    intros k Hk. apply Hk1. intros sid ->. apply Hk. right. right. by exists sid. }
  mstep by done. rewrite Hx2. destruct (workspace_in (w_cache w) uuid) as [x|] eqn:Hx.
  - specialize (Hok x eq_refl).
    mstep by (apply closeDirs_run; [done|by apply NoDup_dirs_of|intros q; by apply elem_of_dirs_of]).
    eexists _, _. split; [done|]. split; [done|]. split; [simpl; rewrite Ho1; done|]. split; [done|]. split.
    { simpl. rewrite presence_in_set_ne by key_neq. apply presence_in_set_eq. }
    split; [simpl; apply workspace_in_set_eq|].
    eapply framed_trans; [exact Hf2|]. apply framed_set. right. by left.
  - exists w2, []. rewrite app_nil_r. split_and!; try done. simpl. apply presence_in_set_eq.
Qed.

(** The entry of a workspace after an instance has been asked to serve it. *)
Definition bound (id : string) (o : option CachedWorkspace) : CachedWorkspace :=
  match o with
  | None => CWs active id [] ∅ ∅
  | Some x => match c_dirs x with [] => ws_with_fs id x | _ => x end
  end.
Definition unserved (o : option CachedWorkspace) : bool :=
  match o with None => true | Some x => match c_dirs x with [] => true | _ => false end end.
Definition serve_msgs (id uuid : string) (o : option CachedWorkspace) : list effect :=
  if unserved o then [Http "GET" ("http://workspace-" +:+ uuid +:+ "/api/affine?envId=" +:+ id)] else [].

Lemma bind_workspace_run uuid w :
  let o := workspace_in (w_cache w) uuid in
  let id := es_id (w_loc w) in
  let wo := add_outs (serve_msgs id uuid o) w in
  bind_workspace uuid w =
    if unserved o then
      if ag_affine uuid id (es_files (w_loc w))
      then (Ok tt, set_cache (kv_set (CACHEKEY_WORKSPACE uuid) (CWorkspace (bound id o), None))
             (set_loc (λ s, es_set_paths (<[uuid := MkWatch [] ∅ None]> (es_paths s)) s) wo))
      else (Throw (PlainError "UNKNOWN"), wo)
    else (Ok tt, wo).
Proof.
  intros o id wo. unfold bind_workspace. mstep by done. fold o. mstep by done. fold id.
  unfold wo, serve_msgs, bound, unserved.
  destruct o as [x|]; [destruct (c_dirs x) as [|d ds] eqn:Hd|];
    [|simpl; by rewrite add_outs_nil|]; simpl; mstep by done; mstep by done; cbn [w_loc add_outs add_out];
    by destruct (ag_affine uuid id (es_files (w_loc w))).
Qed.

Lemma attach_run uid sid uuid p w :
  presence_in (w_cache w) uid = Some p →
  attach_session uid sid uuid w =
  match oget sid p with
  | Some s => (Ok tt, set_cache (kv_set (CACHEKEY_PRESENCE_WORKSPACE uid sid uuid) (CFlag 1, Some 20000))
      (set_cache (kv_set (CACHEKEY_PRESENCE uid) (CPresence (oset sid (session_at (Some uuid) s) p), None)) w))
  | None => (Throw TypeError, w)
  end.
Proof.
  intros Hp. unfold attach_session. mstep by done. rewrite Hp.
  destruct (oget sid p); [mstep by done; done|by mfail by done].
Qed.

(** What [handleEnvReady] leaves in the cache: the session attached, or
    nothing new, or the user thrown out. *)
Definition entered uid sid uuid (p : CachedPresence) w w' : Prop :=
  ∃ s, oget sid (detached uuid p) = Some s ∧
    presence_in (w_cache w') uid = Some (oset sid (session_at (Some uuid) s) (detached uuid p)) ∧
    workspace_in (w_cache w') uuid = Some (bound (es_id (w_loc w)) (left_by uid <$> workspace_in (w_cache w) uuid)) ∧
    kv_get (CACHEKEY_PRESENCE_WORKSPACE uid sid uuid) (w_cache w') = Some (CFlag 1, Some 20000) ∧
    framed uid uuid (w_cache w) (w_cache w').
Definition thrown_out uid uuid (p : CachedPresence) w w' : Prop :=
  presence_in (w_cache w') uid = Some (detached uuid p) ∧
  (workspace_in (w_cache w') uuid = left_by uid <$> workspace_in (w_cache w) uuid ∨
   workspace_in (w_cache w') uuid = Some (bound (es_id (w_loc w)) (left_by uid <$> workspace_in (w_cache w) uuid))) ∧
  framed uid uuid (w_cache w) (w_cache w').

Lemma release_run lock w : release lock w = (lock_result lock (w_now w), add_out (LockReleased lock) w).
Proof. unfold release, lock_result, bind, emit, modify, now, gets. simpl. by destruct (lock_kept _ _). Qed.
(** A guarded part that succeeds, and then the release of the lock. *)
Lemma finally_released {B} (m : M W B) lock w b w' :
  m w = (Ok b, w') →
  try_finally m (release lock) w =
    (if lock_kept lock (w_now w') then Ok b else Throw (PlainError "ExecutionError"), add_out (LockReleased lock) w').
Proof. intros Hm. unfold try_finally. rewrite Hm, release_run. unfold lock_result. by destruct (lock_kept _ _). Qed.

(** Everything [handleEnvReady] needs to succeed. *)
Definition can_enter uid sid uuid (p : CachedPresence) w : bool :=
  ag_ready uuid (es_files (w_loc w)) && lock_free ("locks:workspace:" +:+ uuid) (w_now w) &&
  lock_kept ("locks:workspace:" +:+ uuid) (w_now w) &&
  (negb (unserved (left_by uid <$> workspace_in (w_cache w) uuid)) ||
     ag_affine uuid (es_id (w_loc w)) (es_files (w_loc w))) &&
  match oget sid (detached uuid p) with Some _ => true | None => false end.

Lemma ready_outcome uid sid uuid p w :
  colon_free uid → presence_in (w_cache w) uid = Some p →
  (∀ x, workspace_in (w_cache w) uuid = Some x → dirs_ok (c_dirs x)) →
  match handleEnvReady uid uuid sid w with
  | (Ok _, w') => can_enter uid sid uuid p w = true ∧ entered uid sid uuid p w w'
  | (Throw _, w') => can_enter uid sid uuid p w = false ∧ (w_cache w' = w_cache w ∨ thrown_out uid uuid p w w')
  end.
Proof.
  intros Hcf Hp Hok. unfold handleEnvReady, can_enter. mstep by done. mstep by done. set (w0 := add_out _ w).
  destruct (ag_ready uuid (es_files (w_loc w))); [|split; [done|by left]].
  unfold acquireLock. rewrite bind_assoc. mstep by done. change (w_now w0) with (w_now w).
  destruct (lock_free _ (w_now w)); [|mstep by done; split; [done|by left]]. rewrite bind_assoc. mstep by done. mstep by done.
  set (w1 := add_out _ w0).
  destruct (invalidate_run uid uuid p w1 Hcf Hp Hok) as (w2 & es & Hr2 & Hl2 & Ho2 & Hn2 & Hp2 & Hx2 & Hf2).
  change (w_cache w1) with (w_cache w) in *. change (w_loc w1) with (w_loc w) in *.
  pose proof (bind_workspace_run uuid w2) as Hb. cbv zeta in Hb. rewrite Hx2, Hl2 in Hb.
  set (o := left_by uid <$> workspace_in (w_cache w) uuid) in *. set (id := es_id (w_loc w)) in *.
  unfold bind at 1, try_finally, try_catch. rewrite (bind_ok _ _ _ _ _ Hr2), Hb. unfold entered, thrown_out. fold o id.
  assert (∀ w3, presence_in (w_cache w3) uid = Some (detached uuid p) → workspace_in (w_cache w3) uuid = Some (bound id o) →
    framed uid uuid (w_cache w) (w_cache w3) →
    match attach_session uid sid uuid w3 with
    | (Ok _, w') => (match oget sid (detached uuid p) with Some _ => true | None => false end) = true ∧ entered uid sid uuid p w w'
    | (Throw _, w') => (match oget sid (detached uuid p) with Some _ => true | None => false end) = false ∧
        (w_cache w' = w_cache w ∨ thrown_out uid uuid p w w')
    end) as Hatt.
  { intros w3 Hp3 Hx3 Hf3. rewrite (attach_run uid sid uuid _ w3 Hp3). unfold entered, thrown_out. fold o id.
    destruct (oget sid (detached uuid p)) as [s|] eqn:Hs; [|split; [done|]; right; by split_and!; [|right|]].
    split; [done|]. exists s. split; [done|]. simpl. split_and!.
    - rewrite presence_in_set_ne by key_neq. apply presence_in_set_eq.
    - rewrite !workspace_in_set_ne by key_neq. done.
    - by rewrite kv_get_set_eq.
    - eapply framed_trans; [exact Hf3|]. eapply framed_trans; apply framed_set; [by left|right; right; by eexists]. }
  assert (∀ w3, w_now w3 = w_now w → release ("locks:workspace:" +:+ uuid) w3 =
    (lock_result ("locks:workspace:" +:+ uuid) (w_now w), add_out (LockReleased ("locks:workspace:" +:+ uuid)) w3)) as Hrel.
  { intros w3 <-. apply release_run. }
  destruct (unserved o) eqn:Hun; simpl.
  - destruct (ag_affine uuid id (es_files (w_loc w))); simpl; rewrite Hrel by done; unfold lock_result;
      destruct (lock_kept _ (w_now w)); simpl.
    + apply Hatt; simpl; [by rewrite presence_in_set_ne by key_neq|apply workspace_in_set_eq|].
      eapply framed_trans; [exact Hf2|]. apply framed_set. right. by left.
    + split; [done|]. right. split_and!; [by rewrite presence_in_set_ne by key_neq|right; apply workspace_in_set_eq|].
      eapply framed_trans; [exact Hf2|]. apply framed_set. right. by left.
    + split; [done|]. right. split_and!; [done|by left|done].
    + split; [done|]. right. split_and!; [done|by left|done].
  - rewrite Hrel by done. unfold lock_result. destruct (lock_kept _ (w_now w)); simpl.
    + apply Hatt; simpl; [done| |done]. rewrite Hx2. unfold bound, unserved in *.
      destruct o as [x|]; [|done]. by destruct (c_dirs x).
    + split; [done|]. right. split_and!; [done|by left|done].
Qed.

(** ** Attached sessions *)
Definition in_ws (uuid : string) (p : CachedPresence) (sid : string) : Prop :=
  ∃ s, oget sid p = Some s ∧ s_wsUuid s = Some uuid.

Lemma okeys_detached uuid p : okeys (detached uuid p) = okeys p.
Proof. unfold okeys, detached. rewrite <- list_fmap_compose. by apply list_fmap_ext. Qed.
Lemma oget_detached uuid p sid :
  oget sid (detached uuid p) =
  (λ s, if bool_decide (s_wsUuid s = Some uuid) then session_at None s else s) <$> oget sid p.
Proof. induction p as [|[k s] p IH]; simpl; [done|]. by case_decide. Qed.
Lemma detached_none uuid p sid : ¬ in_ws uuid (detached uuid p) sid.
Proof.
  intros (s & Hs & Hu). rewrite oget_detached in Hs. destruct (oget sid p) as [s'|]; [|done]. injection Hs as <-.
  by case_bool_decide.
Qed.
Lemma in_ws_oset uuid p sid s sid' :
  in_ws uuid (oset sid s p) sid' ↔ if decide (sid' = sid) then s_wsUuid s = Some uuid else in_ws uuid p sid'.
Proof.
  unfold in_ws. case_decide as Hd; [subst; rewrite oget_oset_eq; naive_solver|]. by rewrite oget_oset_ne.
Qed.
Lemma attached_session_spec uuid p sid : owf p → attached_session uuid (Some p) = Some sid → in_ws uuid p sid.
Proof.
  intros Hwf. unfold attached_session. simpl. destruct (ofind _ p) as [[k s]|] eqn:Hf; [|done]. intros [= <-].
  apply ofind_Some in Hf as [Hin Hb]. exists s. split; [by apply elem_oget|by apply bool_decide_eq_true in Hb].
Qed.
Lemma attached_session_unique uuid p sid :
  owf p → in_ws uuid p sid → (∀ sid', in_ws uuid p sid' → sid' = sid) → attached_session uuid (Some p) = Some sid.
Proof.
  intros Hwf (s & Hs & Hu) Huniq. destruct (attached_session uuid (Some p)) as [sid'|] eqn:Ha.
  - f_equal. apply Huniq. by apply attached_session_spec.
  - unfold attached_session in Ha. simpl in Ha. destruct (ofind _ p) as [[k s']|] eqn:Hf; [done|].
    rewrite ofind_None in Hf. specialize (Hf sid s (oget_elem _ _ _ Hs)). by rewrite bool_decide_true in Hf.
Qed.

Lemma attached_ofind uuid p sid :
  owf p → (∀ sid', in_ws uuid p sid' ↔ sid' = sid) →
  ∃ s, ofind (λ session, bool_decide (s_wsUuid session = Some uuid)) p = Some (sid, s) ∧ oget sid p = Some s.
Proof.
  intros Hwf Hin. pose proof (attached_session_unique uuid p sid Hwf (proj2 (Hin sid) eq_refl) (λ sid', proj1 (Hin sid'))) as Ha.
  unfold attached_session in Ha. simpl in Ha. destruct (ofind _ p) as [[k s]|] eqn:Hf; [|done]. injection Ha as <-.
  exists s. split; [done|]. apply ofind_Some in Hf as [Hel _]. by apply elem_oget.
Qed.

(** Who watches a workspace that may not be cached. *)
Definition ws_watches (c : C) (uuid q u : string) : Prop :=
  ∃ x, workspace_in c uuid = Some x ∧ watches (c_dirs x) q u.
Definition ws_ok (c : C) (uuid : string) : Prop := ∀ x, workspace_in c uuid = Some x → dirs_ok (c_dirs x).

Lemma bound_dirs id o : c_dirs (bound id o) = match o with Some x => c_dirs x | None => [] end.
Proof. destruct o as [x|]; simpl; [|done]. destruct (c_dirs x) eqn:Hd; simpl; [done|by rewrite Hd]. Qed.

(** The workspace's entry once the user has left its directories. *)
Lemma left_view uid uuid c c' id :
  ws_ok c uuid →
  (workspace_in c' uuid = left_by uid <$> workspace_in c uuid ∨
   workspace_in c' uuid = Some (bound id (left_by uid <$> workspace_in c uuid))) →
  ws_ok c' uuid ∧ ∀ q u, ws_watches c' uuid q u ↔ u ≠ uid ∧ ws_watches c uuid q u.
Proof.
  intros Hok Hx'. unfold ws_ok, ws_watches in *. destruct (workspace_in c uuid) as [x|] eqn:Hx; cbn [fmap option_fmap option_map] in Hx'.
  - destruct (left_by_watches uid x (Hok x eq_refl)) as [Hok1 Hw1].
    assert (∃ x', workspace_in c' uuid = Some x' ∧ c_dirs x' = c_dirs (left_by uid x)) as (x' & Hx1 & Hd).
    { destruct Hx' as [->| ->]; eexists; (split; [done|]); [done|by rewrite bound_dirs]. }
    split; [intros y Hy; congruence|]. intros q u. split.
    + intros (y & Hy & Hw). simplify_eq. rewrite Hd, Hw1 in Hw. naive_solver.
    + intros (Hu & y & Hy & Hw). simplify_eq. exists x'. split; [done|]. rewrite Hd, Hw1. done.
  - split.
    + intros y Hy. destruct Hx' as [Hx'|Hx']; rewrite Hx' in Hy; [done|]. injection Hy as <-.
      split; [constructor|]. simpl. done.
    + intros q u. split; [|naive_solver]. intros (y & Hy & l & Hl & _).
      destruct Hx' as [Hx'|Hx']; rewrite Hx' in Hy; [done|]. injection Hy as <-. done.
Qed.

Lemma entered_view uid sid uuid p w w' :
  owf p → ws_ok (w_cache w) uuid → entered uid sid uuid p w w' →
  ∃ p', presence_in (w_cache w') uid = Some p' ∧ owf p' ∧ okeys p' = okeys p ∧ (∀ sid', in_ws uuid p' sid' ↔ sid' = sid) ∧
    is_Some (workspace_in (w_cache w') uuid) ∧ ws_ok (w_cache w') uuid ∧
    (∀ q u, ws_watches (w_cache w') uuid q u ↔ u ≠ uid ∧ ws_watches (w_cache w) uuid q u).
Proof.
  intros Hwf Hok (s & Hs & Hp' & Hx' & _ & _). destruct (left_view uid uuid _ _ _ Hok (or_intror Hx')) as [Hok' Hw'].
  assert (okeys (oset sid (session_at (Some uuid) s) (detached uuid p)) = okeys p) as Hkeys.
  { rewrite okeys_oset, okeys_detached, decide_True; [done|]. rewrite <- (okeys_detached uuid). by apply oget_keys. }
  eexists. split; [exact Hp'|]. split; [unfold owf; by rewrite Hkeys|]. split; [done|]. split.
  - intros sid'. rewrite in_ws_oset. case_decide; [naive_solver|]. split; [|done]. intros Hin. by apply detached_none in Hin.
  - split; [by rewrite Hx'|]. done.
Qed.

(** ** Opening *)

(** Opening a workspace attaches the session.  When a member opens a
    workspace whose container is up, whose lock is free and which this
    instance may serve, the answer is that there is nothing to wait for;
    that session, and no other of the user's, is attached to the workspace,
    its activity marker runs for twenty seconds, the workspace is cached with
    all its other watchers, and the user watches no directory any more. *)
Theorem env_open_enters uid sid uuid p v w :
  colon_free uid → truthy sid = true → rpc_check uid uuid = Ok v → mtruthy v = true →
  provision v uuid sid uid = Some false → presence_in (w_cache w) uid = Some p → owf p →
  ws_ok (w_cache w) uuid → can_enter uid sid uuid p w = true →
  ∃ w' p', handleEnvOpen uid uuid (Some sid) w = (Ok false, w') ∧
    presence_in (w_cache w') uid = Some p' ∧ (∀ sid', in_ws uuid p' sid' ↔ sid' = sid) ∧
    attached_session uuid (Some p') = Some sid ∧ okeys p' = okeys p ∧
    is_Some (workspace_in (w_cache w') uuid) ∧
    (∀ q u, ws_watches (w_cache w') uuid q u ↔ u ≠ uid ∧ ws_watches (w_cache w) uuid q u) ∧
    kv_get (CACHEKEY_PRESENCE_WORKSPACE uid sid uuid) (w_cache w') = Some (CFlag 1, Some 20000) ∧
    framed uid uuid (w_cache w) (w_cache w').
Proof.
  intros Hcf Hsid Hrpc Hv Hprov Hp Hwf Hok Hcan. unfold handleEnvOpen, if_truthy. rewrite Hsid.
  unfold isAMember. rewrite Hrpc, Hv. mstep by done. mstep by done. rewrite Hprov. set (w1 := add_out _ w).
  pose proof (ready_outcome uid sid uuid p w1 Hcf Hp Hok) as Hr.
  destruct (handleEnvReady uid uuid sid w1) as [[[]|e] w'] eqn:Hrun; destruct Hr as [Hc Hr];
    change (can_enter uid sid uuid p w1) with (can_enter uid sid uuid p w) in Hc; [|by rewrite Hcan in Hc].
  destruct (entered_view uid sid uuid p w1 w' Hwf Hok Hr) as (p' & Hp' & Hwf' & Hkeys & Hin & Hx & _ & Hw).
  destruct Hr as (s & _ & _ & _ & Hmark & Hfr).
  mstep by exact Hrun. exists w', p'. split_and!; try done. apply attached_session_unique; [done|by apply Hin|].
  intros sid' Hs. by apply Hin.
Qed.

(** Nobody else can open it.  Whoever is not a member, by the workspace
    service's answer or for want of one, is refused, and nothing at all
    happens: no container is asked for, the cache and the instance are as
    they were. *)
Theorem env_open_refused uid sid uuid w :
  (∀ v, rpc_check uid uuid = Ok v → mtruthy v = false) → truthy sid = true →
  handleEnvOpen uid uuid (Some sid) w = (Throw (RpcException 401 "NO_WORKSPACE_MEMBERSHIP"), w) ∧
  handleEnvClose uid uuid w = (Ok tt, w).
Proof.
  intros Hv Hsid. unfold handleEnvOpen, handleEnvClose, isAMember. unfold if_truthy. rewrite Hsid.
  destruct (rpc_check uid uuid) as [v|e]; [rewrite (Hv v eq_refl)|]; done.
Qed.

(** The requests that come through the proxy, for a user without a membership
    or for nobody. *)
Lemma on_env_msg_refused meta req uuid w :
  (req = ReqClose uuid ∨ ∃ sid, req = ReqOpen uuid sid) →
  (∀ uid, if_truthy (meta ≫= m_uid) = Some uid → ∀ v, rpc_check uid uuid ≠ Ok v) →
  ∃ r, on_env_msg meta req w = (r, w).
Proof.
  intros Hreq Hrpc. unfold on_env_msg. destruct (if_truthy (meta ≫= m_uid)) as [uid|].
  2:{ destruct Hreq as [->|[sid ->]]; by eexists. }
  specialize (Hrpc uid eq_refl). destruct (rpc_check uid uuid) as [v|err] eqn:Hc; [by destruct (Hrpc v)|].
  destruct Hreq as [->|[sid ->]].
  - unfold handleEnvClose, isAMember. rewrite Hc. by eexists.
  - unfold handleEnvOpen, isAMember. rewrite Hc. destruct (if_truthy sid); by eexists.
Qed.

(** ** Closing *)
Definition all_shells_msgs (o : option SSHConn) : list effect :=
  match o with
  | Some c => ((λ sh, Ssh (cn_conn c) (SshCloseShell sh)) <$> cn_sessions c) ++ [Ssh (cn_conn c) SshEnd]
  | None => []
  end.
Lemma close_all_shells_run uid sid uuid x w :
  workspace_in (w_cache w) uuid = Some x →
  handleSSHClose uid sid uuid "#all" w =
    (Ok tt, cache_ws uuid (unregistered sid x) (add_outs (all_shells_msgs (conn_of (w_loc w) uid uuid)) w)).
Proof.
  intros Hx. unfold handleSSHClose. mstep by done. cbv zeta. rewrite bool_decide_true by done.
  destruct (conn_of (w_loc w) uid uuid) as [c|]; simpl.
  - rewrite bind_assoc. mstep by (apply (forM_emits _ (λ sh, [Ssh (cn_conn c) (SshCloseShell sh)])); done).
    mstep by done. rewrite concat_singletons. erewrite updateConnCache_remove by exact Hx.
    unfold add_out, add_outs. simpl. by rewrite <- app_assoc.
  - mstep by done. erewrite updateConnCache_remove by exact Hx. by rewrite add_outs_nil.
Qed.

(** The entry of a workspace after a user, and that user's session, have gone. *)
Definition gone uid sid x : CachedWorkspace :=
  let y := ws_with_dirs (leave_dirs uid (List.filter truthy (dirs_of uid x)) (c_dirs x)) (unregistered sid x) in
  match c_dirs y with [] => ws_with_state inactive y | _ => y end.
Definition goodbye (y : CachedWorkspace) : option (cval * option Z) :=
  match c_dirs y with [] => Some (CFlag 0, Some wsActivityTimeout) | _ => None end.

Lemma close_locked_run uid sid s uuid p x w :
  colon_free uid → presence_in (w_cache w) uid = Some p →
  ofind (λ session, bool_decide (s_wsUuid session = Some uuid)) p = Some (sid, s) → truthy sid = true →
  workspace_in (w_cache w) uuid = Some x →
  ∃ w' es, close_locked uid uuid w = (Ok tt, w') ∧ w_loc w' = w_loc w ∧ w_out w' = w_out w ++ es ∧ w_now w' = w_now w ∧
    presence_in (w_cache w') uid = Some (oset sid (session_at None s) p) ∧
    workspace_in (w_cache w') uuid = Some (gone uid sid x) ∧
    kv_get (CACHEKEY_PRESENCE_WORKSPACE uid sid uuid) (w_cache w') = goodbye (gone uid sid x) ∧
    framed uid uuid (w_cache w) (w_cache w').
Proof.
  intros Hcf Hp Hf Hsid Hx. unfold close_locked. mstep by done. rewrite Hp, Hf, Hsid. cbn [negb].
  mstep by done. mstep by done. set (w1 := set_cache _ (set_cache _ w)).
  assert (workspace_in (w_cache w1) uuid = Some x) as Hx1.
  { simpl. rewrite workspace_in_del_ne by key_neq. by rewrite workspace_in_set_ne by key_neq. }
  assert (framed uid uuid (w_cache w) (w_cache w1)) as Hf1.
  { eapply framed_trans; [apply framed_set; by left|]. apply framed_del. right. right. by eexists. }
  assert (presence_in (w_cache w1) uid = Some (oset sid (session_at None s) p)) as Hp1.
  { simpl. rewrite presence_in_del_ne by key_neq. apply presence_in_set_eq. }
  assert (kv_get (CACHEKEY_PRESENCE_WORKSPACE uid sid uuid) (w_cache w1) = None) as Hm1 by (simpl; by rewrite kv_get_del_eq).
  mstep by done. rewrite Hx1. mstep by (apply close_all_shells_run; exact Hx1). set (w2 := cache_ws _ _ _).
  destruct (closeDir_loop uid uuid (List.filter truthy (dirs_of uid x)) (unregistered sid x) w2)
    as (w3 & Hr3 & Hl3 & Ho3 & Hn3 & Hx3 & Hk3); [apply workspace_in_set_eq|].
  mstep by exact Hr3. mstep by done. rewrite Hx3.
  assert (∀ k, k ≠ CACHEKEY_WORKSPACE uuid → kv_get k (w_cache w3) = kv_get k (w_cache w1)) as Hk.
  { intros k Hne. rewrite Hk3 by done. simpl. by rewrite kv_get_set_ne. }
  assert (presence_in (w_cache w3) uid = Some (oset sid (session_at None s) p)) as Hp3.
  { rewrite <- Hp1. unfold presence_in. by rewrite Hk by key_neq. }
  assert (framed uid uuid (w_cache w) (w_cache w3)) as Hf3.
  { eapply framed_trans; [exact Hf1|]. intros k Hown. apply Hk. intros ->. apply Hown. right. by left. }
  assert (w_out w3 = w_out w ++ (all_shells_msgs (conn_of (w_loc w) uid uuid) ++
    leave_msgs uid uuid (List.filter truthy (dirs_of uid x)) (c_dirs x))) as Ho by (rewrite Ho3; simpl; by rewrite <- app_assoc).
  unfold gone, goodbye. cbv zeta.
  destruct (c_dirs (ws_with_dirs _ (unregistered sid x))) as [|d ds] eqn:Hd.
  - mstep by done. eexists _, _. split; [done|]. split; [done|]. split; [exact Ho|]. split; [done|]. simpl. simpl in Hd. rewrite Hd.
    split_and!.
    + rewrite !presence_in_set_ne by key_neq. done.
    + rewrite workspace_in_set_ne by key_neq. apply workspace_in_set_eq.
    + by rewrite kv_get_set_eq.
    + eapply framed_trans; [exact Hf3|]. eapply framed_trans; apply framed_set; [right; by left|right; right; by eexists].
  - eexists _, _. split; [done|]. split; [done|]. split; [exact Ho|]. split; [done|]. simpl. simpl in Hd. rewrite Hd.
    simpl. split_and!; [done| |rewrite Hk by key_neq; done|done]. rewrite Hx3. simpl. by rewrite Hd.
Qed.

Lemma gone_view uid sid x :
  dirs_ok (c_dirs x) → (∀ q, watches (c_dirs x) q uid → truthy q = true) →
  dirs_ok (c_dirs (gone uid sid x)) ∧
  (∀ q u, watches (c_dirs (gone uid sid x)) q u ↔ u ≠ uid ∧ watches (c_dirs x) q u) ∧
  c_docs (gone uid sid x) = c_docs x ∧ c_sshs (gone uid sid x) = delete sid (c_sshs x) ∧
  c_state (gone uid sid x) = match c_dirs (gone uid sid x) with [] => inactive | _ => c_state x end.
Proof.
  intros Hok Htr. destruct (leave_dirs_watches uid (List.filter truthy (dirs_of uid x)) (c_dirs x) Hok) as [Hok' Hw].
  assert (c_dirs (gone uid sid x) = leave_dirs uid (List.filter truthy (dirs_of uid x)) (c_dirs x)) as Hd.
  { unfold gone. simpl. by destruct (leave_dirs _ _ _). }
  rewrite Hd. split; [done|]. split.
  - intros q u. rewrite Hw. split; [|naive_solver]. intros [Hq Hn]. split; [|done]. intros ->. apply Hn. split; [done|].
    apply list_elem_of_In, filter_In. split; [|by apply Htr]. by apply list_elem_of_In, elem_of_dirs_of.
  - unfold gone. simpl. destruct (leave_dirs _ _ _) eqn:He; simpl; done.
Qed.

Lemma handleEnvClose_run uid uuid v w :
  rpc_check uid uuid = Ok v → mtruthy v = true → lock_free ("locks:workspace:" +:+ uuid) (w_now w) = true →
  handleEnvClose uid uuid w =
    try_finally (close_locked uid uuid) (release ("locks:workspace:" +:+ uuid))
      (add_out (LockAcquired ("locks:workspace:" +:+ uuid)) w).
Proof.
  intros Hr Hv Hl. unfold handleEnvClose, isAMember. rewrite Hr, Hv. mstep by done.
  unfold acquireLock. rewrite bind_assoc. mstep by done. rewrite Hl. rewrite bind_assoc. mstep by done. by mstep by done.
Qed.

(** Closing a workspace.  A member whose session is attached to the workspace
    is detached from it, stops watching all its directories and loses the
    terminal registration; everyone else's watches stay.  What is not
    released is the documents: the user stays in those that are open, and the
    cache still lists them.  Only then is the lock released, which throws if
    it has expired. *)
Theorem env_close_leaves uid sid uuid p x v w :
  colon_free uid → rpc_check uid uuid = Ok v → mtruthy v = true →
  lock_free ("locks:workspace:" +:+ uuid) (w_now w) = true → presence_in (w_cache w) uid = Some p → owf p →
  (∀ sid', in_ws uuid p sid' ↔ sid' = sid) → truthy sid = true → workspace_in (w_cache w) uuid = Some x →
  dirs_ok (c_dirs x) → (∀ q, watches (c_dirs x) q uid → truthy q = true) →
  ∃ w' p' x', handleEnvClose uid uuid w = (lock_result ("locks:workspace:" +:+ uuid) (w_now w), w') ∧ presence_in (w_cache w') uid = Some p' ∧
    (∀ sid', ¬ in_ws uuid p' sid') ∧ workspace_in (w_cache w') uuid = Some x' ∧
    (∀ q u, watches (c_dirs x') q u ↔ u ≠ uid ∧ watches (c_dirs x) q u) ∧
    c_sshs x' = delete sid (c_sshs x) ∧ c_docs x' = c_docs x ∧ w_loc w' = w_loc w ∧
    framed uid uuid (w_cache w) (w_cache w').
Proof.
  intros Hcf Hrpc Hv Hlock Hp Hwf Hin Hsid Hx Hok Htr. rewrite (handleEnvClose_run uid uuid v w Hrpc Hv Hlock).
  set (w1 := add_out _ w).
  destruct (attached_ofind uuid p sid Hwf Hin) as (s & Hf & Hs).
  destruct (close_locked_run uid sid s uuid p x w1 Hcf Hp Hf Hsid Hx) as (w2 & es & Hr & Hl & Ho & Hn & Hp2 & Hx2 & _ & Hfr).
  destruct (gone_view uid sid x Hok Htr) as (_ & Hw & Hdocs & Hsshs & _).
  rewrite (finally_released _ _ _ _ _ Hr), Hn. eexists _, _, _. split; [done|]. split; [exact Hp2|]. split.
  { intros sid' Hin'. rewrite in_ws_oset in Hin'. case_decide; [done|]. by apply Hin in Hin'. }
  split; [exact Hx2|]. done.
Qed.

(** What the expiry of such a marker sends, and how it ends: the lock is not
    given back when the provisioner does not answer. *)
Definition disposal_msgs `{!Network} (key uuid : string) (t : Z) : list effect :=
  LockAcquired ("locks:" +:+ key) :: Http "POST" (dispose_url uuid) ::
  (if reachable (dispose_url uuid) t then [LockReleased ("locks:" +:+ key)] else []).
Definition disposal_result `{!Network} (key uuid : string) (t : Z) : res unit :=
  if reachable (dispose_url uuid) t then lock_result ("locks:" +:+ key) t else Throw TypeError.

(** The marker of a workspace that nobody watches and that is inactive. *)
Lemma abandoned_expires `{!Auth, !Health, !Users, !Network} uid sid uuid y (g : world C Gateway) :
  colon_free uid → colon_free sid → colon_free uuid → truthy uuid = true →
  workspace_in (w_cache g) uuid = Some y → c_state y = inactive → c_dirs y = [] →
  let key := CACHEKEY_PRESENCE_WORKSPACE uid sid uuid in
  lock_free ("locks:" +:+ key) (w_now g) = true →
  ∃ g', key_expired key g = (disposal_result key uuid (w_now g), g') ∧ workspace_in (w_cache g') uuid = None ∧
    w_out g' = w_out g ++ disposal_msgs key uuid (w_now g).
Proof.
  intros Hcu Hcs Hcx Htu Hy Hst Hd key Hlock. unfold key_expired. mstep by done. unfold handleCacheExpiry, Socket.acquireLock.
  rewrite bind_assoc. mstep by done. change (w_now (set_cache _ g)) with (w_now g). rewrite Hlock. rewrite bind_assoc.
  mstep by done. mstep by done. set (g1 := add_out _ _).
  assert (split_on colon key = ["presence"; uid; sid; uuid]) as -> by by apply split_presence_workspace.
  rewrite bool_decide_true by done.
  assert (handleStalePresence [uid; sid; uuid] g1 = handleStaleWorkspace uid sid uuid g1) as Hdisp.
  { unfold handleStalePresence. simpl. by rewrite Htu. }
  assert (workspace_in (w_cache g1) uuid = Some y) as Hy1 by (simpl; by rewrite workspace_in_del_ne by key_neq).
  assert (∃ g2, handleStaleWorkspace uid sid uuid g1 = (dispose_result uuid (w_now g), g2) ∧ workspace_in (w_cache g2) uuid = None ∧
    w_out g2 = w_out g1 ++ [Http "POST" (dispose_url uuid)] ∧ w_now g2 = w_now g) as (g2 & Hr & Hx2 & Ho2 & Hn2).
  { unfold handleStaleWorkspace. mstep by done. rewrite Hy1, Hst. unfold handleWorkspaceExpiry. mstep by done. rewrite Hy1.
    unfold watchers. rewrite Hd. simpl. mstep by done. mstep by done. rewrite fetch_run.
    eexists. split; [done|]. split; [simpl; apply workspace_in_del_eq|done]. }
  rewrite <- Hdisp in Hr. unfold disposal_result, disposal_msgs, dispose_result in *.
  destruct (reachable (dispose_url uuid) (w_now g)).
  - mstep by exact Hr. rewrite releaseLock_run, Hn2. eexists. split; [done|]. split; [done|]. simpl. rewrite Ho2. simpl.
    by rewrite <- !app_assoc.
  - exists g2. split; [by mfail by exact Hr|]. split; [done|]. rewrite Ho2. simpl. by rewrite <- !app_assoc.
Qed.

(** C24: When the last one leaves.  The workspace is then marked inactive and a
    marker is left for the gateway; the marker runs for the whole activity
    time-out (an hour unless configured), not the "immediate de-provisioning"
    the comment announces.  When it expires, the gateway that gets its lock
    deletes the workspace's entry and asks the provisioner to dispose of the
    container, once; if the provisioner does not answer, the handler throws
    and the lock is left to expire.  (Ids without a colon, the membership
    check passed and the workspace's lock taken; a lock that has expired by
    the time it is released makes the handler throw after all this.) *)
Theorem env_close_disposes `{!Auth, !Health, !Users, !Network} uid sid uuid p x v w :
  colon_free uid → colon_free sid → colon_free uuid → truthy uuid = true →
  rpc_check uid uuid = Ok v → mtruthy v = true →
  lock_free ("locks:workspace:" +:+ uuid) (w_now w) = true → presence_in (w_cache w) uid = Some p → owf p →
  (∀ sid', in_ws uuid p sid' ↔ sid' = sid) → truthy sid = true → workspace_in (w_cache w) uuid = Some x →
  dirs_ok (c_dirs x) → (∀ q u, watches (c_dirs x) q u → u = uid ∧ truthy q = true) →
  let key := CACHEKEY_PRESENCE_WORKSPACE uid sid uuid in
  ∃ w' x', handleEnvClose uid uuid w = (lock_result ("locks:workspace:" +:+ uuid) (w_now w), w') ∧
    workspace_in (w_cache w') uuid = Some x' ∧ c_state x' = inactive ∧ c_dirs x' = [] ∧
    kv_get key (w_cache w') = Some (CFlag 0, Some wsActivityTimeout) ∧
    ∀ g : world C Gateway, w_cache g = w_cache w' → lock_free ("locks:" +:+ key) (w_now g) = true →
      ∃ g', key_expired key g = (disposal_result key uuid (w_now g), g') ∧ workspace_in (w_cache g') uuid = None ∧
        w_out g' = w_out g ++ disposal_msgs key uuid (w_now g).
Proof.
  intros Hcf Hcs Hcu Htu Hrpc Hv Hlock Hp Hwf Hin Hsid Hx Hok Hlast key. rewrite (handleEnvClose_run uid uuid v w Hrpc Hv Hlock).
  set (w1 := add_out _ w). destruct (attached_ofind uuid p sid Hwf Hin) as (s & Hf & Hs).
  destruct (close_locked_run uid sid s uuid p x w1 Hcf Hp Hf Hsid Hx) as (w2 & es & Hr & Hl & Ho & Hn & Hp2 & Hx2 & Hm & Hfr).
  destruct (gone_view uid sid x Hok) as (Hok' & Hw & _ & _ & Hst); [intros q Hq; by apply (Hlast q uid)|].
  assert (c_dirs (gone uid sid x) = []) as Hd.
  { destruct (c_dirs (gone uid sid x)) as [|[q l] ds] eqn:He; [done|]. exfalso.
    destruct (proj2 Hok' q l) as [Hne _]; [simpl; by rewrite decide_True|]. destruct l as [|u l]; [done|].
    destruct (Hw q u) as [[Hu Hq] _]; [exists (u :: l); simpl; rewrite decide_True by done; split; [done|by left]|].
    by destruct (Hlast q u Hq). }
  rewrite (finally_released _ _ _ _ _ Hr), Hn. eexists _, _. split; [done|]. split; [exact Hx2|].
  split; [by rewrite Hst, Hd|]. split; [done|]. unfold goodbye in Hm. rewrite Hd in Hm. split; [exact Hm|].
  intros g Hg Hlg. simpl in Hg. apply (abandoned_expires uid sid uuid (gone uid sid x)); try done; [|by rewrite Hst, Hd].
  by rewrite Hg.
Qed.

(** ** The lock *)
Definition is_lock (e : effect) : bool := match e with LockAcquired _ | LockReleased _ => true | _ => false end.
Definition locks_of (o : list effect) : list effect := List.filter is_lock o.
Definition locks_are (L : list effect) w : Prop := locks_of (w_out w) = L.

Lemma locks_emit L e : is_lock e = false → preserves (locks_are L) (emit e).
Proof.
  intros He w Hw. unfold locks_are, locks_of in *. simpl. rewrite List.filter_app, Hw. simpl. rewrite He. apply app_nil_r.
Qed.
Lemma locks_cache_set L k v t : preserves (locks_are L) (cache_set k v t).
Proof. by intros w. Qed.
Lemma locks_cache_del L k : preserves (locks_are L) (cache_del k).
Proof. by intros w. Qed.
Lemma locks_put_loc L f : preserves (locks_are L) (put_loc f).
Proof. by intros w. Qed.
Lemma locks_getInstanceId L : preserves (locks_are L) getInstanceId.
Proof. by intros w. Qed.
Hint Extern 1 (is_lock _ = false) => reflexivity : pres.
Hint Resolve locks_emit locks_cache_set locks_cache_del locks_put_loc locks_getInstanceId : pres.

Lemma locks_closeDirs L uid uuid paths x : preserves (locks_are L) (closeDirs uid uuid paths x).
Proof. revert x. induction paths as [|q paths IH]; intros x; cbn [closeDirs]; unfold watch_remove; pres; apply IH. Qed.
Lemma locks_detach_all L uid uuid p : preserves (locks_are L) (detach_all uid uuid p).
Proof. induction p as [|[sid s] p IH]; cbn [detach_all]; pres; apply IH. Qed.
Lemma locks_handleSSHClose L uid sid uuid sh : preserves (locks_are L) (handleSSHClose uid sid uuid sh).
Proof. unfold handleSSHClose, updateConnCache, handleNewSSHSession. cbv zeta. pres. Qed.
Hint Resolve locks_closeDirs locks_detach_all locks_handleSSHClose : pres.
Lemma locks_close_locked L uid uuid : preserves (locks_are L) (close_locked uid uuid).
Proof. unfold close_locked, closeDir, updateCache, watch_remove. pres. Qed.
Lemma locks_ready_body L uid uuid :
  preserves (locks_are L) (bind (invalidatePreviousSessions uid uuid) (λ _, bind_workspace uuid)).
Proof.
  unfold invalidatePreviousSessions, bind_workspace, setWorkspace, set_watch. pres.
Qed.
Lemma locks_attach L uid sid uuid : preserves (locks_are L) (attach_session uid sid uuid).
Proof. unfold attach_session. pres. Qed.

(** A handler's trace of locks: none, or one lock taken and given back. *)
Definition bracketed (key : string) (o o' : list effect) : Prop :=
  locks_of o' = locks_of o ∨ locks_of o' = locks_of o ++ [LockAcquired key; LockReleased key].

Lemma bracket_finally {B} key (m : M W B) w :
  (∀ L, preserves (locks_are L) m) →
  locks_of (w_out (try_finally m (release key) (add_out (LockAcquired key) w)).2) =
    locks_of (w_out w) ++ [LockAcquired key; LockReleased key].
Proof.
  intros Hm. set (w1 := add_out _ w).
  assert (locks_are (locks_of (w_out w) ++ [LockAcquired key]) w1) as Hlk.
  { unfold locks_are, locks_of. simpl. by rewrite List.filter_app. }
  apply Hm in Hlk. unfold try_finally, locks_are in *. destruct (m w1) as [[b|e] w2]; simpl in *;
    rewrite release_run; destruct (lock_result _ _); simpl;
    unfold locks_of in *; rewrite List.filter_app, Hlk, <- app_assoc; done.
Qed.

(** The lock is always given back.  Whatever goes wrong inside (the
    container, the cache's contents, the session), the handlers that take a
    workspace's lock take it once and ask for its release before they end. *)
Theorem env_lock_released uid sid uuid w :
  bracketed ("locks:workspace:" +:+ uuid) (w_out w) (w_out (handleEnvReady uid uuid sid w).2) ∧
  bracketed ("locks:workspace:" +:+ uuid) (w_out w) (w_out (handleEnvClose uid uuid w).2).
Proof.
  split; set (key := "locks:workspace:" +:+ uuid); unfold bracketed.
  - unfold handleEnvReady. mstep by done. mstep by done. set (w0 := add_out _ w).
    assert (locks_of (w_out w0) = locks_of (w_out w)) as Hw0 by by apply (locks_emit _ (Http _ _)).
    destruct (ag_ready uuid (es_files (w_loc w))); [|by left]. rewrite <- Hw0. clearbody w0.
    unfold acquireLock. rewrite bind_assoc. mstep by done. fold key. destruct (lock_free key (w_now w0)); [|mstep by done; by left].
    rewrite bind_assoc. mstep by done. mstep by done. right. unfold bind at 1.
    pose proof (bracket_finally key (try_catch (bind (invalidatePreviousSessions uid uuid) (λ _, bind_workspace uuid))
      (λ _, throw (RpcException 500 "UNKNOWN"))) w0) as Hb.
    destruct (try_finally _ _ _) as [[[]|e] w1]; [apply locks_attach|]; apply Hb; intros L;
      (apply preserves_try_catch; [apply locks_ready_body|intros; apply preserves_throw]).
  - unfold handleEnvClose. mstep by done. destruct (match rpc_check uid uuid with Ok _ => _ | Throw _ => _ end) as [v|]; [|by left].
    unfold acquireLock. rewrite bind_assoc. mstep by done. fold key. destruct (lock_free key (w_now w)); [|mstep by done; by left].
    rewrite bind_assoc. mstep by done. mstep by done. right. apply bracket_finally. intros L. apply locks_close_locked.
Qed.

End ws_props.

(** ** Examples: [olga] is in [ws-1] through [s1] and watches a directory *)
#[global] Instance olga_Rpc : MembershipRpc :=
  {| rpc_check u _ := if decide (u = "olga") then Ok (MInfo "img" false) else Throw (RpcException 403 "NO") |}.
#[global] Instance free_Redlock : Redlock := {| lock_free _ _ := true; lock_kept _ _ := true |}.
#[global] Instance up_Network : Network := {| reachable _ _ := true |}.
#[global] Instance any_SshKeys : SshKeys := {| key_parses k := truthy k |}.
#[global] Instance ready_Provisioner : Provisioner := {| provision _ _ _ _ := Some false |}.
#[global] Instance plain_Env : Env := {| env _ := None |}.
#[global] Instance env1_Health : Health := {| env_healthy i := bool_decide (i = "env-1") |}.
#[global] Instance none_Auth : Auth := {| validate_token _ := None |}.
#[global] Instance none_Users : Users := {| users_by_uid _ := [] |}.

Definition olga_presence : CachedPresence := [("s1", Session active "sock" "gw-1" (Some "ws-1"))].
Lemma olga_in_ws sid : in_ws "ws-1" olga_presence sid ↔ sid = "s1".
Proof.
  split.
  - intros (s & Hs & _). simpl in Hs. by case_decide.
  - intros ->. by exists (Session active "sock" "gw-1" (Some "ws-1")).
Qed.
Lemma olga_owf : owf olga_presence.
Proof. apply NoDup_singleton. Qed.
Lemma watched_ws_ok : ws_ok (w_cache watched_world) "ws-1".
Proof. intros x Hx. vm_compute in Hx. injection Hx as <-. apply watched_dirs_ok. Qed.
Lemma watched_by_olga q u : watches (c_dirs watched_ews) q u → u = "olga" ∧ truthy q = true.
Proof.
  intros (l & Hl & Hu). simpl in Hl. case_decide as Hq; [|done]. injection Hl as <-. apply list_elem_of_singleton in Hu. by subst.
Qed.

Lemma env_open_enters_witness :
  ∃ w' p', handleEnvOpen "olga" "ws-1" (Some "s1") watched_world = (Ok false, w') ∧
    presence_in (w_cache w') "olga" = Some p' ∧ attached_session "ws-1" (Some p') = Some "s1".
Proof.
  destruct (env_open_enters "olga" "s1" "ws-1" olga_presence (MInfo "img" false) watched_world)
    as (w' & p' & Hr & Hp & _ & Ha & _); [reflexivity..|apply olga_owf|apply watched_ws_ok|reflexivity|].
  by exists w', p'.
Defined.

Lemma env_open_refused_witness :
  handleEnvOpen "mark" "ws-1" (Some "s2") watched_world =
    (Throw (RpcException 401 "NO_WORKSPACE_MEMBERSHIP"), watched_world).
Proof. apply (env_open_refused "mark" "s2" "ws-1" watched_world); [intros v Hv; discriminate Hv|reflexivity]. Defined.

Lemma env_close_leaves_witness :
  ∃ w' x', handleEnvClose "olga" "ws-1" watched_world = (Ok tt, w') ∧ workspace_in (w_cache w') "ws-1" = Some x' ∧
    ¬ watches (c_dirs x') "/workspace/d" "olga" ∧ c_docs x' = {[5 := "env-1"]}.
Proof.
  destruct (env_close_leaves "olga" "s1" "ws-1" olga_presence watched_ews (MInfo "img" false) watched_world)
    as (w' & p' & x' & Hr & _ & _ & Hx & Hw & _ & Hd & _);
    [reflexivity..|apply olga_owf|apply olga_in_ws|reflexivity|reflexivity|apply watched_dirs_ok| |].
  { intros q Hq. by apply (watched_by_olga q "olga"). }
  exists w', x'. split; [exact Hr|]. split; [exact Hx|]. split; [|exact Hd]. rewrite Hw. by intros [? _].
Defined.

Lemma env_close_disposes_witness :
  ∃ w', handleEnvClose "olga" "ws-1" watched_world = (Ok tt, w') ∧
    ∃ g', key_expired (CACHEKEY_PRESENCE_WORKSPACE "olga" "s1" "ws-1")
      (World (w_cache w') [] 0 1000 (MkGateway "gw-1" true [])) = (Ok tt, g') ∧ workspace_in (w_cache g') "ws-1" = None.
Proof.
  destruct (env_close_disposes "olga" "s1" "ws-1" olga_presence watched_ews (MInfo "img" false) watched_world)
    as (w' & x' & Hr & _ & _ & _ & _ & Hg);
    [reflexivity..|apply olga_owf|apply olga_in_ws|reflexivity|reflexivity|apply watched_dirs_ok|apply watched_by_olga|].
  exists w'. split; [exact Hr|].
  destruct (Hg (World (w_cache w') [] 0 1000 (MkGateway "gw-1" true [])) eq_refl eq_refl) as (g' & Hg' & Hx & _).
  by exists g'.
Defined.
