(* ===== verification/EnvRoom.v ===== *)
(** The specification of a workspace as a room: who is in it, through which
    session, and who looks at which directory.  Opening and closing the
    workspace and its directories, as the environment service does it on the
    shared cache, refines the room. *)
From S2P Require Import Prelude JS Messages Keys Interfaces Fixtures GwMembership Presence Socket EnvState EnvSync EnvDocs EnvFS EnvFSProps EnvSSH EnvWs EnvWsProps.
From Stdlib Require Import Lia.

(** ** The abstract room *)
Record Room := MkRoom {
  r_in : gmap string string;              (* user => session *)
  r_watch : gset (string * string);       (* directory, user *)
  r_open : bool;
}.

Inductive room_op :=
| Enter (uid sid : string)
| Leave (uid : string)
| Look (uid sid path : string)
| Unlook (uid path : string).
Definition op_uid (o : room_op) : string :=
  match o with Enter u _ | Leave u | Look u _ _ | Unlook u _ => u end.

Definition without (uid : string) (l : gset (string * string)) : gset (string * string) :=
  filter (λ qu, qu.2 ≠ uid) l.
Definition enter (uid sid : string) (a : Room) : Room := MkRoom (<[uid := sid]> (r_in a)) (without uid (r_watch a)) true.
Definition expel (uid : string) (b : bool) (a : Room) : Room :=
  MkRoom (delete uid (r_in a)) (without uid (r_watch a)) (r_open a || b).
Definition leave (uid : string) (a : Room) : Room :=
  match r_in a !! uid with Some _ => expel uid false a | None => a end.
Definition look (uid path : string) (a : Room) : Room :=
  if r_open a then MkRoom (r_in a) ({[(path, uid)]} ∪ r_watch a) true else a.
Definition unlook (uid path : string) (a : Room) : Room :=
  MkRoom (r_in a) (r_watch a ∖ {[(path, uid)]}) (r_open a).

(** What may happen, with the answer ([Ok true]: wait for the container).  A
    failed entry leaves the room as it was or the user outside; a leaving
    whose lock expired meanwhile is done, and answered with an error. *)
Inductive room_step : room_op → res bool → Room → Room → Prop :=
| step_enter uid sid a : room_step (Enter uid sid) (Ok false) a (enter uid sid a)
| step_wait uid sid a : room_step (Enter uid sid) (Ok true) a a
| step_refused uid sid e a : room_step (Enter uid sid) (Throw e) a a
| step_expelled uid sid e b a : room_step (Enter uid sid) (Throw e) a (expel uid b a)
| step_leave uid a : room_step (Leave uid) (Ok false) a (leave uid a)
| step_leave_late uid e a : room_step (Leave uid) (Throw e) a (leave uid a)
| step_stay uid a : room_step (Leave uid) (Ok false) a a
| step_look uid sid path a : room_step (Look uid sid path) (Ok false) a (look uid path a)
| step_unreadable uid sid path a : room_step (Look uid sid path) (Ok false) a a
| step_unlook uid path a : room_step (Unlook uid path) (Ok false) a (unlook uid path a).
Inductive room_steps : list room_op → list (res bool) → Room → Room → Prop :=
| steps_nil a : room_steps [] [] a a
| steps_cons o os r rs a b c : room_step o r a b → room_steps os rs b c → room_steps (o :: os) (r :: rs) a c.

Section room.
Context {C Y A F : Type} `{!Cache C, !CacheLaws C, !Yjs Y A, !Agent F, !Sha256, !RandomInt, !DocHash,
  !Env, !Random, !MembershipRpc, !Redlock, !Provisioner} {Keys : SshKeys}.
Abbreviation W := (world C (EnvState Y A F)).
Implicit Types (w : W) (a : Room).

(** The workspace, and the users of the gateways. *)
Context (uuid : string) (users : gset string).

Definition env_do (o : room_op) : M W bool :=
  match o with
  | Enter uid sid => handleEnvOpen uid uuid (Some sid)
  | Leave uid => bind (handleEnvClose uid uuid) (λ _, ret false)
  | Look uid sid path => bind (openDir uid sid uuid path None) (λ _, ret false)
  | Unlook uid path => bind (closeDir uid uuid path) (λ _, ret false)
  end.
(** A sequence of requests, each answered; a failed one does not stop the
    next. *)
Fixpoint env_run (os : list room_op) w : list (res bool) * W :=
  match os with
  | [] => ([], w)
  | o :: os => let '(r, w1) := env_do o w in let '(rs, w2) := env_run os w1 in (r :: rs, w2)
  end.

(** The cache that represents a room. *)
Record room_in (c : C) a : Prop := {
  room_users u : u ∈ users → colon_free u ∧ ∃ p, presence_in c u = Some p ∧ owf p ∧
    ∀ sid, in_ws uuid p sid ↔ r_in a !! u = Some sid;
  room_sessions u sid : r_in a !! u = Some sid → truthy sid = true;
  room_dirs : ws_ok c uuid;
  room_watchers q u : (q, u) ∈ r_watch a ↔ ws_watches c uuid q u;
  room_paths q u : (q, u) ∈ r_watch a → truthy q = true;
  room_cached : r_open a = true ↔ is_Some (workspace_in c uuid);
}.

Definition op_ok (o : room_op) : Prop :=
  op_uid o ∈ users ∧ match o with Look _ _ path => truthy path = true | _ => True end.

(** Users other than [uid] see no change in the keys of [uid]. *)
Lemma framed_presence uid u c c' : framed uid uuid c c' → colon_free u → u ≠ uid → presence_in c' u = presence_in c u.
Proof.
  intros Hf Hu Hne. unfold presence_in. rewrite Hf; [done|]. intros [Hk|[Hk|[sid Hk]]].
  - by apply (inj CACHEKEY_PRESENCE) in Hk.
  - by apply presence_ne_workspace in Hk.
  - by apply presence_ne_pws in Hk.
Qed.

(** The frame of the four operations: one user's session changes, the
    watchers change. *)
Lemma room_change uid c c' a a' p' :
  room_in c a → uid ∈ users → framed uid uuid c c' →
  presence_in c' uid = Some p' → owf p' → (∀ sid, in_ws uuid p' sid ↔ r_in a' !! uid = Some sid) →
  (∀ sid, r_in a' !! uid = Some sid → truthy sid = true) → (∀ u, u ≠ uid → r_in a' !! u = r_in a !! u) →
  ws_ok c' uuid → (∀ q u, (q, u) ∈ r_watch a' ↔ ws_watches c' uuid q u) → (∀ q u, (q, u) ∈ r_watch a' → truthy q = true) →
  (r_open a' = true ↔ is_Some (workspace_in c' uuid)) → room_in c' a'.
Proof.
  intros Hr Huid Hf Hp Hwf Hin Htr Ho Hok Hw Hq Hopen. split; try done.
  - intros u Hu. destruct (room_users _ _ Hr u Hu) as (Hcf & p & Hpu & Hwfu & Hinu). split; [done|].
    destruct (decide (u = uid)) as [->|Hne]; [by exists p'|]. exists p.
    rewrite (framed_presence uid u c c') by done. rewrite Ho by done. done.
  - intros u sid Hu. destruct (decide (u = uid)) as [->|Hne]; [by apply Htr|]. rewrite Ho in Hu by done. by eapply room_sessions.
Qed.

Lemma elem_of_without (uid q u : string) (l : gset (string * string)) : (q, u) ∈ without uid l ↔ u ≠ uid ∧ (q, u) ∈ l.
Proof. unfold without. by rewrite elem_of_filter. Qed.

Lemma expelled_in uid c c' a b p :
  room_in c a → uid ∈ users → framed uid uuid c c' → presence_in c uid = Some p →
  presence_in c' uid = Some (detached uuid p) → owf p → ws_ok c' uuid →
  (∀ q u, ws_watches c' uuid q u ↔ u ≠ uid ∧ ws_watches c uuid q u) →
  (r_open (expel uid b a) = true ↔ is_Some (workspace_in c' uuid)) → room_in c' (expel uid b a).
Proof.
  intros Hr Huid Hf Hp Hp' Hwf Hok Hw Hopen. apply (room_change uid c _ a _ (detached uuid p)); try done.
  - unfold owf. by rewrite okeys_detached.
  - intros sid. simpl. rewrite lookup_delete_eq. split; [|done]. intros Hin. by apply detached_none in Hin.
  - intros sid. simpl. by rewrite lookup_delete_eq.
  - intros u Hne. simpl. by rewrite lookup_delete_ne.
  - intros q u. simpl. rewrite elem_of_without, Hw, (room_watchers _ _ Hr). done.
  - intros q u. simpl. rewrite elem_of_without. intros [_ Hq]. by eapply room_paths.
Qed.

Lemma enter_refines uid sid a w :
  room_in (w_cache w) a → uid ∈ users →
  ∃ a', room_step (Enter uid sid) (handleEnvOpen uid uuid (Some sid) w).1 a a' ∧
    room_in (w_cache (handleEnvOpen uid uuid (Some sid) w).2) a'.
Proof.
  intros Hr Huid. destruct (room_users _ _ Hr uid Huid) as (Hcf & p & Hp & Hwf & Hin). unfold handleEnvOpen, if_truthy.
  destruct (truthy sid) eqn:Hsid; [|exists a; split; [constructor|done]].
  unfold isAMember. mstep by done. destruct (match rpc_check uid uuid with Ok _ => _ | Throw _ => _ end) as [v|];
    [|exists a; split; [constructor|done]].
  mstep by done. destruct (provision v uuid sid uid) as [[]|]; [exists a; split; [constructor|done]| |exists a; split; [constructor|done]].
  set (w1 := add_out _ w). pose proof (ready_outcome uid sid uuid p w1 Hcf Hp (room_dirs _ _ Hr)) as Ho.
  unfold bind. destruct (handleEnvReady uid uuid sid w1) as [[[]|e] w']; destruct Ho as [_ Ho]; simpl.
  - destruct (entered_view uid sid uuid p w1 w' Hwf (room_dirs _ _ Hr) Ho) as (p' & Hp' & Hwf' & _ & Hin' & Hx & Hok & Hw).
    destruct Ho as (s & _ & _ & _ & _ & Hfr). exists (enter uid sid a). split; [constructor|].
    apply (room_change uid (w_cache w) _ a _ p'); try done; simpl.
    + intros sid'. rewrite lookup_insert_eq. rewrite Hin'. naive_solver.
    + intros sid'. rewrite lookup_insert_eq. by intros [= <-].
    + intros u Hne. by rewrite lookup_insert_ne.
    + intros q u. rewrite elem_of_without, Hw, (room_watchers _ _ Hr). done.
    + intros q u. rewrite elem_of_without. intros [_ Hq]. by eapply room_paths.
  - destruct Ho as [Hc|(Hp' & Hx' & Hfr)]; [exists a; split; [constructor|by rewrite Hc]|].
    destruct (left_view uid uuid _ _ _ (room_dirs _ _ Hr) Hx') as [Hok Hw].
    assert (∃ b, r_open (expel uid b a) = true ↔ is_Some (workspace_in (w_cache w') uuid)) as [b Hb].
    { destruct Hx' as [Hx'|Hx'].
      - exists false. simpl. rewrite orb_false_r, (room_cached _ _ Hr), Hx'. simpl. by rewrite fmap_is_Some.
      - exists true. simpl. rewrite orb_true_r, Hx'. split; [by eexists|done]. }
    exists (expel uid b a). split; [constructor|]. by apply (expelled_in uid (w_cache w) _ a b p).
Qed.

(** A workspace that is not cached: only the session is detached. *)
Lemma close_uncached uid sid s p w :
  colon_free uid → presence_in (w_cache w) uid = Some p →
  ofind (λ session, bool_decide (s_wsUuid session = Some uuid)) p = Some (sid, s) → truthy sid = true →
  workspace_in (w_cache w) uuid = None →
  ∃ w', close_locked uid uuid w = (Ok tt, w') ∧ presence_in (w_cache w') uid = Some (oset sid (session_at None s) p) ∧
    workspace_in (w_cache w') uuid = None ∧ framed uid uuid (w_cache w) (w_cache w').
Proof.
  intros Hcf Hp Hf Hsid Hx. unfold close_locked. mstep by done. rewrite Hp, Hf, Hsid. cbn [negb]. mstep by done. mstep by done.
  set (w1 := set_cache _ (set_cache _ w)).
  assert (workspace_in (w_cache w1) uuid = None) as Hx1.
  { simpl. rewrite workspace_in_del_ne by key_neq. by rewrite workspace_in_set_ne by key_neq. }
  mstep by done. rewrite Hx1. exists w1. split; [done|]. split; [|split; [done|]].
  - simpl. rewrite presence_in_del_ne by key_neq. apply presence_in_set_eq.
  - eapply framed_trans; [apply framed_set; by left|]. apply framed_del. right. right. by eexists.
Qed.

Lemma leave_in uid sid s p c c' a :
  room_in c a → uid ∈ users → r_in a !! uid = Some sid → framed uid uuid c c' → presence_in c uid = Some p → owf p →
  (∀ sid', in_ws uuid p sid' ↔ r_in a !! uid = Some sid') →
  presence_in c' uid = Some (oset sid (session_at None s) p) → ws_ok c' uuid →
  (∀ q u, ws_watches c' uuid q u ↔ u ≠ uid ∧ ws_watches c uuid q u) →
  (is_Some (workspace_in c' uuid) ↔ is_Some (workspace_in c uuid)) → room_in c' (leave uid a).
Proof.
  intros Hr Huid Hsid Hf Hp Hwf Hin Hp' Hok Hw Hx. unfold leave. rewrite Hsid.
  apply (room_change uid c _ a _ (oset sid (session_at None s) p)); try done.
  - by apply oset_owf.
  - intros sid'. simpl. rewrite lookup_delete_eq, in_ws_oset. split; [|done]. case_decide; [done|]. rewrite Hin, Hsid. naive_solver.
  - intros sid'. simpl. by rewrite lookup_delete_eq.
  - intros u Hne. simpl. by rewrite lookup_delete_ne.
  - intros q u. simpl. rewrite elem_of_without, Hw, (room_watchers _ _ Hr). done.
  - intros q u. simpl. rewrite elem_of_without. intros [_ Hq]. by eapply room_paths.
  - simpl. rewrite orb_false_r, Hx. apply (room_cached _ _ Hr).
Qed.

Lemma close_locked_refines uid a w :
  room_in (w_cache w) a → uid ∈ users → ∃ w', close_locked uid uuid w = (Ok tt, w') ∧ room_in (w_cache w') (leave uid a).
Proof.
  intros Hr Huid. destruct (room_users _ _ Hr uid Huid) as (Hcf & p & Hp & Hwf & Hin).
  destruct (r_in a !! uid) as [sid|] eqn:Ha.
  - destruct (attached_ofind uuid p sid Hwf) as (s & Hf & Hs); [intros sid'; rewrite Hin; naive_solver|].
    pose proof (room_sessions _ _ Hr uid sid Ha) as Hsid. rewrite <- Ha in Hin.
    destruct (workspace_in (w_cache w) uuid) as [x|] eqn:Hx.
    + destruct (close_locked_run uid sid s uuid p x w Hcf Hp Hf Hsid Hx) as (w' & es & Hrun & _ & _ & _ & Hp' & Hx' & _ & Hfr).
      destruct (gone_view uid sid x (room_dirs _ _ Hr x Hx)) as (Hok & Hw & _).
      { intros q Hq. apply (room_paths _ _ Hr q uid), (room_watchers _ _ Hr). by exists x. }
      exists w'. split; [done|]. apply (leave_in uid sid s p (w_cache w)); try done.
      * intros y Hy. rewrite Hx' in Hy. by injection Hy as <-.
      * intros q u. unfold ws_watches. rewrite Hx', Hx. naive_solver.
    + destruct (close_uncached uid sid s p w Hcf Hp Hf Hsid Hx) as (w' & Hrun & Hp' & Hx' & Hfr).
      exists w'. split; [done|]. apply (leave_in uid sid s p (w_cache w)); try done.
      * intros y Hy. by rewrite Hx' in Hy.
      * intros q u. unfold ws_watches. rewrite Hx', Hx. naive_solver.
      * by rewrite Hx', Hx.
  - unfold leave. rewrite Ha. exists w. split; [|done]. unfold close_locked. mstep by done. rewrite Hp.
    destruct (ofind _ p) as [[k s]|] eqn:Hf; [|done]. apply ofind_Some in Hf as [Hel Hb]. apply bool_decide_eq_true in Hb.
    assert (in_ws uuid p k) as Habs by (exists s; split; [by apply elem_oget|done]). by apply Hin in Habs.
Qed.

Lemma leave_refines uid a w :
  room_in (w_cache w) a → uid ∈ users →
  ∃ a', room_step (Leave uid) (bind (handleEnvClose uid uuid) (λ _, ret false) w).1 a a' ∧
    room_in (w_cache (bind (handleEnvClose uid uuid) (λ _, ret false) w).2) a'.
Proof.
  intros Hr Huid. unfold handleEnvClose. rewrite bind_assoc. mstep by done.
  destruct (match rpc_check uid uuid with Ok _ => _ | Throw _ => _ end); [|exists a; split; [apply step_stay|done]].
  unfold acquireLock. rewrite !bind_assoc. mstep by done.
  destruct (lock_free _ _); [|mstep by done; exists a; split; [apply step_stay|done]].
  rewrite bind_assoc. mstep by done. mstep by done. set (w1 := add_out _ w).
  destruct (close_locked_refines uid a w1 Hr Huid) as (w2 & Hrun & Hr2).
  unfold bind at 1 2. rewrite (finally_released _ _ _ _ _ Hrun). exists (leave uid a).
  destruct (lock_kept _ _); simpl; (split; [constructor|exact Hr2]).
Qed.

(** Opening and closing a directory. *)
Lemma dirs_refine uid path add x a w :
  room_in (w_cache w) a → uid ∈ users → truthy path = true ∨ add = false → workspace_in (w_cache w) uuid = Some x →
  ∃ w', updateCache uid uuid path add w = (Ok tt, w') ∧
    room_in (w_cache w') (if add then look uid path a else unlook uid path a).
Proof.
  intros Hr Huid Htr Hx. eexists. split; [by apply updateCache_dirs|]. cbn [w_cache add_outs set_cache].
  set (dirs := (dirs_after add path uid (c_dirs x)).1). pose proof (room_dirs _ _ Hr x Hx) as Hok.
  assert (r_open a = true) as Hopen by (apply (room_cached _ _ Hr); by rewrite Hx).
  assert (watch_change add path uid (c_dirs x) dirs) as [Hok' Hw] by (destruct add; [by apply open_change|by apply close_change]).
  set (a' := if add then look uid path a else unlook uid path a).
  assert (r_in a' = r_in a ∧ r_open a' = true) as [Hin' Hopen'].
  { unfold a', look, unlook. rewrite Hopen. by destruct add. }
  assert (∀ q u, (q, u) ∈ r_watch a' ↔ if decide (q = path ∧ u = uid) then add = true else (q, u) ∈ r_watch a) as Hw'.
  { intros q u. unfold a', look, unlook. rewrite Hopen. destruct add; simpl; case_decide; set_solver. }
  destruct (room_users _ _ Hr uid Huid) as (Hcf & p & Hp & Hwf & Hin). apply (room_change uid (w_cache w) _ a _ p); try done.
  - apply framed_set. right. by left.
  - by rewrite presence_in_set_ne by key_neq.
  - by rewrite Hin'.
  - rewrite Hin'. intros sid. apply (room_sessions _ _ Hr).
  - intros u _. by rewrite Hin'.
  - intros y Hy. rewrite workspace_in_set_eq in Hy. by injection Hy as <-.
  - intros q u. unfold ws_watches. rewrite workspace_in_set_eq, Hw'. pose proof (room_watchers _ _ Hr q u) as Hq.
    unfold ws_watches in Hq. rewrite Hx in Hq. specialize (Hw q u). case_decide; split.
    + intros ->. eexists. split; [done|]. simpl. by apply Hw.
    + intros (y & Hy & Hwy). injection Hy as <-. by apply Hw.
    + intros Hqu. eexists. split; [done|]. simpl. apply Hw. apply Hq in Hqu as (y & Hy & Hwy). by injection Hy as <-.
    + intros (y & Hy & Hwy). injection Hy as <-. apply Hq. exists x. split; [done|]. by apply Hw.
  - intros q u. rewrite Hw'. case_decide as Hd; [|by apply (room_paths _ _ Hr)]. destruct Hd as [-> _]. intros ->. by destruct Htr.
  - rewrite Hopen', workspace_in_set_eq. split; [by eexists|done].
Qed.

Lemma uncached_refines uid path add a w :
  room_in (w_cache w) a → workspace_in (w_cache w) uuid = None →
  updateCache uid uuid path add w = (Ok tt, w) ∧ r_open a = false ∧ r_watch a = ∅.
Proof.
  intros Hr Hx. split; [unfold updateCache; mstep by done; by rewrite Hx|]. split.
  - destruct (r_open a) eqn:Ho; [|done]. apply (room_cached _ _ Hr) in Ho. rewrite Hx in Ho. by destruct Ho.
  - apply set_eq. intros [q u]. rewrite (room_watchers _ _ Hr). unfold ws_watches. rewrite Hx. set_solver.
Qed.

Lemma op_refines o a w :
  room_in (w_cache w) a → op_ok o →
  ∃ a', room_step o (env_do o w).1 a a' ∧ room_in (w_cache (env_do o w).2) a'.
Proof.
  intros Hr [Hu Hpath]. destruct o as [uid sid|uid|uid sid path|uid path]; simpl in *.
  - by apply enter_refines.
  - by apply leave_refines.
  - unfold openDir. rewrite bind_assoc. mstep by done. rewrite bind_assoc. mstep by done. set (w1 := add_out _ w).
    destruct (ag_dir uuid path (es_files (w_loc w1))) as [entries|]; [|mstep by done; exists a; split; [apply step_unreadable|done]].
    rewrite bind_assoc. mstep by done. exists (look uid path a).
    destruct (workspace_in (w_cache w) uuid) as [x|] eqn:Hx.
    + destruct (dirs_refine uid path true x a w1 Hr Hu (or_introl Hpath) Hx) as (w' & Hrun & Hr').
      mstep by exact Hrun. split; [apply step_look|done].
    + destruct (uncached_refines uid path true a w1 Hr Hx) as (Hrun & Ho & _). mstep by exact Hrun.
      split; [apply step_look|]. unfold look. by rewrite Ho.
  - unfold closeDir. exists (unlook uid path a). destruct (workspace_in (w_cache w) uuid) as [x|] eqn:Hx.
    + destruct (dirs_refine uid path false x a w Hr Hu (or_intror eq_refl) Hx) as (w' & Hrun & Hr').
      mstep by exact Hrun. split; [apply step_unlook|done].
    + destruct (uncached_refines uid path false a w Hr Hx) as (Hrun & Ho & Hw). mstep by exact Hrun.
      split; [apply step_unlook|]. unfold unlook. rewrite Hw. replace (∅ ∖ {[(path, uid)]}) with (r_watch a) by (rewrite Hw; set_solver).
      by destruct a.
Qed.

(** C8: The environment service implements the room.  For any sequence of
    requests by connected users to open or close the workspace or its
    directories, whatever the other services answer, the answers and the
    cache at the end are those of some run of the abstract room: each user is
    in it through at most one session, the one that entered last; entering
    and leaving drop just that user's watches; a failed entry never leaves
    the user half inside. *)
Theorem env_refines_room os a w :
  room_in (w_cache w) a → Forall op_ok os →
  ∃ a', room_steps os (env_run os w).1 a a' ∧ room_in (w_cache (env_run os w).2) a'.
Proof.
  intros Hr Hok. revert a w Hr. induction Hok as [|o os Ho _ IH]; intros a w Hr; simpl; [exists a; split; [constructor|done]|].
  destruct (op_refines o a w Hr Ho) as (b & Hs & Hb). destruct (env_do o w) as [r w1]. simpl in *.
  destruct (IH b w1 Hb) as (c & Hss & Hc). destruct (env_run os w1) as [rs w2]. exists c. split; [by econstructor|done].
Qed.
End room.

(** ** Example: [olga] is in the room and looks at a directory; she opens
    another one, reopens the workspace and leaves *)
Definition olga_room : Room := MkRoom {["olga" := "s1"]} {[("/workspace/d", "olga")]} true.
Lemma olga_room_in : room_in "ws-1" {["olga"]} (w_cache watched_world) olga_room.
Proof.
  split.
  - intros u ->%elem_of_singleton. split; [done|]. exists olga_presence. split; [done|]. split; [apply olga_owf|].
    intros sid. rewrite olga_in_ws. simpl. rewrite lookup_singleton_eq. naive_solver.
  - intros u sid Hu. simpl in Hu. apply lookup_singleton_Some in Hu as [_ <-]. done.
  - apply watched_ws_ok.
  - intros q u. simpl. rewrite elem_of_singleton. split.
    + intros [= -> ->]. exists watched_ews. split; [done|]. exists ["olga"]. split; [done|by left].
    + intros (x & Hx & l & Hl & Hu). vm_compute in Hx. injection Hx as <-. simpl in Hl. case_decide as Hq; [|done].
      injection Hl as <-. apply list_elem_of_singleton in Hu. by subst.
  - intros q u. simpl. rewrite elem_of_singleton. by intros [= -> ->].
  - split; [by eexists|done].
Qed.

Lemma env_refines_room_witness :
  ∃ a', room_steps [Look "olga" "s1" "/workspace/e"; Enter "olga" "s1"; Leave "olga"]
      (env_run "ws-1" [Look "olga" "s1" "/workspace/e"; Enter "olga" "s1"; Leave "olga"] watched_world).1 olga_room a' ∧
    room_in "ws-1" {["olga"]} (w_cache (env_run "ws-1"
      [Look "olga" "s1" "/workspace/e"; Enter "olga" "s1"; Leave "olga"] watched_world).2) a'.
Proof.
  apply (env_refines_room "ws-1" {["olga"]} _ olga_room watched_world); [apply olga_room_in|].
  repeat constructor; simpl; set_solver.
Defined.
