(* ===== verification/Collab.v ===== *)
(** The gateway and the environment service together: an edit of one user
    reaches the sockets of all users of the document. *)
From S2P Require Import Prelude JS Messages Keys Interfaces GwMembership Presence Socket EnvState EnvSync EnvSyncProps EnvDocs EnvFS EnvFSProps.
From Stdlib Require Import Lia.

Section collab.
Context {C Y A F : Type} `{!Cache C, !CacheLaws C, !Yjs Y A, !Agent F, !Sha256}.
Abbreviation W := (world C (EnvState Y A F)).
Abbreviation G := (world C Gateway).
Implicit Types (w : W) (g : G).

(** The socket of the session through which a user is attached. *)
Definition socket_of (c : C) (uuid uid : string) : option string :=
  sid ← if_truthy (attached_session uuid (presence_in c uid));
  p ← presence_in c uid;
  s ← oget sid p;
  if_truthy (Some (s_socketId s)).

Lemma mapM_reads_in {X B D} (f : B → M X D) (h : B → D) l (x : X) :
  (∀ b, b ∈ l → f b x = (Ok (h b), x)) → mapM f l x = (Ok (h <$> l), x).
Proof.
  intros Hf. induction l as [|b l IH]; simpl; [done|]. unfold bind. rewrite Hf by by left.
  rewrite IH by (intros; apply Hf; by right). done.
Qed.

(** The session an attached user is listed with is in the user's presence. *)
Lemma sessions_in_elem c uuid uids u sid :
  (u, sid) ∈ sessions_in c uuid uids → u ∈ uids ∧ if_truthy (attached_session uuid (presence_in c u)) = Some sid ∧
    ∃ p s, presence_in c u = Some p ∧ oget sid p = Some s.
Proof.
  unfold sessions_in. intros ([u' o] & Hin & Hw)%list_elem_of_omap. unfold with_session in Hw. simpl in Hw.
  destruct (if_truthy o) as [sid'|] eqn:Ho; [|done]. injection Hw as -> ->.
  assert (o = attached_session uuid (presence_in c u) ∧ u ∈ uids) as [-> Hu].
  { clear -Hin. induction uids as [|v l IH]; simpl in Hin; [by apply elem_of_nil in Hin|].
    apply elem_of_cons in Hin as [[= -> ->]|Hin]; [split; [done|by left]|]. destruct (IH Hin). split; [done|by right]. }
  split; [done|]. split; [done|]. destruct (presence_in c u) as [p|]; [|done]. exists p.
  unfold if_truthy in Ho. destruct (attached_session uuid (Some p)) as [k|] eqn:Ha; [|done]. destruct (truthy k); [|done].
  injection Ho as ->. unfold attached_session in Ha. simpl in Ha. destruct (ofind _ p) as [[k' s]|] eqn:Hf; [|done].
  injection Ha as ->. apply ofind_Some in Hf as [Hel _].
  assert (is_Some (oget sid p)) as [s' Hs'].
  { apply oget_keys. apply list_elem_of_fmap. exists (sid, s). done. }
  by exists s'.
Qed.

(** What the gateway does with a list of attached users. *)
Definition socket_at (c : C) (us : string * string) : option string :=
  p ← presence_in c us.1; s ← oget us.2 p; Some (s_socketId s).

Definition to_socket (pattern : string) (msg : OutMsg) (o : option string) : list effect :=
  match if_truthy o with Some k => [ToSocket k pattern msg] | None => [] end.

Lemma sessions_in_cons c uuid u uids :
  sessions_in c uuid (u :: uids) =
  match if_truthy (attached_session uuid (presence_in c u)) with
  | Some sid => (u, sid) :: sessions_in c uuid uids
  | None => sessions_in c uuid uids
  end.
Proof. unfold sessions_in, with_session. simpl. by destruct (if_truthy _). Qed.

Lemma sockets_traces c uuid uids pattern msg :
  concat (to_socket pattern msg <$> (socket_at c <$> sessions_in c uuid uids)) =
  (λ k, ToSocket k pattern msg) <$> omap (socket_of c uuid) uids.
Proof.
  induction uids as [|u uids IH]; [done|]. rewrite sessions_in_cons. cbn [omap list_omap]. unfold socket_of at 1.
  destruct (if_truthy (attached_session uuid (presence_in c u))) as [sid|]; cbn [mbind option_bind]; [|apply IH].
  rewrite !fmap_cons. cbn [concat]. rewrite IH. unfold socket_at, to_socket. cbn [fst snd].
  destruct (presence_in c u) as [p|]; cbn [mbind option_bind if_truthy app]; [|done].
  destruct (oget sid p) as [s|]; cbn [mbind option_bind if_truthy app]; [|done]. by destruct (truthy (s_socketId s)).
Qed.

Lemma gateway_broadcast_run uuid uids pattern msg g :
  let l := sessions_in (w_cache g) uuid uids in
  Socket.broadcast l.*1 l.*2 pattern msg g =
    (Ok tt, add_outs ((λ k, ToSocket k pattern msg) <$> omap (socket_of (w_cache g) uuid) uids) g).
Proof.
  intros l. unfold Socket.broadcast. mstep by (by apply (mapM_reads _ (λ uid (g0 : G), presence_in (w_cache g0) uid))).
  set (h := λ '(i, o), match o with
    | None => None
    | Some p => s_socketId <$> oget (default "undefined" (l.*2 !! i)) p
    end : option string).
  assert (∀ i u sid, l !! i = Some (u, sid) →
    l.*2 !! i = Some sid ∧ ∃ p s, presence_in (w_cache g) u = Some p ∧ oget sid p = Some s) as Hl.
  { intros i u sid Hi. split; [by rewrite list_lookup_fmap, Hi|].
    apply list_elem_of_lookup_2, sessions_in_elem in Hi. tauto. }
  set (ps := imap _ _).
  assert (∀ i o, (i, o) ∈ ps → ∃ u sid, l !! i = Some (u, sid) ∧ o = presence_in (w_cache g) u) as Hps.
  { intros i o [j Hj]%list_elem_of_lookup. subst ps. rewrite list_lookup_imap, !list_lookup_fmap in Hj.
    destruct (l !! j) as [[u sid]|] eqn:Hlj; [|done]. injection Hj as <- <-. by exists u, sid. }
  mstep by (apply (mapM_reads_in _ h); intros [i o] Hin; destruct (Hps i o Hin) as (u & sid & Hi & ->);
    destruct (Hl i u sid Hi) as (Hsid & p & s & Hp & Hs); unfold h; rewrite Hp, Hsid; simpl; rewrite Hs; done).
  assert (h <$> ps = socket_at (w_cache g) <$> l) as ->.
  { apply list_eq. intros i. subst ps. rewrite list_lookup_fmap, list_lookup_imap, !list_lookup_fmap.
    destruct (l !! i) as [[u sid]|] eqn:Hi; [|done]. simpl. destruct (Hl i u sid Hi) as (Hsid & p & s & Hp & Hs).
    rewrite Hsid. unfold socket_at. simpl. rewrite Hp. simpl. by rewrite Hs. }
  rewrite (forM_emits _ (to_socket pattern msg)).
  - unfold l. by rewrite sockets_traces.
  - intros o g'. unfold to_socket. destruct (if_truthy o); [done|]. by rewrite add_outs_nil.
Qed.

(** C9: An edit reaches everyone.  When a client's message changes an open
    document, one broadcast with the change goes out; the gateway that
    handles it, on the same cache, sends the change to the socket of every
    user of the document who is attached to the workspace, in order, and to
    no other socket. *)
Theorem edit_reaches_everyone uid sid uuid ino buf body y upd ref d w :
  env_ok (w_loc w) → doc_ref (w_loc w) uuid ino = Some ref → es_heap (w_loc w) !! ref = Some d →
  y_decode buf = Some (SYNC body) → y_read body (d_y d) = Some (y, Some upd, None) →
  let msg := FSSyncOut uuid ino (y_enc_update upd) in
  ∃ w' e, handleSync uid sid uuid ino buf w = (Ok tt, w') ∧ w_out w' = w_out w ++ [e] ∧
    ∀ g, w_cache g = w_cache w →
      ∃ g', handle_socket_event e g = (Ok tt, g') ∧
        w_out g' = w_out g ++ ((λ k, ToSocket k "fs" msg) <$> omap (socket_of (w_cache w) uuid) (okeys (d_users d))).
Proof.
  intros Hok Href Hd Hdec Hread msg. destruct (env_ok_doc _ _ _ _ Hok Href) as (d' & Hd' & Hu & Hi & Hus).
  rewrite Hd in Hd'. injection Hd' as <-.
  unfold handleSync. mstep by done. rewrite Href. mstep by (apply get_doc_run; exact Hd). rewrite Hdec, Hread. mstep by done.
  set (w1 := set_loc _ w).
  assert (es_heap (w_loc w1) !! ref = Some (doc_set_y y d)) as Hd1 by (simpl; by rewrite list_lookup_alter_eq, Hd).
  cbn [fire]. unfold updateHandler, broadcast. rewrite !bind_assoc. mstep by (apply get_doc_run; exact Hd1).
  mstep by (apply broadcast_active_run). cbn [d_users doc_set_y d_uuid d_ino]. rewrite Hu, Hi.
  destruct (okeys (d_users d)) as [|u us] eqn:Hk; [by destruct (d_users d)|].
  eexists _, _. split; [done|]. split; [done|]. intros g Hg. cbn [handle_socket_event]. rewrite bool_decide_true by done.
  change (w_cache w1) with (w_cache w). rewrite <- Hg. eexists. split; [apply gateway_broadcast_run|done].
Qed.
End collab.

Lemma edit_reaches_everyone_witness :
  ∃ w' e, handleSync "olga" "s1" "ws-1" 5 "new" watched_world = (Ok tt, w') ∧ w_out w' = [e] ∧
    ∃ g', handle_socket_event e (World (w_cache watched_world) [] 0 1000 (MkGateway "gw-1" true [])) = (Ok tt, g') ∧
      w_out g' = [ToSocket "sock" "fs" (FSSyncOut "ws-1" 5 "new")].
Proof.
  destruct (edit_reaches_everyone "olga" "s1" "ws-1" 5 "new" "new" "new" "new" 0 demo_doc watched_world)
    as (w' & e & Hr & Ho & Hg); [apply watched_env_ok|reflexivity..|].
  exists w', e. split; [exact Hr|]. split; [exact Ho|].
  apply (Hg (World (w_cache watched_world) [] 0 1000 (MkGateway "gw-1" true [])) eq_refl).
Defined.
