(* ===== verification/Infra.v ===== *)
(** The infrastructure libraries: [debounce] of [libs/common/utils], service
    discovery ([libs/eureka]), the RabbitMQ publisher ([libs/rmq]) and the
    choice of the stores' addresses ([libs/redis], [libs/firebase]). *)
From S2P Require Import Prelude JS Messages Keys Interfaces EnvState EnvSync EnvSyncProps.
From Stdlib Require Import Lia.

(** ** [debounce] *)
Section debounce.
Context {A : Type}.

(** The pending timeout: when it fires and with which arguments. *)
Definition Timeout : Type := option (Z * A).

(** A call of the debounced function at a time: the pending timeout is
    cleared and a new one is set. *)
Definition debounced (wait t : Z) (args : A) (timeout : Timeout) : Timeout := Some (t + wait, args).

(** The event loop at a time: a due timeout runs the function once. *)
Definition run_timeout (t : Z) (timeout : Timeout) : Timeout * list A :=
  match timeout with
  | Some (due, args) => if due <=? t then (None, [args]) else (timeout, [])
  | None => (None, [])
  end.

Inductive deb_event := Call (t : Z) (args : A) | Loop (t : Z).
Definition deb_step (wait : Z) (e : deb_event) (x : Timeout * list A) : Timeout * list A :=
  match e with
  | Call t args => (debounced wait t args x.1, x.2)
  | Loop t => let '(timeout, ran) := run_timeout t x.1 in (timeout, x.2 ++ ran)
  end.
Definition deb_run (wait : Z) (es : list deb_event) : Timeout * list A := foldl (λ x e, deb_step wait e x) (None, []) es.

Definition ev_time (e : deb_event) : Z := match e with Call t _ => t | Loop t => t end.

(** A burst of calls: no gap reaches [wait], whatever the loop does in
    between; [last]: the time of the latest call. *)
Fixpoint burst (wait last : Z) (es : list deb_event) : Prop :=
  match es with
  | [] => True
  | Call t _ :: es => t < last + wait ∧ burst wait t es
  | Loop t :: es => t < last + wait ∧ burst wait last es
  end.
Fixpoint latest (last : Z) (args : A) (es : list deb_event) : Z * A :=
  match es with
  | [] => (last, args)
  | Call t a :: es => latest t a es
  | Loop _ :: es => latest last args es
  end.

Lemma deb_burst_run wait last args es ran :
  burst wait last es →
  foldl (λ x e, deb_step wait e x) (Some (last + wait, args), ran) es =
    (Some ((latest last args es).1 + wait, (latest last args es).2), ran).
Proof.
  revert last args. induction es as [|[t a|t] es IH]; intros last args; simpl; [done|..]; intros [Ht Hes].
  - by apply IH.
  - unfold deb_step. simpl. rewrite (proj2 (Z.leb_gt _ _)) by lia. simpl. rewrite app_nil_r. by apply IH.
Qed.

(** A burst runs the function once, [wait] after its last call, with the
    arguments of that call. *)
Lemma debounce_once wait t0 a0 es t :
  burst wait t0 es → (latest t0 a0 es).1 + wait ≤ t →
  deb_run wait (Call t0 a0 :: es) = (Some ((latest t0 a0 es).1 + wait, (latest t0 a0 es).2), []) ∧
  deb_run wait (Call t0 a0 :: es ++ [Loop t]) = (None, [(latest t0 a0 es).2]).
Proof.
  intros Hb Ht. assert (deb_run wait (Call t0 a0 :: es) =
    (Some ((latest t0 a0 es).1 + wait, (latest t0 a0 es).2), [])) as Hr by (by apply deb_burst_run).
  split; [done|]. unfold deb_run in *. rewrite app_comm_cons, foldl_app, Hr. simpl. unfold deb_step. simpl.
  by rewrite (proj2 (Z.leb_le _ _)) by lia.
Qed.
End debounce.

(** The flush of a document is [debounce(flush, 5000)]: the entry the
    instance keeps for it is the pending timeout. *)
Section flush_debounced.
Context {C Y A F : Type} `{!Cache C, !CacheLaws C, !Yjs Y A, !Agent F, !Sha256}.
Definition flush_timeout (ref : nat) (s : EnvState Y A F) : Timeout (A:=unit) :=
  (λ due, (due, tt)) <$> es_flush s !! ref.

Lemma schedule_is_debounced ref (w : world C (EnvState Y A F)) :
  flush_timeout ref (w_loc (schedule_flush ref w).2) =
    debounced debounceTime (w_now w) tt (flush_timeout ref (w_loc w)).
Proof. unfold flush_timeout. simpl. by rewrite lookup_insert_eq. Qed.

Lemma flush_timer_is_loop ref (w : world C (EnvState Y A F)) :
  env_ok (w_loc w) →
  flush_timeout ref (w_loc (flush_timer ref w).2) = (run_timeout (w_now w) (flush_timeout ref (w_loc w))).1.
Proof.
  intros [[_ Hf] _]. unfold flush_timeout, run_timeout, flush_timer. mstep by done. mstep by done.
  destruct (es_flush (w_loc w) !! ref) as [due|] eqn:Hd; simpl; [|by rewrite Hd].
  destruct (due <=? w_now w); [|simpl; by rewrite Hd]. destruct (Hf ref due Hd) as [d Hh].
  mstep by done. set (w1 := set_loc _ w). destruct (flush_run ref d w1 Hh) as [es ->]. simpl.
  unfold flush_state. repeat case_match; simpl; by rewrite lookup_delete_eq.
Qed.
End flush_debounced.

(** ** Service discovery ([libs/eureka]) *)

(** [toLowerCase] and [toUpperCase] on ASCII letters. *)
Definition lower_char (c : ascii) : ascii :=
  let n := nat_of_ascii c in if (65 <=? n)%nat && (n <=? 90)%nat then ascii_of_nat (n + 32) else c.
Definition upper_char (c : ascii) : ascii :=
  let n := nat_of_ascii c in if (97 <=? n)%nat && (n <=? 122)%nat then ascii_of_nat (n - 32) else c.
Fixpoint string_map (f : ascii → ascii) (s : string) : string :=
  match s with EmptyString => EmptyString | String c s => String (f c) (string_map f s) end.
Definition toLowerCase : string → string := string_map lower_char.
Definition toUpperCase : string → string := string_map upper_char.

(** Ports given as a number or a string appear as text. *)
Record EurekaOptions := MkEurekaOptions {
  eo_host : string; eo_port : string; eo_serviceName : string; eo_servicePort : string }.

(** The instance a service registers: the body of the registration. *)
Record Instance_ := MkInstance {
  in_instanceId : string; in_hostName : string; in_app : string; in_ipAddr : string; in_vipAddress : string;
  in_secureVipAddress : string; in_status : string; in_port : string; in_homePageUrl : string; in_healthCheckUrl : string }.

(** The Eureka server: whether a request reaches it, and what it answers for
    an application ([application.instance] of the body, each with its address
    and port). *)
Inductive AppsReply := NoReply | NoApplication | Instances (l : option (list (string * string))).
Class EurekaServer := { ek_reachable : nat → bool; ek_apps : string → AppsReply }.
Class Hostname := { hostname : string }.

(** [heartbeatInterval] and the signal handlers; [ek_exited]: the process
    has left. *)
Record EurekaState := MkEureka { ek_interval : bool; ek_handlers : bool; ek_exited : bool }.

Section eureka.
Context {C : Type} `{!Hostname, !EurekaServer}.
Variable options : EurekaOptions.
Abbreviation W := (world C EurekaState).
Local Open Scope mon_scope.

Definition INSTANCE_ID : string := hostname +:+ ":" +:+ toLowerCase (eo_serviceName options).
Definition EUREKA_URL : string := "http://" +:+ eo_host options +:+ ":" +:+ eo_port options +:+ "/eureka/v2/apps".
Definition app_url : string := EUREKA_URL +:+ "/" +:+ eo_serviceName options.
Definition instance_url : string := app_url +:+ "/" +:+ INSTANCE_ID.

Definition registration : Instance_ :=
  let name := eo_serviceName options in
  let base := "http://" +:+ name +:+ ":" +:+ eo_servicePort options in
  MkInstance INSTANCE_ID name (toUpperCase name) name (toUpperCase name) (toUpperCase name) "UP"
    (eo_servicePort options) (base +:+ "/") (base +:+ "/api/health").

(** [await fetch(...)]: the request goes out and may fail. *)
Definition fetch (method url : string) : M W unit :=
  λ w, (if ek_reachable (w_rng w) then Ok tt else Throw (PlainError "fetch failed"),
        tick_rng (add_out (Http method url) w)).

(** Failures are logged. *)
Definition registerWithEureka : M W unit := try_catch (fetch "POST" app_url) (λ _, ret tt).
Definition sendHeartbeat : M W unit := try_catch (fetch "PUT" instance_url) (λ _, ret tt).
Definition deregisterFromEureka : M W unit := try_catch (fetch "DELETE" instance_url) (λ _, ret tt).

Definition eureka_onModuleInit : M W unit :=
  registerWithEureka ;;;
  put_loc (λ s, MkEureka true (ek_handlers s) (ek_exited s)) ;;;
  put_loc (λ s, MkEureka (ek_interval s) true (ek_exited s)).
Definition eureka_onModuleDestroy : M W unit :=
  deregisterFromEureka ;;;
  put_loc (λ s, MkEureka false (ek_handlers s) (ek_exited s)).

(** The interval fires, every thirty seconds while the process runs. *)
Definition on_interval : M W unit :=
  s <- get_loc ;;
  if ek_interval s && negb (ek_exited s) then sendHeartbeat else ret tt.
(** SIGINT or SIGTERM *)
Definition on_signal : M W unit :=
  s <- get_loc ;;
  if ek_handlers s && negb (ek_exited s)
  then deregisterFromEureka ;;; put_loc (λ s, MkEureka (ek_interval s) (ek_handlers s) true) else ret tt.

(** The address of the first instance of a service; [None]: [undefined].
    An empty or missing list is logged, and its first element then throws. *)
Definition getService (serviceName : string) : M W (option string) :=
  try_catch
    (emit (Http "GET" (EUREKA_URL +:+ "/" +:+ serviceName)) ;;;
     match ek_apps serviceName with
     | NoReply => throw (PlainError "fetch failed")
     | NoApplication => throw TypeError
     | Instances instances =>
         match instances with
         | Some ((ipAddr, port) :: _) => ret (Some ("http://" +:+ ipAddr +:+ ":" +:+ port))
         | Some [] | None => throw TypeError
         end
     end)
    (λ _, ret None).

(** A request whose failure is logged always returns. *)
Lemma fetch_logged_run method url (w : W) :
  try_catch (fetch method url) (λ _, ret tt) w = (Ok tt, tick_rng (add_out (Http method url) w)).
Proof. unfold try_catch, fetch. by destruct (ek_reachable _). Qed.

Fixpoint ticks (n : nat) : M W unit :=
  match n with O => ret tt | S n => on_interval ;;; ticks n end.

Lemma ticks_run n (w : W) :
  w_loc w = MkEureka true true false →
  ∃ w', ticks n w = (Ok tt, w') ∧ w_loc w' = w_loc w ∧ w_out w' = w_out w ++ replicate n (Http "PUT" instance_url).
Proof.
  revert w. induction n as [|n IH]; intros w Hw; simpl.
  { exists w. split; [done|]. split; [done|]. by rewrite app_nil_r. }
  unfold on_interval. rewrite bind_assoc. mstep by done. rewrite Hw. simpl.
  mstep by (apply fetch_logged_run). destruct (IH (tick_rng (add_out (Http "PUT" instance_url) w)) Hw) as (w' & Hr & Hl & Ho).
  exists w'. split; [exact Hr|]. rewrite Hl, Ho. split; [exact Hw|]. simpl. by rewrite <- app_assoc.
Qed.

Lemma ticks_idle n (w : W) : ek_interval (w_loc w) && negb (ek_exited (w_loc w)) = false → ticks n w = (Ok tt, w).
Proof.
  intros Hw. induction n as [|n IH]; simpl; [done|]. unfold on_interval. rewrite bind_assoc. mstep by done.
  rewrite Hw. by mstep by done.
Qed.

(** The life of a registration, whether or not the server can be reached:
    one registration, one heartbeat of that instance per tick, one
    deregistration of it, and no heartbeat after the shutdown, be it orderly
    or by a signal. *)
Lemma eureka_lifecycle (m : M W unit) n k (w : W) :
  m = eureka_onModuleDestroy ∨ m = on_signal → w_loc w = MkEureka false false false → w_out w = [] →
  ∃ w', (eureka_onModuleInit ;;; ticks n ;;; m ;;; ticks k) w = (Ok tt, w') ∧
    w_out w' = [Http "POST" app_url] ++ replicate n (Http "PUT" instance_url) ++ [Http "DELETE" instance_url] ∧
    in_instanceId registration = INSTANCE_ID.
Proof.
  intros Hm Hw Ho. unfold eureka_onModuleInit. rewrite bind_assoc. mstep by (apply fetch_logged_run).
  rewrite bind_assoc. mstep by done. mstep by done.
  match goal with |- context [bind _ _ ?x] => set (w1 := x) end.
  destruct (ticks_run n w1) as (w2 & Hr & Hl & Ho2); [simpl; by rewrite Hw|]. mstep by (exact Hr).
  assert (∃ w3, m w2 = (Ok tt, w3) ∧ ek_interval (w_loc w3) && negb (ek_exited (w_loc w3)) = false ∧
    w_out w3 = w_out w2 ++ [Http "DELETE" instance_url]) as (w3 & Hm3 & Hi & Ho3).
  { assert (w_loc w2 = MkEureka true true false) as Hl2 by (rewrite Hl; simpl; by rewrite Hw).
    destruct Hm as [-> | ->]; [unfold eureka_onModuleDestroy|unfold on_signal; mstep by done; rewrite Hl2; simpl];
      mstep by (apply fetch_logged_run); eexists; (split; [done|]); simpl; rewrite ?Hl2; done. }
  mstep by (exact Hm3). exists w3. split; [by apply ticks_idle|]. split; [|done].
  rewrite Ho3, Ho2. simpl. rewrite Ho. by rewrite <- app_assoc.
Qed.

Lemma getService_run serviceName (w : W) :
  getService serviceName w =
  (Ok (match ek_apps serviceName with
       | Instances (Some ((ip, port) :: _)) => Some ("http://" +:+ ip +:+ ":" +:+ port)
       | _ => None
       end), add_out (Http "GET" (EUREKA_URL +:+ "/" +:+ serviceName)) w).
Proof.
  unfold getService, try_catch, bind, emit, modify. simpl.
  destruct (ek_apps serviceName) as [| |[[|[ip port] l]|]]; done.
Qed.
End eureka.

(** ** Logging ([libs/common/utils/logger.ts]) *)
Definition levels : list string := ["error"; "warn"; "info"; "debug"].
Definition currentLevel `{!Env} : string := default "info" (if_truthy (env "LOG_LEVEL")).
Definition indexOf (x : string) (l : list string) : Z :=
  match list_find (λ y, y = x) l with Some (i, _) => Z.of_nat i | None => -1 end.
Definition shouldLog `{!Env} (level : string) : bool := indexOf level levels <=? indexOf currentLevel levels.

(** A level is printed when it is at most as verbose as the chosen one; a
    choice that is no level silences the logger, errors included. *)
Lemma shouldLog_spec `{!Env} i level :
  levels !! i = Some level →
  shouldLog level = true ↔ ∃ j, levels !! j = Some currentLevel ∧ (i ≤ j)%nat.
Proof.
  intros Hi. unfold shouldLog. assert (indexOf level levels = Z.of_nat i) as ->.
  { do 4 (destruct i as [|i]; [by injection Hi as <-|]). done. }
  unfold indexOf. generalize currentLevel as l. intros l. rewrite Z.leb_le.
  destruct (list_find (λ y, y = l) levels) as [[j y]|] eqn:Hf.
  - apply list_find_Some in Hf as (Hj & -> & _). split; [intros; exists j; split; [done|lia]|].
    intros (j' & Hj' & Hle). assert (NoDup levels) as Hnd by (apply (bool_decide_eq_true (NoDup _)); reflexivity).
    rewrite (NoDup_lookup _ _ _ _ Hnd Hj Hj'). lia.
  - split; [lia|]. intros (j & Hj & _). apply list_find_None in Hf. rewrite Forall_forall in Hf.
    destruct (Hf l); [by eapply list_elem_of_lookup_2|done].
Qed.

(** ** Publishing to RabbitMQ ([libs/rmq]) *)

(** Whether the broker takes a message. *)
Class Amqp := { amqp_publish : nat → bool }.

(** What [RMQ_CONFIG] says of the exchange, and the exchange the channel's
    set-up asserts. *)
Record RmqConfig := MkRmqConfig { rc_exchangeType : option string; rc_durable : option bool }.
Record Exchange := MkExchange { ex_name : string; ex_type : string; ex_durable : bool }.
#[global] Instance exchange_eq_dec : EqDecision Exchange.
Proof. solve_decision. Defined.
Definition defaultExchange : string := "hide-default".

(** The channel of the service, once it is created. *)
Record RmqState := MkRmq { rq_channel : option Exchange }.
Section rmq.
Context {C : Type} `{!Amqp}.
Variable config : RmqConfig.
Abbreviation W := (world C RmqState).
Local Open Scope mon_scope.

Definition rmq_onModuleInit : M W unit :=
  put_loc (λ _, MkRmq (Some (MkExchange defaultExchange
    (default "topic" (if_truthy (rc_exchangeType config))) (default false (rc_durable config))))).

(** [_send]: a failure, also that of a channel that is not there, is logged. *)
Definition rmq_send (routingKey : string) (message : SvcPayload) : M W unit :=
  try_catch
    (s <- get_loc ;;
     if bool_decide (rq_channel s = None) then throw TypeError else
     λ w, if amqp_publish (w_rng w)
          then (Ok tt, tick_rng (add_out (Rmq routingKey None message) w))
          else (Throw (PlainError "Failed to publish message"), tick_rng w))
    (λ _, ret tt).

(** Publishing never fails the caller, and a failed message is lost. *)
Lemma rmq_send_run key msg (w : W) :
  ∃ w', rmq_send key msg w = (Ok tt, w') ∧
    w_out w' = w_out w ++ (if bool_decide (rq_channel (w_loc w) ≠ None) && amqp_publish (w_rng w)
                           then [Rmq key None msg] else []).
Proof.
  unfold rmq_send, try_catch, bind, get_loc, gets. destruct (rq_channel (w_loc w)); simpl.
  - destruct (amqp_publish (w_rng w)); (eexists; split; [done|]); simpl; by rewrite ?app_nil_r.
  - eexists. split; [done|]. simpl. by rewrite app_nil_r.
Qed.
End rmq.

(** ** Addresses of the stores ([libs/redis], [libs/firebase]) *)
Definition redis_url (host port : string) (database : option string) : string :=
  match if_truthy database with
  | Some d => "redis://" +:+ host +:+ ":" +:+ port +:+ "/" +:+ d
  | None => "redis://" +:+ host +:+ ":" +:+ port
  end.

(** The application Firebase is initialised with; [None]: only a log line. *)
Inductive FirebaseApp := Emulated (projectId : option string) | WithCredential (key : string).
Definition firebase_app `{!Env} (emulate : bool) (key : option string) : option FirebaseApp :=
  if emulate then Some (Emulated (env "FIREBASE_APP_ID"))
  else WithCredential <$> if_truthy key.
