(* ===== verification/EnvInv.v ===== *)
(** The registry of documents is kept well formed by every event an
    environment instance handles, not only by the operations on documents. *)
From S2P Require Import Prelude JS Messages Keys Interfaces GwMembership Presence Socket EnvState EnvSync EnvSyncProps EnvFS EnvSSH EnvWs.
From Stdlib Require Import Lia.

(** ** What an instance reacts to *)
Inductive env_event :=
| EvChannel (meta : option Meta) (msg : StickyMsg) (correlationId : option string)   (* env.<id> *)
| EvHealth                                                                           (* env.<id>.health *)
| EvOpenfile (meta : option Meta) (uuid path : string) (stat : StatDTO) (correlationId : option string)
| EvClosefile (meta : option Meta) (uuid : string) (ino : Z)
| EvInternal (uid uuid sessionId : option string)                                    (* env.internal *)
| EvMsg (meta : option Meta) (req : EnvRequest)                                      (* env.msg *)
| EvSsh (o : ssh_op)                                                                 (* connections and shells *)
| EvFlush (ref : nat)                                                                (* timers *)
| EvCooldown (uuid path : string)
| EvProcess (uuid : string).

Section env_inv.
Context {C Y A F : Type} `{!Cache C, !CacheLaws C, !Yjs Y A, !Agent F, !Sha256, !RandomInt, !DocHash,
  !Env, !Random, !MembershipRpc, !Redlock, !Provisioner} {Keys : SshKeys}.
Abbreviation W := (world C (EnvState Y A F)).
Local Open Scope mon_scope.

Definition env_handle (e : env_event) : M W unit :=
  match e with
  | EvChannel meta msg cid => on_env_channel meta msg cid
  | EvHealth => on_health
  | EvOpenfile meta uuid path stat cid => on_openfile meta uuid path stat cid
  | EvClosefile meta uuid ino => on_closefile meta uuid ino
  | EvInternal uid uuid sid => handleEnvInternalMessage uid uuid sid
  | EvMsg meta req => on_env_msg meta req ;;; ret tt
  | EvSsh o => ssh_step o
  | EvFlush ref => flush_timer ref
  | EvCooldown uuid path => cooldown_timer uuid path
  | EvProcess uuid => process_timer uuid
  end.

(** The instance keeps its name and its registry. *)
Definition inst_ok (id : string) (s : EnvState Y A F) : Prop := env_ok s ∧ es_id s = id.
Definition reg_ok (id : string) (w : W) : Prop := inst_ok id (w_loc w).

Lemma reg_put id f : (∀ s, inst_ok id s → inst_ok id (f s)) → preserves (reg_ok id) (put_loc f).
Proof. intros Hf. by apply preserves_modify; intros w; apply Hf. Qed.
Lemma reg_emit id e : preserves (reg_ok id) (emit e).
Proof. by intros w. Qed.
Lemma reg_cache_set id k v t : preserves (reg_ok id) (cache_set k v t).
Proof. by intros w. Qed.
Lemma reg_cache_del id k : preserves (reg_ok id) (cache_del k).
Proof. by intros w. Qed.
Lemma reg_uuid id : preserves (reg_ok id) randomUUID.
Proof. by intros w. Qed.
Lemma reg_new_client id : preserves (reg_ok id) new_client.
Proof. by intros w. Qed.
Lemma reg_get_doc id ref : preserves (reg_ok id) (get_doc ref).
Proof. intros w Hw. unfold get_doc. by destruct (es_heap _ !! _). Qed.
Lemma reg_pickOne id l : preserves (reg_ok id) (pickOne l).
Proof. intros w Hw. unfold pickOne. by destruct (l !! _). Qed.
Lemma reg_getInstanceId id : preserves (reg_ok id) getInstanceId.
Proof. by intros w. Qed.
Lemma reg_conflict id ref b r : preserves (reg_ok id) (upd_doc ref (doc_set_conflict b r)).
Proof. apply reg_put. intros s [Hok Hid]. split; [by apply env_ok_alter|done]. Qed.
Hint Resolve reg_emit reg_cache_set reg_cache_del reg_uuid reg_new_client reg_get_doc reg_pickOne
  reg_getInstanceId reg_conflict : pres.
Hint Extern 1 (preserves (reg_ok _) (put_loc _)) => (apply reg_put; intros ? [? ?]; by split) : pres.

(** *** The operations on documents *)
Lemma reg_active_sessions id us u : preserves (reg_ok id) (active_sessions us u).
Proof. unfold active_sessions, getSessionId. pres. Qed.
Hint Resolve reg_active_sessions : pres.

(** The name of the instance: no operation assigns it. *)
Definition is_named (id : string) (s : EnvState Y A F) : Prop := es_id s = id.
Abbreviation named id := (preserves (λ w : W, is_named id (w_loc w))).
Lemma named_put id f : (∀ s, es_id (f s) = es_id s) → named id (put_loc f).
Proof. intros Hf w. unfold is_named. simpl. by rewrite Hf. Qed.
Lemma named_get_doc id ref : named id (get_doc ref).
Proof. intros w Hw. unfold get_doc. by destruct (es_heap _ !! _). Qed.
Lemma named_upd_doc id ref f : named id (upd_doc ref f).
Proof. by apply named_put. Qed.
Lemma named_getInstanceId id : named id getInstanceId.
Proof. by intros w. Qed.
Hint Resolve named_get_doc named_upd_doc named_getInstanceId : pres.
Hint Extern 1 (preserves _ (put_loc _)) =>
  (apply named_put; intros ?; unfold drop_if_single, unregister_doc, drop_if_empty; repeat case_match; reflexivity) : pres.

Lemma named_active_sessions id us u : named id (active_sessions us u).
Proof. unfold active_sessions, getSessionId. pres. Qed.
Hint Resolve named_active_sessions : pres.
Lemma named_broadcast_active id us u m : named id (broadcast_active us u m).
Proof. unfold broadcast_active, socket_broadcast. pres. Qed.
Hint Resolve named_broadcast_active : pres.
Lemma named_updateHandler id ref u : named id (updateHandler ref u).
Proof. unfold updateHandler, broadcast, schedule_flush. pres. Qed.
Lemma named_awareness id ref u o : named id (awarenessChangeHandler ref u o).
Proof. unfold awarenessChangeHandler, broadcast, sendConflict, socket_send. pres. Qed.
Hint Resolve named_updateHandler named_awareness : pres.

Lemma named_sync_step id o : named id (sync_step o).
Proof.
  destruct o; cbn [sync_step].
  - unfold openFile, find_or_load, new_doc, loadFileContent, fire, EnvSync.updateCache, respond, socket_send. pres.
  - unfold closeFile, fire, EnvSync.updateCache. pres.
  - unfold handleSync, fire, send, getSessionId, socket_send. pres.
  - unfold handleOpenAck, send, getSessionId, socket_send. pres.
  - unfold handleConflictResolve, sendFSLoss, loadFileContent, setFileContent, sendConflictResolved, fire, socket_send. pres.
  - unfold flush_timer, flush, setFileContent, sendFileMovedOrDeleted. pres.
Qed.

Lemma reg_sync_step id o : preserves (reg_ok id) (sync_step o).
Proof.
  intros w [Hok Hid]. destruct (safe_sync_step o w Hok) as (w' & Hr & Hok').
  pose proof (named_sync_step id o w Hid) as Hn. rewrite Hr in *. by split.
Qed.
Lemma reg_openFile id uid sid uuid path stat cid : preserves (reg_ok id) (openFile uid sid uuid path stat cid).
Proof. exact (reg_sync_step id (OpOpen uid sid uuid path stat cid)). Qed.
Lemma reg_closeFile id uid sid uuid ino : preserves (reg_ok id) (closeFile uid sid uuid ino).
Proof. exact (reg_sync_step id (OpClose uid sid uuid ino)). Qed.
Lemma reg_handleSync id uid sid uuid ino buf : preserves (reg_ok id) (handleSync uid sid uuid ino buf).
Proof. exact (reg_sync_step id (OpSync uid sid uuid ino buf)). Qed.
Lemma reg_handleOpenAck id uid sid uuid ino : preserves (reg_ok id) (handleOpenAck uid sid uuid ino).
Proof. exact (reg_sync_step id (OpAck uid sid uuid ino)). Qed.
Lemma reg_handleConflictResolve id uid sid uuid ino d : preserves (reg_ok id) (handleConflictResolve uid sid uuid ino d).
Proof. exact (reg_sync_step id (OpResolve uid sid uuid ino d)). Qed.
Hint Resolve reg_openFile reg_closeFile reg_handleSync reg_handleOpenAck reg_handleConflictResolve : pres.

(** *** Directories and file events *)
Lemma reg_respond id uid sid cid m : preserves (reg_ok id) (respond uid sid cid m).
Proof. unfold respond, socket_send. pres. Qed.
Lemma reg_fs_updateCache id uid uuid path b : preserves (reg_ok id) (EnvFS.updateCache uid uuid path b).
Proof. unfold EnvFS.updateCache, watch_remove. pres. Qed.
Hint Resolve reg_respond reg_fs_updateCache : pres.
Lemma reg_openDir id uid sid uuid path cid : preserves (reg_ok id) (openDir uid sid uuid path cid).
Proof. unfold openDir. pres. Qed.
Lemma reg_closeDirs id uid uuid paths x : preserves (reg_ok id) (closeDirs uid uuid paths x).
Proof. revert x. induction paths as [|p ps IH]; intros x; simpl; unfold watch_remove; pres. Qed.
Lemma reg_signal id uuid path a : preserves (reg_ok id) (signal uuid path a).
Proof. unfold signal, getWatchingUsersFromPath, socket_send. pres. Qed.
Hint Resolve reg_openDir reg_closeDirs reg_signal : pres.
Lemma reg_handleWatchEvent id uuid e : preserves (reg_ok id) (handleWatchEvent uuid e).
Proof. unfold handleWatchEvent, set_path, push_event. pres. Qed.
Lemma reg_cooldown_timer id uuid path : preserves (reg_ok id) (cooldown_timer uuid path).
Proof. unfold cooldown_timer, set_path. pres. Qed.
Lemma reg_check_event id uuid x e : preserves (reg_ok id) (check_event uuid x e).
Proof. unfold check_event, getDocHash, getFileHash, mark_conflict, fs_sendConflict, socket_send. pres. Qed.
Hint Resolve reg_handleWatchEvent reg_check_event : pres.
Lemma reg_collect id uuid x es b : preserves (reg_ok id) (collect uuid x es b).
Proof. revert b. induction es as [|e es IH]; intros b; simpl; pres. Qed.
Hint Resolve reg_collect : pres.
Lemma reg_process_timer id uuid : preserves (reg_ok id) (process_timer uuid).
Proof.
  unfold process_timer, _process, sync, clear_batch, getWatchingUsersFromUid, sendBatch, socket_send. pres.
Qed.

(** *** Terminals, workspaces and dispatch *)
Lemma reg_ssh_step id o : preserves (reg_ok id) (ssh_step o).
Proof.
  destruct o; cbn [ssh_step]; unfold handleSSHConnection, handleNewSSHConnection, handleNewSSHSession, handleSSHData,
    handleSSHClose, conn_ready, conn_error, conn_close, shell_started, shell_data, shell_closed, handleSSHClose,
    updateConnCache, handleNewSSHSession, set_conn, ssh_send; pres.
Qed.
Lemma reg_handleSSHConnection id uid sid uuid k : preserves (reg_ok id) (handleSSHConnection uid sid uuid k).
Proof. exact (reg_ssh_step id (SRequest uid sid uuid k)). Qed.
Lemma reg_handleSSHData id uid uuid sh i : preserves (reg_ok id) (handleSSHData uid uuid sh i).
Proof. exact (reg_ssh_step id (SInput uid uuid sh i)). Qed.
Lemma reg_handleSSHClose id uid sid uuid sh : preserves (reg_ok id) (handleSSHClose uid sid uuid sh).
Proof. exact (reg_ssh_step id (SClose uid sid uuid sh)). Qed.
Lemma reg_detach_all id uid uuid p : preserves (reg_ok id) (detach_all uid uuid p).
Proof. induction p as [|[k s] p IH]; simpl; pres. Qed.
Hint Resolve reg_handleSSHConnection reg_handleSSHData reg_handleSSHClose reg_detach_all : pres.
Lemma reg_handleEnvReady id uid uuid sid : preserves (reg_ok id) (handleEnvReady uid uuid sid).
Proof.
  unfold handleEnvReady, EnvWs.acquireLock, release, invalidatePreviousSessions, bind_workspace, setWorkspace,
    set_watch, attach_session. pres.
Qed.
Lemma reg_handleEnvClose id uid uuid : preserves (reg_ok id) (handleEnvClose uid uuid).
Proof. unfold handleEnvClose, isAMember, EnvWs.acquireLock, release, close_locked, closeDir. pres. Qed.
Hint Resolve reg_handleEnvReady reg_handleEnvClose : pres.

(** Every event keeps the instance's name and its registry. *)
Lemma reg_env_handle id e : preserves (reg_ok id) (env_handle e).
Proof.
  destruct e; cbn [env_handle].
  - unfold on_env_channel, handleStickyEnvMessage, runCommand. pres.
  - unfold on_health. pres.
  - unfold on_openfile. pres.
  - unfold on_closefile. pres.
  - unfold handleEnvInternalMessage. pres.
  - unfold on_env_msg, handleEnvOpen, isAMember, EnvWs.handleEnvMessage, handleOpen, handleClose, getStat, closeDir. pres.
  - apply reg_ssh_step.
  - exact (reg_sync_step id (OpTimer ref)).
  - apply reg_cooldown_timer.
  - apply reg_process_timer.
Qed.
End env_inv.
