(* ===== verification/Channels.v ===== *)
(** The channels of an environment instance ([core.controller.ts]): an
    instance subscribes to channels named after it, and the listener picks the
    handler by the end of the channel's name.  The gateway's routing of a
    client's message and the dispatch of the instances agree. *)
From S2P Require Import Prelude JS Messages Keys Interfaces ClientTypes Codec Wire Topology GwMembership Presence Socket EnvState EnvSync EnvSyncProps EnvDocs EnvFS EnvFSProps EnvSSH EnvWs EnvWsProps EnvInv.
From Stdlib Require Import Lia.

(** What an instance does about a message; the type of the payload is the one
    the branch assumes. *)
Definition on_message (instanceId chan : string) (meta : option Meta) (p : SvcPayload) : option env_event :=
  match listen instanceId chan, p with
  | Some AtHealth, _ => Some EvHealth
  | Some AtOpenfile, InterEnvFSOpen uuid path stat cid => Some (EvOpenfile meta uuid path stat cid)
  | Some AtClosefile, InterEnvFSClose uuid ino => Some (EvClosefile meta uuid ino)
  | Some AtMessage, EnvMessage (InMsg (InEnv p) cid) => Some (EvChannel meta (StEnv p) cid)
  | _, _ => None
  end.

(** ** Properties *)
(** a message reaches the one instance it names.  With the names that
    [randomUUID] gives, an instance listens to a channel exactly when the
    channel is one of its own, and takes the branch the sender meant: nobody
    else acts on the message, and a request to open or close a document, a
    health check and a client's request are never taken for one another. *)
Theorem channel_routing id id' b :
  instance_name id → instance_name id' → listen id' (channel id b) = if decide (id' = id) then Some b else None.
Proof.
  intros Hid Hid'. case_decide as Hd; [subst; by apply listen_channel|by apply channel_foreign].
Qed.

Lemma channel_routing_witness : listen "8a7b-22" (channel "8a7b-21" AtOpenfile) = None.
Proof. rewrite (channel_routing "8a7b-21" "8a7b-22"); [reflexivity|..]; split; try reflexivity; set_solver. Defined.

(** ** Routing of the clients' messages *)
Section routing.
Context {C Y A F : Type} `{!Cache C, !Yjs Y A, !Agent F, !Sha256, !RandomInt, !DocHash,
  !Env, !Random, !MembershipRpc, !Redlock, !Provisioner} {Keys : SshKeys}.
Abbreviation W := (world C (EnvState Y A F)).
Implicit Types w : W.

(** What an instance does with a message on the brokers: over Redis its
    listener sees the channel; of NATS it handles the pattern [env.msg], when
    it is the one of the queue group to get the message. *)
Definition receive (e : effect) : M W unit :=
  match e with
  | Redis chan meta p =>
      bind getInstanceId (λ id, match on_message id chan meta p with Some ev => env_handle ev | None => ret tt end)
  | Nats pattern meta (EnvMessage msg) =>
      if bool_decide (pattern = "env.msg") then env_handle (EvMsg meta (ReqSocket msg)) else ret tt
  | _ => ret tt
  end.
Definition forwarded (e : effect) : bool :=
  match e with Redis _ _ (EnvMessage _) | Nats _ _ (EnvMessage _) => true | _ => false end.

(** What a client's message asks for. *)
Definition quietly (m : M W unit) : M W unit := try_catch m (λ _, ret tt).
Definition serve (uid sid : string) (p : EnvPayload) (cid : option string) : M W unit :=
  match p with
  | SSHRequest uuid key _ => handleSSHConnection uid sid uuid key
  | FSOpen uuid path => handleOpen uid sid uuid path cid
  | FSClose uuid path ino => handleClose uid sid uuid path ino
  | SSHData uuid sh input => quietly (handleSSHData uid uuid sh input)
  | SSHClose uuid sh =>
      bind (quietly (handleSSHClose uid sid uuid sh)) (λ _,
        bind getInstanceId (λ id, emit (Redis ("env." +:+ id +:+ ".reply") None (EnvReply None))))
  | FSSyncIn uuid ino buf => quietly (handleSync uid sid uuid ino buf)
  | FSOpenAck uuid ino => quietly (handleOpenAck uid sid uuid ino)
  | FSConflictResolve uuid ino d => quietly (handleConflictResolve uid sid uuid ino d)
  | WSRun uuid command ctx => quietly (runCommand uid sid uuid command ctx cid)
  end.

Lemma quietly_ret (m : M W unit) w :
  try_catch (bind (bind m (λ _, ret (@None (option string)))) (λ v, match v with
    | Some data => bind getInstanceId (λ id, emit (Redis ("env." +:+ id +:+ ".reply") None (EnvReply data)))
    | None => ret tt end)) (λ _, ret tt) w = quietly m w.
Proof. unfold quietly, try_catch, bind, ret. by destruct (m w) as [[[]|e] w']. Qed.

(** The messages for the instance that holds what they are about. *)
Definition is_sticky (p : EnvPayload) : bool :=
  match p with SSHRequest _ _ _ | FSOpen _ _ | FSClose _ _ _ => false | _ => true end.
Lemma gateway_sticky p : bool_decide (env_action p ∈ Socket.stickyActions) = is_sticky p.
Proof. by destruct p; vm_compute. Qed.
Lemma env_sticky p : bool_decide (env_action p ∈ stickyActions) = is_sticky p.
Proof. by destruct p; vm_compute. Qed.

Lemma receive_sticky uid sid p cid id w :
  truthy uid = true → truthy sid = true → is_sticky p = true → instance_name id → instance_name (es_id (w_loc w)) →
  receive (Redis ("env." +:+ id) (Some (meta_us uid sid)) (EnvMessage (InMsg (InEnv p) cid))) w =
    if decide (es_id (w_loc w) = id) then serve uid sid p cid w else (Ok tt, w).
Proof.
  intros Hu Hs Hst Hid Hid'. unfold receive. mstep by done. unfold on_message.
  change ("env." +:+ id) with (channel id AtMessage). rewrite (channel_routing id (es_id (w_loc w)) AtMessage Hid Hid'). case_decide; [|done]. cbn [env_handle].
  unfold on_env_channel, meta_us. simpl. unfold if_truthy. rewrite Hu, Hs.
  unfold handleStickyEnvMessage, sticky_action. rewrite env_sticky, Hst. cbn [negb].
  destruct p; try done; try apply quietly_ret.
  unfold serve, quietly, settle, try_catch, bind, ret. by destruct (handleSSHClose _ _ _ _ w) as [[[]|e] w'].
Qed.

Lemma receive_plain uid sid p cid w :
  truthy uid = true → truthy sid = true → is_sticky p = false →
  receive (Nats "env.msg" (Some (meta_us uid sid)) (EnvMessage (InMsg (InEnv p) cid))) w = serve uid sid p cid w.
Proof.
  intros Hu Hs Hst. unfold receive. rewrite bool_decide_true by done. cbn [env_handle].
  unfold on_env_msg, meta_us. simpl. unfold if_truthy. rewrite Hu, Hs. cbn [m_sessionId].
  unfold handleEnvMessage. cbn [im_payload im_correlationId]. rewrite env_sticky, Hst.
  assert (∀ m : M W unit, bind (bind m (λ _, ret AnsNone)) (λ _, ret tt) w = m w) as Hm.
  { intros m. unfold bind, ret. by destruct (m w) as [[[]|e] w']. }
  destruct p; try done; apply Hm.
Qed.

(** Where a message is served: one that concerns a document, a terminal or
    the workspace's instance at the instance the cached workspace names, any
    other wherever it is taken from the queue. *)
Definition served_at (x : CachedWorkspace) (uid sid : string) (p : EnvPayload) (cid : option string) (e : effect) : Prop :=
  if is_sticky p then
    let id := default "undefined" (env_instance x sid p) in
    instance_name id → ∀ w, instance_name (es_id (w_loc w)) →
      receive e w = if decide (es_id (w_loc w) = id) then serve uid sid p cid w else (Ok tt, w)
  else ∀ w, receive e w = serve uid sid p cid w.

(** C22: The gateway's routing and the instances' dispatch agree.  A message
    of a client that the gateway passes on goes by the channel on which the
    environment service acts on it: a message about a document, a terminal or
    a run is published on the channel of the instance that the cached
    workspace names, which does exactly what the message asks for, while any
    other instance that gets it does nothing; any other message goes to the
    queue, and whichever instance takes it does what it asks for.  (The
    instances have names as [randomUUID] gives them; the message is of the
    declared types, without an extra [reqAction] member.) *)
Theorem routing_agrees `{!Auth, !Health, !Users} socketId uid sid p cid (g : world C Gateway) e :
  truthy uid = true → truthy sid = true →
  e ∈ w_out (Socket.handleEnvMessage socketId uid sid p cid g).2 → forwarded e = true →
  e ∈ w_out g ∨ ∃ x, workspace_in (w_cache g) (env_uuid p) = Some x ∧ served_at x uid sid p cid e.
Proof.
  intros Hu Hs He Hf. set (J := λ g' : world C Gateway, ∀ e, e ∈ w_out g' → forwarded e = true →
    e ∈ w_out g ∨ ∃ x, workspace_in (w_cache g) (env_uuid p) = Some x ∧ served_at x uid sid p cid e).
  assert (∀ e', forwarded e' = false → preserves J (emit e')) as Hquiet.
  { intros e' He' g' Hg' e0 He0 Hf0. simpl in He0. apply elem_of_app in He0 as [He0| ->%list_elem_of_singleton]; [by apply Hg'|congruence]. }
  assert (∀ x e', workspace_in (w_cache g) (env_uuid p) = Some x → served_at x uid sid p cid e' → preserves J (emit e')) as Hfwd.
  { intros x e' Hx He' g' Hg' e0 He0 Hf0. simpl in He0. apply elem_of_app in He0 as [He0| ->%list_elem_of_singleton]; [by apply Hg'|].
    right. by exists x. }
  assert (J g) as Hg by (intros e0 He0 _; by left).
  enough (J (Socket.handleEnvMessage socketId uid sid p cid g).2) as HJ by by apply HJ. clear He Hf e.
  unfold Socket.handleEnvMessage. rewrite (bind_ok _ _ g (workspace_in (w_cache g) (env_uuid p)) g) by done.
  eapply (preserves_run J); [|apply surjective_pairing|done].
  destruct (workspace_in (w_cache g) (env_uuid p)) as [x|] eqn:Hx; [|unfold reply_error; pres].
  unfold checkMembership, fetchMembership, cacheMembership, reply_error, handleFSLoss, handleSSHSLoss.
  cbv zeta. rewrite gateway_sticky. pres; try (by apply Hquiet); try (by intros g');
    apply (Hfwd x); try done; unfold served_at.
  - match goal with H : is_sticky p = true |- _ => rewrite H end. intros Hid w Hw. by apply receive_sticky.
  - match goal with H : is_sticky p = false |- _ => rewrite H end. intros w. by apply receive_plain.
Qed.

(** On the other kind of channel a message is ignored. *)
Theorem misrouted_ignored uid sid p cid id w :
  instance_name id → es_id (w_loc w) = id →
  receive (if is_sticky p then Nats "env.msg" (Some (meta_us uid sid)) (EnvMessage (InMsg (InEnv p) cid))
           else Redis ("env." +:+ id) (Some (meta_us uid sid)) (EnvMessage (InMsg (InEnv p) cid))) w = (Ok tt, w).
Proof.
  intros Hid Hw. destruct (is_sticky p) eqn:Hst; unfold receive.
  - rewrite bool_decide_true by done. cbn [env_handle]. unfold on_env_msg, handleEnvMessage, meta_us. simpl.
    rewrite env_sticky, Hst. by destruct (truthy uid), (truthy sid).
  - mstep by done. unfold on_message. change ("env." +:+ id) with (channel id AtMessage). rewrite Hw, (listen_channel id AtMessage Hid). cbn [env_handle].
    unfold on_env_channel, handleStickyEnvMessage, sticky_action, meta_us. simpl. rewrite env_sticky, Hst.
    by destruct (truthy uid), (truthy sid).
Qed.
End routing.

(** An edit by a member is for the instance that has the document. *)
Lemma routing_agrees_witness :
  ∃ x, workspace_in (w_cache watched_world) "ws-1" = Some x ∧
    served_at x "olga" "s1" (FSSyncIn "ws-1" 5 "buf") None
      (Redis "env.env-1" (Some (meta_us "olga" "s1")) (EnvMessage (InMsg (InEnv (FSSyncIn "ws-1" 5 "buf")) None))).
Proof.
  destruct (routing_agrees "sock" "olga" "s1" (FSSyncIn "ws-1" 5 "buf") None
    (World (w_cache watched_world) [] 0 1000 (MkGateway "gw-1" true []))
    (Redis "env.env-1" (Some (meta_us "olga" "s1")) (EnvMessage (InMsg (InEnv (FSSyncIn "ws-1" 5 "buf")) None)))) as [Habs|Hd];
    [reflexivity|reflexivity| |reflexivity| |].
  - by vm_compute; left.
  - by apply elem_of_nil in Habs.
  - exact Hd.
Defined.
