(* ===== verification/Framed.v ===== *)
(** Every handler of the environment, notification, workspace and user
    services, of the gateway and of its public endpoints preserves the framed
    properties ([Frame]); for the gateway's membership cache and the requests it
    forwards this is asked of the property. *)
From S2P Require Import Prelude JS Messages Keys Interfaces ClientTypes Validation Codec Wire Topology Frame Public UserSvc Validation CodeGen Entities Tokens Fixtures Invite Manage Access WorkspaceService GwMembership Presence Socket Notification EnvState EnvSync EnvFS EnvSSH EnvWs.
From Stdlib Require Import Lia.

(** ** The environment service *)
Section framed_env.
Context {C Y A F : Type} `{!Cache C, !Yjs Y A, !Agent F, !Sha256, !RandomInt, !DocHash,
  !Env, !Random, !MembershipRpc, !Redlock, !Provisioner} {Keys : SshKeys}.
Abbreviation W := (world C (EnvState Y A F)).
Context {K : ClientIds} (J : C → list effect → Prop) `{!Frame J}.
Abbreviation keeps := (preserves (frames (X:=EnvState Y A F) J)).

Lemma framed_get_doc ref : keeps (get_doc ref).
Proof. intros w Hw. unfold get_doc. by destruct (es_heap _ !! _). Qed.
Lemma framed_upd_doc ref f : keeps (upd_doc ref f).
Proof. by intros w. Qed.
Lemma framed_getInstanceId : keeps getInstanceId.
Proof. by intros w. Qed.
Lemma framed_new_client : keeps new_client.
Proof. by intros w. Qed.
Lemma framed_pickOne l : keeps (pickOne l).
Proof. intros w Hw. unfold pickOne. by destruct (l !! _). Qed.
Lemma framed_socket_send uid sid pattern msg :
  typed_msg pattern msg → keeps (socket_send uid sid pattern msg).
Proof. intros. by apply framed_emit. Qed.
Lemma framed_socket_broadcast uids sids pattern msg :
  typed_msg pattern msg → keeps (socket_broadcast uids sids pattern msg).
Proof. intros. by apply framed_emit. Qed.
Lemma framed_ssh_send uid sid msg : typed_msg "ssh" msg → keeps (ssh_send uid sid msg).
Proof. intros. by apply framed_emit. Qed.
Lemma framed_respond uid sid cid msg :
  cid_ok cid → is_Some (reply_action msg) → keeps (respond uid sid cid msg).
Proof.
  intros Hc Hm. unfold respond. destruct cid as [c|]; simpl; [|pres]. destruct (truthy c); [|pres].
  by apply framed_socket_send, reply_typed.
Qed.
Hint Resolve framed_get_doc framed_upd_doc framed_getInstanceId framed_new_client framed_pickOne : pres.
Hint Extern 1 (preserves (frames _) (socket_send _ _ _ _)) => (apply framed_socket_send; left; reflexivity) : pres.
Hint Extern 1 (preserves (frames _) (socket_broadcast _ _ _ _)) => (apply framed_socket_broadcast; left; reflexivity) : pres.
Hint Extern 1 (preserves (frames _) (ssh_send _ _ _)) => (apply framed_ssh_send; left; reflexivity) : pres.
Hint Extern 1 (preserves (frames _) (respond _ _ _ _)) => (apply framed_respond; [done|by eexists]) : pres.

Lemma framed_active_sessions uids uuid : keeps (active_sessions uids uuid).
Proof. unfold active_sessions, getSessionId. pres. Qed.
Hint Resolve framed_active_sessions : pres.
Lemma framed_broadcast_active uids uuid msg :
  typed_msg "fs" msg → keeps (broadcast_active uids uuid msg).
Proof. intros. unfold broadcast_active. pres. by apply framed_socket_broadcast. Qed.
Hint Extern 1 (preserves (frames _) (broadcast_active _ _ _)) => (apply framed_broadcast_active; left; reflexivity) : pres.
Lemma framed_updateHandler ref upd : keeps (updateHandler ref upd).
Proof. unfold updateHandler, broadcast, schedule_flush. pres. Qed.
Lemma framed_awareness ref u uid : keeps (awarenessChangeHandler ref u uid).
Proof. unfold awarenessChangeHandler, broadcast, sendConflict. pres. Qed.
Hint Resolve framed_updateHandler framed_awareness : pres.

Lemma framed_sync_step o :
  match o with OpOpen _ _ _ _ _ cid => cid_ok cid | _ => True end → keeps (sync_step o).
Proof.
  destruct o; simpl; intros Hcid.
  - unfold openFile, find_or_load, new_doc, loadFileContent, fire, EnvSync.updateCache. pres.
  - unfold closeFile, fire, EnvSync.updateCache. pres.
  - unfold handleSync, fire, send, getSessionId. pres.
  - unfold handleOpenAck, send, getSessionId. pres.
  - unfold handleConflictResolve, sendFSLoss, loadFileContent, setFileContent, sendConflictResolved, fire. pres.
  - unfold flush_timer, flush, setFileContent, sendFileMovedOrDeleted. pres.
Qed.

(** The operations of the documents, as the dispatcher calls them. *)
Lemma framed_openFile uid sid uuid path stat cid : cid_ok cid → keeps (openFile uid sid uuid path stat cid).
Proof. exact (framed_sync_step (OpOpen uid sid uuid path stat cid)). Qed.
Lemma framed_closeFile uid sid uuid ino : keeps (closeFile uid sid uuid ino).
Proof. exact (framed_sync_step (OpClose uid sid uuid ino) I). Qed.
Lemma framed_handleSync uid sid uuid ino buf : keeps (handleSync uid sid uuid ino buf).
Proof. exact (framed_sync_step (OpSync uid sid uuid ino buf) I). Qed.
Lemma framed_handleOpenAck uid sid uuid ino : keeps (handleOpenAck uid sid uuid ino).
Proof. exact (framed_sync_step (OpAck uid sid uuid ino) I). Qed.
Lemma framed_handleConflictResolve uid sid uuid ino d : keeps (handleConflictResolve uid sid uuid ino d).
Proof. exact (framed_sync_step (OpResolve uid sid uuid ino d) I). Qed.
Hint Resolve framed_openFile framed_closeFile framed_handleSync framed_handleOpenAck framed_handleConflictResolve : pres.

(** Directories and file events *)
Lemma framed_fs_updateCache uid uuid path b : keeps (EnvFS.updateCache uid uuid path b).
Proof. unfold EnvFS.updateCache, watch_remove. pres. Qed.
Hint Resolve framed_fs_updateCache : pres.
Lemma framed_openDir uid sid uuid path cid : cid_ok cid → keeps (openDir uid sid uuid path cid).
Proof. intros. unfold openDir. pres. Qed.
Lemma framed_closeDirs uid uuid paths x : keeps (closeDirs uid uuid paths x).
Proof. revert x. induction paths as [|p ps IH]; intros x; simpl; unfold watch_remove; pres. Qed.
Lemma framed_signal uuid path a : keeps (signal uuid path a).
Proof.
  unfold signal, getWatchingUsersFromPath. pres. apply framed_socket_send. left. by destruct a.
Qed.
Hint Resolve framed_openDir framed_closeDirs framed_signal : pres.
Lemma framed_handleWatchEvent uuid e : keeps (handleWatchEvent uuid e).
Proof. unfold handleWatchEvent, set_path, push_event. pres. Qed.
Lemma framed_cooldown_timer uuid path : keeps (cooldown_timer uuid path).
Proof. unfold cooldown_timer, set_path. pres. Qed.
Lemma framed_check_event uuid x e : keeps (check_event uuid x e).
Proof. unfold check_event, getDocHash, getFileHash, mark_conflict, fs_sendConflict. pres. Qed.
Hint Resolve framed_handleWatchEvent framed_cooldown_timer framed_check_event : pres.
Lemma framed_collect uuid x es b : keeps (collect uuid x es b).
Proof. revert b. induction es as [|e es IH]; intros b; simpl; pres. Qed.
Hint Resolve framed_collect : pres.
Lemma framed_process_timer uuid : keeps (process_timer uuid).
Proof.
  unfold process_timer, _process, sync, clear_batch, getWatchingUsersFromUid, sendBatch. pres.
Qed.
Hint Resolve framed_process_timer : pres.

(** Terminals *)
Lemma framed_ssh_step o : keeps (ssh_step o).
Proof.
  destruct o; cbn [ssh_step]; unfold handleSSHConnection, handleNewSSHConnection, handleNewSSHSession, handleSSHData,
    handleSSHClose, conn_ready, conn_error, conn_close, shell_started, shell_data, shell_closed, handleSSHClose,
    updateConnCache, handleNewSSHSession, set_conn; pres.
Qed.
Lemma framed_handleSSHConnection uid sid uuid k : keeps (handleSSHConnection uid sid uuid k).
Proof. exact (framed_ssh_step (SRequest uid sid uuid k)). Qed.
Lemma framed_handleSSHData uid uuid sh i : keeps (handleSSHData uid uuid sh i).
Proof. exact (framed_ssh_step (SInput uid uuid sh i)). Qed.
Lemma framed_handleSSHClose uid sid uuid sh : keeps (handleSSHClose uid sid uuid sh).
Proof. exact (framed_ssh_step (SClose uid sid uuid sh)). Qed.
Hint Resolve framed_handleSSHConnection framed_handleSSHData framed_handleSSHClose : pres.

(** Workspaces and dispatch *)
Lemma framed_detach_all uid uuid p : keeps (detach_all uid uuid p).
Proof. induction p as [|[k s] p IH]; simpl; pres. Qed.
Hint Resolve framed_detach_all : pres.
Lemma framed_handleEnvReady uid uuid sid : keeps (handleEnvReady uid uuid sid).
Proof.
  unfold handleEnvReady, EnvWs.acquireLock, release, invalidatePreviousSessions, bind_workspace, setWorkspace,
    set_watch, attach_session. pres.
Qed.
Hint Resolve framed_handleEnvReady : pres.
Lemma framed_handleEnvClose uid uuid : keeps (handleEnvClose uid uuid).
Proof.
  unfold handleEnvClose, isAMember, EnvWs.acquireLock, release, close_locked, closeDir. pres.
Qed.
Lemma framed_on_env_channel meta msg cid : cid_ok cid → keeps (on_env_channel meta msg cid).
Proof.
  intros Hc. unfold on_env_channel, handleStickyEnvMessage, runCommand. pres.
  all: apply framed_respond; [done|case_match; by eexists].
Qed.
Lemma framed_on_openfile meta uuid path stat cid : cid_ok cid → keeps (on_openfile meta uuid path stat cid).
Proof. intros. unfold on_openfile. pres. Qed.
Lemma framed_on_closefile meta uuid ino : keeps (on_closefile meta uuid ino).
Proof. unfold on_closefile. pres. Qed.
Lemma framed_internal uid uuid sid : keeps (handleEnvInternalMessage uid uuid sid).
Proof. unfold handleEnvInternalMessage. pres. Qed.
Lemma framed_on_env_msg meta req :
  match req with ReqSocket msg => cid_ok (im_correlationId msg) | _ => True end → keeps (on_env_msg meta req).
Proof.
  destruct req; simpl; intros Hc; unfold on_env_msg, handleEnvOpen, isAMember, EnvWs.handleEnvMessage, handleOpen,
    handleClose, getStat, closeDir; pres; apply framed_handleEnvClose.
Qed.
End framed_env.

(** ** The other services *)
Section framed_ntfn.
Context {C T : Type} `{!Cache C, !NtfnStore T} {Dt : DateEngine}.
Lemma framed_handle_ntfn {K : ClientIds} (J : C → list effect → Prop) `{!Frame J} r : preserves (frames (X:=T) J) (handle_ntfn r).
Proof.
  destruct r; cbn [handle_ntfn]; unfold pushNotification, pushAllPendingNotifications, handleReadNotification,
    handleReadAllNotifications, getAllNotifications, push_sessions; pres.
Qed.
End framed_ntfn.

Section framed_ws.
Context {C Tw Tm Ta : Type} `{!Cache C}.
Context `{!Repo Tw WorkspaceE Workspace, !Repo Tm MembershipE Membership,
          !Repo Ta AccessCodeE AccessCode}.
Context `{!Random, !RandomBytes, !JWT, !Secret, !Env, !Peers, !Orm, !K8s, !Users}.
Abbreviation W := (world C (DB Tw Tm Ta)).
Context {K : ClientIds} (J : C → list effect → Prop) `{!Frame J}.
Abbreviation keeps := (preserves (frames (X:=DB Tw Tm Ta) J)).

Ltac tpres := repeat first [apply framed_transact | pres_step].

Lemma framed_reply {B} (r : res B) : keeps (reply r).
Proof. unfold reply. pres. Qed.
Lemma framed_drawCode : keeps drawCode.
Proof. intros w Hw. unfold drawCode. by destruct (CodeGen.accessCode _ _ _). Qed.
Lemma framed_inviteUser a b u k v : keeps (inviteUser a b u k v).
Proof. unfold inviteUser. pres. Qed.
Hint Resolve framed_reply framed_drawCode framed_inviteUser : pres.
Lemma framed_inviteAllUsers a l u k : keeps (inviteAllUsers a l u k).
Proof. unfold inviteAllUsers. pres. Qed.
Lemma framed_notifyMembers uuid l : keeps (notifyMembers uuid l).
Proof. unfold notifyMembers, sendMembersModified. pres. Qed.
Lemma framed_sendRead u n : keeps (sendNotificationRead u n).
Proof. unfold sendNotificationRead. pres. Qed.
Lemma framed_clearCache l u : keeps (clearCacheOnDelete l u).
Proof. unfold clearCacheOnDelete, clear_presence. pres. Qed.
Hint Resolve framed_inviteAllUsers framed_notifyMembers framed_sendRead framed_clearCache : pres.
Lemma framed_checkAccessCode u c : keeps (checkAccessCode u c).
Proof. unfold checkAccessCode, ac_findOne_code. pres. Qed.
Lemma framed_markOrFail u c : keeps (markOrFail u c).
Proof. unfold markOrFail, markCodeAsUsed. pres. Qed.
Hint Resolve framed_checkAccessCode framed_markOrFail : pres.
Lemma framed_createWorkspace u d : keeps (createWorkspace u d).
Proof. unfold createWorkspace. tpres. Qed.
Lemma framed_updateWorkspace u d : keeps (updateWorkspace u d).
Proof. unfold updateWorkspace, updateMembers, sendExclusion, ms_delete. tpres. Qed.
Lemma framed_deleteWorkspace u d : keeps (deleteWorkspace u d).
Proof. unfold deleteWorkspace. tpres. Qed.
Hint Resolve framed_createWorkspace framed_updateWorkspace framed_deleteWorkspace : pres.

Lemma framed_getUserProfile `{!UsersLaws} u : keeps (getUserProfile u).
Proof.
  unfold getUserProfile. pres. eapply framed_set_profile; [done|constructor|by eapply users_by_uid_uid].
Qed.
Hint Resolve framed_getUserProfile : pres.

Lemma framed_sendDecision d b c n : keeps (sendDecision d b c n).
Proof. unfold sendDecision. destruct (data_uid d); pres. Qed.
Hint Resolve framed_sendDecision : pres.
Lemma framed_handle `{!UsersLaws} r : keeps (handle r).
Proof.
  destruct r; cbn [handle]; unfold updateWorkspaceStatus, getAllWorkspaces, checkEligibility, createAccessRequest,
    canProvision, sendAccessRequestEmail, fulfillAccessRequest, ac_findOne_uuid,
    consumeAccessCode, resetAccessCode, deleteAccessCode, downgradeWorkspace, isUserMemberOf, deleteOwnedWorkspaces,
    acceptInvitation, ignoreInvitation, validateAccept; tpres.
Qed.
End framed_ws.

Section framed_gw.
Context {C : Type} `{!Cache C, !MembershipRpc, !Env, !Auth, !Redlock, !Health, !Users} {Net : Network}.
Context {K : ClientIds} (J : C → list effect → Prop) `{!Frame J}.
Abbreviation keeps := (preserves (frames (X:=Gateway) J)).

Lemma framed_acquireLock k : keeps (Socket.acquireLock k).
Proof. unfold Socket.acquireLock. pres. Qed.
Lemma framed_releaseLock k : keeps (releaseLock k).
Proof. unfold releaseLock. pres. Qed.
Lemma framed_setSessionState p u s st : keeps (setSessionState p u s st).
Proof. unfold setSessionState. pres. Qed.
Lemma framed_setWorkspaceState x u s o st : keeps (setWorkspaceState x u s o st).
Proof. unfold setWorkspaceState. pres. Qed.
Lemma framed_socket_data id : keeps (socket_data id).
Proof. unfold socket_data. pres. Qed.
Hint Resolve framed_acquireLock framed_releaseLock framed_setSessionState framed_setWorkspaceState framed_socket_data : pres.

Lemma framed_handleAuthentication `{!UsersLaws} t : keeps (handleAuthentication t).
Proof. unfold handleAuthentication. pres. eapply framed_set_profile; [done|constructor|by eapply users_by_uid_uid]. Qed.
Hint Resolve framed_handleAuthentication : pres.

Lemma framed_handleConnection `{!UsersLaws} hs : keeps (handleConnection hs).
Proof. unfold handleConnection. pres. Qed.
Lemma framed_handleDisconnect id : keeps (handleDisconnect id).
Proof. unfold handleDisconnect. pres. Qed.
Lemma framed_shutdown : keeps onModuleDestroy.
Proof. unfold onModuleDestroy. pres. Qed.
Lemma framed_on_gateway_event ch m : keeps (on_gateway_event ch m).
Proof. unfold on_gateway_event. pres. Qed.
Lemma framed_gw_send u s p m : typed_msg p m → keeps (Socket.send u s p m).
Proof. intros. unfold Socket.send. pres. Qed.
Lemma framed_gw_broadcast us ss p m : typed_msg p m → keeps (Socket.broadcast us ss p m).
Proof. intros. unfold Socket.broadcast. pres. Qed.
Lemma framed_reply_error id cid code : cid_ok cid → keeps (reply_error id cid code).
Proof.
  intros Hc. unfold reply_error. destruct cid as [c|]; simpl; [|pres]. destruct (truthy c); [|pres].
  apply framed_emit; [done|]. split_and!; [|address|done]. by apply reply_typed; [|eexists].
Qed.
Hint Resolve framed_reply_error : pres.
Lemma framed_handleCacheExpiry key : keeps (handleCacheExpiry key).
Proof.
  unfold handleCacheExpiry, handleStalePresence, handleStaleSession, handleStaleWorkspace, handleSessionExpiry,
    handleWorkspaceExpiry, for_sessions, sendDisconnect. pres.
Qed.
Lemma framed_handle_socket_event e : typed_effect e → keeps (handle_socket_event e).
Proof.
  intros He. unfold handle_socket_event.
  destruct e as [ch m [] | | | | | | | | | ]; try apply preserves_ret; case_bool_decide; try apply preserves_ret;
    [by apply framed_gw_send|by apply framed_gw_broadcast].
Qed.

(** What becomes of a client's message depends on the membership check and on
    the user of the socket. *)
Lemma framed_handleSocketMessage (P : SocketData → Prop) id msg w :
  cid_ok (im_correlationId msg) → (∀ u x, keeps (checkMembership u x)) →
  (∀ p d, im_payload msg = InEnv p → P d →
     keeps (Socket.handleEnvMessage id (u_uid (sd_user d)) (sd_sessionId d) p (im_correlationId msg))) →
  (∀ d, oget id (g_sockets (w_loc w)) = Some (Some d) → P d) →
  frames J w → frames J (handleSocketMessage id msg w).2.
Proof.
  intros Hc Hck Henv Hd Hw. unfold handleSocketMessage, socket_data, bind at 1, get_loc, bind at 1, gets.
  destruct (oget id (g_sockets (w_loc w))) as [[d|]|] eqn:Hs; [|done..]. cbn [ret]. specialize (Hd d eq_refl).
  eapply (preserves_run (frames J)); [|apply surjective_pairing|done].
  unfold handlePresenceMessage. pres; eauto. apply framed_gw_send. by left.
Qed.

(** A request that passed the check, which ensures [Q], is forwarded or its
    loss is reported. *)
Lemma framed_forward (Q : Prop) id u s p cid :
  cid_ok cid →
  (∀ k : MemberVal → M (world C Gateway) unit, (Q → ∀ v, keeps (k v)) → keeps (bind (checkMembership u (env_uuid p)) k)) →
  (Q → ∀ i, keeps (emit (Redis ("env." +:+ i) (Some (meta_us u s)) (EnvMessage (InMsg (InEnv p) cid))))) →
  (Q → keeps (emit (Nats "env.msg" (Some (meta_us u s)) (EnvMessage (InMsg (InEnv p) cid))))) →
  keeps (Socket.handleEnvMessage id u s p cid).
Proof.
  intros Hc Hck Hr Hn. unfold Socket.handleEnvMessage. apply preserves_bind; [pres|intros [x|]; [|pres]].
  apply Hck. intros HQ v. unfold handleFSLoss, handleSSHSLoss. pres; eauto.
Qed.
End framed_gw.

(** ** The user service and the public endpoints *)
Section framed_user.
Context {C U : Type} `{!Cache C, !UserStore U, !UserStoreLaws U, !Env, !AuthAdmin, !Typesense}.
Context {K : ClientIds} (J : C → list effect → Prop) `{!Frame J}.
Abbreviation keeps := (preserves (frames (X:=U) J)).

Lemma framed_getProfile uid a : keeps (getProfile uid a).
Proof.
  unfold getProfile. apply preserves_bind; [pres|intros [p|]; [pres|]]. intros w Hw. unfold bind at 1, gets.
  destruct (us_where uid (w_loc w)) as [|p l] eqn:Hl; [done|].
  apply (preserves_bind (frames J) (cache_set _ _ _)); [|intros; pres|done].
  eapply framed_set_profile; [done|constructor|by eapply us_where_uid].
Qed.
Lemma framed_fetchUser uid : keeps (fetchUserFromDB uid).
Proof.
  intros w Hw. unfold fetchUserFromDB, bind at 1, gets. destruct (us_where uid (w_loc w)) as [|p l] eqn:Hl; [done|].
  apply (preserves_bind (frames J) (cache_set _ _ _)); [|intros; pres|done].
  eapply framed_set_profile; [done|constructor|by eapply us_where_uid].
Qed.
Hint Resolve framed_getProfile framed_fetchUser : pres.
Lemma framed_handle_user r : keeps (handle_user r).
Proof.
  destruct r; cbn [handle_user]; unfold with_user, createUser, deleteUser, updateUser, users_set, users_update,
    searchUsers, getUsers; pres.
  eapply framed_set_profile; [done|constructor|done].
Qed.
End framed_user.

Section framed_public.
Context {C F U : Type} `{!Cache C, !Cuckoo F, !UserStore U}.
Context `{!Auth, !Users, !UsersLaws, !JWT, !Secret, !GuardEnv, !PublicPeers, !AuthMail, !Redlock}.
Context {K : ClientIds} (J : C → list effect → Prop) `{!Frame J}.
Abbreviation keeps := (preserves (frames (X:=PubState F U) J)).

Lemma framed_authGuard a path : keeps (authGuard a path).
Proof. unfold authGuard. pres. eapply framed_set_profile; [done|constructor|by eapply users_by_uid_uid]. Qed.
Lemma framed_initFilter : keeps initFilter.
Proof. unfold initFilter, seed, cuckooAdd, set_filter. pres. Qed.
Lemma framed_cacheTemplates : keeps cacheTemplates.
Proof. unfold cacheTemplates, getTemplates. pres. Qed.
(** The webhook never gets past its guard. *)
Lemma framed_handle_public r : keeps (handle_public r).
Proof.
  destruct r; cbn [handle_public guard_metadata]; unfold guarded, publicGuard, checkUsernameExistence, cuckooCheck,
    registerEmail, verifyEmail, auth_answer, getTemplates, Public.fulfillAccessRequest; pres.
Qed.
End framed_public.

(** ** Properties the membership cache and the forwarded requests do not touch *)
Section framed_open.
Context {C : Type} `{!Cache C, !MembershipRpc, !Env, !Auth, !Redlock, !Health, !Users} {Net : Network}.
Context {K : ClientIds} (J : C → list effect → Prop) `{!OpenFrame J}.
Abbreviation keeps := (preserves (frames (X:=Gateway) J)).
Lemma open_set u v t : keeps (cache_set (CACHEKEY_MEMBERSHIP u) v t).
Proof. intros w. exact (frame_membership _ _ u (v, t)). Qed.
Hint Resolve open_set : pres.
Lemma open_on_event e : keeps (on_event e).
Proof.
  unfold on_event, handleMembersModified, handleWorkspaceDeleted, invalidateRemovedMembers, updateAddedMembers,
    update_entries, update_entry. pres.
Qed.
Lemma open_checkMembership u x : keeps (checkMembership u x).
Proof. unfold checkMembership, fetchMembership, cacheMembership. pres. Qed.
Lemma open_handleSocketMessage id msg : cid_ok (im_correlationId msg) → keeps (handleSocketMessage id msg).
Proof.
  intros Hc w. apply (framed_handleSocketMessage J (λ _, True)); [done|apply open_checkMembership| |done].
  intros p d Hp _. apply (framed_forward J True); [done| |..].
  - intros k Hk. apply preserves_bind; [apply open_checkMembership|]. auto.
  - intros _ i w'. by apply (frame_request (J:=J)); [|address|eexists].
  - intros _ w'. by apply (frame_request (J:=J)); [|address|eexists].
Qed.
End framed_open.

(** Cached profiles are filed under their owner. *)
Section keyed.
Context {K : ClientIds} {C : Type} `{!Cache C, !CacheLaws C}.
Lemma keyed_other (c c' : C) :
  (∀ u k', profile_key u k' → kv_get k' c' = kv_get k' c) → cache_keyed c → cache_keyed c'.
Proof.
  intros Hk [Hp Hu]. split; intros u p; unfold profile_in, users_in.
  - rewrite (Hk u) by constructor. apply Hp.
  - rewrite (Hk u) by constructor. apply Hu.
Qed.
#[global] Instance keyed_frame : OpenFrame (λ (c : C) (_ : list effect), cache_keyed c).
Proof.
  split; [split|..]; try done.
  - intros c _ k v Hk. apply keyed_other. intros u k' Hk'.
    apply kv_get_set_ne, not_eq_sym. by eapply plain_ne_profile.
  - intros c _ k Hk. apply keyed_other. intros u k' Hk'.
    apply kv_get_del_ne, not_eq_sym. by eapply plain_ne_profile.
  - intros c _ u k Hk [Hp Hu]. split; intros v p; unfold profile_in, users_in; rewrite kv_get_del;
      case_decide; try done; [apply Hp|apply Hu].
  - intros c _ k p t [] Hc; [by apply keyed_set_profile|by apply keyed_set_users].
  - intros c _ u v. apply keyed_other. intros u' k' []; by apply kv_get_set_ne.
Qed.
End keyed.
