(* ===== verification/Announce.v ===== *)
(** The workspace service announces the members it removes: whatever the
    request, a user who was a member of a workspace and no longer is one is
    named in an event the service sent, unless the request, or a deletion it
    swallows the failure of, failed. *)
From S2P Require Import Prelude JS Messages Keys Interfaces ClientTypes Frame Validation Entities Tokens Fixtures Invite Manage ManageUpdate ManageDelete Access AccessProps WorkspaceService GwMembership Coherence Framed.
From Stdlib Require Import Lia.

(** An event that takes a user's membership of a workspace back. *)
Definition revokes (e : effect) (uuid uid : string) : Prop :=
  match e with
  | Redis channel _ (MembersModified x _ removed) => channel = "workspace.members.modified" ∧ x = uuid ∧ uid ∈ removed
  | Redis channel _ (WorkspaceDeleted x members) => channel = "workspace.deleted" ∧ x = uuid ∧ uid ∈ members
  | _ => False
  end.

Section announce.
Context {C Tw Tm Ta : Type} `{!Cache C}.
Context `{!Repo Tw WorkspaceE Workspace, !Repo Tm MembershipE Membership, !Repo Ta AccessCodeE AccessCode}.
Context `{!RepoLaws Tw WorkspaceE Workspace, !RepoLaws Tm MembershipE Membership,
          !RepoLaws Ta AccessCodeE AccessCode}.
Context `{!Random, !RandomBytes, !JWT, !Secret, !Env, !Peers, !Orm, !K8s, !Users}.
Abbreviation W := (world C (DB Tw Tm Ta)).
Implicit Types (w : W) (d : DB Tw Tm Ta).

(** ** Writes that remove nobody *)
Definition keeps_members d d' : Prop := ∀ uuid uid, is_member d uuid uid → is_member d' uuid uid.
#[local] Instance keeps_members_preorder : PreOrder keeps_members.
Proof. split; [by intros d uuid uid|]. intros d1 d2 d3 H12 H23 uuid uid. auto. Qed.

Lemma members_ms_save d e m t :
  r_save e (db_ms d) = Some (m, t) → keeps_members d (MkDB (db_ws d) t (db_ac d)).
Proof.
  intros Hs uuid uid (r & m0 & Hr & Huu & Hm & Hw & Hu). exists r.
  destruct (e_same m m0) eqn:He.
  - exists m. simpl in He. rewrite andb_true_iff, !bool_decide_eq_true in He. destruct He as [He1 He2].
    split_and!; try done; [|congruence..]. apply (elem_r_save _ _ _ _ m Hs). by left.
  - exists m0. split_and!; try done. apply (elem_r_save _ _ _ _ m0 Hs). by right.
Qed.
Lemma members_ws_save d e r t :
  (∀ x, x ∈ wss d → ws_id x = ws_id r → ws_uuid x = ws_uuid r) →
  r_save e (db_ws d) = Some (r, t) → keeps_members d (MkDB t (db_ms d) (db_ac d)).
Proof.
  intros Hsame Hs uuid uid (x & m & Hx & Huu & Hm & Hw & Hu).
  destruct (decide (ws_id x = ws_id r)) as [Heq|Hne].
  - exists r, m. split_and!; try done; [|by rewrite <- (Hsame x)|congruence].
    apply (elem_r_save _ _ _ _ r Hs). by left.
  - exists x, m. split_and!; try done. apply (elem_r_save _ _ _ _ x Hs). right. split; [done|].
    simpl. apply bool_decide_eq_false. congruence.
Qed.
Lemma members_same d d' : db_ws d' = db_ws d → db_ms d' = db_ms d → keeps_members d d'.
Proof. intros Hw Hm uuid uid. unfold is_member, wss, mss. by rewrite Hw, Hm. Qed.

(** *** Handlers that remove nobody *)
Lemma members_create user data w :
  db_ok (w_loc w) → keeps_members (w_loc w) (w_loc (createWorkspace user data w).2).
Proof.
  intros Hok. destruct (createWorkspace user data w) as [[dto|e] w'] eqn:Hrun; simpl.
  - apply create_body_ok in Hrun as (_ & r & m & p & tw & tm & _ & Hsw & Hsm & -> & _); [|done].
    etrans; [|apply (members_ms_save (MkDB tw (db_ms (w_loc w)) (db_ac (w_loc w))) _ m tm Hsm)].
    refine (members_ws_save _ _ r tw _ Hsw). intros x Hx Heq.
    pose proof (r_save_fresh _ _ _ _ x Hsw eq_refl Hx) as Hf. simpl in Hf.
    apply bool_decide_eq_false in Hf. congruence.
  - unfold createWorkspace in Hrun. destruct (validateCreation _); [by injection Hrun as _ <-|].
    apply transact_throw in Hrun. by rewrite Hrun.
Qed.

Lemma members_ws_update w r0 r :
  db_ok (w_loc w) → r0 ∈ wss (w_loc w) → ws_id r = ws_id r0 → ws_uuid r = ws_uuid r0 →
  keeps_members (w_loc w) (w_loc (t_save (T:=Tw) (ws_entity r) w).2).
Proof.
  intros Hok Hr0 Hid Huu. unfold t_save. simpl. destruct (r_save _ _) as [[r' t]|] eqn:Hs; [|done].
  pose proof (ws_entity_saved _ _ (r_save_row _ _ _ _ Hs)) as ->.
  refine (members_ws_save _ _ r t _ Hs). intros x Hx Heq.
  rewrite (ok_ws_id _ Hok x r0 Hx Hr0); congruence.
Qed.

(** Well formed, and with the members of [d]. *)
Definition still_members d (d' : DB Tw Tm Ta) : Prop := db_ok d' ∧ keeps_members d d'.

Lemma members_load_save d (f : Workspace → Workspace) uuid (none : M W unit) :
  (∀ r, ws_id (f r) = ws_id r) → (∀ r, ws_uuid (f r) = ws_uuid r) →
  preserves (λ w, still_members d (w_loc w)) none →
  preserves (λ w, still_members d (w_loc w)) (workspace <- ws_findOne_uuid uuid ;;
     match workspace with
     | None => none
     | Some workspace => t_save (T:=Tw) (ws_entity (f workspace)) ;;; ret tt
     end)%mon.
Proof.
  intros Hid Huu Hnone w Hw. pose proof Hw as [Hok Hk].
  destruct (ws_findOne_uuid_dec w uuid) as [(r & Hf & Hr & _)|(Hf & _)]; rewrite (bind_ok _ _ _ _ _ Hf); [|by apply Hnone].
  pose proof (ok_ws_save w r (f r) Hok Hr (Hid r) (Huu r)) as Hok'.
  pose proof (members_ws_update w r (f r) Hok Hr (Hid r) (Huu r)) as Hs.
  unfold bind. destruct (t_save _ w) as [[] w']; (split; [done|by etrans]).
Qed.

Lemma members_accept uid tok w :
  keeps_members (w_loc w) (w_loc (acceptInvitation uid tok w).2).
Proof.
  unfold acceptInvitation, validateAccept. destruct (jwt_verify _ _) as [p|]; [|done].
  case_bool_decide; [|done]. rewrite (bind_ok _ _ w p w) by done.
  destruct (tk_data p) as [iv|]; [|done].
  destruct (ws_findOne_uuid_dec w (iv_workspaceUUID iv)) as [(r & Hf & Hr & _)|(Hf & _)];
    rewrite (bind_ok _ _ _ _ _ Hf); [|done].
  rewrite (bind_ok _ _ w _ w) by done. rewrite (bind_ok _ _ _ _ _ Hf). unfold bind at 1, t_save. simpl.
  destruct (r_save _ _) as [[m t]|] eqn:Hs; [|done].
  eapply (preserves_run (λ w' : W, keeps_members (w_loc w) (w_loc w'))); [|apply surjective_pairing|].
  - pres.
  - exact (members_ms_save _ _ m t Hs).
Qed.

(** Access codes have a table of their own. *)
Definition same_tables d d' : Prop := db_ws d' = db_ws d ∧ db_ms d' = db_ms d.
Lemma tables_ac_save d e : preserves (λ w, same_tables d (w_loc w)) (t_save (C:=C) (T:=Ta) e).
Proof. intros w Hw. unfold t_save. by destruct (r_save _ _) as [[a t]|]. Qed.
Lemma tables_ac_delete d p : preserves (λ w, same_tables d (w_loc w)) (t_delete (C:=C) (T:=Ta) p).
Proof. intros w Hw. unfold t_delete. by destruct (r_delete _ _) as [t|]. Qed.
Hint Resolve tables_ac_save tables_ac_delete pres_canProvision pres_loc_drawCode pres_loc_getUserProfile
  pres_checkAccessCode : pres.

(** The requests that may remove a member. *)
Definition removing (r : request) : bool :=
  match r with Update _ _ | DeleteWs _ _ | DeleteOwned _ => true | _ => false end.

Lemma members_kept r w :
  removing r = false → db_ok (w_loc w) → keeps_members (w_loc w) (w_loc (handle r w).2).
Proof.
  intros Hr Hok.
  assert (∀ m : M W unit, preserves (λ w', same_tables (w_loc w) (w_loc w')) m →
    keeps_members (w_loc w) (w_loc (m w).2)) as Hsame.
  { intros m Hm. destruct (Hm w) as [? ?]; [done|]. by apply members_same. }
  destruct r; try done; cbn [handle]; try (apply Hsame; unfold getAllWorkspaces, checkEligibility, createAccessRequest,
    sendAccessRequestEmail, fulfillAccessRequest, ac_findOne_uuid, sendDecision, consumeAccessCode, markOrFail,
    markCodeAsUsed, resetAccessCode, ac_findOne_code, deleteAccessCode, isUserMemberOf, ignoreInvitation,
    validateAccept; pose proof @pres_reply; solve [pres]).
  - pose proof (members_create user data w Hok) as Hm. unfold bind. by destruct (createWorkspace _ _ _) as [[]].
  - assert (preserves (λ w', still_members (w_loc w) (w_loc w')) (updateWorkspaceStatus uuid status)) as Hp; [|by apply Hp].
    unfold updateWorkspaceStatus. destruct (if_truthy uuid); [|pres].
    apply (members_load_save (w_loc w) (ws_with_status status)); [done..|pres].
  - assert (preserves (λ w', still_members (w_loc w) (w_loc w')) (downgradeWorkspace uid uuid)) as Hp; [|by apply Hp].
    unfold downgradeWorkspace. do 4 (apply preserves_bind; [solve [pres]|intros ?]).
    apply (members_load_save (w_loc w) (ws_with_dedicated false)); [done..|pres].
  - pose proof (members_accept (u_uid user) token w) as Hm. unfold bind. by destruct (acceptInvitation _ _ _) as [[]].
Qed.

(** ** Announced removals *)
Definition announces w w' : Prop :=
  ∃ es, w_out w' = w_out w ++ es ∧
    ∀ uuid u, is_member (w_loc w) uuid u → is_member (w_loc w') uuid u ∨ ∃ e, e ∈ es ∧ revokes e uuid u.
#[local] Instance announces_preorder : PreOrder announces.
Proof.
  split.
  - intros w. exists []. rewrite app_nil_r. auto.
  - intros w1 w2 w3 (es1 & Ho1 & Ha1) (es2 & Ho2 & Ha2). exists (es1 ++ es2). rewrite Ho2, Ho1, app_assoc.
    split; [done|]. intros uuid u Hm. destruct (Ha1 uuid u Hm) as [Hm2|(e & He & Hr)].
    + destruct (Ha2 uuid u Hm2) as [?|(e & He & Hr)]; [by left|]. right. exists e. rewrite elem_of_app. auto.
    + right. exists e. rewrite elem_of_app. auto.
Qed.

Lemma announces_kept w w' es : w_out w' = w_out w ++ es → keeps_members (w_loc w) (w_loc w') → announces w w'.
Proof. intros Ho Hk. exists es. split; [done|]. intros uuid u Hm. left. by apply Hk. Qed.

(** A deletion tells of every member of the workspace, or deletes nothing. *)
Lemma deleteWorkspace_announces uid o w :
  db_ok (w_loc w) → announces w (deleteWorkspace uid o w).2.
Proof.
  intros Hok. destruct (deleteWorkspace_cases uid o w Hok)
    as [[(s & msg & ->) _]|(r & m & _ & Hr & _ & _ & _ & _ & ->)]; [done|].
  unfold delete_tail. rewrite (bind_ok _ _ w _ w) by done. cbv zeta. set (l := ms_userId <$> _).
  destruct (transact (delete_rows (ws_id r) (ws_uuid r)) w) as [[[]|e] w1] eqn:Ht.
  2:{ rewrite (bind_throw _ _ _ _ _ Ht). simpl. apply (announces_kept _ _ []).
      - rewrite app_nil_r. revert Ht. unfold transact, delete_rows, bind, t_delete.
        destruct (r_delete _ _); simpl; [destruct (r_delete _ _); simpl|]; intros; simplify_eq; done.
      - apply transact_throw in Ht. by rewrite Ht. }
  rewrite (bind_ok _ _ _ _ _ Ht). apply transact_ok, delete_rows_ok in Ht as ((Hws & Hms & _) & _ & _ & Ho); [|done..].
  destruct (clearCacheOnDelete_total l (ws_uuid r) w1) as [w2 Hc]. rewrite (bind_ok _ _ _ _ _ Hc).
  pose proof (preserves_run _ _ _ _ _ (pres_loc_clearCache (λ d, d = w_loc w1) l (ws_uuid r)) Hc eq_refl) as Hl.
  assert (w_out w1 `prefix_of` w_out w2) as [es Hes].
  { apply (preserves_run (λ w', w_out w1 `prefix_of` w_out w') _ _ _ _) in Hc; [done| |done].
    unfold clearCacheOnDelete, clear_presence. pres. }
  eexists (es ++ [_; _]). simpl. rewrite Hes, Ho, <- !app_assoc. split; [done|]. intros uuid u (x & m' & Hx & Huu & Hm' & Hw & Hu).
  destruct (decide (ws_id x = ws_id r)) as [Heq|Hne].
  - right. eexists. split; [apply elem_of_app; right; right; left|]. simpl. split_and!; [done| |].
    + rewrite <- Huu. f_equal. by apply (ok_ws_id _ Hok).
    + unfold l. apply list_elem_of_fmap. exists m'. split; [done|]. apply elem_r_find. split; [done|].
      apply bool_decide_eq_true. congruence.
  - left. rewrite Hl. exists x, m'. rewrite Hws, Hms. split_and!; try done. congruence.
Qed.

(** A members update that returns tells of every user it removed. *)
Lemma updateWorkspace_announces uid data w w' :
  db_ok (w_loc w) → updateWorkspace uid data w = (Ok tt, w') → announces w w'.
Proof.
  intros Hok Hrun. destruct (up_members data) as [req|] eqn:Hreq.
  - destruct (up_id data) as [id|] eqn:Hid; [|by unfold updateWorkspace in Hrun; rewrite Hid in Hrun].
    destruct (updateWorkspace_members_ok uid data id req w w' Hok Hid Hreq Hrun)
      as (r & es & Hr & Hrid & _ & Hws & Hms & _ & added & removed & Hout & _ & Hrem).
    eexists (es ++ [_]). split; [exact Hout|]. intros uuid u Hm. pose proof Hm as (x & m & Hx & Huu & Hin & Hw & Hu).
    destruct (decide (ws_id x = id)) as [Heq|Hne].
    + assert (x = r) as -> by (apply (ok_ws_id _ Hok); congruence || done).
      destruct (decide (u ∈ req)) as [Hq|Hq].
      * left. exists (edited data r), m. rewrite Hws, Hms, edited_id, edited_uuid. split_and!; try done; [by left|congruence].
      * right. eexists. split; [apply elem_of_app; right; left|]. simpl. split_and!; try done.
        apply Hrem. by rewrite Huu.
    + left. exists x, m. rewrite Hws, Hms, elem_of_cons, elem_of_lfilter. split_and!; try done; [|congruence].
      right. split; [done|]. by rewrite bool_decide_false.
  - destruct (updateWorkspace_cases uid data w Hok)
      as [(s & msg & Heq)|(id & m & r & _ & _ & _ & _ & _ & Hr & _ & _ & Heq)]; rewrite Heq in Hrun; [done|].
    unfold update_tail in Hrun. rewrite Hreq, (bind_ok _ _ w tt w) in Hrun by done.
    pose proof (members_ws_update w r (edited data r) Hok Hr (edited_id _ _) (edited_uuid _ _)) as Hk.
    minv Hrun. injection Hrun as <-. rewrite Hm in Hk. apply (announces_kept _ _ []); [|exact Hk].
    rewrite app_nil_r. revert Hm. unfold t_save. destruct (r_save _ _) as [[? ?]|]; [|done]. by intros [= _ <-].
Qed.

(** The messages that follow a closed account's memberships. *)
Lemma notifyMembers_then uid (x : WsMs) w :
  (notifyMembers (ws_uuid x.1) (List.filter (λ u, bool_decide (u ≠ uid)) (js_set (ws_userIds x))) ;;;
   emit (Redis "workspace.members.modified" None (MembersModified (ws_uuid x.1) [] [uid])))%mon w =
  (Ok tt, add_out (Redis "workspace.members.modified" None (MembersModified (ws_uuid x.1) [] [uid]))
     (add_outs (members_msgs (w_cache w) (ws_uuid x.1)
        (List.filter (λ u, bool_decide (u ≠ uid)) (js_set (ws_userIds x)))) w)).
Proof. rewrite (bind_ok _ _ _ _ _ (notifyMembers_run _ _ w)). done. Qed.
Lemma left_total uid (l : list WsMs) w :
  ∃ w', forM (λ x,
    notifyMembers (ws_uuid x.1) (List.filter (λ u, bool_decide (u ≠ uid)) (js_set (ws_userIds x))) ;;;
    emit (Redis "workspace.members.modified" None (MembersModified (ws_uuid x.1) [] [uid])))%mon l w = (Ok tt, w').
Proof. apply forM_total. intros x w'. rewrite notifyMembers_then. by eexists. Qed.
Lemma left_announced uid (l : list WsMs) w w' :
  forM (λ x,
    notifyMembers (ws_uuid x.1) (List.filter (λ u, bool_decide (u ≠ uid)) (js_set (ws_userIds x))) ;;;
    emit (Redis "workspace.members.modified" None (MembersModified (ws_uuid x.1) [] [uid])))%mon l w = (Ok tt, w') →
  ∃ es, w_out w' = w_out w ++ es ∧ (∀ x, x ∈ l → ∃ e, e ∈ es ∧ revokes e (ws_uuid x.1) uid) ∧
    ∀ e uuid u, e ∈ es → revokes e uuid u → ∃ x, x ∈ l ∧ ws_uuid x.1 = uuid.
Proof.
  assert (∀ c x mbrs e uuid u, e ∈ members_msgs c x mbrs → ¬ revokes e uuid u) as Hno.
  { intros c x mbrs e uuid u (es & Hes & He)%list_elem_of_In%in_concat. revert He.
    apply list_elem_of_In, list_elem_of_fmap in Hes as (v & -> & _). destruct (presence_in c v); [|done].
    rewrite <- list_elem_of_In. intros (sid & -> & _)%list_elem_of_fmap. by intros []. }
  revert w. induction l as [|x l IH]; intros w Hrun; cbn [forM] in Hrun.
  - injection Hrun as <-. exists []. rewrite app_nil_r. split; [done|]. split; [by intros ? ?%elem_of_nil|].
    by intros ? ? ? ?%elem_of_nil.
  - rewrite (bind_ok _ _ _ _ _ (notifyMembers_then uid x w)) in Hrun.
    destruct (IH _ Hrun) as (es & Ho & Hes & Honly). simpl in Ho. set (ms := members_msgs _ _ _) in Ho.
    eexists (ms ++ [_] ++ es). rewrite Ho. split; [by rewrite <- !app_assoc|]. split; [intros y [->|Hy]%elem_of_cons|].
    + eexists. split; [apply elem_of_app; right; left|]. simpl. split_and!; [done|done|by left].
    + destruct (Hes y Hy) as (e & He & Hr). exists e. split; [|done]. rewrite !elem_of_app. auto.
    + intros e uuid u. rewrite !elem_of_app, list_elem_of_singleton. intros [He|[->|He]] Hr.
      * by destruct (Hno _ _ _ _ _ _ He Hr).
      * exists x. destruct Hr as (_ & -> & _). split; [by left|done].
      * destruct (Honly e uuid u He Hr) as (y & Hy & ?). exists y. split; [by right|done].
Qed.

(** A deletion adds no row. *)
Definition rows_from d (d' : DB Tw Tm Ta) : Prop :=
  (∀ x, x ∈ wss d' → x ∈ wss d) ∧ (∀ m, m ∈ mss d' → m ∈ mss d).
Lemma deleteWorkspace_rows uid o w : db_ok (w_loc w) → rows_from (w_loc w) (w_loc (deleteWorkspace uid o w).2).
Proof.
  intros Hok. destruct (deleteWorkspace_cases uid o w Hok)
    as [[(s & msg & ->) _]|(r & m & _ & Hr & _ & _ & _ & _ & ->)]; [done|].
  unfold delete_tail. rewrite (bind_ok _ _ w _ w) by done. cbv zeta. set (l := ms_userId <$> _).
  destruct (transact (delete_rows (ws_id r) (ws_uuid r)) w) as [[[]|e] w1] eqn:Ht.
  2:{ rewrite (bind_throw _ _ _ _ _ Ht). simpl. apply transact_throw in Ht. by rewrite Ht. }
  rewrite (bind_ok _ _ _ _ _ Ht). apply transact_ok, delete_rows_ok in Ht as ((Hws & Hms & _) & _ & _ & _); [|done..].
  eapply (preserves_run (λ w' : W, rows_from (w_loc w) (w_loc w'))); [|apply surjective_pairing|].
  - apply preserves_bind; [apply pres_loc_clearCache|intros _; pres].
  - split; [intros x Hx; by apply Hws|intros x Hx; by apply Hms].
Qed.

(** The deletions of the workspaces an account owns, which may fail. *)
Lemma owned_rows uid (l : list WsMs) w0 :
  preserves (λ w, db_ok (w_loc w) ∧ announces w0 w ∧ rows_from (w_loc w0) (w_loc w))
    (mapM (λ x, settle (deleteWorkspace uid (Some (ws_uuid x.1)))) l).
Proof.
  apply preserves_mapM. intros x _. apply preserves_settle. intros w (Hok & Ha & Hr).
  pose proof (deleteWorkspace_rows uid (Some (ws_uuid x.1)) w Hok) as [Hw Hm]. destruct Hr as [Hw0 Hm0].
  split; [by apply ok_deleteWorkspace|]. split; [etrans; [done|by apply deleteWorkspace_announces]|].
  split; auto.
Qed.

(** The workspaces in which a user has a role. *)
Lemma with_role uid role (l : list WsMs) w x :
  (∀ x, x ∈ l → x.1 ∈ wss (w_loc w) ∧ ∀ m, m ∈ x.2 ↔ m ∈ mss (w_loc w) ∧ ms_workspaceId m = ws_id x.1) →
  x ∈ List.filter (λ x : WsMs, has_role uid role x.2) l ↔ x ∈ l ∧ ∃ m, m ∈ mss (w_loc w) ∧
    ms_workspaceId m = ws_id x.1 ∧ ms_userId m = uid ∧ ms_role m = role.
Proof.
  intros Hsound. rewrite elem_of_lfilter. split; intros [Hx Hp]; (split; [done|]); revert Hp;
    unfold has_role; rewrite List.existsb_exists; setoid_rewrite <- list_elem_of_In;
    setoid_rewrite (proj2 (Hsound x Hx)); setoid_rewrite andb_true_iff;
    setoid_rewrite bool_decide_eq_true; naive_solver.
Qed.

(** Every workspace the account owned is gone. *)
Definition owned_gone uid w w' : Prop :=
  ∀ x m, x ∈ wss (w_loc w) → m ∈ mss (w_loc w) → ms_workspaceId m = ws_id x → ms_userId m = uid →
    ms_role m = "owner" → x ∉ wss (w_loc w').

Lemma deleteOwned_announces uid b w w' :
  db_ok (w_loc w) → deleteOwnedWorkspaces uid w = (Ok b, w') → owned_gone uid w w' → announces w w'.
Proof.
  intros Hok Hrun Hgone. unfold deleteOwnedWorkspaces in Hrun.
  destruct (user_workspaces_run uid w) as (l & Hl & Hsound & Hcompl). rewrite (bind_ok _ _ _ _ _ Hl) in Hrun. cbv zeta in Hrun.
  set (owned := List.filter (λ x : WsMs, has_role uid "owner" x.2) l) in Hrun.
  set (left := List.filter (λ x : WsMs, has_role uid "member" x.2) l) in Hrun.
  assert (∀ role x, x ∈ List.filter (λ x : WsMs, has_role uid role x.2) l ↔ x ∈ l ∧ ∃ m, m ∈ mss (w_loc w) ∧
    ms_workspaceId m = ws_id x.1 ∧ ms_userId m = uid ∧ ms_role m = role) as Hrole by (intros; by apply with_role).
  minv Hrun. rename s into w1. destruct (preserves_run _ _ _ _ _ (owned_rows uid owned w) Hm) as (Hok1 & Ha1 & Hws1 & Hms1); [done|].
  clear Hm. minv Hrun. unfold transact, t_delete in Hm.
  destruct (r_delete _ (tb_get (w_loc w1))) as [t|] eqn:Ht; [|done]. simpl in Hm. injection Hm as <-.
  set (w2 := set_loc (tb_set t) w1) in *. minv Hrun. rename s into w3. injection Hrun as <- <-.
  pose proof (preserves_run _ _ _ _ _ (pres_deleteOwned_notify (λ d, d = w_loc w2) uid left) Hm eq_refl) as Hl3.
  apply left_announced in Hm as (es & Ho & Hes & _). etrans; [exact Ha1|]. exists es. split; [done|].
  intros uuid u (r & m & Hr & Huu & Hm & Hw & Hu).
  destruct (decide (u = uid)) as [->|Hne].
  - right. destruct (Hcompl r m) as (x & Hx & Heq); [by auto..|done|done|].
    rewrite <- Huu, <- Heq. apply Hes, Hrole. split; [done|]. exists m. rewrite Heq. split_and!; try by auto.
    destruct (ok_role _ Hok m) as [Hown|]; [by auto| |done]. exfalso.
    apply (Hgone r m); try by auto. rewrite Hl3. exact Hr.
  - left. rewrite Hl3. exists r, m. split_and!; try done. unfold mss. simpl.
    rewrite (elem_r_delete _ _ _ m Ht). split; [done|]. apply bool_decide_eq_false. congruence.
Qed.

(** Deletions that cannot be carried out leave everything as it is. *)
Lemma stuck_loop uid (l : list WsMs) w :
  (∀ p (t : Tw), r_delete p t = None) → db_ok (w_loc w) →
  ∃ rs, mapM (λ x, settle (deleteWorkspace uid (Some (ws_uuid x.1)))) l w = (Ok rs, w).
Proof.
  intros Hno Hok. eexists. apply (mapM_reads _ (λ x w, (deleteWorkspace uid (Some (ws_uuid x.1)) w).1)).
  intros x. unfold settle. assert ((deleteWorkspace uid (Some (ws_uuid x.1)) w).2 = w) as Hw.
  2:{ destruct (deleteWorkspace _ _ w) as [r w']. simpl in Hw. by subst. }
  destruct (deleteWorkspace_cases uid (Some (ws_uuid x.1)) w Hok)
    as [[(s & msg & ->) _]|(r & m & _ & Hr & _ & _ & _ & _ & ->)]; [done|].
  unfold delete_tail. rewrite (bind_ok _ _ w _ w) by done. cbv zeta.
  assert (∃ e, transact (delete_rows (ws_id r) (ws_uuid r)) w = (Throw e, w)) as [e Ht].
  { destruct w as [c o g n d]. unfold transact, delete_rows, bind, t_delete. simpl.
    destruct (r_delete _ (db_ms d)); simpl; [rewrite Hno|]; by eexists. }
  by rewrite (bind_throw _ _ _ _ _ Ht).
Qed.

(** C13: an unannounced removal.  When the deletion of a workspace fails while its
    owner's account is closed, the failure is swallowed: the account's
    memberships are deleted all the same and the request is answered with
    success; the workspace is left without its owner, and no event tells
    that the owner is no longer a member.  (Stated for a database that refuses
    to delete workspaces and deletes memberships.) *)
Theorem closing_unannounced uid r m w :
  (∀ p (t : Tw), r_delete p t = None) → (∀ p (t : Tm), is_Some (r_delete p t)) → db_ok (w_loc w) →
  r ∈ wss (w_loc w) → m ∈ mss (w_loc w) → ms_workspaceId m = ws_id r → ms_userId m = uid → ms_role m = "owner" →
  ∃ w' es, handle (DeleteOwned uid) w = (Ok tt, w') ∧ w_out w' = w_out w ++ es ∧ r ∈ wss (w_loc w') ∧
    ¬ is_member (w_loc w') (ws_uuid r) uid ∧ ∀ e, e ∈ es → ¬ revokes e (ws_uuid r) uid.
Proof.
  intros Hno Hdel Hok Hr Hm Hw Hu Hro.
  destruct (user_workspaces_run uid w) as (l & Hl & Hsound & _).
  set (left := List.filter (λ x : WsMs, has_role uid "member" x.2) l).
  destruct (stuck_loop uid (List.filter (λ x : WsMs, has_role uid "owner" x.2) l) w Hno Hok) as [rs Hs].
  destruct (Hdel (λ m, bool_decide (ms_userId m = uid)) (db_ms (w_loc w))) as [t Ht].
  set (w2 := set_loc (tb_set t) w).
  destruct (left_total uid left w2) as [w3 Hn].
  assert (deleteOwnedWorkspaces uid w = (Ok true, w3)) as Hrun.
  { unfold deleteOwnedWorkspaces. mstep by exact Hl. cbv zeta. mstep by exact Hs.
    mstep by (unfold transact, t_delete; simpl; rewrite Ht; done). fold w2 left. by mstep by exact Hn. }
  cbn [handle]. rewrite (bind_ok _ _ _ _ _ Hrun). simpl.
  pose proof (preserves_run _ _ _ _ _ (pres_deleteOwned_notify (λ d, d = w_loc w2) uid left) Hn eq_refl) as Hl3.
  apply left_announced in Hn as (es & Ho & _ & Honly). exists w3, es. rewrite Hl3. split; [done|]. split; [exact Ho|].
  split; [exact Hr|]. split.
  - intros (r' & m' & _ & _ & Hm' & _ & Hu'). unfold mss in Hm'. simpl in Hm'. rewrite (elem_r_delete _ _ _ m' Ht) in Hm'.
    destruct Hm' as [_ Hm']. by apply bool_decide_eq_false in Hm'.
  - intros e He Hre. destruct (Honly e _ _ He Hre) as (x & Hx & Hxu). apply (with_role uid "member" l w x Hsound) in Hx.
    destruct Hx as (Hx & m' & Hm' & Hw' & Hu' & Hro'). destruct (Hsound x Hx) as [Hxr _].
    assert (m' = m) as ->; [|congruence]. apply (ok_ms_key _ Hok); try done; [|congruence].
    rewrite Hw', Hw. by apply (ok_ws_uuid _ Hok).
Qed.

Context `{!CacheLaws C, !UsersLaws}.

(** A request that does all it answers for: one that returns and, when it
    closes an account, has deleted the workspaces the account owned. *)
Definition completed (r : request) w : Prop :=
  (handle r w).1 = Ok tt ∧ match r with DeleteOwned uid => owned_gone uid w (handle r w).2 | _ => True end.

Lemma handle_announces r w :
  db_ok (w_loc w) → completed r w ∨ keeps_members (w_loc w) (w_loc (handle r w).2) → announces w (handle r w).2.
Proof.
  intros Hok Hres.
  destruct (framed_handle (K:=any_ids) (quiet (w_cache w) (w_out w)) r w) as [_ (es & Ho & _)]; [apply quiet_refl|].
  destruct (removing r) eqn:Hr; [|eapply announces_kept; [done|by apply members_kept]].
  destruct Hres as [[Hres Hg]|Hres]; [|by eapply announces_kept].
  destruct r; try done; cbn [handle] in *.
  - destruct (updateWorkspace _ _ w) as [[[]|e] w'] eqn:Hrun; [|done]. by eapply updateWorkspace_announces.
  - by apply deleteWorkspace_announces.
  - revert Hres Hg. unfold bind. destruct (deleteOwnedWorkspaces ownerUid w) as [[b|e] w'] eqn:Hrun; [|done].
    simpl. intros _ Hg. by eapply deleteOwned_announces.
Qed.

(** C12: every removal is announced.  Whatever the request, once the service
    has answered it without an error and, if it closes an account, the
    deletions of the workspaces the account owned have gone through, each
    user who was a member of a workspace before and is not one afterwards is
    named, for that workspace, in an event of removed members or of a deleted
    workspace sent meanwhile; the requests other than an update of the
    members, a deletion and the closing of an account remove nobody, even
    when they fail.  (A deletion that fails while an account is closed is
    swallowed, see [closing_unannounced].) *)
Theorem removals_announced r w w' :
  db_ok (w_loc w) → (handle r w).2 = w' → completed r w ∨ removing r = false →
  ∃ es, w_out w' = w_out w ++ es ∧
    ∀ uuid u, is_member (w_loc w) uuid u → ¬ is_member (w_loc w') uuid u →
      removing r = true ∧ ∃ e, e ∈ es ∧ revokes e uuid u.
Proof.
  intros Hok <- Hr.
  assert (removing r = false → keeps_members (w_loc w) (w_loc (handle r w).2)) as Hk by (intros; by apply members_kept).
  destruct (handle_announces r w Hok) as (es & Ho & Ha).
  { destruct Hr as [Hr|Hr]; [by left|right; auto]. }
  exists es. split; [done|]. intros uuid u Hm Hno. destruct (removing r); [|by destruct Hno; apply Hk].
  split; [done|]. by destruct (Ha uuid u Hm).
Qed.
End announce.

#[local] Instance demo_UsersLaws : UsersLaws.
Proof. split. by intros uid p l [= <- _]. Qed.

(** Closing the owner's account removes the other member of the workspace. *)
Lemma removals_announced_witness :
  ∃ es, w_out (handle (DeleteOwned "olga") demo_world).2 = w_out demo_world ++ es ∧
    ∃ e, e ∈ es ∧ revokes e "ws-1" "mark".
Proof.
  destruct (handle (DeleteOwned "olga") demo_world) as [r w'] eqn:Hrun.
  assert (r = Ok tt) as -> by (change r with ((r, w').1); rewrite <- Hrun; vm_compute; reflexivity).
  assert (w' = (handle (DeleteOwned "olga") demo_world).2) as Hw' by (by rewrite Hrun).
  destruct (removals_announced (DeleteOwned "olga") demo_world w') as (es & Ho & Ha);
    [exact demo_world_ok|by rewrite Hrun| |].
  { left. split; [by rewrite Hrun|]. intros x m _ _ _ _ _. unfold wss. rewrite list_r_rows. vm_compute. by intros ?%elem_of_nil. }
  exists es. split; [exact Ho|]. apply Ha; [exact demo_mark_member|].
  intros (r & m & Hr & Huu & _). revert Hr Huu. unfold wss. rewrite list_r_rows.
  replace w' with (handle (DeleteOwned "olga") demo_world).2 by (by rewrite Hrun).
  vm_compute. intros Hr. by apply elem_of_nil in Hr.
Defined.

(** A table whose rows cannot be deleted. *)
#[local] Instance stuck_Repo : Repo (ltable Workspace) WorkspaceE Workspace :=
  {| r_find := r_find (Repo := list_Repo); r_save := r_save (Repo := list_Repo); r_delete _ _ := None |}.
#[local] Instance stuck_RepoLaws : RepoLaws (ltable Workspace) WorkspaceE Workspace.
Proof.
  split; [exact (r_find_rows (Repo0 := list_Repo))|exact (r_save_row (Repo0 := list_Repo))|..|done].
  - exact (r_save_rows (Repo0 := list_Repo)).
  - exact (r_save_unique (Repo0 := list_Repo)).
  - exact (r_save_fresh (Repo0 := list_Repo)).
  - exact (r_save_keyed (Repo0 := list_Repo)).
Qed.

Lemma closing_unannounced_witness :
  ∃ w' es, handle (DeleteOwned "olga") demo_world = (Ok tt, w') ∧ w_out w' = w_out demo_world ++ es ∧
    ¬ is_member (w_loc w') "ws-1" "olga" ∧ ∀ e, e ∈ es → ¬ revokes e "ws-1" "olga".
Proof.
  destruct (closing_unannounced "olga" demo_ws demo_owner demo_world) as (w' & es & Hr & Ho & _ & Hm & He);
    [done|by eexists|by destruct demo_db_ok; split|by left|by left|done|done|done|]. by exists w', es.
Defined.
