(* ===== verification/System.v ===== *)
(** The services together: the workspace service, the notification service,
    the user service, the gateways with their public endpoints, and the
    environment instances share the cache, the user documents and the files of
    the containers, and exchange the messages that have been sent.  What one
    service asks of another (the membership check, profiles, the health check
    and the hash of a remote document) is here answered by the other. *)
From S2P Require Import Codec Wire Topology Prelude JS Messages Keys Interfaces ClientTypes Frame Public UserSvc Validation CodeGen Entities Tokens Fixtures Invite Manage ManageUpdate ManageDelete Access AccessProps WorkspaceService GwMembership Coherence Presence Socket SocketProps Notification EnvState EnvSync EnvSyncProps EnvDocs EnvFS EnvFSProps EnvSSH EnvWs EnvWsProps EnvInv Channels Framed.
From Stdlib Require Import Lia.

(** ** Events of a gateway *)
Inductive gw_event :=
| GConnect (hs : Handshake)
| GDisconnect (id : string)
| GMessage (id : string) (msg : InSocketMessage)
| GExpired (key : string)
| GShutdown
| GSocketEvent (e : effect)
| GMembershipEvent (e : effect)
| GInstanceEvent (channel message : string).

Definition gw_handle {C} `{!Cache C, !MembershipRpc, !Env, !Auth, !Redlock, !Health, !Users} {Net : Network} (e : gw_event) :
    M (world C Gateway) unit :=
  match e with
  | GConnect hs => handleConnection hs
  | GDisconnect id => handleDisconnect id
  | GMessage id msg => handleSocketMessage id msg
  | GExpired key => key_expired key
  | GShutdown => onModuleDestroy
  | GSocketEvent e => handle_socket_event e
  | GMembershipEvent e => on_event e
  | GInstanceEvent channel message => on_gateway_event channel message
  end.

(** ** The state of the system *)
Record Sys (D T E F P : Type) := MkSys {
  sy_db : D;                        (* the workspace service's tables *)
  sy_ntfn : T;                      (* the stored notifications *)
  sy_pub : P;                       (* the username filter and the user documents *)
  sy_gws : gmap string Gateway;
  sy_envs : gmap string E;
  sy_files : F;
}.
Arguments MkSys {D T E F P}.
Arguments sy_db {D T E F P}.
Arguments sy_ntfn {D T E F P}.
Arguments sy_pub {D T E F P}.
Arguments sy_gws {D T E F P}.
Arguments sy_envs {D T E F P}.
Arguments sy_files {D T E F P}.

(** Runs a part of the system; a part that is not there does nothing. *)
Definition on_part {C S X B} (get : S → option X) (put : X → S → S) (m : M (world C X) B) : M (world C S) unit :=
  λ w, match get (w_loc w) with
       | None => (Ok tt, w)
       | Some x =>
           let '(r, w') := m (World (w_cache w) (w_out w) (w_rng w) (w_now w) x) in
           (match r with Ok _ => Ok tt | Throw e => Throw e end,
            World (w_cache w') (w_out w') (w_rng w') (w_now w') (put (w_loc w') (w_loc w)))
       end.

Lemma framed_on_part {C S X B} (J : C → list effect → Prop) (get : S → option X) put (m : M (world C X) B) :
  preserves (frames J) m → preserves (frames J) (on_part get put m).
Proof.
  intros Hm w Hw. unfold on_part. destruct (get (w_loc w)) as [x|]; [|done].
  specialize (Hm (World (w_cache w) (w_out w) (w_rng w) (w_now w) x) Hw).
  by destruct (m _) as [r w'].
Qed.

(** A property of the state that the part keeps. *)
Lemma loc_on_part {C S X B} (P : S → Prop) (I : X → Prop) (get : S → option X) put (m : M (world C X) B) :
  (∀ s x, P s → get s = Some x → I x) → (∀ s x x', P s → get s = Some x → I x' → P (put x' s)) →
  preserves (λ w, I (w_loc w)) m → preserves (λ w, P (w_loc w)) (on_part get put m).
Proof.
  intros Hget Hput Hm w Hw. unfold on_part. destruct (get (w_loc w)) as [x|] eqn:Hx; [|done].
  specialize (Hm (World (w_cache w) (w_out w) (w_rng w) (w_now w) x) (Hget _ _ Hw Hx)).
  destruct (m _) as [r w']. simpl in *. eauto.
Qed.

(** The workspace service's Firebase lookup: sign-in providers, and whether
    the e-mail address is verified. *)
Class FirebaseAuth := { firebase_getUser : string → res (list string * bool) }.

(** A request at the public endpoints, the guard of the proxy, or the start
    of a gateway. *)
Inductive pub_event :=
| PubRequest (r : public_request)
| PubGuard (authorization : option string) (path : string)
| PubInit.

Section system.
Context {C Tw Tm Ta T Y A F Fi U : Type} `{!Cache C, !NtfnStore T, !Yjs Y A, !Agent F, !Cuckoo Fi} {Dt : DateEngine}.
Context `{!UserStore U, !UserStoreLaws U}.
Context `{!Repo Tw WorkspaceE Workspace, !Repo Tm MembershipE Membership, !Repo Ta AccessCodeE AccessCode}.
Context `{!Random, !RandomBytes, !JWT, !Secret, !Env, !Orm, !K8s, !FirebaseAuth, !AuthAdmin, !Typesense}.
Context `{!Auth, !Redlock, !Sha256, !RandomInt, !Provisioner, !GuardEnv, !PublicPeers, !AuthMail} {Net : Network} {Keys : SshKeys}.
Abbreviation SYS := (Sys (DB Tw Tm Ta) T (EnvState Y A F) F (PubState Fi U)).
Abbreviation W := (world C SYS).
Implicit Types w : W.

Definition on_ws {B} (m : M (world C (DB Tw Tm Ta)) B) : M W unit :=
  on_part (λ s : SYS, Some (sy_db s))
    (λ d s, MkSys d (sy_ntfn s) (sy_pub s) (sy_gws s) (sy_envs s) (sy_files s)) m.
Definition on_ntfn {B} (m : M (world C T) B) : M W unit :=
  on_part (λ s : SYS, Some (sy_ntfn s))
    (λ n s, MkSys (sy_db s) n (sy_pub s) (sy_gws s) (sy_envs s) (sy_files s)) m.
Definition on_pub {B} (m : M (world C (PubState Fi U)) B) : M W unit :=
  on_part (λ s : SYS, Some (sy_pub s))
    (λ p s, MkSys (sy_db s) (sy_ntfn s) p (sy_gws s) (sy_envs s) (sy_files s)) m.
Definition on_user {B} (m : M (world C U) B) : M W unit :=
  on_part (λ s : SYS, Some (ps_users (sy_pub s)))
    (λ u s, MkSys (sy_db s) (sy_ntfn s) (MkPub (ps_filter (sy_pub s)) u) (sy_gws s) (sy_envs s) (sy_files s)) m.
Definition on_gw {B} (gid : string) (m : M (world C Gateway) B) : M W unit :=
  on_part (λ s : SYS, sy_gws s !! gid)
    (λ g s, MkSys (sy_db s) (sy_ntfn s) (sy_pub s) (<[gid := g]> (sy_gws s)) (sy_envs s) (sy_files s)) m.
(** The instances see the same files. *)
Definition on_env {B} (id : string) (m : M (world C (EnvState Y A F)) B) : M W unit :=
  on_part (λ s : SYS, es_set_files (sy_files s) <$> sy_envs s !! id)
    (λ e s, MkSys (sy_db s) (sy_ntfn s) (sy_pub s) (sy_gws s) (<[id := e]> (sy_envs s)) (es_files e)) m.

(** ** What the services ask each other: the answer in the present state.
    The requests' own effects are events of the service that is asked. *)
Definition ws_world (w : W) : world C (DB Tw Tm Ta) :=
  World (w_cache w) (w_out w) (w_rng w) (w_now w) (sy_db (w_loc w)).
Definition user_world (w : W) : world C U :=
  World (w_cache w) (w_out w) (w_rng w) (w_now w) (ps_users (sy_pub (w_loc w))).
Definition sys_rpc w : MembershipRpc := rpc_of (ws_world w).
Definition sys_health w : Health := {| env_healthy id := bool_decide (is_Some (sy_envs (w_loc w) !! id)) |}.
Definition sys_hash w : DocHash := {|
  remote_hash id uuid ino :=
    s ← sy_envs (w_loc w) !! id; ref ← doc_ref s uuid ino; d ← es_heap s !! ref;
    if_truthy (Some (computeHash d)) |}.
Definition sys_users w : Users := {| users_by_uid uid := us_where uid (ps_users (sy_pub (w_loc w))) |}.
(** A user that is not found is null in the answer to [/api/all], and reading
    its uid throws. *)
Definition sys_peers w : Peers := {|
  user_profile uid := (getProfile uid "" (user_world w)).1;
  user_all user ids := match (getUsers ids (u_uid user) (user_world w)).1 with
                       | Ok l => if existsb (λ o : option User, match o with None => true | Some _ => false end) l
                                then Throw TypeError else Ok (omap id l)
                       | Throw e => Throw e
                       end;
  Manage.auth_getUser := firebase_getUser |}.
#[local] Instance sys_users_laws w : @UsersLaws (sys_users w).
Proof. split. intros uid p l. apply us_where_uid. Qed.

(** ** Events of the system *)
Inductive sys_event :=
| AtWorkspace (r : request)
| AtNotification (r : ntfn_request)
| AtUser (r : user_request)
| AtPublic (e : pub_event)
| AtGateway (gid : string) (e : gw_event)
| AtEnv (id : string) (e : env_event)
| Clock (t : Z).

Definition pub_handle `{!Users} (e : pub_event) : M (world C (PubState Fi U)) unit :=
  match e with
  | PubRequest r => handle_public r
  | PubGuard authorization path => bind (authGuard authorization path) (λ _, ret tt)
  | PubInit => initFilter ;;; cacheTemplates
  end%mon.

Definition sys_handle (ev : sys_event) : M W unit := λ w,
  match ev with
  | AtWorkspace r => let users := sys_users w in let peers := sys_peers w in on_ws (handle r) w
  | AtNotification r => on_ntfn (handle_ntfn r) w
  | AtUser r => on_user (handle_user r) w
  | AtPublic e => let users := sys_users w in on_pub (pub_handle e) w
  | AtGateway gid e =>
      let users := sys_users w in let rpc := sys_rpc w in let health := sys_health w in on_gw gid (gw_handle e) w
  | AtEnv id e => let rpc := sys_rpc w in let hash := sys_hash w in on_env id (env_handle e) w
  | Clock t => (Ok tt, World (w_cache w) (w_out w) (w_rng w) t (w_loc w))
  end.

(** The keys that are given a time to live, and some more. *)
Definition expiring_key (key : string) : Prop := plain_key key ∨ ∃ u, profile_key u key.

(** The events that come from inside the system are deliveries of messages
    that were sent, in any order and any number of times; the others come
    from clients, containers, connections and timers.  Clients connect and
    send what they like. *)
Definition caused (w : W) (ev : sys_event) : Prop :=
  match ev with
  | AtNotification (NotificationSend uid n) =>
      ∃ meta, Rmq "notification.send" meta (NotifyUser uid n) ∈ w_out w
  | AtNotification (NotificationReadMsg uid id) =>
      ∃ meta, Rmq "notification.read" meta (NotificationRead uid id) ∈ w_out w
  | AtGateway _ (GExpired key) => expiring_key key
  | AtGateway _ (GSocketEvent e) | AtGateway _ (GMembershipEvent e) => e ∈ w_out w
  | AtGateway _ (GInstanceEvent channel message) =>
      ∃ meta p, Redis channel meta p ∈ w_out w ∧ message = packet channel meta p
  | AtEnv id (EvChannel meta (StEnv p) cid) =>
      Redis ("env." +:+ id) meta (EnvMessage (InMsg (InEnv p) cid)) ∈ w_out w
  | AtEnv id (EvChannel _ _ cid) => cid = None
  | AtEnv id (EvOpenfile meta uuid path stat cid) =>
      Redis ("env." +:+ id +:+ ".openfile") meta (InterEnvFSOpen uuid path stat cid) ∈ w_out w
  | AtEnv id (EvClosefile meta uuid ino) =>
      Redis ("env." +:+ id +:+ ".closefile") meta (InterEnvFSClose uuid ino) ∈ w_out w
  | AtEnv _ (EvMsg meta (ReqSocket msg)) => Nats "env.msg" meta (EnvMessage msg) ∈ w_out w
  | Clock t => w_now w ≤ t
  | _ => True
  end.

(** The deliveries over Redis are those the listeners make: of the instances,
    the one the message names handles it, and no other does. *)
Lemma caused_listened w id e :
  instance_name id → caused w (AtEnv id e) →
  match e with
  | EvChannel _ (StEnv _) _ | EvOpenfile _ _ _ _ _ | EvClosefile _ _ _ =>
      ∃ chan meta p, Redis chan meta p ∈ w_out w ∧ on_message id chan meta p = Some e ∧
        ∀ id', instance_name id' → id' ≠ id → on_message id' chan meta p = None
  | _ => True
  end.
Proof.
  intros Hid Hc. assert (∀ b id' meta p, instance_name id' → id' ≠ id → on_message id' (channel id b) meta p = None) as Hno.
  { intros b id' meta p Hid' Hne. unfold on_message. by rewrite channel_foreign. }
  destruct e as [meta [p| |] cid| |meta uuid path stat cid|meta uuid ino| | | | | |]; try done; simpl in Hc.
  - eexists (channel id AtMessage), _, _. split; [exact Hc|]. split; [|intros id' ? ?; by apply Hno]. unfold on_message. by rewrite listen_channel.
  - eexists (channel id AtOpenfile), _, _. split; [exact Hc|]. split; [|intros id' ? ?; by apply Hno]. unfold on_message. by rewrite listen_channel.
  - eexists (channel id AtClosefile), _, _. split; [exact Hc|]. split; [|intros id' ? ?; by apply Hno]. unfold on_message. by rewrite listen_channel.
Qed.

Inductive sys_step : W → W → Prop :=
| sys_do ev w : caused w ev → sys_step w (sys_handle ev w).2.

(** A run, with its events. *)
Inductive sys_run : W → list sys_event → W → Prop :=
| run_nil w : sys_run w [] w
| run_cons w ev evs w' : caused w ev → sys_run (sys_handle ev w).2 evs w' → sys_run w (ev :: evs) w'.

(** The correlation ids a client used in a run. *)
Definition asked (evs : list sys_event) (c : string) : Prop :=
  ∃ gid socketId p, AtGateway gid (GMessage socketId (InMsg p (Some c))) ∈ evs.
Definition used_ids (evs : list sys_event) : ClientIds := {| client_id := asked evs |}.

(** ** Framed properties of the system *)

Section typed_events.
Context {K : ClientIds}.

(** What the delivered messages say of the events: answers have the names
    clients gave. *)
Definition well_formed_event (ev : sys_event) : Prop :=
  match ev with
  | AtGateway _ (GMessage _ msg) => cid_ok (im_correlationId msg)
  | AtGateway _ (GSocketEvent e) => typed_effect e
  | AtEnv _ (EvChannel _ _ cid) | AtEnv _ (EvOpenfile _ _ _ _ cid) => cid_ok cid
  | AtEnv _ (EvMsg _ (ReqSocket msg)) => cid_ok (im_correlationId msg)
  | _ => True
  end.
Definition asks_ok (ev : sys_event) : Prop :=
  match ev with AtGateway _ (GMessage _ msg) => cid_ok (im_correlationId msg) | _ => True end.

Lemma typed_elem w e : typed_out w → e ∈ w_out w → typed_effect e.
Proof. unfold typed_out. rewrite Forall_forall. auto. Qed.

Lemma caused_well_formed w ev : typed_out w → asks_ok ev → caused w ev → well_formed_event ev.
Proof.
  intros Hw. destruct ev as [| | | |gid []|id [m []| | | | |m []| | | |]|]; simpl; try done; intros Ha Hc;
    first [exact (typed_elem _ _ Hw Hc) | by rewrite Hc].
Qed.
End typed_events.
Lemma asks_any ev : asks_ok (K:=any_ids) ev.
Proof. by destruct ev as [| | | |gid []| |]. Qed.

Section framed_system.
Context {K : ClientIds} (J : C → list effect → Prop).

Lemma framed_env_handle `{!Frame J} {rpc : MembershipRpc} {hash : DocHash} id e :
  well_formed_event (AtEnv id e) → preserves (frames J) (env_handle (C:=C) (Y:=Y) (A:=A) (F:=F) e).
Proof.
  destruct e; simpl; intros He.
  - by apply framed_on_env_channel.
  - unfold on_health. pres.
  - by apply framed_on_openfile.
  - by apply framed_on_closefile.
  - by apply framed_internal.
  - apply preserves_bind; [apply framed_on_env_msg; [done|by destruct req]|intros; apply preserves_ret].
  - by apply framed_ssh_step.
  - by apply (framed_sync_step J (OpTimer ref)).
  - by apply framed_cooldown_timer.
  - by apply framed_process_timer.
Qed.

(** The events of a gateway but for the membership cache. *)
Lemma framed_gw_handle `{!Frame J} {users : Users} {laws : UsersLaws} {rpc : MembershipRpc} {health : Health} gid e :
  well_formed_event (AtGateway gid e) →
  match e with
  | GMessage id msg => preserves (frames J) (handleSocketMessage id msg)
  | GMembershipEvent ev => preserves (frames J) (on_event (X:=Gateway) ev)
  | GExpired key => preserves (frames J) (cache_del (X:=Gateway) key)
  | _ => True
  end → preserves (frames J) (gw_handle (C:=C) e).
Proof.
  destruct e; simpl; intros He Hm; try done.
  - by apply framed_handleConnection.
  - by apply framed_handleDisconnect.
  - apply preserves_bind; [done|intros _; by apply framed_handleCacheExpiry].
  - by apply framed_shutdown.
  - by apply framed_handle_socket_event.
  - by apply framed_on_gateway_event.
Qed.

Lemma framed_sys_handle `{!Frame J} ev w :
  well_formed_event ev →
  match ev with AtGateway _ _ => frames J (sys_handle ev w).2 | _ => True end →
  frames J w → frames J (sys_handle ev w).2.
Proof.
  intros Hc Hgw Hw. destruct ev as [r|r|r|e|gid e|id e|t]; cbn [sys_handle] in *; cbv zeta in *.
  - by apply framed_on_part; [apply framed_handle; [tc_solve|apply sys_users_laws]|].
  - by apply framed_on_part; [apply framed_handle_ntfn|].
  - by apply framed_on_part; [apply framed_handle_user|].
  - apply framed_on_part; [|done]. destruct e as [r|a p|]; simpl.
    + by apply framed_handle_public.
    + apply preserves_bind; [by apply framed_authGuard|intros; apply preserves_ret].
    + apply preserves_bind; [by apply framed_initFilter|intros _; by apply framed_cacheTemplates].
  - done.
  - by apply framed_on_part; [apply (framed_env_handle id)|].
  - done.
Qed.

Lemma framed_expiry `{!Frame J} key : expiring_key key → preserves (frames J) (cache_del (C:=C) (X:=Gateway) key).
Proof.
  intros [Hk|[u Hk]] w Hw; [exact (frame_del _ _ key Hk Hw)|exact (frame_profile_del _ _ u key Hk Hw)].
Qed.

(** A property the gateways' own changes do not touch is kept by every event. *)
Lemma open_sys_handle `{!OpenFrame J} ev w :
  (∀ gid key, ev = AtGateway gid (GExpired key) → expiring_key key) →
  well_formed_event ev → frames J w → frames J (sys_handle ev w).2.
Proof.
  intros Hk Hc Hw. apply framed_sys_handle; [done| |done].
  destruct ev as [r|r|r|e|gid e|id e|t]; try done. cbn [sys_handle]; cbv zeta.
  apply framed_on_part; [|done]. apply (framed_gw_handle (laws := sys_users_laws w) gid); [done|].
  destruct e; try done.
  - by apply open_handleSocketMessage.
  - by eapply framed_expiry, Hk.
  - by apply open_on_event.
Qed.
End framed_system.

Lemma caused_expiry w ev gid key : caused w ev → ev = AtGateway gid (GExpired key) → expiring_key key.
Proof. by intros Hc ->. Qed.

(** ** Messages to clients have their declared types *)
Lemma typed_sys_handle {K : ClientIds} ev w :
  asks_ok ev → caused w ev → typed_out w → typed_out (sys_handle ev w).2.
Proof.
  intros Ha Hc Hw. apply (open_sys_handle (λ _ o, Forall typed_effect o)); [| |done].
  - intros gid key. by eapply caused_expiry.
  - by eapply caused_well_formed.
Qed.
Lemma typed_sys_run {K : ClientIds} w evs w' :
  Forall asks_ok evs → sys_run w evs w' → typed_out w → typed_out w'.
Proof.
  intros Ha Hrun. induction Hrun as [|w ev evs w' Hc _ IH]; [done|]. intros Hw. apply Forall_cons in Ha as [Ha Hs].
  by apply IH, typed_sys_handle.
Qed.
Lemma asked_ok evs : Forall (asks_ok (K := used_ids evs)) evs.
Proof.
  apply Forall_forall. intros [| | | |gid [| |id [p cid]| | | | |]| |] Hin; try done. intros c Hc. simpl in Hc. subst.
  by exists gid, id, p.
Qed.


(** ** The invariants of the services hold together *)
Context `{!CacheLaws C}.
Context `{!RepoLaws Tw WorkspaceE Workspace, !RepoLaws Tm MembershipE Membership,
          !RepoLaws Ta AccessCodeE AccessCode}.

Definition parts_ok (s : SYS) : Prop :=
  db_ok (sy_db s) ∧ users_wf (ps_users (sy_pub s)) ∧ ∀ id e, sy_envs s !! id = Some e → inst_ok id e.
Definition sys_ok w : Prop := parts_ok (w_loc w) ∧ cache_keyed (w_cache w).

Lemma users_handle r w : sys_ok w → users_wf (ps_users (sy_pub (w_loc (on_user (handle_user r) w).2))).
Proof.
  intros [(_ & Hu & _) Hc]. unfold on_user, on_part.
  assert (user_inv (user_world w)) as Hw by done. pose proof (inv_handle_user r _ Hw) as Hi.
  unfold user_world in Hi. destruct (handle_user r _) as [v w']. by destruct Hi.
Qed.

(** The public endpoints only read the user documents. *)
Lemma users_pub `{!Users} (P : U → Prop) e :
  preserves (λ w : world C (PubState Fi U), P (ps_users (w_loc w))) (pub_handle e).
Proof.
  assert (∀ f, preserves (λ w : world C (PubState Fi U), P (ps_users (w_loc w))) (set_filter f)) as Hf by (by intros f w).
  assert (∀ e, preserves (λ w : world C (PubState Fi U), P (ps_users (w_loc w))) (emit e)) as He by (by intros ? w).
  assert (∀ k v t, preserves (λ w : world C (PubState Fi U), P (ps_users (w_loc w))) (cache_set k v t)) as Hs
    by (by intros ? ? ? w).
  destruct e as [[]| |]; cbn [pub_handle handle_public guard_metadata]; unfold guarded, publicGuard,
    checkUsernameExistence, cuckooCheck, registerEmail, verifyEmail, auth_answer, getTemplates,
    Public.fulfillAccessRequest, authGuard, initFilter, cacheTemplates, getTemplates, seed, cuckooAdd; pres.
Qed.

Lemma parts_ok_handle ev w : sys_ok w → parts_ok (w_loc (sys_handle ev w).2).
Proof.
  intros Hw. destruct ev as [r|r|r|e|gid e|id e|t]; cbn [sys_handle]; cbv zeta; [..|apply Hw].
  - refine (loc_on_part parts_ok db_ok _ _ _ _ _ (ok_handle r) w (proj1 Hw)).
    + intros s x [? _] [= <-]. done.
    + intros s x x' [_ ?] _ ?. done.
  - refine (loc_on_part parts_ok (λ _, True) _ _ _ _ _ _ w (proj1 Hw)); [done|done|]. by intros w0.
  - pose proof (users_handle r w Hw) as Hu. destruct Hw as [(Hd & _ & He) _]. revert Hu. unfold on_user, on_part.
    destruct (handle_user r _) as [v w']. done.
  - refine (loc_on_part parts_ok (λ p, users_wf (ps_users p)) _ _ _ _ _ (users_pub users_wf e) w (proj1 Hw)).
    + intros s x (_ & ? & _) [= <-]. done.
    + intros s x x' (? & _ & ?) _ ?. done.
  - refine (loc_on_part parts_ok (λ _, True) _ _ _ _ _ _ w (proj1 Hw)); [done|done|]. by intros w0.
  - refine (loc_on_part parts_ok (inst_ok id) _ _ _ _ _ (reg_env_handle id e) w (proj1 Hw)).
    + intros s x (_ & _ & He) Hx. apply fmap_Some in Hx as (e0 & He0 & ->). destruct (He _ _ He0). split; [by apply env_ok_files|done].
    + intros s x x' (Hd & Hu & He) _ Hx'. split_and!; [done|done|]. intros id' e'. simpl. rewrite lookup_insert.
      case_decide; [intros [= <-]; by subst|apply He].
Qed.

Lemma sys_ok_handle ev w : typed_out (H:=any_ids) w → caused w ev → sys_ok w → sys_ok (sys_handle ev w).2.
Proof.
  intros Ht Hc Hw. split; [by apply parts_ok_handle|].
  apply (open_sys_handle (K:=any_ids) (λ c _, cache_keyed c)); [| |by destruct Hw].
  - intros gid key. by eapply caused_expiry.
  - by eapply caused_well_formed; [|apply asks_any|].
Qed.

(** C10: the invariants of the components survive their composition.  In
    every reachable state of the system the workspace service's database is
    well formed; every environment instance has a well-formed registry: each
    registered document exists, is the one its workspace and inode name, and
    is open for some user; user documents are named by the username they
    hold; and whichever service cached it, a profile is filed under its
    owner. *)
Theorem system_integrity w w' :
  typed_out (H:=any_ids) w → sys_ok w → rtc sys_step w w' → sys_ok w'.
Proof.
  intros Ht Hw Hsteps. induction Hsteps as [w|w w1 w' [ev w0 Hc] _ IH]; [done|].
  apply IH; [by apply typed_sys_handle; [apply asks_any|..]|by apply sys_ok_handle].
Qed.
End system.

(** ** Example: an edit of a client travels through the gateway and an
    environment instance to the socket of the document's user. *)
#[global] Instance sys_Auth : Auth := {| validate_token t := if decide (t = "good") then Some olga else None |}.
#[global] Instance sys_Firebase : FirebaseAuth := {| firebase_getUser _ := Ok ([], false) |}.
#[global] Instance sys_Admin : AuthAdmin := {| UserSvc.auth_getUser _ := Some true |}.
#[global] Instance sys_Search : Typesense := {| ts_search _ := SearchRes None 1 |}.
#[global] Instance sys_Guard : GuardEnv := {| common_verify _ := None |}.
#[global] Instance sys_PubPeers : PublicPeers := {| templates_file := []; fulfill_reply _ _ := None |}.
#[global] Instance sys_Mail : AuthMail := {| register_reply _ := None; verify_reply _ _ := None |}.
Definition demo_sys :
    world CC (Sys CDB (gmap (string * string) UserNotificationPayload) DemoEnv (gmap (string * string) string)
      (PubState (gset string) (gmap string User))) :=
  World (kv_set (CACHEKEY_PRESENCE_SESSION "olga" "s1") (CFlag 1, Some 20000) (w_cache watched_world)) [] 0 1000
    (MkSys demo_db ∅ (MkPub ∅ {["olga" := MkUser "olga" (Some "Olga") (Some "olga") (Some "o@example.org") (Some "") (Some "google") None]}) {["gw-1" := MkGateway "gw-1" true [("sock", Some (MkSocketData olga "s1"))]]}
      {["env-1" := w_loc watched_world]} (es_files (w_loc watched_world))).
Definition edit_events : list sys_event :=
  [AtGateway "gw-1" (GMessage "sock" (InMsg (InEnv (FSSyncIn "ws-1" 5 "new")) None));
   AtEnv "env-1" (EvChannel (Some (meta_us "olga" "s1")) (StEnv (FSSyncIn "ws-1" 5 "new")) None);
   AtGateway "gw-1" (GSocketEvent (Redis "socket.broadcast" None
     (SocketBroadcast ["olga"] ["s1"] "fs" (FSSyncOut "ws-1" 5 "new"))))].
Definition edit_state (n : nat) := foldl (λ w ev, (sys_handle ev w).2) demo_sys (take n edit_events).

Lemma edit_sent : ∃ l, w_out (edit_state 1) = [l] ∧
  l = Redis "env.env-1" (Some (meta_us "olga" "s1")) (EnvMessage (InMsg (InEnv (FSSyncIn "ws-1" 5 "new")) None)).
Proof. eexists. split; [vm_compute; reflexivity|reflexivity]. Qed.
Lemma edit_broadcast : w_out (edit_state 2) = w_out (edit_state 1) ++
  [Redis "socket.broadcast" None (SocketBroadcast ["olga"] ["s1"] "fs" (FSSyncOut "ws-1" 5 "new"))].
Proof. vm_compute. reflexivity. Qed.
Lemma edit_delivered : w_out (edit_state 3) = w_out (edit_state 2) ++ [ToSocket "sock" "fs" (FSSyncOut "ws-1" 5 "new")].
Proof. vm_compute. reflexivity. Qed.
Lemma edit_steps : rtc sys_step demo_sys (edit_state 3).
Proof.
  apply (rtc_l _ _ (edit_state 1)); [by apply (sys_do (AtGateway "gw-1" (GMessage "sock" (InMsg (InEnv _) None))))|].
  apply (rtc_l _ _ (edit_state 2)).
  - apply (sys_do (AtEnv "env-1" (EvChannel _ (StEnv _) None)) (edit_state 1)).
    destruct edit_sent as (l & Hl & ->). cbn [caused]. rewrite Hl. by left.
  - apply (rtc_once _ (edit_state 3)). apply (sys_do (AtGateway "gw-1" (GSocketEvent _)) (edit_state 2)).
    cbn [caused]. rewrite edit_broadcast. apply elem_of_app. right. by left.
Qed.

(** A client asks under the name of an event, and is answered under it. *)
Definition clash_event : sys_event :=
  AtGateway "gw-1" (GMessage "sock" (InMsg (InEnv (FSOpen "ws-9" "/")) (Some "fs"))).
Lemma clash_run : sys_run demo_sys [clash_event] (sys_handle clash_event demo_sys).2.
Proof. by repeat constructor. Qed.

Lemma demo_sys_ok : sys_ok demo_sys.
Proof.
  split; [split_and!|split].
  - exact demo_db_ok.
  - intros id p. simpl. rewrite lookup_singleton. case_decide; [|done]. intros [= <-]. by subst.
  - intros id e. simpl. rewrite lookup_singleton. case_decide; [|done].
    intros [= <-]. split; [apply watched_env_ok|by subst].
  - intros uid p. unfold profile_in. simpl. rewrite lookup_insert_ne by done.
    repeat (rewrite ?lookup_insert_ne, ?lookup_singleton_ne by done). done.
  - intros uid p. unfold users_in. simpl. rewrite lookup_insert_ne by done.
    repeat (rewrite ?lookup_insert_ne, ?lookup_singleton_ne by done). done.
Qed.
Lemma system_integrity_witness : sys_ok (edit_state 3).
Proof. apply (system_integrity demo_sys); [constructor|apply demo_sys_ok|apply edit_steps]. Defined.
