(* ===== verification/SystemTimed.v ===== *)
(** Sessions and their timers in the composed system: what the gateway needs
    of the other services, that they leave the sessions of the shared cache
    with their timers, is proved of each of them. *)
From S2P Require Import Prelude JS Messages Keys Interfaces ClientTypes Frame Public UserSvc Validation CodeGen Entities Tokens Fixtures Invite Manage ManageUpdate ManageDelete Access AccessProps WorkspaceService GwMembership Coherence Presence PresenceProps Socket SocketProps Notification EnvState EnvSync EnvSyncProps EnvDocs EnvFS EnvFSProps EnvSSH EnvWs EnvWsProps EnvInv Framed System.
From Stdlib Require Import Lia.

(** ** Services that add no session and remove no timer *)
Section kept.
Context {C X : Type} `{!Cache C, !CacheLaws C}.
Abbreviation W := (world C X).

(** [c0] has a timer for every session of this presence. *)
Definition covered (c0 : C) (uid : string) (p : CachedPresence) : Prop :=
  ∀ s x, colon_free s → oget s p = Some x → marked c0 uid s.

(** Relative to a cache [c0]: every session is timed in [c0], and the timers
    of [c0] are still there. *)
Definition keeps (c0 c : C) : Prop :=
  (∀ u p, colon_free u → presence_in c u = Some p → covered c0 u p) ∧
  (∀ u s, colon_free u → colon_free s → marked c0 u s → marked c u s).
Definition kept (c0 : C) (w : W) : Prop := keeps c0 (w_cache w).

Lemma keeps_timed c0 c : keeps c0 c → timed c.
Proof. intros [Hp Hm] u s p x Hu Hs Hq Hx. right. apply Hm; [done..|]. by eapply Hp. Qed.
Lemma timed_keeps c : timed c → keeps c c.
Proof. intros Ht. split; [|done]. intros u p Hu Hp s x Hs Hx. by destruct (Ht u s p x). Qed.

Lemma timed_of_kept {B} (m : M W B) w : (∀ c0, preserves (kept c0) m) → timed (w_cache w) → timed (w_cache (m w).2).
Proof. intros Hm Ht. apply (keeps_timed (w_cache w)), Hm, timed_keeps, Ht. Qed.

Lemma kept_emit c0 e : preserves (kept c0) (emit e).
Proof. by intros w. Qed.
Lemma kept_put_loc c0 f : preserves (kept c0) (put_loc f).
Proof. by intros w. Qed.
Lemma kept_uuid `{!Random} c0 : preserves (kept c0) randomUUID.
Proof. by intros w. Qed.
Lemma kept_createMessage `{!Random} c0 u r : preserves (kept c0) (createMessage u r).
Proof. by intros w. Qed.
Lemma kept_transact {B} c0 (m : M W B) : preserves (kept c0) m → preserves (kept c0) (transact m).
Proof. intros Hm w Hw. unfold transact. specialize (Hm w Hw). by destruct (m w) as [[]]. Qed.

Lemma kept_set c0 k v t : other_key k → preserves (kept c0) (cache_set k v t).
Proof.
  intros Hk w [Hp Hm]. destruct (same_sessions_set k (v, t) (w_cache w) Hk) as [Hs1 Hs2]. split; simpl.
  - intros u p Hu. rewrite Hs1 by done. by apply Hp.
  - intros u s Hu Hs ?. unfold marked. rewrite Hs2 by done. by apply Hm.
Qed.
Lemma kept_del c0 k : other_key k → preserves (kept c0) (cache_del k).
Proof.
  intros Hk w [Hp Hm]. destruct (same_sessions_del k (w_cache w) Hk) as [Hs1 Hs2]. split; simpl.
  - intros u p Hu. rewrite Hs1 by done. by apply Hp.
  - intros u s Hu Hs ?. unfold marked. rewrite Hs2 by done. by apply Hm.
Qed.

(** Writing back a presence whose sessions are timed. *)
Lemma kept_set_presence c0 uid p :
  (colon_free uid → covered c0 uid p) → preserves (kept c0) (cache_set (CACHEKEY_PRESENCE uid) (CPresence p) None).
Proof.
  intros Hc w [Hp Hm]. split; simpl.
  - intros u q Hu. unfold presence_in. rewrite kv_get_set. case_decide as Hd.
    + apply (inj CACHEKEY_PRESENCE) in Hd as ->. intros [= <-]. by apply Hc.
    + by apply Hp.
  - intros u s Hu Hs H0. unfold marked. rewrite kv_get_set. case_decide; [by eexists|by apply Hm].
Qed.

(** What is read from the cache is covered. *)
Lemma kept_read {B} c0 uid (k : option CachedPresence → M W B) :
  (∀ o, (∀ p, o = Some p → colon_free uid → covered c0 uid p) → preserves (kept c0) (k o)) →
  preserves (kept c0) (bind (cache_presence uid) k).
Proof.
  intros Hk w Hw. unfold bind, cache_presence, gets. apply Hk; [|done].
  intros p Hp Hu. by apply (proj1 Hw).
Qed.
Lemma kept_reads {B} c0 uids (k : list (option CachedPresence) → M W B) :
  (∀ l, Forall2 (λ uid o, ∀ p, o = Some p → colon_free uid → covered c0 uid p) uids l → preserves (kept c0) (k l)) →
  preserves (kept c0) (bind (mapM cache_presence uids) k).
Proof.
  intros Hk w Hw. unfold bind. rewrite (mapM_reads _ (λ uid w, presence_in (w_cache w) uid)) by done.
  apply Hk; [|done]. apply Forall2_fmap_r, Forall_Forall2_diag, Forall_forall. intros u _ p Hp Hu. by apply (proj1 Hw).
Qed.

Lemma covered_oset c0 uid sid x x0 p : covered c0 uid p → oget sid p = Some x0 → covered c0 uid (oset sid x p).
Proof.
  intros Hc H0 s y Hs. destruct (decide (s = sid)) as [->|Hne]; [intros _; by eapply Hc|].
  rewrite oget_oset_ne by done. by apply Hc.
Qed.
End kept.

Section kept_tables.
Context {C X T E Row : Type} `{!Cache C, !CacheLaws C, !Repo T E Row, !TableOf X T}.
Lemma kept_t_save c0 e : preserves (kept (C:=C) (X:=X) c0) (t_save e).
Proof. intros w. unfold t_save. by destruct (r_save _ _) as [[? ?]|]. Qed.
Lemma kept_t_delete c0 p : preserves (kept (C:=C) (X:=X) c0) (t_delete p).
Proof. intros w. unfold t_delete. by destruct (r_delete _ _). Qed.
End kept_tables.

#[local] Hint Constructors other_key : core.
#[local] Hint Resolve kept_emit kept_put_loc kept_uuid kept_createMessage kept_set kept_del kept_transact
  kept_t_save kept_t_delete : pres.

(** ** The environment service *)
Section kept_env.
Context {C Y A F : Type} `{!Cache C, !CacheLaws C, !Yjs Y A, !Agent F, !Sha256, !RandomInt, !DocHash,
  !Env, !Random, !MembershipRpc, !Redlock, !Provisioner} {Keys : SshKeys}.
Abbreviation W := (world C (EnvState Y A F)).
Abbreviation pkept c0 := (preserves (kept (C:=C) (X:=EnvState Y A F) c0)).

Lemma kept_get_doc c0 ref : pkept c0 (get_doc ref).
Proof. intros w Hw. unfold get_doc. by destruct (es_heap _ !! _). Qed.
Lemma kept_upd_doc c0 ref f : pkept c0 (upd_doc ref f).
Proof. by intros w. Qed.
Lemma kept_getInstanceId c0 : pkept c0 getInstanceId.
Proof. by intros w. Qed.
Lemma kept_new_client c0 : pkept c0 new_client.
Proof. by intros w. Qed.
Lemma kept_pickOne c0 l : pkept c0 (pickOne l).
Proof. intros w Hw. unfold pickOne. by destruct (l !! _). Qed.
Hint Resolve kept_get_doc kept_upd_doc kept_getInstanceId kept_new_client kept_pickOne : pres.
Lemma kept_active_sessions c0 us u : pkept c0 (active_sessions us u).
Proof. unfold active_sessions, getSessionId. pres. Qed.
Hint Resolve kept_active_sessions : pres.
Lemma kept_broadcast_active c0 us u m : pkept c0 (broadcast_active us u m).
Proof. unfold broadcast_active, socket_broadcast. pres. Qed.
Hint Resolve kept_broadcast_active : pres.
Lemma kept_updateHandler c0 ref u : pkept c0 (updateHandler ref u).
Proof. unfold updateHandler, broadcast, schedule_flush. pres. Qed.
Lemma kept_awareness c0 ref u o : pkept c0 (awarenessChangeHandler ref u o).
Proof. unfold awarenessChangeHandler, broadcast, sendConflict, socket_send. pres. Qed.
Hint Resolve kept_updateHandler kept_awareness : pres.

Lemma kept_sync_step c0 o : pkept c0 (sync_step o).
Proof.
  destruct o; cbn [sync_step].
  - unfold openFile, find_or_load, new_doc, loadFileContent, fire, EnvSync.updateCache, respond, socket_send. pres.
  - unfold closeFile, fire, EnvSync.updateCache. pres.
  - unfold handleSync, fire, send, getSessionId, socket_send. pres.
  - unfold handleOpenAck, send, getSessionId, socket_send. pres.
  - unfold handleConflictResolve, sendFSLoss, loadFileContent, setFileContent, sendConflictResolved, fire, socket_send. pres.
  - unfold flush_timer, flush, setFileContent, sendFileMovedOrDeleted. pres.
Qed.
Lemma kept_openFile c0 uid sid uuid path stat cid : pkept c0 (openFile uid sid uuid path stat cid).
Proof. exact (kept_sync_step c0 (OpOpen uid sid uuid path stat cid)). Qed.
Lemma kept_closeFile c0 uid sid uuid ino : pkept c0 (closeFile uid sid uuid ino).
Proof. exact (kept_sync_step c0 (OpClose uid sid uuid ino)). Qed.
Lemma kept_handleSync c0 uid sid uuid ino buf : pkept c0 (handleSync uid sid uuid ino buf).
Proof. exact (kept_sync_step c0 (OpSync uid sid uuid ino buf)). Qed.
Lemma kept_handleOpenAck c0 uid sid uuid ino : pkept c0 (handleOpenAck uid sid uuid ino).
Proof. exact (kept_sync_step c0 (OpAck uid sid uuid ino)). Qed.
Lemma kept_handleConflictResolve c0 uid sid uuid ino d : pkept c0 (handleConflictResolve uid sid uuid ino d).
Proof. exact (kept_sync_step c0 (OpResolve uid sid uuid ino d)). Qed.
Hint Resolve kept_openFile kept_closeFile kept_handleSync kept_handleOpenAck kept_handleConflictResolve : pres.

Lemma kept_fs_updateCache c0 uid uuid path b : pkept c0 (EnvFS.updateCache uid uuid path b).
Proof. unfold EnvFS.updateCache, watch_remove. pres. Qed.
Lemma kept_closeDirs c0 uid uuid paths x : pkept c0 (closeDirs uid uuid paths x).
Proof. revert x. induction paths as [|p ps IH]; intros x; simpl; unfold watch_remove; pres. Qed.
Lemma kept_signal c0 uuid path a : pkept c0 (signal uuid path a).
Proof. unfold signal, getWatchingUsersFromPath, socket_send. pres. Qed.
Hint Resolve kept_fs_updateCache kept_closeDirs kept_signal : pres.
Lemma kept_check_event c0 uuid x e : pkept c0 (check_event uuid x e).
Proof. unfold check_event, getDocHash, getFileHash, mark_conflict, fs_sendConflict, socket_send. pres. Qed.
Hint Resolve kept_check_event : pres.
Lemma kept_collect c0 uuid x es b : pkept c0 (collect uuid x es b).
Proof. revert b. induction es as [|e es IH]; intros b; simpl; pres. Qed.
Hint Resolve kept_collect : pres.
Lemma kept_ssh_step c0 o : pkept c0 (ssh_step o).
Proof.
  destruct o; cbn [ssh_step]; unfold handleSSHConnection, handleNewSSHConnection, handleNewSSHSession, handleSSHData,
    handleSSHClose, conn_ready, conn_error, conn_close, shell_started, shell_data, shell_closed, handleSSHClose,
    updateConnCache, handleNewSSHSession, set_conn, ssh_send; pres.
Qed.
Lemma kept_handleSSHConnection c0 uid sid uuid k : pkept c0 (handleSSHConnection uid sid uuid k).
Proof. exact (kept_ssh_step c0 (SRequest uid sid uuid k)). Qed.
Lemma kept_handleSSHData c0 uid uuid sh i : pkept c0 (handleSSHData uid uuid sh i).
Proof. exact (kept_ssh_step c0 (SInput uid uuid sh i)). Qed.
Lemma kept_handleSSHClose c0 uid sid uuid sh : pkept c0 (handleSSHClose uid sid uuid sh).
Proof. exact (kept_ssh_step c0 (SClose uid sid uuid sh)). Qed.
Hint Resolve kept_handleSSHConnection kept_handleSSHData kept_handleSSHClose : pres.

(** The operations that change a user's presence: sessions leave a workspace
    or enter it, none is added. *)
Lemma kept_detach_all c0 uid uuid p (k : CachedPresence → M W unit) :
  (∀ q, (∀ s, is_Some (oget s q) → is_Some (oget s p)) → pkept c0 (k q)) →
  pkept c0 (bind (detach_all uid uuid p) k).
Proof.
  revert k. induction p as [|[sid x] p IH]; intros k Hk; simpl.
  - intros w Hw. unfold bind. simpl. by apply Hk.
  - intros w. rewrite !bind_assoc. revert w. apply preserves_bind; [pres|]. intros x'.
    intros w. rewrite bind_assoc. revert w. apply IH. intros q Hq w Hw. unfold bind. simpl. apply Hk; [|done].
    intros s. simpl. case_decide; [by eexists|apply Hq].
Qed.

Lemma kept_handleEnvReady c0 uid uuid sid : pkept c0 (handleEnvReady uid uuid sid).
Proof.
  assert (pkept c0 (invalidatePreviousSessions uid uuid)) as Hinv.
  { unfold invalidatePreviousSessions. apply kept_read. intros o Ho. destruct o as [p|]; [|pres].
    apply kept_detach_all. intros q Hq. apply preserves_bind; [|intros; pres].
    apply kept_set_presence. intros Hu s x Hs Hx. destruct (Hq s) as [y Hy]; [by eexists|]. by eapply (Ho p). }
  assert (pkept c0 (attach_session uid sid uuid)) as Hatt.
  { unfold attach_session. apply kept_read. intros o Ho. apply preserves_bind; [|intros; pres]. destruct o as [p|]; [|pres].
    destruct (oget sid p) as [x|] eqn:Hx; [|pres]. apply kept_set_presence. intros Hu. eapply covered_oset; [by apply Ho|done]. }
  unfold handleEnvReady, EnvWs.acquireLock, release, bind_workspace, setWorkspace, set_watch. pres.
Qed.
Lemma kept_handleEnvClose c0 uid uuid : pkept c0 (handleEnvClose uid uuid).
Proof.
  assert (pkept c0 (close_locked uid uuid)) as Hc.
  { unfold close_locked, closeDir. apply kept_read. intros o Ho. destruct o as [p|]; [|pres].
    destruct (ofind _ p) as [[sid x]|] eqn:Hf; [|pres]. destruct (negb _); [pres|].
    apply preserves_bind; [|intros; pres]. apply kept_set_presence. intros Hu.
    apply ofind_Some in Hf as [Hel _]. assert (is_Some (oget sid p)) as [y Hy].
    { apply oget_keys, list_elem_of_fmap. by exists (sid, x). }
    eapply covered_oset; [by apply Ho|done]. }
  unfold handleEnvClose, isAMember, EnvWs.acquireLock, release. pres.
Qed.
Hint Resolve kept_handleEnvReady kept_handleEnvClose : pres.

Lemma kept_env_handle c0 e : pkept c0 (env_handle e).
Proof.
  destruct e; cbn [env_handle].
  - unfold on_env_channel, handleStickyEnvMessage, runCommand, handleWatchEvent, set_path, push_event, respond, socket_send. pres.
  - unfold on_health. pres.
  - unfold on_openfile. pres.
  - unfold on_closefile. pres.
  - unfold handleEnvInternalMessage. pres.
  - unfold on_env_msg, handleEnvOpen, isAMember, EnvWs.handleEnvMessage, handleOpen, handleClose, getStat, closeDir,
      openDir, respond, socket_send. pres.
  - apply kept_ssh_step.
  - exact (kept_sync_step c0 (OpTimer ref)).
  - unfold cooldown_timer, set_path. pres.
  - unfold process_timer, _process, sync, clear_batch, getWatchingUsersFromUid, sendBatch, socket_send. pres.
Qed.
End kept_env.

(** ** The workspace and notification services *)
Section kept_ws.
Context {C Tw Tm Ta : Type} `{!Cache C, !CacheLaws C}.
Context `{!Repo Tw WorkspaceE Workspace, !Repo Tm MembershipE Membership,
          !Repo Ta AccessCodeE AccessCode}.
Context `{!Random, !RandomBytes, !JWT, !Secret, !Env, !Peers, !Orm, !K8s, !Users}.
Abbreviation pkept c0 := (preserves (kept (C:=C) (X:=DB Tw Tm Ta) c0)).

Ltac kpres := repeat first [apply kept_transact | pres_step].

Lemma kept_reply {B} c0 (r : res B) : pkept c0 (reply r).
Proof. unfold reply. pres. Qed.
Lemma kept_drawCode c0 : pkept c0 drawCode.
Proof. intros w Hw. unfold drawCode. by destruct (CodeGen.accessCode _ _ _). Qed.
Lemma kept_inviteUser c0 a b u k v : pkept c0 (inviteUser a b u k v).
Proof. unfold inviteUser. pres. Qed.
Hint Resolve kept_reply kept_drawCode kept_inviteUser : pres.
Lemma kept_inviteAllUsers c0 a l u k : pkept c0 (inviteAllUsers a l u k).
Proof. unfold inviteAllUsers. pres. Qed.
Lemma kept_notifyMembers c0 uuid l : pkept c0 (notifyMembers uuid l).
Proof. unfold notifyMembers, sendMembersModified. pres. Qed.
Lemma kept_sendRead c0 u n : pkept c0 (sendNotificationRead u n).
Proof. unfold sendNotificationRead. pres. Qed.

(** A deleted workspace is taken out of its members' sessions. *)
Lemma kept_clearCache c0 l u : pkept c0 (clearCacheOnDelete l u).
Proof.
  unfold clearCacheOnDelete. apply kept_reads. intros ps Hps. apply preserves_bind; [|intros; pres].
  apply preserves_forM. intros [uid o] Hin.
  assert (∀ p, o = Some p → colon_free uid → covered c0 uid p) as Ho.
  { induction Hps as [|v o' l ps Hv _ IH]; simpl in Hin; [by apply elem_of_nil in Hin|].
    apply elem_of_cons in Hin as [[= -> ->]|Hin]; [done|by apply IH]. }
  destruct o as [p|]; [|pres]. unfold clear_presence. destruct (ofind _ p) as [[sid x]|] eqn:Hf; [|pres].
  destruct (truthy sid); [|pres]. apply preserves_bind; [pres|intros _]. apply preserves_bind; [pres|intros _].
  apply kept_set_presence. intros Hu. apply ofind_Some in Hf as [Hel _]. assert (is_Some (oget sid p)) as [y Hy].
  { apply oget_keys, list_elem_of_fmap. by exists (sid, x). }
  eapply covered_oset; [by apply Ho|done].
Qed.
Hint Resolve kept_inviteAllUsers kept_notifyMembers kept_sendRead kept_clearCache : pres.
Lemma kept_checkAccessCode c0 u c : pkept c0 (checkAccessCode u c).
Proof. unfold checkAccessCode, ac_findOne_code. pres. Qed.
Lemma kept_markOrFail c0 u c : pkept c0 (markOrFail u c).
Proof. unfold markOrFail, markCodeAsUsed. pres. Qed.
Hint Resolve kept_checkAccessCode kept_markOrFail : pres.
Lemma kept_createWorkspace c0 u d : pkept c0 (createWorkspace u d).
Proof. unfold createWorkspace. kpres. Qed.
Lemma kept_updateWorkspace c0 u d : pkept c0 (updateWorkspace u d).
Proof. unfold updateWorkspace, updateMembers, sendExclusion, ms_delete. kpres. Qed.
Lemma kept_deleteWorkspace c0 u d : pkept c0 (deleteWorkspace u d).
Proof. unfold deleteWorkspace. kpres. Qed.
Hint Resolve kept_createWorkspace kept_updateWorkspace kept_deleteWorkspace : pres.

Lemma kept_handle c0 r : pkept c0 (handle r).
Proof.
  destruct r; cbn [handle]; unfold updateWorkspaceStatus, getAllWorkspaces, checkEligibility, createAccessRequest,
    canProvision, getUserProfile, sendAccessRequestEmail, fulfillAccessRequest, ac_findOne_uuid, sendDecision,
    consumeAccessCode, resetAccessCode, deleteAccessCode, downgradeWorkspace, isUserMemberOf, deleteOwnedWorkspaces,
    acceptInvitation, ignoreInvitation, validateAccept; kpres.
Qed.
End kept_ws.

Section kept_ntfn.
Context {C T : Type} `{!Cache C, !CacheLaws C, !NtfnStore T} {Dt : DateEngine}.
Lemma kept_handle_ntfn c0 r : preserves (kept (C:=C) (X:=T) c0) (handle_ntfn r).
Proof.
  destruct r; cbn [handle_ntfn]; unfold pushNotification, pushAllPendingNotifications, handleReadNotification,
    handleReadAllNotifications, getAllNotifications, push_sessions; pres.
Qed.
End kept_ntfn.

Section kept_user.
Context {C U : Type} `{!Cache C, !CacheLaws C, !UserStore U, !Env, !AuthAdmin, !Typesense}.
Lemma kept_handle_user c0 r : preserves (kept (C:=C) (X:=U) c0) (handle_user r).
Proof.
  destruct r; cbn [handle_user]; unfold with_user, createUser, deleteUser, updateUser, users_set, users_update,
    searchUsers, getUsers, getProfile, fetchUserFromDB; pres.
Qed.
End kept_user.

Section kept_public.
Context {C Fi U : Type} `{!Cache C, !CacheLaws C, !Cuckoo Fi, !UserStore U}.
Context `{!Auth, !Users, !JWT, !Secret, !GuardEnv, !PublicPeers, !AuthMail, !Redlock}.
Lemma kept_pub_handle c0 e : preserves (kept (C:=C) (X:=PubState Fi U) c0) (pub_handle e).
Proof.
  destruct e as [[]| |]; cbn [pub_handle handle_public guard_metadata]; unfold guarded, publicGuard,
    checkUsernameExistence, cuckooCheck, registerEmail, verifyEmail, auth_answer, getTemplates,
    Public.fulfillAccessRequest, authGuard, initFilter, cacheTemplates, getTemplates, seed, cuckooAdd, set_filter; pres.
Qed.
End kept_public.

(** ** The gateway *)
Section timed_gw.
Context {C : Type} `{!Cache C, !CacheLaws C, !MembershipRpc, !Env, !Auth, !Redlock, !Health, !Users} {Net : Network}.
Abbreviation W := (world C Gateway).

Lemma inv_of_kept {B} (m : M W B) :
  (∀ c0, preserves (kept c0) m) → preserves (λ w : W, sockets_ok (w_loc w)) m → preserves gw_inv m.
Proof. intros Hk Hl w [Ht Hs]. split; [by apply timed_of_kept|by apply Hl]. Qed.

(** The expiry of a key that the gateway can see through: the key of a
    session or a workspace whose ids have no colon, the lock of a session's
    key obtained and the provisioner within reach; or a cached profile. *)
Definition tame_expiry (t : Z) (key : string) : Prop :=
  (∃ uid sid, colon_free uid ∧ colon_free sid ∧ key = CACHEKEY_PRESENCE_SESSION uid sid ∧
     lock_free ("locks:" +:+ key) t = true ∧ ∀ ws, reachable (dispose_url ws) t = true) ∨
  (∃ uid sid ws, colon_free uid ∧ colon_free sid ∧ colon_free ws ∧ truthy ws = true ∧
     key = CACHEKEY_PRESENCE_WORKSPACE uid sid ws) ∨
  ∃ u, profile_key u key.

Lemma inv_profile_expired u key : profile_key u key → preserves gw_inv (key_expired (C:=C) key).
Proof.
  intros Hk. unfold key_expired, handleCacheExpiry.
  assert (∃ ty parts, split_on colon key = ty :: parts ∧ ty ≠ "presence") as (ty & parts & -> & Hty).
  { destruct Hk.
    - exists "profile", (split_on colon u). split; [|done]. exact (split_on_app colon "profile" u eq_refl).
    - exists "users", (split_on colon u). split; [|done]. exact (split_on_app colon "users" u eq_refl). }
  rewrite bool_decide_false by done. unfold Socket.acquireLock, releaseLock. apply inv_of_kept; [intros c0; pres|pres].
  intros w Hw. destruct Hk; apply (kept_del c0); try done; constructor.
Qed.

Lemma inv_gw_handle w e :
  (∀ t u, validate_token t = Some u → colon_free (u_uid u)) → gw_inv w →
  match e with
  | GConnect hs => colon_free (hs_sessionId hs)
  | GExpired key => tame_expiry (w_now w) key
  | _ => True
  end → gw_inv (gw_handle e w).2.
Proof.
  intros Hauth Hw. destruct e as [hs|id|id msg|key| |e|e|ch m]; cbn [gw_handle]; intros He.
  - by apply inv_handleConnection.
  - by apply inv_handleDisconnect.
  - by apply inv_handleSocketMessage.
  - destruct He as [(uid & sid & ? & ? & -> & ? & ?)|[(uid & sid & ws & ? & ? & ? & ? & ->)|[u Hu]]];
      [by apply inv_session_expired|by apply inv_workspace_expired|by eapply inv_profile_expired].
  - unfold onModuleDestroy. apply inv_of_kept; [intros; pres| |done].
    apply preserves_bind; [intros w1 Hw1 id d; apply (Hw1 id d)|intros; pres].
  - apply inv_of_kept; [intros c0| |done]; unfold handle_socket_event, Socket.send, Socket.broadcast; pres.
  - apply inv_of_kept; [intros c0| |done]; unfold on_event, handleMembersModified, handleWorkspaceDeleted,
      invalidateRemovedMembers, updateAddedMembers, update_entries, update_entry; pres.
  - apply inv_of_kept; [intros c0| |done]; unfold on_gateway_event; pres.
Qed.
End timed_gw.

(** ** The system *)
Section system_timed.
Context {C Tw Tm Ta T Y A F Fi U : Type} `{!Cache C, !CacheLaws C, !NtfnStore T, !Yjs Y A, !Agent F, !Cuckoo Fi} {Dt : DateEngine}.
Context `{!UserStore U, !UserStoreLaws U}.
Context `{!Repo Tw WorkspaceE Workspace, !Repo Tm MembershipE Membership, !Repo Ta AccessCodeE AccessCode}.
Context `{!Random, !RandomBytes, !JWT, !Secret, !Env, !Orm, !K8s, !FirebaseAuth, !AuthAdmin, !Typesense}.
Context `{!Auth, !Redlock, !Sha256, !RandomInt, !Provisioner, !GuardEnv, !PublicPeers, !AuthMail} {Net : Network} {Keys : SshKeys}.
Abbreviation SYS := (Sys (DB Tw Tm Ta) T (EnvState Y A F) F (PubState Fi U)).
Abbreviation W := (world C SYS).
Implicit Types w : W.

Definition gateways_ok (s : SYS) : Prop := ∀ gid g, sy_gws s !! gid = Some g → sockets_ok g.
Definition sys_timed w : Prop := timed (w_cache w) ∧ gateways_ok (w_loc w).

(** A service other than a gateway. *)
Lemma timed_on_part {X B} (get : SYS → option X) put (m : M (world C X) B) w :
  (∀ x s, sy_gws (put x s) = sy_gws s) → (∀ c0, preserves (kept c0) m) →
  sys_timed w → sys_timed (on_part get put m w).2.
Proof.
  intros Hput Hm [Ht Hg]. unfold on_part. destruct (get (w_loc w)) as [x|]; [|done].
  pose proof (timed_of_kept m (World (w_cache w) (w_out w) (w_rng w) (w_now w) x) Hm Ht) as Ht'.
  destruct (m _) as [r w']. split; [exact Ht'|]. intros gid g. simpl. rewrite Hput. apply Hg.
Qed.

(** Connections under session ids without a colon, and expiries the gateway
    sees through. *)
Definition tame w (ev : sys_event) : Prop :=
  match ev with
  | AtGateway _ (GConnect hs) => colon_free (hs_sessionId hs)
  | AtGateway _ (GExpired key) => tame_expiry (w_now w) key
  | _ => True
  end.
Inductive tame_step : W → W → Prop :=
| tame_do ev w : caused w ev → tame w ev → tame_step w (sys_handle ev w).2.

Lemma timed_sys_handle ev w :
  (∀ t u, validate_token t = Some u → colon_free (u_uid u)) → tame w ev → sys_timed w → sys_timed (sys_handle ev w).2.
Proof.
  intros Hauth Hc Hw. destruct ev as [r|r|r|e|gid e|id e|t]; cbn [sys_handle]; cbv zeta; [..|done].
  - apply timed_on_part; [done|intros; apply kept_handle|done].
  - apply timed_on_part; [done|intros; apply kept_handle_ntfn|done].
  - apply timed_on_part; [done|intros; apply kept_handle_user|done].
  - apply timed_on_part; [done|intros; apply kept_pub_handle|done].
  - destruct Hw as [Ht Hg]. unfold on_gw, on_part. destruct (sy_gws (w_loc w) !! gid) as [g|] eqn:Hgid; [|done].
    set (wg := World (w_cache w) (w_out w) (w_rng w) (w_now w) g).
    pose proof (inv_gw_handle (H := sys_rpc w) (H3 := sys_health w) (H4 := sys_users w) wg e Hauth (conj Ht (Hg gid g Hgid))) as Hinv.
    destruct (gw_handle _ _) as [r w'] eqn:Hr in |- *. rewrite Hr in Hinv.
    destruct Hinv as [Ht' Hs']; [by destruct e|]. split; [done|]. intros gid' g'. simpl. rewrite lookup_insert.
    case_decide; [by intros [= <-]|apply Hg].
  - apply timed_on_part; [done|intros; apply kept_env_handle|done].
Qed.

End system_timed.

Lemma demo_sys_timed : timed (w_cache demo_sys).
Proof.
  intros u s p x Hu Hs Hp Hx. right. unfold marked. simpl.
  assert (u = "olga") as ->.
  { unfold presence_in in Hp. simpl in Hp. rewrite lookup_insert_ne, lookup_insert_ne in Hp by (by apply not_eq_sym; key_neq).
    rewrite lookup_singleton in Hp. case_decide as Hd; [|done]. by apply (inj CACHEKEY_PRESENCE) in Hd. }
  vm_compute in Hp. injection Hp as <-. simpl in Hx. case_decide; [|done]. subst. rewrite lookup_insert_eq. by eexists.
Qed.

(** The session's timer goes off. *)
Definition timeout_event : sys_event := AtGateway "gw-1" (GExpired (CACHEKEY_PRESENCE_SESSION "olga" "s1")).
