(* ===== verification/SystemAuth.v ===== *)
(** Who may reach an environment, in the composed system: a request that is
    forwarded comes from an authenticated user who is, or was, a member of
    the workspace; and once the removals the workspace service announced have
    been processed, only present members' requests are forwarded. *)
From S2P Require Import Prelude JS Messages Keys Interfaces ClientTypes Frame Public UserSvc Validation CodeGen Entities Tokens Fixtures Invite Manage ManageUpdate ManageDelete Access AccessProps WorkspaceService GwMembership Coherence Presence PresenceProps Socket SocketProps Notification EnvState EnvSync EnvSyncProps EnvDocs EnvFS EnvFSProps EnvSSH EnvWs EnvWsProps EnvInv Framed System Announce.
From Stdlib Require Import Lia.

(** What clients use as correlation ids does not matter here. *)
#[local] Existing Instance any_ids.

(** ** One event at a gateway *)
Section gateway_auth.
Context {C : Type} `{!Cache C, !CacheLaws C, !MembershipRpc, !Env, !Auth, !Redlock, !Health, !Users, !UsersLaws} {Net : Network}.
Abbreviation W := (world C Gateway).
Implicit Types w : W.

(** The user of some valid token. *)
Definition authentic (uid : string) : Prop := ∃ token u, validate_token token = Some u ∧ u_uid u = uid.
Definition sockets_authentic (g : Gateway) : Prop :=
  ∀ id d, oget id (g_sockets g) = Some (Some d) → authentic (u_uid (sd_user d)).

(** A request is sent on behalf of an authentic user of whom [Mb] holds. *)
Definition authorised (Mb : string → string → Prop) (e : effect) : Prop :=
  ∀ meta msg, env_request e = Some (meta, msg) →
    ∃ uid sid p, meta = Some (meta_us uid sid) ∧ im_payload msg = InEnv p ∧ Mb (env_uuid p) uid ∧ authentic uid.

(** Cached memberships satisfy [Mb], and so do the requests sent since [o0]. *)
Definition guarded_by (Mb : string → string → Prop) (o0 : list effect) (c : C) (o : list effect) : Prop :=
  (∀ u x v, cached_answer c u x = Some v → Mb x u) ∧ ∃ es, o = o0 ++ es ∧ Forall (authorised Mb) es.

#[global] Instance guarded_frame Mb o0 : Frame (guarded_by Mb o0).
Proof.
  assert (∀ c c' : C, (∀ u, membership_in c' u = membership_in c u) →
    (∀ u x v, cached_answer c u x = Some v → Mb x u) → ∀ u x v, cached_answer c' u x = Some v → Mb x u) as Hc.
  { intros c c' Heq Hm u x v. unfold cached_answer. rewrite Heq. apply Hm. }
  split.
  - intros c o e (_ & _ & He) [Hm (es & -> & Hes)]. split; [done|]. exists (es ++ [e]). rewrite app_assoc.
    split; [done|]. apply Forall_app_2; [done|]. apply Forall_singleton. intros meta msg. by rewrite He.
  - intros c o k v Hk [Hm Ho]. split; [|done]. eapply Hc; [|exact Hm]. intros u.
    by rewrite membership_in_set_ne by (by apply plain_ne_membership).
  - intros c o k Hk [Hm Ho]. split; [|done]. eapply Hc; [|exact Hm]. intros u.
    by rewrite membership_in_del_ne by (by apply plain_ne_membership).
  - intros c o u k Hk [Hm Ho]. split; [|done]. eapply Hc; [|exact Hm]. intros v.
    by rewrite membership_in_del_ne by (by destruct Hk).
  - intros c o k p t Hk [Hm Ho]. split; [|done]. eapply Hc; [|exact Hm]. intros u.
    by rewrite membership_in_set_ne by (by destruct Hk).
Qed.

(** A membership event only takes answers back, those it revokes among them. *)
Lemma on_event_run e w :
  w_out (on_event e w).2 = w_out w ∧
  ∀ u x v, cached_answer (w_cache (on_event e w).2) u x = Some v →
    is_Some (cached_answer (w_cache w) u x) ∧ ¬ revokes e x u.
Proof.
  assert ((∀ x u, ¬ revokes e x u) → w_out w = w_out w ∧ ∀ u x v, cached_answer (w_cache w) u x = Some v →
    is_Some (cached_answer (w_cache w) u x) ∧ ¬ revokes e x u) as Hno by (intros Hr; split; [done|by eauto]).
  unfold on_event. destruct e as [ch m []| | | | | | | | |]; try (by refine (Hno _); intros ? ? []); case_bool_decide as Hch;
    try (refine (Hno _); by intros x u (? & _)).
  - destruct (handleMembersModified_run uuid added removed w) as (w' & -> & _ & Ho' & Hc). split; [done|].
    intros u x v (Hr & v0 & Hv0 & _)%Hc. split; [by eexists|]. intros (_ & -> & Hin). by destruct Hr.
  - destruct (handleWorkspaceDeleted_run uuid members w) as (w' & -> & _ & Ho' & Hc). split; [done|].
    simpl. intros u x v. rewrite Hc. case_decide as Hd; [done|]. intros Hv. split; [by eexists|].
    intros (_ & -> & Hin). by destruct Hd.
Qed.

Context (Mb : string → string → Prop) (o0 : list effect).
Context (Hrpc : ∀ uid uuid v, rpc_check uid uuid = Ok v → Mb uuid uid).
Abbreviation keeps := (preserves (frames (X:=Gateway) (guarded_by Mb o0))).

(** What follows a check that returns may rely on [Mb]. *)
Lemma check_then {B} u x (k : MemberVal → M W B) :
  (Mb x u → ∀ v, keeps (k v)) → keeps (bind (checkMembership u x) k).
Proof.
  intros Hk w Hw. unfold bind. rewrite checkMembership_run. destruct Hw as [Hm Ho].
  destruct (cached_answer (w_cache w) u x) as [v|] eqn:Hc.
  { apply Hk; [by eapply Hm|done]. }
  destruct (rpc_check u x) as [v|e] eqn:Hr; [|done]. apply Hk; [by eapply Hrpc|]. split; [|done].
  intros u' x' v'. simpl. rewrite cached_answer_set. case_decide as Hd; [|apply Hm].
  destruct Hd as [-> ->]. intros _. by eapply Hrpc.
Qed.
Lemma guarded_check u x : keeps (checkMembership u x).
Proof.
  intros w Hw. assert (keeps (bind (checkMembership u x) ret)) as Hk by (apply check_then; intros ? ?; apply preserves_ret).
  specialize (Hk w Hw). unfold bind in Hk. by destruct (checkMembership u x w) as [[]].
Qed.

Lemma guarded_on_event e : keeps (on_event e).
Proof.
  intros w [Hm Ho]. destruct (on_event_run e w) as [Ho' Hc]. unfold frames. rewrite Ho'. split; [|done].
  intros u x v [[v0 Hv0] _]%Hc. by eapply Hm.
Qed.

Lemma guarded_request uid sid p cid e :
  env_request e = Some (Some (meta_us uid sid), InMsg (InEnv p) cid) → Mb (env_uuid p) uid → authentic uid → keeps (emit e).
Proof.
  intros He HM Ha w' [Hm (es & Ho & Hes)]. split; [done|]. eexists (es ++ [_]). simpl. rewrite Ho, app_assoc.
  split; [done|]. apply Forall_app_2; [done|]. apply Forall_singleton. intros meta m Hr. rewrite He in Hr.
  injection Hr as <- <-. by exists uid, sid, p.
Qed.
Lemma guarded_message id msg w :
  sockets_authentic (w_loc w) →
  frames (guarded_by Mb o0) w → frames (guarded_by Mb o0) (handleSocketMessage id msg w).2.
Proof.
  intros Hs. apply (framed_handleSocketMessage _ (λ d, authentic (u_uid (sd_user d))));
    [done|apply guarded_check| |apply Hs].
  intros p d Hp Ha. apply (framed_forward _ (Mb (env_uuid p) (u_uid (sd_user d)))); [done|intros; by apply check_then|..].
  - intros HM i. by eapply guarded_request.
  - intros HM. by eapply guarded_request.
Qed.

Lemma guarded_gw_handle gid e w :
  well_formed_event (AtGateway gid e) → (∀ key, e = GExpired key → expiring_key key) → sockets_authentic (w_loc w) →
  frames (guarded_by Mb o0) w → frames (guarded_by Mb o0) (gw_handle e w).2.
Proof.
  intros Hwf Hk Hs. destruct e as [| |id msg|key| | | |]; try (by apply (framed_gw_handle _ gid)).
  - by apply guarded_message.
  - apply (framed_gw_handle _ gid); [done|]. apply framed_expiry; [tc_solve|by apply Hk].
  - apply (framed_gw_handle _ gid); [done|]. apply guarded_on_event.
Qed.

(** Sockets are only given the users of valid tokens. *)
Lemma authentic_emit e : preserves (λ w : W, sockets_authentic (w_loc w)) (emit e).
Proof. by intros w. Qed.
Lemma authentic_set k v t : preserves (λ w : W, sockets_authentic (w_loc w)) (cache_set k v t).
Proof. by intros w. Qed.
Lemma authentic_del k : preserves (λ w : W, sockets_authentic (w_loc w)) (cache_del k).
Proof. by intros w. Qed.
Hint Resolve authentic_emit authentic_set authentic_del : pres.

Lemma sockets_connect hs : preserves (λ w, sockets_authentic (w_loc w)) (handleConnection (C:=C) hs).
Proof.
  intros w Hw. unfold handleConnection. rewrite (bind_ok _ _ w (w_loc w) w) by done.
  destruct (negb _); [done|]. destruct (if_truthy (hs_token hs)) as [tok|]; [|done].
  assert (preserves (λ w : W, sockets_authentic (w_loc w)) (handleAuthentication tok)) as Hpa.
  { unfold handleAuthentication. pres. }
  specialize (Hpa w Hw). unfold bind at 1.
  destruct (handleAuthentication tok w) as [[[u|]|e] w1] eqn:Ha; simpl in Hpa; try done.
  apply handleAuthentication_user in Ha. cbv zeta.
  unfold bind at 1. rewrite acquireLock_run. destruct (lock_free _ _); [|done]. cbv iota beta.
  eapply (preserves_run (λ w : W, sockets_authentic (w_loc w))); [|apply surjective_pairing|].
  - apply preserves_bind; [|intros _; unfold setSessionState, setWorkspaceState, releaseLock; pres].
    intros w' Hw' id d. simpl. destruct (decide (hs_socketId hs = id)) as [<-|Hne].
    + rewrite oget_oset_eq. intros [= <-]. by exists tok, u.
    + rewrite oget_oset_ne by done. apply Hw'.
  - exact Hpa.
Qed.

Lemma sockets_handle e : preserves (λ w, sockets_authentic (w_loc w)) (gw_handle (C:=C) e).
Proof.
  destruct e as [hs|id|id msg|key| |ev|ev|ch m]; cbn [gw_handle].
  - apply sockets_connect.
  - unfold handleDisconnect, socket_data, Socket.acquireLock, releaseLock, setSessionState, setWorkspaceState. pres.
  - unfold handleSocketMessage, socket_data, Socket.handleEnvMessage, handleFSLoss, handleSSHSLoss, handlePresenceMessage,
      checkMembership, fetchMembership, cacheMembership, setSessionState, setWorkspaceState, Socket.send, reply_error. pres.
  - unfold key_expired, handleCacheExpiry, handleStalePresence, handleStaleSession, handleStaleWorkspace, handleSessionExpiry,
      handleWorkspaceExpiry, for_sessions, sendDisconnect, Socket.acquireLock, releaseLock, setSessionState, setWorkspaceState. pres.
  - unfold onModuleDestroy. apply preserves_bind; [by intros w|intros _; pres].
  - unfold handle_socket_event, Socket.send, Socket.broadcast. pres.
  - unfold on_event, handleMembersModified, handleWorkspaceDeleted, invalidateRemovedMembers, updateAddedMembers,
      update_entries, update_entry. pres.
  - unfold on_gateway_event. pres.
Qed.
End gateway_auth.

(** ** The composed system *)
Section system_auth.
Context {C Tw Tm Ta T Y A F Fi U : Type} `{!Cache C, !NtfnStore T, !Yjs Y A, !Agent F, !Cuckoo Fi} {Dt : DateEngine}.
Context `{!UserStore U, !UserStoreLaws U}.
Context `{!Repo Tw WorkspaceE Workspace, !Repo Tm MembershipE Membership, !Repo Ta AccessCodeE AccessCode}.
Context `{!Random, !RandomBytes, !JWT, !Secret, !Env, !Orm, !K8s, !FirebaseAuth, !AuthAdmin, !Typesense}.
Context `{!Auth, !Redlock, !Sha256, !RandomInt, !Provisioner, !GuardEnv, !PublicPeers, !AuthMail} {Net : Network} {Keys : SshKeys}.
Context `{!CacheLaws C}.
Context `{!RepoLaws Tw WorkspaceE Workspace, !RepoLaws Tm MembershipE Membership,
          !RepoLaws Ta AccessCodeE AccessCode}.
Abbreviation W := (world C (Sys (DB Tw Tm Ta) T (EnvState Y A F) F (PubState Fi U))).
Implicit Types w : W.

Definition member w (uuid uid : string) : Prop := is_member (sy_db (w_loc w)) uuid uid.
Definition gws_authentic w : Prop := ∀ gid g, sy_gws (w_loc w) !! gid = Some g → sockets_authentic g.

Lemma gws_authentic_handle ev w : gws_authentic w → gws_authentic (sys_handle ev w).2.
Proof.
  intros Hw. destruct ev as [r|r|r|e|gid e|id e|t]; cbn [sys_handle]; cbv zeta; try done.
  5: refine (loc_on_part (λ s, ∀ gid g, sy_gws s !! gid = Some g → sockets_authentic g) sockets_authentic
       _ _ _ _ _ (sockets_handle e) w Hw); [eauto|];
     intros s g g' Hs _ Hg' gid' g0; simpl; rewrite lookup_insert; case_decide; [intros [= <-]; done|apply Hs].
  all: refine (loc_on_part (λ s, ∀ gid g, sy_gws s !! gid = Some g → sockets_authentic g) (λ _, True) _ _ _ _ _ _ w Hw);
    [done|intros s x x' Hs _ _; exact Hs|by intros w0].
Qed.

Lemma db_handle ev w :
  match ev with AtWorkspace _ => True | _ => sy_db (w_loc (sys_handle ev w).2) = sy_db (w_loc w) end.
Proof.
  destruct ev as [r|r|r|e|gid e|id e|t]; cbn [sys_handle]; cbv zeta; try done.
  all: refine (loc_on_part (λ s, sy_db s = sy_db (w_loc w)) (λ _, True) _ _ _ _ _ _ w eq_refl);
    [done|intros s x x' Hs _ _; exact Hs|by intros w0].
Qed.

(** One event: when [Mb] holds of the present members and of the cached
    answers, it holds of the answers cached afterwards and of the users whose
    requests were forwarded. *)
Lemma guarded_sys_handle (Mb : string → string → Prop) ev w :
  typed_out w → caused w ev → sys_ok w → gws_authentic w →
  (∀ x u, member w x u → Mb x u) → (∀ u x v, cached_answer (w_cache w) u x = Some v → Mb x u) →
  frames (guarded_by Mb (w_out w)) (sys_handle ev w).2.
Proof.
  intros Ht Hc Hok Ha Hm Hca. pose proof (caused_well_formed _ _ Ht (asks_any ev) Hc) as Hwf.
  assert (frames (guarded_by Mb (w_out w)) w) as Hw by (split; [done|exists []; by rewrite app_nil_r]).
  apply framed_sys_handle; [tc_solve|done| |done].
  destruct ev as [r|r|r|e|gid e|id e|t]; try done. cbn [sys_handle]; cbv zeta. unfold on_gw, on_part.
  destruct (sy_gws (w_loc w) !! gid) as [g|] eqn:Hg; [|done].
  pose proof (guarded_gw_handle (H := sys_rpc w) (H3 := sys_health w) (H4 := sys_users w) (H5 := sys_users_laws w) Mb (w_out w)) as Hgw.
  assert (∀ uid uuid v, @rpc_check (sys_rpc w) uid uuid = Ok v → Mb uuid uid) as Hrpc.
  { intros uid uuid v Hv. apply Hm. eapply (rpc_of_sound (ws_world w)); [apply Hok|exact Hv]. }
  specialize (Hgw Hrpc gid e (World (w_cache w) (w_out w) (w_rng w) (w_now w) g) Hwf).
  assert (∀ key, e = GExpired key → expiring_key key) as Hk.
  { intros key ->. by eapply caused_expiry. }
  specialize (Hgw Hk (Ha _ _ Hg) Hw). by destruct (gw_handle _ _) as [r w'].
Qed.

(** A system nobody has used yet: no membership is cached, no request has
    been forwarded, and the sockets' users come from valid tokens. *)
Definition unused w : Prop :=
  typed_out w ∧ sys_ok w ∧ gws_authentic w ∧
  (∀ u x, cached_answer (w_cache w) u x = None) ∧ Forall (λ e, env_request e = None) (w_out w).

Lemma standing_handle ev w :
  caused w ev → typed_out w ∧ sys_ok w ∧ gws_authentic w →
  typed_out (sys_handle ev w).2 ∧ sys_ok (sys_handle ev w).2 ∧ gws_authentic (sys_handle ev w).2.
Proof.
  intros Hc (Ht & Hok & Ha). split_and!; [by apply typed_sys_handle; [apply asks_any|..]|by apply sys_ok_handle|by apply gws_authentic_handle].
Qed.

(** Members of a workspace at some time between [w0] and [w]. *)
Definition once_member w0 w (uuid uid : string) : Prop :=
  ∃ w1, rtc sys_step w0 w1 ∧ rtc sys_step w1 w ∧ member w1 uuid uid.

Lemma authorised_weaken (Mb Mb' : string → string → Prop) e :
  (∀ x u, Mb x u → Mb' x u) → authorised Mb e → authorised Mb' e.
Proof. intros Hw He meta msg Hr. destruct (He meta msg Hr) as (uid & sid & p & ? & ? & ? & ?). exists uid, sid, p. auto. Qed.

Lemma authorised_steps w0 w :
  unused w0 → rtc sys_step w0 w →
  (typed_out w ∧ sys_ok w ∧ gws_authentic w) ∧ guarded_by (once_member w0 w) [] (w_cache w) (w_out w).
Proof.
  intros (Ht & Hok & Ha & Hc & Ho) Hsteps.
  refine (rtc_ind_r (λ w, (typed_out w ∧ sys_ok w ∧ gws_authentic w) ∧
    guarded_by (once_member w0 w) [] (w_cache w) (w_out w)) w0 _ _ w Hsteps).
  - split; [done|]. split; [intros u x v; by rewrite Hc|]. exists (w_out w0). split; [done|].
    eapply Forall_impl; [exact Ho|]. intros e He meta msg. by rewrite He.
  - clear w Hsteps. intros y z Hr Hst. destruct Hst as [ev w Hev]. intros [Hs [IHc (es & IHo & IHes)]]. split; [by apply standing_handle|].
    assert (∀ x u, once_member w0 w x u → once_member w0 (sys_handle ev w).2 x u) as Hmono.
    { intros x u (w1 & Hr0 & Hr1 & Hm). exists w1. split_and!; [done| |done]. eapply rtc_r; [done|by constructor]. }
    destruct Hs as (Ht1 & Hok1 & Ha1).
    destruct (guarded_sys_handle (once_member w0 w) ev w) as [Hc' (es' & Ho' & Hes')]; try done.
    { intros x u Hm. exists w. split_and!; [done|apply rtc_refl|done]. }
    split; [eauto|]. exists (es ++ es'). rewrite Ho', IHo. split; [done|].
    apply Forall_app_2; (eapply Forall_impl; [done|intros e; by apply authorised_weaken]).
Qed.

(** C2: only members reach an environment.  Whatever the clients, tokens,
    containers, timers and deliveries do from the first moment on, a client's
    socket message that any gateway forwarded to an environment instance
    carries the user of a valid token, for a workspace the user was a member
    of at some time during the run.  (Requests to open or close a workspace
    come through the proxy and are checked by the environment service:
    [system_open_guarded].) *)
Theorem system_authorised w0 w e meta msg :
  unused w0 → rtc sys_step w0 w → e ∈ w_out w → env_request e = Some (meta, msg) →
  ∃ uid sid p, meta = Some (meta_us uid sid) ∧ im_payload msg = InEnv p ∧ authentic uid ∧
    ∃ w1, rtc sys_step w0 w1 ∧ rtc sys_step w1 w ∧ is_member (sy_db (w_loc w1)) (env_uuid p) uid.
Proof.
  intros Hu Hsteps He Hr. destruct (authorised_steps w0 w Hu Hsteps) as [_ [_ (es & Ho & Hes)]].
  simpl in Ho. rewrite Forall_forall in Hes. destruct (Hes e) with (meta := meta) (msg := msg) as (uid & sid & p & ? & ? & ? & ?);
    [by rewrite <- Ho|done|]. by exists uid, sid, p.
Qed.

(** C3: the proxied requests are checked where they arrive.  In every state
    of the system, a request to open or to close a workspace that reaches an
    environment instance for a user who is not, at that moment, a member of
    the workspace, or for no user, is refused or ignored: nothing is sent, no
    container is asked for, and the shared cache stays as it is. *)
Theorem system_open_guarded w0 w id meta req uuid :
  unused w0 → rtc sys_step w0 w → (req = ReqClose uuid ∨ ∃ sid, req = ReqOpen uuid sid) →
  (∀ uid, if_truthy (meta ≫= m_uid) = Some uid → ¬ is_member (sy_db (w_loc w)) uuid uid) →
  let w' := (sys_handle (AtEnv id (EvMsg meta req)) w).2 in
  w_cache w' = w_cache w ∧ w_out w' = w_out w ∧ sy_db (w_loc w') = sy_db (w_loc w) ∧
  sy_files (w_loc w') = sy_files (w_loc w).
Proof.
  intros Hu Hsteps Hreq Hno. destruct (authorised_steps w0 w Hu Hsteps) as [(_ & Hok & _) _].
  assert (∀ uid, if_truthy (meta ≫= m_uid) = Some uid → ∀ v, @rpc_check (sys_rpc w) uid uuid ≠ Ok v) as Hrpc.
  { intros uid Huid v Hv. apply (Hno uid Huid). eapply (rpc_of_sound (ws_world w)); [apply Hok|exact Hv]. }
  cbn [sys_handle]. cbv zeta. unfold on_env, on_part. destruct (sy_envs (w_loc w) !! id) as [e|]; [|done]. simpl.
  set (w1 := World _ _ _ _ _).
  match goal with |- context [bind ?m ?k w1] => assert (∃ r, bind m k w1 = (r, w1)) as [r ->]; [|done];
    assert (∃ r, m w1 = (r, w1)) as [r Hr] by (by eapply on_env_msg_refused) end.
  unfold bind. rewrite Hr. destruct r; by eexists.
Qed.

(** ** Revocation *)

(** The requests to the workspace service do all they answer for, or remove
    nobody. *)
Definition undisturbed w (ev : sys_event) : Prop :=
  match ev with
  | AtWorkspace r =>
      let users := sys_users w in let peers := sys_peers w in
      completed r (ws_world w) ∨ keeps_members (sy_db (w_loc w)) (sy_db (w_loc (sys_handle ev w).2))
  | _ => True
  end.

(** A run of the system, with the positions of the sent messages that some
    gateway has received as membership events. *)
Inductive run_from (w0 : W) : gset nat → W → Prop :=
| run_start : run_from w0 ∅ w0
| run_event D w ev : run_from w0 D w → caused w ev → undisturbed w ev → run_from w0 D (sys_handle ev w).2
| run_deliver D w i e gid :
    run_from w0 D w → w_out w !! i = Some e → is_Some (sy_gws (w_loc w) !! gid) →
    run_from w0 ({[i]} ∪ D) (sys_handle (AtGateway gid (GMembershipEvent e)) w).2.

(** A revocation that was sent and not yet received. *)
Definition pending (D : gset nat) (o : list effect) (uuid uid : string) : Prop :=
  ∃ (i : nat) e, (o !! i = Some e) ∧ (i ∉ D) ∧ revokes e uuid uid.
Definition fresh_cache D w : Prop :=
  (∀ i, i ∈ D → (i < length (w_out w))%nat) ∧
  ∀ u x v, cached_answer (w_cache w) u x = Some v → member w x u ∨ pending D (w_out w) x u.

Lemma pending_app D o es x u : pending D o x u → pending D (o ++ es) x u.
Proof. intros (i & e & Hi & HD & Hr). exists i, e. split_and!; [by apply lookup_app_l_Some|done..]. Qed.
Lemma pending_new D o es x u :
  (∀ i, i ∈ D → (i < length o)%nat) → (∃ e, e ∈ es ∧ revokes e x u) → pending D (o ++ es) x u.
Proof.
  intros HD (e & He & Hr). apply list_elem_of_lookup in He as [j Hj]. exists (length o + j)%nat, e. split_and!; [|..|done].
  - rewrite lookup_app_r by lia. by replace (length o + j - length o)%nat with j by lia.
  - intros Hi%HD. lia.
Qed.

(** What an event removes, it announces. *)
Lemma sys_announces ev w :
  sys_ok w → undisturbed w ev →
  ∀ es, w_out (sys_handle ev w).2 = w_out w ++ es →
  ∀ x u, member w x u → member (sys_handle ev w).2 x u ∨ ∃ e, e ∈ es ∧ revokes e x u.
Proof.
  intros Hok Hun es Hes x u Hm. pose proof (db_handle ev w) as Hdb.
  destruct ev as [r|r|r|e|gid e|id e|t]; try (left; unfold member; rewrite Hdb; exact Hm).
  revert Hun Hes. cbn [undisturbed sys_handle]; cbv zeta. unfold member, on_ws, on_part. simpl.
  pose proof (handle_announces (H4 := sys_peers w) (H7 := sys_users w) (H8 := sys_users_laws w) r (ws_world w)) as Hann.
  unfold ws_world in *. destruct (handle r _) as [v w'] eqn:Hrun. simpl in *. intros Hun Hes.
  destruct Hann as (es' & Ho & Ha); [apply Hok|exact Hun|].
  rewrite Ho in Hes. apply app_inv_head in Hes as ->. by apply Ha.
Qed.

Lemma fresh_event D w ev :
  typed_out w → caused w ev → sys_ok w → gws_authentic w → undisturbed w ev →
  fresh_cache D w → fresh_cache D (sys_handle ev w).2.
Proof.
  intros Ht Hc Hok Ha Hun [HD Hca].
  destruct (guarded_sys_handle (λ x u, member w x u ∨ pending D (w_out w) x u) ev w) as [Hc' (es & Ho & _)]; auto.
  split; [intros i Hi%HD; rewrite Ho, length_app; lia|].
  intros u x v Hv. rewrite Ho. destruct (Hc' u x v Hv) as [Hm|Hp]; [|right; by apply pending_app].
  destruct (sys_announces ev w Hok Hun es Ho x u Hm) as [?|He]; [by left|right; by apply pending_new].
Qed.

Lemma fresh_deliver D w i e gid :
  w_out w !! i = Some e → is_Some (sy_gws (w_loc w) !! gid) →
  fresh_cache D w → fresh_cache ({[i]} ∪ D) (sys_handle (AtGateway gid (GMembershipEvent e)) w).2.
Proof.
  intros Hi [g Hg] [HD Hca]. cbn [sys_handle gw_handle]; cbv zeta. unfold on_gw, on_part. rewrite Hg.
  destruct (on_event_run e (World (w_cache w) (w_out w) (w_rng w) (w_now w) g)) as [Ho Hc].
  destruct (on_event e _) as [r w']. simpl in *. unfold fresh_cache, member. simpl. rewrite Ho. split.
  - intros j [->%elem_of_singleton|Hj]%elem_of_union; [by eapply lookup_lt_Some|by apply HD].
  - intros u x v ([v0 Hv0] & Hno)%Hc. destruct (Hca u x v0 Hv0) as [Hm|(j & e' & Hj & HjD & Hr)]; [by left|].
    right. exists j, e'. split_and!; [done| |done]. intros [->%elem_of_singleton|?]%elem_of_union; [|done].
    by simplify_eq.
Qed.

Lemma run_fresh w0 D w :
  unused w0 → run_from w0 D w → (typed_out w ∧ sys_ok w ∧ gws_authentic w) ∧ fresh_cache D w.
Proof.
  intros (Ht & Hok & Ha & Hc & _). induction 1 as [|D w ev _ [IH Hf] Hev Hun|D w i e gid _ [IH Hf] Hi Hg].
  - split; [done|]. split; [set_solver|]. intros u x v. by rewrite Hc.
  - split; [by apply standing_handle|]. destruct IH as (? & ? & ?). by apply fresh_event.
  - split; [|by apply fresh_deliver]. apply standing_handle; [|done]. simpl. by eapply list_elem_of_lookup_2.
Qed.

(** C1: removed members lose their access.  In any run of the system in
    which each request to the workspace service does all it answers for (it
    returns and, when it closes an account, has deleted the workspaces the
    account owned) or else removes nobody, once some gateway has received each
    of the events by which the workspace service announced removed members
    and deleted workspaces, in any order and however often, every socket
    message that a gateway forwards to an environment, whatever happens next,
    is one of a present member of the workspace. *)
Theorem system_revocation w0 D w ev :
  unused w0 → run_from w0 D w → caused w ev →
  (∀ i e uuid uid, w_out w !! i = Some e → revokes e uuid uid → i ∈ D) →
  ∃ es, w_out (sys_handle ev w).2 = w_out w ++ es ∧
    ∀ e meta msg, e ∈ es → env_request e = Some (meta, msg) →
      ∃ uid sid p, meta = Some (meta_us uid sid) ∧ im_payload msg = InEnv p ∧ authentic uid ∧
        is_member (sy_db (w_loc w)) (env_uuid p) uid.
Proof.
  intros Hu Hrun Hev Hall. destruct (run_fresh w0 D w Hu Hrun) as [(Ht & Hok & Ha) [_ Hca]].
  destruct (guarded_sys_handle (member w) ev w) as [_ (es & Ho & Hes)]; try done.
  { intros u x v Hv. destruct (Hca u x v Hv) as [?|(i & e & Hi & HiD & Hr)]; [done|]. by destruct HiD; eapply Hall. }
  exists es. split; [done|]. rewrite Forall_forall in Hes. intros e meta msg He Hr.
  destruct (Hes e He meta msg Hr) as (uid & sid & p & ? & ? & ? & ?). by exists uid, sid, p.
Qed.
End system_auth.

(** ** Examples *)
Lemma demo_sys_unused : unused demo_sys.
Proof.
  split_and!; [constructor|apply demo_sys_ok| | |constructor].
  - intros gid g. simpl. rewrite lookup_singleton. case_decide; [|done]. intros [= <-] id d. simpl.
    case_decide; [|done]. intros [= <-]. by exists "good", olga.
  - intros u x. unfold cached_answer, membership_in. simpl. rewrite lookup_insert_ne by done.
    repeat (rewrite ?lookup_insert_ne, ?lookup_singleton_ne by done). done.
Qed.

(** The edit of the example was forwarded for a member. *)
Lemma system_authorised_witness :
  ∃ uid, uid = "olga" ∧ ∃ w1, rtc sys_step demo_sys w1 ∧ is_member (sy_db (w_loc w1)) "ws-1" uid.
Proof.
  destruct edit_sent as (l & Hl & Hr).
  destruct (system_authorised demo_sys (edit_state 1) l (Some (meta_us "olga" "s1"))
    (InMsg (InEnv (FSSyncIn "ws-1" 5 "new")) None)) as (uid & sid & p & Hu & Hp & _ & w1 & Hw1 & _ & Hm).
  - exact demo_sys_unused.
  - apply rtc_once. by apply (sys_do (AtGateway "gw-1" (GMessage "sock" (InMsg (InEnv _) None)))).
  - rewrite Hl. by left.
  - by rewrite Hr.
  - exists uid. injection Hu as <- _. injection Hp as <-. split; [reflexivity|]. by exists w1.
Defined.

(** The workspace is deleted after the edit, and the gateway is told. *)
Definition edit_event : sys_event := AtGateway "gw-1" (GMessage "sock" (InMsg (InEnv (FSSyncIn "ws-1" 5 "new")) None)).
Definition gone_event : effect := Redis "workspace.deleted" None (WorkspaceDeleted "ws-1" ["olga"; "mark"]).
Definition gone_state := (sys_handle (AtWorkspace (DeleteWs olga "ws-1")) (sys_handle edit_event demo_sys).2).2.
Definition told_state := (sys_handle (AtGateway "gw-1" (GMembershipEvent gone_event)) gone_state).2.

Lemma gone_out : w_out told_state = w_out gone_state ∧
  ∃ a b c, w_out gone_state = [a; b; c; gone_event] ∧ ∀ uuid uid, ¬ revokes a uuid uid ∧ ¬ revokes b uuid uid ∧ ¬ revokes c uuid uid.
Proof. split; [vm_compute; reflexivity|]. do 3 eexists. split; [vm_compute; reflexivity|]. intros uuid uid. split_and!; intros []. Qed.
Lemma gone_last : w_out gone_state !! 3%nat = Some gone_event.
Proof. destruct gone_out as (_ & a & b & c & -> & _). done. Qed.
Lemma gone_revoked i e uuid uid : w_out told_state !! i = Some e → revokes e uuid uid → i ∈ ({[3%nat]} ∪ ∅ : gset nat).
Proof.
  destruct gone_out as (-> & a & b & c & -> & Hno). destruct (Hno uuid uid) as (Ha & Hb & Hc).
  destruct i as [|[|[|[|i]]]]; intros [= <-]; done.
Qed.

Lemma told_run : run_from demo_sys ({[3%nat]} ∪ ∅) told_state.
Proof.
  apply (run_deliver _ _ gone_state _ gone_event); [|apply gone_last|by eexists].
  apply run_event; [apply run_event; [constructor|done|done]|done|]. left. split; [vm_compute; reflexivity|exact I].
Qed.

(** The user's cached membership is gone: the same edit is not forwarded. *)
Lemma system_revocation_witness :
  ∃ es, w_out (sys_handle edit_event told_state).2 = w_out told_state ++ es ∧ ∀ e, e ∈ es → env_request e = None.
Proof.
  destruct (system_revocation demo_sys _ told_state edit_event demo_sys_unused told_run) as (es & Ho & Hes).
  - exact I.
  - exact gone_revoked.
  - exists es. split; [exact Ho|]. intros e He. destruct (env_request e) as [[meta msg]|] eqn:Hr; [|reflexivity].
    destruct (Hes e meta msg He Hr) as (uid & _ & p & _ & _ & _ & r & m & Hrow & _). exfalso. revert Hrow.
    unfold wss. rewrite list_r_rows. vm_compute. intros Hrow. by apply elem_of_nil in Hrow.
Defined.

(** A stranger's request to open the workspace. *)
Lemma system_open_guarded_witness :
  w_out (sys_handle (AtEnv "env-1" (EvMsg (Some (meta_us "mallory" "s9")) (ReqOpen "ws-1" (Some "s9")))) demo_sys).2 =
    w_out demo_sys.
Proof.
  apply (system_open_guarded demo_sys demo_sys "env-1" (Some (meta_us "mallory" "s9")) (ReqOpen "ws-1" (Some "s9")) "ws-1");
    [exact demo_sys_unused|apply rtc_refl|right; by eexists|].
  intros uid [= <-] (r & m & _ & _ & Hm & _ & Hu). revert Hm. unfold mss. rewrite list_r_rows. simpl. intros Hm.
  repeat (apply elem_of_cons in Hm as [->|Hm]; [done|]). by apply elem_of_nil in Hm.
Defined.
