(* ===== verification/SystemWire.v ===== *)
(** The messages of the composed system as the brokers carry them: whatever
    was sent to another process has a receiver, and what the receiver reads
    from the text of the packet is what was sent; and which of the routes of
    the gateway's proxy have one. *)
From S2P Require Import Prelude JS Dates Messages Keys Interfaces ClientTypes Validation Codec Wire Topology Frame Public UserSvc CodeGen Entities Tokens Fixtures Invite Manage Access WorkspaceService GwMembership Presence PresenceProps Socket SocketProps Proxy Notification EnvState EnvSync EnvDocs EnvFS EnvSSH EnvWs EnvInv Channels Framed System.

(** The broker, the pattern, the caller and the payload of what is sent. *)
Definition sent (e : effect) : option (Transport * string * option Meta * SvcPayload) :=
  match e with
  | Redis ch meta p => Some (T_REDIS, ch, meta, p)
  | Rmq ch meta p => Some (T_RMQ, ch, meta, p)
  | Nats ch meta p => Some (T_NATS, ch, meta, p)
  | _ => None
  end.

(** A pattern that is served has its handler in a controller. *)
Lemma served_handled t pattern l : served t pattern l = true → ∃ s, (t, pattern, Some l) ∈ handlers s.
Proof.
  unfold served. destruct (subscribers t pattern) as [|s [|]]; [done| |done]. intros Hh%bool_decide_eq_true.
  unfold handler_of in Hh. apply fmap_Some in Hh as ([[t' pat] l'] & Hf & Hl). simpl in Hl. subst l'.
  apply List.find_some in Hf as [Hin Hb]. apply andb_true_iff in Hb as [<-%bool_decide_eq_true <-%String.eqb_eq].
  exists s. by apply list_elem_of_In.
Qed.

(** Messages for sockets go through Redis. *)
Lemma sent_well_typed e t ch meta p :
  typed_effect (H:=any_ids) e → addressed e → sent e = Some (t, ch, meta, p) → well_typed p.
Proof.
  intros Ht Ha Hs. assert (∀ s l, l = OnSocketSend ∨ l = OnSocketBroadcast → (t, ch, Some l) ∈ handlers s → t = T_REDIS) as Hno.
  { intros s l [->| ->] Hin; destruct s; repeat (apply elem_of_cons in Hin as [Heq|Hin]; [congruence|]);
      by apply elem_of_nil in Hin. }
  destruct e as [ch' m p'|ch' m p'|ch' m p'| | | | | | |]; try done; simpl in Hs; injection Hs as <- <- <- <-; destruct p'; try done;
    simpl in Ha; apply served_handled in Ha as (s & Hin); by apply Hno in Hin; auto.
Qed.

(** What the receiver of a message makes of the text of its packet. *)
Definition reads (pattern : string) (meta : option Meta) (p : SvcPayload) : Prop :=
  unpack (meant_for p) (packet pattern meta p) = Some (if bare p then None else meta, p).

(** Who takes a message:
    - a message for one environment instance is taken, on the branch for its
      payload, by the instance its channel names and by no other;
    - an order to a gateway instance is on that instance's channel, but its
      listener makes nothing of it, nor does any other;
    - an answer goes to the one who asked, a path to watch to the container;
    - any other message has one service connected to the broker that handles
      its pattern, and takes the payload for the type it has. *)
Definition understood {C} `{!Cache C} (t : Transport) (pattern : string) (meta : option Meta) (p : SvcPayload) : Prop :=
  match t, p with
  | T_REDIS, EnvMessage _ | T_REDIS, InterEnvFSOpen _ _ _ _ | T_REDIS, InterEnvFSClose _ _ =>
      reads pattern meta p ∧ ∃ id b, pattern = channel id b ∧
        (instance_name id → ∀ id', instance_name id' → is_Some (on_message id' pattern meta p) ↔ id' = id)
  | T_REDIS, SocketClose _ =>
      ∃ id, pattern = "gateway." +:+ id ∧
        ∀ g : world C Gateway, on_gateway_event pattern (packet pattern meta p) g = (Ok tt, g)
  | T_REDIS, EnvReply _ =>
      reads pattern meta p ∧ ∃ id, pattern = channel id AtMessage +:+ ".reply" ∨ pattern = channel id AtHealth +:+ ".reply"
  | T_REDIS, WatchPath _ =>
      reads pattern meta p ∧
      ∃ uuid, pattern = "workspace." +:+ uuid +:+ ".watch.add" ∨ pattern = "workspace." +:+ uuid +:+ ".watch.remove"
  | _, _ =>
      reads pattern meta p ∧ ∃ s, subscribers t pattern = [s] ∧ handler_of s t pattern = Some (Some (meant_for p))
  end.

Lemma served_spec t pattern l :
  served t pattern l = true → ∃ s, subscribers t pattern = [s] ∧ handler_of s t pattern = Some (Some l).
Proof.
  unfold served. destruct (subscribers t pattern) as [|s [|]]; [done| |done].
  intros Hh%bool_decide_eq_true. by exists s.
Qed.

(** An instance takes what is on its channel, when the payload is the
    branch's. *)
Lemma instance_takes id b meta p :
  match b, p with
  | AtMessage, EnvMessage (InMsg (InEnv _) _) | AtOpenfile, InterEnvFSOpen _ _ _ _ | AtClosefile, InterEnvFSClose _ _ => True
  | _, _ => False
  end →
  instance_name id → ∀ id', instance_name id' → is_Some (on_message id' (channel id b) meta p) ↔ id' = id.
Proof.
  intros Hb Hid id' Hid'. unfold on_message. split.
  - intros Hs. destruct (decide (id' = id)) as [|Hne]; [done|]. rewrite channel_foreign in Hs by done. by destruct Hs.
  - intros ->. rewrite listen_channel by done. destruct b; try done; destruct p as [| | | | | | | |[[]]| | | | | |]; first [done | by eexists].
Qed.

Lemma addressed_understood {C} `{!Cache C} e t pattern meta p :
  typed_effect (H:=any_ids) e → addressed e → sent e = Some (t, pattern, meta, p) → understood (C:=C) t pattern meta p.
Proof.
  intros Ht Ha Hs. pose proof (sent_well_typed e t pattern meta p Ht Ha Hs) as Hw.
  assert (meant_for p ≠ OnGateway → reads pattern meta p) as Hr by (intros; by apply packet_roundtrip).
  assert (served t pattern (meant_for p) = true → meant_for p ≠ OnGateway → reads pattern meta p ∧
    ∃ s, subscribers t pattern = [s] ∧ handler_of s t pattern = Some (Some (meant_for p))) as Hsv.
  { intros ? ?. split; [by apply Hr|by apply served_spec]. }
  destruct e as [ch m q|ch m q|ch m q| | | | | | |]; try done; simpl in Hs; injection Hs as <- <- <- <-.
  - destruct q as [| | | | | | | |[[] cid]| | | | | |]; simpl in Ha; try (by apply Hsv).
    + destruct Ha as [id ->]. exists id. split; [done|]. intros g. apply orders_dropped.
    + destruct Ha as (id & -> & _). split; [by apply Hr|]. exists id, AtMessage. split; [done|]. by apply (instance_takes id AtMessage).
    + destruct Ha as (id & _ & q & Hq). done.
    + destruct Ha as [id ->]. split; [by apply Hr|]. exists id, AtOpenfile. split; [done|]. by apply (instance_takes id AtOpenfile).
    + destruct Ha as [id ->]. split; [by apply Hr|]. exists id, AtClosefile. split; [done|]. by apply (instance_takes id AtClosefile).
    + split; [by apply Hr|done].
    + split; [by apply Hr|done].
  - assert (meant_for q ≠ OnGateway) as Hg.
    { destruct q; try done. simpl in Ha. apply served_handled in Ha as (s & Hin).
      destruct s; repeat (apply elem_of_cons in Hin as [Heq|Hin]; [congruence|]); by apply elem_of_nil in Hin. }
    destruct q; apply Hsv; done.
  - assert (meant_for q ≠ OnGateway) as Hg.
    { destruct q; try done. simpl in Ha. apply served_handled in Ha as (s & Hin).
      destruct s; repeat (apply elem_of_cons in Hin as [Heq|Hin]; [congruence|]); by apply elem_of_nil in Hin. }
    destruct q; apply Hsv; done.
Qed.

Section system_wire.
Context {C Tw Tm Ta T Y A F Fi U : Type} `{!Cache C, !NtfnStore T, !Yjs Y A, !Agent F, !Cuckoo Fi} {Dt : DateEngine}.
Context `{!UserStore U, !UserStoreLaws U}.
Context `{!Repo Tw WorkspaceE Workspace, !Repo Tm MembershipE Membership, !Repo Ta AccessCodeE AccessCode}.
Context `{!Random, !RandomBytes, !JWT, !Secret, !Env, !Orm, !K8s, !FirebaseAuth, !AuthAdmin, !Typesense}.
Context `{!Auth, !Redlock, !Sha256, !RandomInt, !Provisioner, !GuardEnv, !PublicPeers, !AuthMail} {Net : Network} {Keys : SshKeys}.
Context `{!CacheLaws C}.
Abbreviation W := (world C (Sys (DB Tw Tm Ta) T (EnvState Y A F) F (PubState Fi U))).
Implicit Types w : W.

Definition addressed_out w : Prop := Forall addressed (w_out w).
Lemma addressed_sys_handle ev w :
  caused w ev → typed_out (H:=any_ids) w → addressed_out w → addressed_out (sys_handle ev w).2.
Proof.
  intros Hc Hw Ha. apply (open_sys_handle (K:=any_ids) (λ _ o, Forall addressed o)); [| |done].
  - intros gid key. by eapply caused_expiry.
  - by eapply caused_well_formed; [|apply asks_any|].
Qed.

(** C4: the services understand one another, but for one kind of message.
    Whatever the clients, containers, timers and deliveries do, every message
    the system has put on Redis, RabbitMQ or NATS is for one receiver: the
    one service that is connected to the broker and handles the pattern; the
    one environment instance the channel names (with names as [randomUUID]
    gives them no other instance takes it); the container or the asker the
    channel names; and the receiver reads from the text of the packet the
    payload, every field of it, and the caller that were sent.  The exception
    are the orders to close a replaced socket: they go to the channel of the
    gateway instance, whose listener looks for their content in the wrong
    place and drops every one of them. *)
Theorem system_messages w w' e t pattern meta p :
  w_out w = [] → rtc sys_step w w' → e ∈ w_out w' → sent e = Some (t, pattern, meta, p) →
  understood (C:=C) t pattern meta p.
Proof.
  intros Ho Hsteps Hin Hs. assert (typed_out (H:=any_ids) w ∧ addressed_out w) as [Hw Ha].
  { unfold typed_out, addressed_out. by rewrite Ho. }
  assert (typed_out (H:=any_ids) w' ∧ addressed_out w') as [Hw' Ha'].
  { clear Hin Ho. induction Hsteps as [w|w w1 w' [ev w0 Hc] _ IH]; [done|].
    by apply IH; [apply typed_sys_handle; [apply asks_any|..]|apply addressed_sys_handle]. }
  pose proof (typed_elem _ _ Hw' Hin) as Ht. unfold addressed_out in Ha'. rewrite Forall_forall in Ha'.
  eapply addressed_understood; [exact Ht|by apply Ha'|exact Hs].
Qed.
End system_wire.

(** The broadcast of the example: it is for the gateway, and its text reads back. *)
Lemma system_messages_witness :
  understood (C:=CC) T_REDIS "socket.broadcast" None (SocketBroadcast ["olga"] ["s1"] "fs" (FSSyncOut "ws-1" 5 "new")).
Proof.
  apply (system_messages demo_sys (edit_state 3)
    (Redis "socket.broadcast" None (SocketBroadcast ["olga"] ["s1"] "fs" (FSSyncOut "ws-1" 5 "new"))) T_REDIS);
    [reflexivity|apply edit_steps| |reflexivity].
  rewrite edit_delivered, edit_broadcast. apply elem_of_app. left. apply elem_of_app. right. by left.
Defined.

(** ** The routes of the proxy that are messages *)
Definition transport (p : Protocol) : option Transport :=
  match p with HTTP => None | REDIS => Some T_REDIS | NATS => Some T_NATS | RMQ => Some T_RMQ end.

Section routes.
Context `{!Minimatch, !Backends}.

Lemma find_translation_rule s path m t :
  find_translation s path m = Some t →
  ∃ r ms, r ∈ rules ∧ ms ∈ (snd <$> ru_paths r) ∧ t ∈ (snd <$> ms).
Proof.
  unfold find_translation. destruct (List.find _ rules) as [r|] eqn:Hr; [|done].
  apply List.find_some in Hr as [Hr _]. apply list_elem_of_In in Hr.
  assert (∀ k, oget k (ru_paths r) ≫= oget m = Some t → ∃ ms, ms ∈ (snd <$> ru_paths r) ∧ t ∈ (snd <$> ms)) as Hk.
  { intros k. destruct (oget k (ru_paths r)) as [ms|] eqn:Hms; [|done]. simpl. intros Ht. exists ms.
    split; apply list_elem_of_fmap; eexists (_, _); (split; [|by apply oget_elem]); done. }
  destruct (oget path (ru_paths r) ≫= oget m) as [t'|] eqn:Hp.
  - intros [= ->]. destruct (Hk _ Hp) as (ms & ? & ?). by exists r, ms.
  - intros Ht. destruct (Hk "*") as (ms & ? & ?); [|by exists r, ms]. destruct (oget "*" (ru_paths r)); done.
Qed.

(** C36: which routes work.  A route of the proxy that is sent as a message
    either goes to the environment service, the only one to receive it, or
    it goes to a Redis pattern that no service handles: then the request
    fails with a 500, as a message without a receiver is not answered in
    time. *)
Theorem message_routes serviceName path queries req user translation :
  (∀ p t pattern uid payload, transport p = Some t → subscribers t pattern = [] → rpc_reply p pattern uid payload = RpcTimeout) →
  find_translation serviceName (join "/" path) (rq_method req) = Some translation →
  match tr_target translation with
  | HTTP => True
  | REDIS => proxyRequest serviceName path queries req user = Throw (HttpException 500 "UNKNOWN")
  | NATS => ∃ pattern, tr_pattern translation = Some pattern ∧ subscribers T_NATS pattern = [Svc_env]
  | RMQ => False
  end.
Proof.
  intros Hto Ht.
  assert (tr_target translation = HTTP ∨ (translation ∈ (to_redis <$> ["fs:open"; "fs:close"; "fs:save"])) ∨
    (∃ a, translation = to_nats "env.msg" a)) as Hcase.
  { destruct (find_translation_rule _ _ _ _ Ht) as (r & ms & Hr & Hms & Hin). clear Ht.
    repeat (apply elem_of_cons in Hr as [->|Hr];
      [repeat (apply elem_of_cons in Hms as [->|Hms];
        [apply list_elem_of_singleton in Hin as ->; first [by left | by right; left; set_solver | by right; right; eexists]|]);
       by apply elem_of_nil in Hms|]). by apply elem_of_nil in Hr. }
  destruct Hcase as [->|[Hre|[a ->]]]; [done| |by eexists].
  assert (∃ pat, translation = to_redis pat ∧ subscribers T_REDIS pat = []) as (pat & -> & Hsub).
  { repeat (apply elem_of_cons in Hre as [->|Hre]; [by eexists|]). by apply elem_of_nil in Hre. }
  simpl. unfold proxyRequest. rewrite Ht. simpl. unfold sendMessage. simpl. by rewrite (Hto REDIS T_REDIS).
Qed.
End routes.

Section routes_example.
Instance mr_Minimatch : Minimatch :=
  {| minimatch s p := if decide (p = "workspace-*") then String.prefix "workspace-" s else bool_decide (s = p) |}.
Instance mr_Backends : Backends := {|
  http_reply _ := Some (200, Some (JObj [])); url_params _ := "";
  rpc_reply p pattern _ _ :=
    match transport p with Some t => match subscribers t pattern with [] => RpcTimeout | _ => RpcOk (JObj []) end | None => RpcTimeout end |}.

Lemma message_routes_witness :
  proxyRequest "workspace-7" ["file"; "save"] [] (MkReq "POST" "/api/workspace-7/file/save" "/api/workspace-7/file/save" [] None)
    (MkUser "u" None None None None None None) = Throw (HttpException 500 "UNKNOWN").
Proof.
  apply (message_routes "workspace-7" ["file"; "save"] [] (MkReq "POST" "/api/workspace-7/file/save" "/api/workspace-7/file/save" [] None)
    (MkUser "u" None None None None None None) (to_redis "fs:save")).
  - intros p t pattern uid payload Hp Hs. simpl. by rewrite Hp, Hs.
  - reflexivity.
Defined.
End routes_example.
