(* ===== verification/Race.v ===== *)
(** The gateway's membership cache without atomic handlers: a handler gives
    way to the others at each of its [await]s, so that the cache and the
    tables can change between what it reads and what it writes.  Run without
    interruption the handlers are those of [GwMembership]; interleaved, they
    admit nobody who never was a member, but the cache can keep a membership
    that was taken back. *)
From S2P Require Import Prelude JS Messages Keys Interfaces ClientTypes Frame Validation CodeGen Entities Tokens Fixtures Invite Manage ManageUpdate ManageDelete Access AccessProps WorkspaceService GwMembership Coherence Framed.

(** ** Threads *)

(** A list of users of an event, and what becomes of their entries. *)
Inductive phase := Removed (uids : list string) | Added (uids : list string).
Definition phase_uids (p : phase) : list string := match p with Removed l | Added l => l end.
Definition change (p : phase) (uuid : string) : CachedMembership → CachedMembership :=
  match p with Removed _ => odel uuid | Added _ => oset uuid (MBool true) end.

(** A handler between two [await]s, with its local variables. *)
Inductive thread :=
| Checking (uid uuid : string)
| Fetching (uid uuid : string) (cache : option CachedMembership)
| Caching (uid uuid : string) (cache : option CachedMembership) (isMember : MemberVal)
| Checked (uid uuid : string) (r : res MemberVal)
| Updating (uuid : string) (phases : list phase)
| Reading (uuid : string) (p : phase) (got : obj (option CachedMembership)) (todo : list string) (phases : list phase)
| Writing (uuid : string) (p : phase) (todo : list (string * option CachedMembership)) (phases : list phase).

(** The handler of an event. *)
Definition event_thread (e : effect) : option thread :=
  match e with
  | Redis channel _ (MembersModified uuid added removed) =>
      if bool_decide (channel = "workspace.members.modified") then Some (Updating uuid [Removed removed; Added added]) else None
  | Redis channel _ (WorkspaceDeleted uuid members) =>
      if bool_decide (channel = "workspace.deleted") then Some (Updating uuid [Removed members]) else None
  | _ => None
  end.

Section race.
Context {C Tw Tm Ta : Type} `{!Cache C, !CacheLaws C}.
Context `{!Repo Tw WorkspaceE Workspace, !Repo Tm MembershipE Membership, !Repo Ta AccessCodeE AccessCode}.
Context `{!RepoLaws Tw WorkspaceE Workspace, !RepoLaws Tm MembershipE Membership,
          !RepoLaws Ta AccessCodeE AccessCode}.
Context `{!Random, !RandomBytes, !JWT, !Secret, !Env, !Peers, !Orm, !K8s, !Users, !UsersLaws}.
Abbreviation W := (world C (DB Tw Tm Ta)).
Implicit Types w : W.
Local Open Scope mon_scope.

(** A handler runs to its next [await]. *)
Definition advance (t : thread) : M W thread :=
  match t with
  | Checking uid uuid =>
      cachedMemberships <- cache_membership uid ;;
      ret match cachedMemberships ≫= oget uuid with
          | Some v => Checked uid uuid (Ok v)
          | None => Fetching uid uuid cachedMemberships
          end
  | Fetching uid uuid cache => λ w,
      (Ok match (isUserMemberOf uid uuid w).1 with
          | Ok isMember => Caching uid uuid cache isMember
          | Throw e => Checked uid uuid (Throw e)
          end, w)
  | Caching uid uuid cache isMember =>
      cacheMembership uid uuid isMember cache ;;; ret (Checked uid uuid (Ok isMember))
  | Updating uuid (p :: phases) => ret (Reading uuid p [] (phase_uids p) phases)
  | Reading uuid p got (uid :: todo) phases =>
      cache <- cache_membership uid ;;
      ret (Reading uuid p (oset uid cache got) todo phases)
  | Reading uuid p got [] phases => ret (Writing uuid p got phases)
  | Writing uuid p ((uid, cache) :: todo) phases =>
      update_entry (change p uuid) uuid uid cache ;;; ret (Writing uuid p todo phases)
  | Writing uuid p [] phases => ret (Updating uuid phases)
  | Checked _ _ _ | Updating _ [] => ret t
  end.
Definition finished (t : thread) : bool :=
  match t with Checked _ _ _ | Updating _ [] => true | _ => false end.

(** *** One handler alone *)
Definition alone (x y : thread * W) : Prop := finished x.1 = false ∧ advance x.1 x.2 = (Ok y.1, y.2).

Lemma alone_step t w t' w' y : finished t = false → advance t w = (Ok t', w') → rtc alone (t', w') y → rtc alone (t, w) y.
Proof. intros Hf Ht Hy. by eapply rtc_l; [|exact Hy]. Qed.

Lemma alone_reads uuid p got todo phases w :
  rtc alone (Reading uuid p got todo phases, w)
    (Writing uuid p (foldl (λ o u, oset u (membership_in (w_cache w) u) o) got todo) phases, w).
Proof.
  revert got. induction todo as [|u l IH]; intros got; (eapply alone_step; [done|reflexivity|]); [done|apply IH].
Qed.
Lemma alone_writes uuid p l phases w w' :
  forM (λ '(uid, cache), update_entry (change p uuid) uuid uid cache) l w = (Ok tt, w') →
  rtc alone (Writing uuid p l phases, w) (Updating uuid phases, w').
Proof.
  revert w. induction l as [|[u c] l IH]; intros w Hl; simpl in Hl.
  { injection Hl as <-. by eapply alone_step. }
  unfold bind in Hl. destruct (update_entry _ _ _ _ w) as [[[]|] w1] eqn:Hu; [|done].
  eapply alone_step; [done| |by apply IH]. simpl. unfold bind. by rewrite Hu.
Qed.

(** The [Map] of the users read at once. *)
Lemma oset_set_add (g : string → option CachedMembership) u acc :
  oset u (g u) ((λ x, (x, g x)) <$> acc) = (λ x, (x, g x)) <$> set_add acc u.
Proof.
  induction acc as [|x acc IH]; [done|]. unfold set_add in *. cbn [fmap list_fmap oset] in *.
  destruct (decide (x = u)) as [->|Hne]; [by rewrite decide_True by (by left)|]. rewrite IH.
  destruct (decide (u ∈ acc)); [by rewrite decide_True by (by right)|].
  rewrite decide_False; [done|]. by intros [->|?]%elem_of_cons.
Qed.
Lemma map_of_set (g : string → option CachedMembership) uids acc :
  foldl (λ o u, oset u (g u) o) ((λ u, (u, g u)) <$> acc) uids = (λ u, (u, g u)) <$> foldl set_add acc uids.
Proof. revert acc. induction uids as [|u l IH]; intros acc; [done|]. simpl. by rewrite oset_set_add, IH. Qed.

Lemma alone_phase uuid p phases w :
  ∃ w', update_entries (change p uuid) (phase_uids p) uuid w = (Ok tt, w') ∧
    rtc alone (Updating uuid (p :: phases), w) (Updating uuid phases, w').
Proof.
  destruct (update_entries_run (change p uuid) (phase_uids p) uuid w) as (w' & Hr & _).
  exists w'. split; [done|]. unfold update_entries, bind in Hr.
  rewrite (mapM_reads _ (λ uid w, membership_in (w_cache w) uid)) in Hr by done.
  eapply alone_step; [done|reflexivity|]. etrans; [apply alone_reads|]. apply alone_writes.
  rewrite (map_of_set (membership_in (w_cache w)) _ []). fold (js_set (phase_uids p)).
  rewrite <- Hr. f_equal. generalize (js_set (phase_uids p)). clear Hr. intros l.
  induction l as [|u l IH]; [done|]. cbn [fmap list_fmap zip zip_with]. f_equal. exact IH.
Qed.

Lemma alone_check uid uuid w :
  rtc alone (Checking uid uuid, w)
    (Checked uid uuid (@checkMembership _ _ _ (rpc_of w) uid uuid w).1, (@checkMembership _ _ _ (rpc_of w) uid uuid w).2).
Proof.
  rewrite (@checkMembership_run _ _ _ (rpc_of w)).
  assert (advance (Checking uid uuid) w = (Ok match cached_answer (w_cache w) uid uuid with
    Some v => Checked uid uuid (Ok v) | None => Fetching uid uuid (membership_in (w_cache w) uid) end, w)) as Hck by done.
  eapply alone_step; [done|exact Hck|]. clear Hck. destruct (cached_answer (w_cache w) uid uuid) as [v|]; [done|].
  eapply alone_step; [done|reflexivity|]. simpl. destruct ((isUserMemberOf uid uuid w).1) as [v|e]; [|done].
  eapply alone_step; [done|reflexivity|]. done.
Qed.
Lemma alone_event e w :
  match event_thread e with
  | Some t => ∃ uuid, rtc alone (t, w) (Updating uuid [], (on_event e w).2)
  | None => on_event e w = (Ok tt, w)
  end.
Proof.
  destruct e as [ch m []| | | | | | | | |]; try done; cbn [event_thread on_event];
    case_bool_decide as Hch; try done; exists uuid.
  + destruct (alone_phase uuid (Removed removed) [Added added] w) as (w1 & Hp1 & Hs1).
    destruct (alone_phase uuid (Added added) [] w1) as (w2 & Hp2 & Hs2).
    etrans; [exact Hs1|]. unfold handleMembersModified, invalidateRemovedMembers, updateAddedMembers, bind.
    simpl in Hp1, Hp2. by rewrite Hp1, Hp2.
  + destruct (alone_phase uuid (Removed members) [] w) as (w1 & Hp1 & Hs1).
    unfold handleWorkspaceDeleted, invalidateRemovedMembers. simpl in Hp1. by rewrite Hp1.
Qed.

(** Between their [await]s the handlers are those of the service: run
    without interruption, a membership check ends with the decision and the
    cache of [checkMembership], and the handler of a membership event with
    the cache of [on_event]. *)
Lemma alone_atomic w :
  (∀ uid uuid, rtc alone (Checking uid uuid, w)
     (Checked uid uuid (@checkMembership _ _ _ (rpc_of w) uid uuid w).1, (@checkMembership _ _ _ (rpc_of w) uid uuid w).2)) ∧
  (∀ e, match event_thread e with
        | Some t => ∃ uuid, rtc alone (t, w) (Updating uuid [], (on_event e w).2)
        | None => on_event e w = (Ok tt, w)
        end).
Proof. split; [intros uid uuid; apply alone_check|intros e; apply alone_event]. Qed.

(** ** Interleaving *)
Definition Mach : Type := W * list thread.

(** The workspace service handles a request; a check begins; an event that
    was sent is delivered, in any order and however often; a handler goes on. *)
Inductive race_step : Mach → Mach → Prop :=
| race_request r w ts : race_step (w, ts) ((handle r w).2, ts)
| race_check uid uuid w ts : race_step (w, ts) (w, ts ++ [Checking uid uuid])
| race_deliver e t w ts : e ∈ w_out w → event_thread e = Some t → race_step (w, ts) (w, ts ++ [t])
| race_advance i t t' w w' ts :
    ts !! i = Some t → advance t w = (Ok t', w') → race_step (w, ts) (w', <[i := t']> ts).

(** What holds of the cache, and of the local variables of the handlers. *)
Definition answers (Q : string → string → Prop) (uid : string) (cache : option CachedMembership) : Prop :=
  ∀ x v, cache ≫= oget x = Some v → Q x uid.
Definition thread_ok (Q : string → string → Prop) (t : thread) : Prop :=
  match t with
  | Fetching uid _ cache => answers Q uid cache
  | Caching uid uuid cache _ => answers Q uid cache ∧ Q uuid uid
  | Checked uid uuid (Ok _) => Q uuid uid
  | Reading _ _ got _ _ => ∀ uid cache, (uid, cache) ∈ got → answers Q uid cache
  | Writing _ _ todo _ => ∀ uid cache, (uid, cache) ∈ todo → answers Q uid cache
  | _ => True
  end.
Definition cache_ok (Q : string → string → Prop) (c : C) : Prop := ∀ uid, answers Q uid (membership_in c uid).

Lemma answers_oset Q uid uuid v cache :
  answers Q uid cache → Q uuid uid → answers Q uid (Some (oset uuid v (default [] cache))).
Proof.
  intros Hc Hq x v'. simpl. destruct (decide (uuid = x)) as [->|Hne]; [by rewrite oget_oset_eq|].
  rewrite oget_oset_ne by done. destruct cache; simpl; [apply Hc|done].
Qed.
Lemma answers_change Q p uid uuid cache m v :
  cache = Some m → oget uuid m = Some v → answers Q uid cache → answers Q uid (Some (change p uuid m)).
Proof.
  intros -> Hv Hc x v'. destruct p; simpl; (destruct (decide (uuid = x)) as [->|Hne]).
  - by rewrite oget_odel_eq.
  - rewrite oget_odel_ne by done. apply Hc.
  - rewrite oget_oset_eq. intros _. by eapply Hc.
  - rewrite oget_oset_ne by done. apply Hc.
Qed.
Lemma cache_ok_set Q uid m t c : cache_ok Q c → answers Q uid (Some m) → cache_ok Q (kv_set (CACHEKEY_MEMBERSHIP uid) (CMembership m, t) c).
Proof.
  intros Hc Hm u. destruct (decide (u = uid)) as [->|Hne]; [by rewrite membership_in_set_eq|].
  rewrite membership_in_set_ne by key_neq. apply Hc.
Qed.
Lemma elem_of_oset {A} k (a : A) o k' a' : (k', a') ∈ oset k a o → (k', a') = (k, a) ∨ (k', a') ∈ o.
Proof.
  induction o as [|[k0 a0] o IH]; simpl; [rewrite list_elem_of_singleton; auto|].
  case_decide as Hd; rewrite !elem_of_cons; [subst; naive_solver|]. intros [?|?%IH]; naive_solver.
Qed.

(** What a handler does keeps what held of the members. *)
Lemma advance_ok (Q : string → string → Prop) t w t' w' :
  db_ok (w_loc w) → (∀ x u, is_member (w_loc w) x u → Q x u) →
  cache_ok Q (w_cache w) → thread_ok Q t → advance t w = (Ok t', w') →
  cache_ok Q (w_cache w') ∧ thread_ok Q t' ∧ w_loc w' = w_loc w.
Proof.
  intros Hok HQ Hc Ht. destruct t as [uid uuid|uid uuid cache|uid uuid cache v|uid uuid r|uuid [|p ps]|uuid p got [|u todo] ps|uuid p [|[u cache] todo] ps].
  - intros [= <- <-]. split_and!; [done| |done]. destruct (membership_in (w_cache w) uid ≫= oget uuid) eqn:Hg.
    + simpl. by eapply Hc.
    + apply Hc.
  - intros [= <- <-]. split_and!; [done| |done]. destruct ((isUserMemberOf uid uuid w).1) eqn:Hm; [|done].
    split; [done|]. apply HQ. by eapply isUserMemberOf_Ok.
  - intros [= <- <-]. destruct Ht as [Ha Hq]. split_and!; [|done|done]. apply cache_ok_set; [done|by apply answers_oset].
  - by intros [= <- <-].
  - by intros [= <- <-].
  - intros [= <- <-]. split_and!; [done| |done]. intros ? ? []%elem_of_nil.
  - by intros [= <- <-].
  - intros [= <- <-]. split_and!; [done| |done]. intros u' c' [[= -> ->]|?]%elem_of_oset; [apply Hc|by apply Ht].
  - by intros [= <- <-].
  - assert (answers Q u cache) as Ha by (apply Ht; by left).
    assert (thread_ok Q (Writing uuid p todo ps)) as Ht' by (intros u' c' Hin; apply Ht; by right).
    simpl. unfold bind, update_entry. destruct cache as [m|]; [|by intros [= <- <-]].
    destruct (oget uuid m) as [v|] eqn:Hg; [|by intros [= <- <-]]. intros [= <- <-]. split_and!; [|done|done].
    apply cache_ok_set; [done|by eapply answers_change].
Qed.

Lemma event_thread_ok Q e t : event_thread e = Some t → thread_ok Q t.
Proof. destruct e as [ch m []| | | | | | | | |]; try done; simpl; case_bool_decide; by intros [= <-]. Qed.
Lemma thread_ok_weaken (Q Q' : string → string → Prop) t : (∀ x u, Q x u → Q' x u) → thread_ok Q t → thread_ok Q' t.
Proof.
  intros Hq. assert (∀ u c, answers Q u c → answers Q' u c) as Ha by (intros u c Hc x v Hv; by eapply Hq, Hc).
  destruct t as [| | |uid uuid []| | |]; simpl; naive_solver.
Qed.

(** The workspace service leaves the cached memberships alone. *)
Lemma handle_memberships r w u : membership_in (w_cache (handle r w).2) u = membership_in (w_cache w) u.
Proof.
  pose proof (framed_handle (K:=any_ids) (quiet (w_cache w) (w_out w)) r w) as [Hq _]; [apply quiet_refl|]. apply Hq.
Qed.

(** Members of a workspace at some time between [x] and [y]. *)
Definition member_between (x y : Mach) (uuid uid : string) : Prop :=
  ∃ z, rtc race_step x z ∧ rtc race_step z y ∧ is_member (w_loc z.1) uuid uid.

Lemma race_invariant w0 y :
  db_ok (w_loc w0) → (∀ u, membership_in (w_cache w0) u = None) → rtc race_step (w0, []) y →
  db_ok (w_loc y.1) ∧ cache_ok (member_between (w0, []) y) (w_cache y.1) ∧ Forall (thread_ok (member_between (w0, []) y)) y.2.
Proof.
  intros Hok Hc Hsteps. refine (rtc_ind_r (λ y, db_ok (w_loc y.1) ∧ cache_ok (member_between (w0, []) y) (w_cache y.1) ∧
    Forall (thread_ok (member_between (w0, []) y)) y.2) (w0, []) _ _ y Hsteps).
  { split_and!; [done| |constructor]. intros u x v. simpl. by rewrite Hc. }
  clear y Hsteps. intros y z Hy Hst (IHok & IHc & IHt). set (Q := member_between (w0, []) y) in *.
  assert (∀ x u, Q x u → member_between (w0, []) z x u) as Hmono.
  { intros x u (m & ? & ? & ?). exists m. split_and!; [done|by eapply rtc_r|done]. }
  assert (∀ x u, is_member (w_loc y.1) x u → Q x u) as Hnow by (intros x u Hm; by exists y).
  assert (∀ c, cache_ok Q c → cache_ok (member_between (w0, []) z) c) as Hcm by (intros c Hq u x v Hv; by eapply Hmono, Hq).
  assert (∀ ts, Forall (thread_ok Q) ts → Forall (thread_ok (member_between (w0, []) z)) ts) as Htm.
  { intros ts Hts. eapply Forall_impl; [exact Hts|]. intros t. by apply thread_ok_weaken. }
  destruct Hst as [r w ts|uid uuid w ts|e t w ts Hin He|i t t' w w' ts Hi Ha]; simpl in *.
  - split_and!; [by apply ok_handle| |by apply Htm]. apply Hcm. intros u. rewrite handle_memberships. apply IHc.
  - split_and!; [done|by apply Hcm|]. apply Htm, Forall_app_2; [done|by apply Forall_singleton].
  - split_and!; [done|by apply Hcm|]. apply Htm, Forall_app_2; [done|]. apply Forall_singleton. by eapply event_thread_ok.
  - assert (thread_ok Q t) as Ht by (by eapply Forall_lookup_1).
    destruct (advance_ok Q t w t' w') as (Hc' & Ht' & Hl); try done.
    split_and!; [by rewrite Hl|by apply Hcm|]. apply Htm, Forall_insert; done.
Qed.

(** C5: however the handlers interleave, nobody gets in who never was a
    member.  From an empty cache, in every interleaving of requests to the
    workspace service, membership checks and membership events, whoever a
    check lets pass, and whoever has a cached membership, was a member of the
    workspace at some time. *)
Theorem race_members_only w0 w ts uid uuid v :
  db_ok (w_loc w0) → (∀ u, membership_in (w_cache w0) u = None) → rtc race_step (w0, []) (w, ts) →
  Checked uid uuid (Ok v) ∈ ts ∨ cached_answer (w_cache w) uid uuid = Some v →
  ∃ w1 ts1, rtc race_step (w0, []) (w1, ts1) ∧ rtc race_step (w1, ts1) (w, ts) ∧ is_member (w_loc w1) uuid uid.
Proof.
  intros Hok Hc Hsteps Hor. destruct (race_invariant w0 (w, ts) Hok Hc Hsteps) as (_ & Hco & Hts). simpl in *.
  assert (member_between (w0, []) (w, ts) uuid uid) as ([w1 ts1] & ? & ? & ?); [|by exists w1, ts1].
  destruct Hor as [Hin|Hca]; [|by eapply Hco]. rewrite Forall_forall in Hts. exact (Hts _ Hin).
Qed.

(** A handler that nobody interrupts is one thread of an interleaving. *)
Lemma alone_race i t w t' w' ts :
  ts !! i = Some t → rtc alone (t, w) (t', w') → rtc race_step (w, ts) (w', <[i := t']> ts).
Proof.
  intros Hi Hs. remember (t, w) as x eqn:Hx. remember (t', w') as y eqn:Hy. revert t w ts Hi Hx.
  induction Hs as [x|x [t1 w1] y [_ Ha] _ IH]; intros t w ts Hi Hx; subst.
  - injection Hx as -> ->. rewrite list_insert_id by done. apply rtc_refl.
  - eapply rtc_l; [by apply (race_advance i t t1 w w1)|].
    rewrite <- (list_insert_insert_eq ts i t' t1). apply (IH eq_refl t1 w1); [|done].
    apply list_lookup_insert_eq. by eapply lookup_lt_Some.
Qed.

(** C14: the race.  When a member's check is not answered from the cache and
    the workspace is deleted while the answer of the workspace service is on
    its way, there is a run of the handlers at whose end the user is no
    member, the deletion has been announced and its handler at the gateway is
    done, no handler is running, and the user's cached memberships still
    hold a positive entry for the workspace: the entry has no expiry, and the
    next check lets the user pass.  (The ids of the members have no colon;
    nothing of the code bounds how long the entry stays, and a second
    delivery of the announcement would remove it.) *)
Theorem race_stale user uid uuid w w' :
  db_ok (w_loc w) → (∀ m, m ∈ mss (w_loc w) → colon_free (ms_userId m)) →
  is_member (w_loc w) uuid uid → cached_answer (w_cache w) uid uuid = None →
  handle (DeleteWs user uuid) w = (Ok tt, w') →
  ∃ e w2 entries v, rtc race_step (w, []) (w2, [Checked uid uuid (Ok v); Updating uuid []]) ∧
    w_loc w2 = w_loc w' ∧ last (w_out w2) = Some e ∧ event_thread e ≠ None ∧
    ¬ is_member (w_loc w2) uuid uid ∧
    kv_get (CACHEKEY_MEMBERSHIP uid) (w_cache w2) = Some (CMembership entries, None) ∧
    oget uuid entries = Some v ∧ mtruthy v = true ∧
    @checkMembership _ _ _ (rpc_of w2) uid uuid w2 = (Ok v, w2).
Proof.
  intros Hok Hcf Hm Hno Hdel.
  assert (∃ v, (isUserMemberOf uid uuid w).1 = Ok v ∧ mtruthy v = true) as (v & Hv & Htv).
  { destruct (isUserMemberOf_correct w uid uuid Hok) as ([v|e] & Hr & Hi); rewrite Hr; [|by destruct Hi].
    destruct Hi as (_ & r & _ & _ & ->). by eexists. }
  pose proof Hdel as Hdel'. simpl in Hdel'.
  apply deleteWorkspace_ok in Hdel' as (ws & members & es & Hws & Huu & Hdf & _ & _ & _ & _ & Hout); [|done..].
  set (e := Redis "workspace.deleted" None (WorkspaceDeleted uuid members)).
  destruct (handleWorkspaceDeleted_run uuid members w') as (w1 & Hr1 & Hl1 & Ho1 & _).
  set (cache := membership_in (w_cache w) uid).
  exists e, (set_cache (kv_set (CACHEKEY_MEMBERSHIP uid) (CMembership (oset uuid v (default [] cache)), None)) w1),
    (oset uuid v (default [] cache)), v.
  split_and!.
  - eapply rtc_l; [apply (race_check uid uuid)|].
    eapply rtc_l; [apply (race_advance 0 (Checking uid uuid) (Fetching uid uuid cache) w w); [done|]|].
    { change (advance (Checking uid uuid) w) with (Ok match cached_answer (w_cache w) uid uuid with
        Some v => Checked uid uuid (Ok v) | None => Fetching uid uuid cache end, w). by rewrite Hno. }
    eapply rtc_l; [apply (race_advance 0 (Fetching uid uuid cache) (Caching uid uuid cache v) w w); [done|]|].
    { simpl. by rewrite Hv. }
    eapply rtc_l; [apply (race_request (DeleteWs user uuid))|]. rewrite Hdel. simpl.
    eapply rtc_l; [apply (race_deliver e (Updating uuid [Removed members])); [|done]|].
    { rewrite Hout, !elem_of_app. right. right. right. by left. }
    etrans; [apply (alone_race 1 (Updating uuid [Removed members]) _ (Updating uuid []) w1); [done|]|].
    { destruct (alone_phase uuid (Removed members) [] w') as (w1' & Hp & Hs). simpl in Hp.
      unfold handleWorkspaceDeleted, invalidateRemovedMembers in Hr1. rewrite Hr1 in Hp. injection Hp as <-. exact Hs. }
    apply rtc_once. by apply (race_advance 0 (Caching uid uuid cache v) (Checked uid uuid (Ok v))).
  - done.
  - simpl. rewrite Ho1, Hout, app_assoc, last_app. done.
  - done.
  - simpl. rewrite Hl1, <- Huu. by eapply deleted_not_member.
  - simpl. apply kv_get_set_eq.
  - apply oget_oset_eq.
  - done.
  - rewrite (@checkMembership_run _ _ _ (rpc_of _)). unfold cached_answer. simpl. rewrite membership_in_set_eq. simpl.
    by rewrite oget_oset_eq.
Qed.
End race.

(** ** Examples *)
#[local] Instance race_UsersLaws : UsersLaws.
Proof. split. by intros uid p l [= <-]. Qed.

(** The member's check meets the deletion of the workspace. *)
Lemma race_stale_witness :
  ∃ (w2 : world CC CDB) v, ¬ is_member (w_loc w2) "ws-1" "mark" ∧ mtruthy v = true ∧
    @checkMembership _ _ _ (rpc_of w2) "mark" "ws-1" w2 = (Ok v, w2).
Proof.
  destruct (handle (DeleteWs (demo_profile "olga") "ws-1") demo_world) as [r w'] eqn:Hrun.
  assert (r = Ok tt) as -> by (change r with ((r, w').1); rewrite <- Hrun; vm_compute; reflexivity).
  destruct (race_stale (demo_profile "olga") "mark" "ws-1" demo_world w') as (_ & w2 & _ & v & _ & _ & _ & _ & Hno & _ & _ & Hv & Hck).
  - exact demo_world_ok.
  - unfold mss. rewrite list_r_rows. simpl. intros m Hm.
    repeat (apply elem_of_cons in Hm as [->|Hm]); [done|done|by apply elem_of_nil in Hm].
  - exact demo_mark_member.
  - reflexivity.
  - exact Hrun.
  - exists w2, v. split; [exact Hno|]. split; [exact Hv|exact Hck].
Defined.

(** A check that nobody disturbs. *)
Definition race_first : world CC CDB := (@checkMembership _ _ _ (rpc_of demo_world) "mark" "ws-1" demo_world).2.
Lemma race_first_decision : (@checkMembership _ _ _ (rpc_of demo_world) "mark" "ws-1" demo_world).1 = Ok (MInfo "hide-env-go" false).
Proof. vm_compute. reflexivity. Qed.
Lemma race_members_only_witness :
  ∃ (w1 : world CC CDB) ts1, rtc race_step (demo_world, []) (w1, ts1) ∧ is_member (w_loc w1) "ws-1" "mark".
Proof.
  destruct (race_members_only demo_world race_first [Checked "mark" "ws-1" (Ok (MInfo "hide-env-go" false))]
    "mark" "ws-1" (MInfo "hide-env-go" false)) as (w1 & ts1 & Hr & _ & Hm).
  - exact demo_world_ok.
  - intros u. reflexivity.
  - apply (rtc_l _ _ (demo_world, [Checking "mark" "ws-1"])); [apply (race_check "mark" "ws-1" demo_world [])|].
    apply (alone_race 0 (Checking "mark" "ws-1") demo_world _ _ [Checking "mark" "ws-1"]); [reflexivity|].
    rewrite <- race_first_decision. apply alone_check.
  - left. by left.
  - exists w1, ts1. split; [exact Hr|exact Hm].
Defined.
